(* ===== verification/_CoqProject ===== *)
-Q . S2P
Prelude.v
F64.v
External.v
RateLimit.v
FileSys.v
Disk.v
Locks.v
Lib.v
Config.v
Log.v
Users.v
World.v
Exec.v
Crypto.v
Header.v
Sample.v
Stores.v
Net.v
Handshake.v
Echo.v
Auth.v
Transfer.v
Interleave.v
Solo.v
Client.v
Server.v
EndToEnd.v
Account.v
Relay.v
Footprint.v
Guards.v
Panics.v
Burst.v
Accept.v
Liveness.v
Layer.v
Dummy.v
Tests.v
Keys.v
Serve.v
Env.v
Perf.v
Cli.v
