(* ===== verification/Prelude.v ===== *)
(** * rdrive: a verified model of the encrypted file store

    rdrive is a TCP file store. A server (src/src/protocol_v1.rs,
    [start_tcp_server]) accepts connections up to a limit and runs each in its
    own task: a handshake (X25519 exchange, Ed25519 signatures both ways) gives
    a session key; one command follows, sealed with AES-256-GCM; the rate
    limiter decides whether the address may run it; a handler answers it. A
    client (the [*_client] functions of the same file) runs the other side of
    each exchange. This development models the server and the client and proves
    what they do, separately and against each other.

    ** Files, in dependency order

    - Prelude.v (this file): results, panics, bytes, slices and their lemmas,
      big-endian integers, strings; the notations and the hint databases.
    - F64.v: [f64] and [f32] arithmetic, and the facts about rounding that the
      rate limiter needs.
    - External.v: the third-party code as interfaces with their documented
      laws. Sample.v gives concrete functions for all of them.
    - RateLimit.v: src/src/ratelimit.rs, whole.
    - FileSys.v: the file system operations the program uses, by name. Disk.v:
      regular files as inodes with open handles, and how the two agree.
    - Locks.v: src/src/lib.rs [hold_file_lock], [release_file_lock] and the
      lock steps of the two handlers, as a transition system of tasks.
    - Lib.v: the rest of src/src/lib.rs: directories, settings, metadata,
      catalog, server map, statistics. Config.v: its settings of the rate
      limiter, with [str::parse::<f64>]. Users.v: the paths the handlers derive
      from keys. Log.v: src/src/log.rs.
    - World.v: the state a connection runs in ([Conn]: what is left to read,
      what was written, the memory pool, the random numbers, the timer;
      [Host]: files, locks, limiter, statistics, clock) and the monad [M] of
      the code: an outcome (value, error, panic, or no answer) with the new
      state. Exec.v: rules to run such a computation against what the code can
      see of the state.
    - Crypto.v: src/src/crypto.rs. Header.v: src/src/header.rs. Stores.v: the
      client's catalog and server map on disk.
    - Net.v: frames and answers. Handshake.v: [server_handshake] and
      [client_handshake_helper]. Echo.v: [handle_echo_perf]. Auth.v:
      [handle_auth_keys] and [auth_client]. Transfer.v: [handle_upload] and
      [handle_download]. Interleave.v: their file operations one by one, under
      every interleaving of transfers; Solo.v: that these are the handlers'
      operations, and runs of them. Client.v: [upload_client], [download_client],
      [get_server_status]. Server.v: [handle_connection] and the spawned task.
      EndToEnd.v: whole connections, server and client against each other.
      Account.v: registration, rotation and status as whole connections, and a
      user's files over several of them. Relay.v: a relay between a user and a
      server. Footprint.v: what a connection can
      change on the server's disk; Guards.v: what it leaves of the locks and the
      limiter, over any sequence of connections; Panics.v: the packets that make
      a task panic; Burst.v: what one address gets from the limiter at once.
      Accept.v: the loop of [start_tcp_server].
      Liveness.v: its infinite runs. All of src/src/protocol_v1.rs.
    - Layer.v: src/src/layer.rs. Dummy.v: src/src/bin/dummy.rs. Tests.v: the
      tests inside src/src/crypto.rs and src/src/layer.rs.
    - Keys.v: the key files of server and client. Serve.v: the start of a server
      (src/src/bin/server.rs, src/src/service.rs, the key statics of lib.rs).
      Env.v: [update_env] of src/src/bin/server.rs. Perf.v: [client_echo_perf].
      Cli.v: the commands of src/src/bin/client.rs.

    ** How the state corresponds

    A stream is the bytes the peer will have sent and how the stream ends after
    them ([read_end]: end of file, error, or silence); a write appends to what
    was written. A wait that would last for ever is the outcome [Hang];
    [timeout] turns it into the elapsed branch, and nested timers fire in the
    order of their deadlines. Every handler threads the whole state, so an
    error leaves the effects that came before it. Locks are objects in a store
    that outlive their table entry, as an [Arc] does. Integers are [Z] with the
    width of the Rust type written out where it can be exceeded; floats are the
    kernel's binary64.

    ** What the theorems show

    - Agreement: handshake, registration, upload and download run client
      against server, both end, and the data is what was sent
      ([handshake_agreement], [registration_agreement], [upload_agreement],
      [download_agreement]); a file pushed in one connection comes back in a
      later one ([pushed_file_comes_back]), also after a rotation of the user's
      key ([pushed_file_survives_rotation]).
    - What the protocol does not give: the handshake's answer passes in clear
      and the nonce of an authentication packet is not compared with anything,
      so one observed handshake is enough to take a user's account
      ([observed_handshake_takes_over]); the client signs the bare challenge, so
      a server it trusts can log in elsewhere as the client
      ([relayed_challenge_impersonates]).
    - Authenticity and integrity against an arbitrary peer
      ([server_identifies_signer], [client_verifies_server],
      [read_encrypt_authentic], [upload_integrity], [download_integrity]).
    - Each handler on its branches: success, busy, refused, missing, wrong hash.
    - Isolation: the transfers of a client change nothing outside its own
      directory, and every connection keeps the tree well-formed.
    - Start and commands: a first start leaves matching keys and the directories
      the handlers need; the client's key files move with the server's answer
      to a rotation ([rotation_follows_answer]); a push keeps the catalog in step
      with what was uploaded ([push_records]).
    - The performance test: its averages are those of the last figures, its
      percentiles are ranks, it needs one success ([perf_without_success_panics])
      and it replaces the stored server key ([trusted_server_is_repinned]).
    - Layers: the three readers agree, layers go back to their file, and the
      changed layers are enough to rebuild a new version.
    - Transfers at once: when a lock's entry is removed by its last holder and
      uploads end well, every download sends a file its metadata describes
      ([download_whole], [download_snapshot]); as the code removes it, a
      download can send bytes of two versions with no failure anywhere
      ([released_lock_mixes_versions]). The steps leave what the handlers leave
      ([upload_takes_its_steps], [download_takes_its_steps]).
    - Invariants of the shared state: the limiter, the locks under every
      interleaving, the catalog, the connection counter; the accept loop refines
      an abstract admission policy. After any sequence of connections, whatever
      was sent and however each ended, the tree and the limiter are well-formed
      and no file is locked ([connection_drops_guards], [server_invariant]).
    - The only packets that make a task panic, in the handshake or after it, are
      of four kinds ([only_crashes]); for each a theorem has packets that do
      ([short_handshake_packet_panics], [short_auth_packet_panics],
      [short_hash_upload_panics], [unaligned_download_panics]).
    - With the shipped settings the limiter's floating-point buckets are exact
      at one instant, so a burst of requests never costs more than the bucket
      holds ([burst_bounded]).
    - Termination: the loops end within the fuel given, and a connection task
      ends under its lifetime timer.
    - Liveness: when tasks end and a slot is left, connections are admitted for
      ever ([connections_admitted_forever]), and when they stop coming the
      counter drains ([counter_drains]).
    - Equivalence: the in-place and the allocating cipher routines
      ([encryptions_agree], [decryptions_agree]).
    - The file generator makes the same file under every interleaving of its
      threads ([dummy_file_whatever_schedule]); the unit tests pass whatever
      the generator yields ([crypto_tests_pass], [layer_tests_pass]).
    - Faults the code has, each proved on the model: see the theorems named
      [..._panics], [..._exhaust_server], [release_breaks_exclusion],
      [failed_rotation_moves_authorisation], [changed_key_is_not_remembered],
      [wrong_hash_removes_file], [frame_prefix_wraps].

    ** Fuel

    [receive_chunks] gets one unit per chunk of the announced size and one more
    ([chunk_fuel]); [echo_loop] and [echo_sample_loop] one per byte left to read
    and one more; the reads of a file one per byte. Each bound is proved to be enough: more fuel
    never changes the result.

    ** Interfaces

    postcard, serde_json, hex, sha2, aes-gcm, ed25519-dalek, x25519-dalek and
    chrono are classes of functions; a theorem that needs their behaviour takes
    the matching [...Laws] class. The random number generator is a tape, the
    clock a list of increments, the file a read returns in pieces of a size the
    system chooses ([short]).

    ** Not modelled

    src/src/protocol_v2.rs is commented out in full. The calls of the log
    macros (except the slices in their arguments, which can panic), progress
    bars and the binaries' printing are left out, and so is the
    unused [ctrl_c] of src/src/service.rs. Symbolic links, permissions and a
    full disk are outside the file system model; a write to a file is done when
    [write_all] returns, where tokio may still have it under way; the allocation
    of memory never fails. TCP connection set-up ([bind], [connect], [set_nodelay],
    [peer_addr]) is where the model starts. *)
From stdpp Require Export base tactics list strings gmap pretty.
From Stdlib Require Export ZArith Lia.
From Stdlib Require Import Init.Byte Strings.Byte.

(** * Notations of the development *)

Declare Scope rd_scope.
Delimit Scope rd_scope with rd.
Open Scope rd_scope.
Open Scope Z_scope.

(** The databases of the development: [rd_len] rewrites lengths of byte
    lists, [rd_slice] rewrites slices of concatenations. *)
Create Rewrite HintDb rd_len.
Create Rewrite HintDb rd_slice.

(** * Rust values: results, panics, and computations that never answer *)

(** [anyhow::Result]: the error is the string [Display] prints, because the
    code inspects errors only through [to_string] ([handle_connection],
    [handle_echo_perf]). *)
Inductive result (A : Type) : Type :=
| Ok (a : A)
| Err (e : string).
Arguments Ok {A} a.
Arguments Err {A} e.

(** What a piece of code does: it returns, it returns [Err] through [?], it
    panics (a slice index out of range, [split_at] out of range), or it waits
    for a peer that never answers. *)
Inductive outcome (A : Type) : Type :=
| Done (a : A)
| Throw (e : string)
| Panic
| Hang.
Arguments Done {A} a.
Arguments Throw {A} e.
Arguments Panic {A}.
Arguments Hang {A}.

Definition obind {A B} (o : outcome A) (k : A -> outcome B) : outcome B :=
  match o with
  | Done a => k a
  | Throw e => Throw e
  | Panic => Panic
  | Hang => Hang
  end.

Notation "'let!' x := o 'in' k" := (obind o (fun x => k))
  (at level 10, x pattern, o at level 100, k at level 200, only parsing) : rd_scope.

Definition of_result {A} (r : result A) : outcome A :=
  match r with Ok a => Done a | Err e => Throw e end.

(** [anyhow::ensure!]-like guard: [if bad { bail!(e) }]. *)
Definition bail_if (b : bool) (e : string) : outcome unit :=
  if b then Throw e else Done tt.

(** [r.map_err(|e| anyhow!("<pre>{}", e))]. *)
Definition map_err {A} (pre : string) (r : result A) : result A :=
  match r with Ok a => Ok a | Err e => Err (pre +:+ e) end.

Lemma obind_done {A B} (o : outcome A) (k : A -> outcome B) b :
  obind o k = Done b <-> exists a, o = Done a /\ k a = Done b.
Proof. destruct o; simpl; (split; [intros|intros (? & ? & ?)]); simplify_eq; eauto. Qed.

Lemma of_result_done {A} (r : result A) a : of_result r = Done a <-> r = Ok a.
Proof. destruct r; simpl; split; intros; by simplify_eq. Qed.

Lemma of_result_not_panic {A} (r : result A) : of_result r <> Panic.
Proof. by destruct r. Qed.

(** * Bytes *)

Abbreviation byte := Byte.byte.
Abbreviation bytes := (list Byte.byte).

#[export] Instance byte_eq_dec : EqDecision Byte.byte.
Proof. intros x y. destruct (Byte.byte_eq_dec x y); [left|right]; done. Defined.

Definition byte_to_Z (b : byte) : Z := Z.of_N (Byte.to_N b).
Definition byte_of_Z (z : Z) : byte :=
  match Byte.of_N (Z.to_N (z mod 256)) with Some b => b | None => Byte.x00 end.

Lemma byte_to_Z_range b : 0 <= byte_to_Z b < 256.
Proof. unfold byte_to_Z. pose proof (Byte.to_N_bounded b). lia. Qed.

Lemma byte_to_of_Z z : byte_to_Z (byte_of_Z z) = z mod 256.
Proof.
  unfold byte_of_Z, byte_to_Z.
  pose proof (Z.mod_pos_bound z 256 ltac:(lia)).
  destruct (Byte.of_N (Z.to_N (z mod 256))) eqn:E.
  - apply Byte.to_of_N in E. rewrite E. lia.
  - apply Byte.of_N_None_iff in E. lia.
Qed.

Lemma byte_of_to_Z b : byte_of_Z (byte_to_Z b) = b.
Proof.
  unfold byte_of_Z, byte_to_Z.
  pose proof (Byte.to_N_bounded b).
  rewrite Z.mod_small by lia. rewrite N2Z.id. by rewrite Byte.of_to_N.
Qed.

Lemma byte_of_Z_eq z b : z mod 256 = byte_to_Z b -> byte_of_Z z = b.
Proof.
  intros Hz. rewrite <- (byte_of_to_Z b). unfold byte_of_Z. rewrite Hz.
  by rewrite (Z.mod_small (byte_to_Z b)) by apply byte_to_Z_range.
Qed.

#[export] Instance byte_countable : Countable Byte.byte.
Proof.
  refine (inj_countable' Byte.to_N (fun n => match Byte.of_N n with Some b => b | None => Byte.x00 end) _).
  intros b. by rewrite Byte.of_to_N.
Defined.

(** * Lengths and slices with [usize] indices *)

Definition zlen {A} (l : list A) : Z := Z.of_nat (length l).
Definition ztake {A} (n : Z) (l : list A) : list A := take (Z.to_nat n) l.
Definition zdrop {A} (n : Z) (l : list A) : list A := drop (Z.to_nat n) l.
Definition zeros (n : Z) : bytes := replicate (Z.to_nat n) Byte.x00.

(** [&l[a..b]]: panics when [a > b] or [b > l.len()]. *)
Definition slice {A} (l : list A) (a b : Z) : outcome (list A) :=
  if (0 <=? a) && (a <=? b) && (b <=? zlen l)
  then Done (ztake (b - a) (zdrop a l)) else Panic.

(** [l.split_at(n)]: panics when [n > l.len()]. *)
Definition split_at {A} (l : list A) (n : Z) : outcome (list A * list A) :=
  if (0 <=? n) && (n <=? zlen l) then Done (ztake n l, zdrop n l) else Panic.

(** [l[off .. off + bs.len()].copy_from_slice(bs)]. *)
Definition write_at (l : bytes) (off : Z) (bs : bytes) : outcome bytes :=
  if (0 <=? off) && (off + zlen bs <=? zlen l)
  then Done (ztake off l ++ bs ++ zdrop (off + zlen bs) l) else Panic.

(** [dst.copy_from_slice(src)]: panics unless the lengths are equal. *)
Definition copy_from_slice (dst src : bytes) : outcome bytes :=
  if zlen dst =? zlen src then Done src else Panic.

(** [buf.resize(n, 0)]. *)
Definition resize (l : bytes) (n : Z) : bytes :=
  if n <=? zlen l then ztake n l else l ++ zeros (n - zlen l).

(** [<[u8; n]>::try_from(slice)]. *)
Definition array_try_from (n : Z) (l : bytes) : result bytes :=
  if zlen l =? n then Ok l else Err "could not convert slice to array".

Section Slices.
Context {A : Type}.
Implicit Types l a b c : list A.

Lemma zlen_nonneg l : 0 <= zlen l.
Proof. unfold zlen. lia. Qed.

Lemma zlen_app a b : zlen (a ++ b) = zlen a + zlen b.
Proof. unfold zlen. rewrite length_app. lia. Qed.

Lemma zlen_cons (x : A) l : zlen (x :: l) = 1 + zlen l.
Proof. unfold zlen. simpl. lia. Qed.

Lemma zlen_nil : zlen (@nil A) = 0.
Proof. done. Qed.

Lemma zlen_replicate n (x : A) : 0 <= n -> zlen (replicate (Z.to_nat n) x) = n.
Proof. unfold zlen. rewrite length_replicate. lia. Qed.

Lemma zlen_ztake n l : 0 <= n <= zlen l -> zlen (ztake n l) = n.
Proof. unfold zlen, ztake. rewrite length_take. lia. Qed.

Lemma zlen_ztake_le n l : 0 <= n -> zlen (ztake n l) = Z.min n (zlen l).
Proof. unfold zlen, ztake. rewrite length_take. lia. Qed.

Lemma zlen_zdrop n l : 0 <= n <= zlen l -> zlen (zdrop n l) = zlen l - n.
Proof. unfold zlen, zdrop. rewrite length_drop. lia. Qed.

Lemma zlen_zdrop_le n l : 0 <= n -> zlen (zdrop n l) = Z.max 0 (zlen l - n).
Proof. unfold zlen, zdrop. rewrite length_drop. lia. Qed.

Lemma ztake_zdrop n l : ztake n l ++ zdrop n l = l.
Proof. apply take_drop. Qed.

Lemma ztake_app n a b : n = zlen a -> ztake n (a ++ b) = a.
Proof. intros ->. unfold ztake, zlen. rewrite Nat2Z.id. apply take_app_length. Qed.

Lemma zdrop_app n a b : n = zlen a -> zdrop n (a ++ b) = b.
Proof. intros ->. unfold zdrop, zlen. rewrite Nat2Z.id. apply drop_app_length. Qed.

Lemma ztake_ge n l : zlen l <= n -> ztake n l = l.
Proof. unfold ztake, zlen. intros. apply take_ge. lia. Qed.

Lemma zdrop_ge n l : zlen l <= n -> zdrop n l = [].
Proof. unfold zdrop, zlen. intros. apply drop_ge. lia. Qed.

Lemma ztake_app_le n a b : n <= zlen a -> ztake n (a ++ b) = ztake n a.
Proof. unfold ztake, zlen. intros. apply take_app_le. lia. Qed.

Lemma zdrop_app_ge n a b : zlen a <= n -> zdrop n (a ++ b) = zdrop (n - zlen a) b.
Proof.
  unfold zdrop, zlen. intros. rewrite drop_app_ge by lia. f_equal. lia.
Qed.

Lemma zdrop_zdrop n m l : 0 <= n -> 0 <= m -> zdrop n (zdrop m l) = zdrop (m + n) l.
Proof. intros. unfold zdrop. rewrite drop_drop. f_equal. lia. Qed.

Lemma zdrop_0 l : zdrop 0 l = l.
Proof. done. Qed.

Lemma ztake_0 l : ztake 0 l = [].
Proof. done. Qed.

Lemma zlen_0_inv l : zlen l = 0 -> l = [].
Proof. destruct l; [done|]. unfold zlen. simpl. lia. Qed.

Lemma app_split n l : 0 <= n <= zlen l -> exists a b, l = a ++ b /\ zlen a = n.
Proof.
  intros. exists (ztake n l), (zdrop n l). rewrite ztake_zdrop. split; [done|].
  by apply zlen_ztake.
Qed.

Lemma slice_app a b c : slice (a ++ b ++ c) (zlen a) (zlen a + zlen b) = Done b.
Proof.
  unfold slice. rewrite !zlen_app.
  pose proof (zlen_nonneg a). pose proof (zlen_nonneg b). pose proof (zlen_nonneg c).
  rewrite !(proj2 (Z.leb_le _ _)) by lia. simpl.
  rewrite zdrop_app by done. by rewrite ztake_app by lia.
Qed.

Lemma slice_at a b c i j : i = zlen a -> j = zlen a + zlen b -> slice (a ++ b ++ c) i j = Done b.
Proof. intros -> ->. apply slice_app. Qed.

Lemma slice_done l i j s : slice l i j = Done s ->
  0 <= i <= j /\ j <= zlen l /\ zlen s = j - i.
Proof.
  unfold slice. case_match eqn:E; [|done]. intros [= <-].
  apply andb_prop in E as [[? ?]%andb_prop ?].
  rewrite zlen_ztake; [lia|]. rewrite zlen_zdrop; lia.
Qed.

Lemma slice_ok l i j : 0 <= i <= j -> j <= zlen l -> slice l i j = Done (ztake (j - i) (zdrop i l)).
Proof. intros. unfold slice. by rewrite !(proj2 (Z.leb_le _ _)) by lia. Qed.

Lemma slice_panic l i j : zlen l < j -> slice l i j = Panic.
Proof.
  intros. unfold slice. rewrite (proj2 (Z.leb_gt j _)) by lia.
  by rewrite andb_false_r.
Qed.

Lemma split_at_ok l n : 0 <= n <= zlen l -> split_at l n = Done (ztake n l, zdrop n l).
Proof. intros. unfold split_at. by rewrite !(proj2 (Z.leb_le _ _)) by lia. Qed.

Lemma split_at_app n a b : n = zlen a -> split_at (a ++ b) n = Done (a, b).
Proof.
  intros ->. pose proof (zlen_nonneg a). pose proof (zlen_nonneg b).
  rewrite split_at_ok by (rewrite zlen_app; lia).
  by rewrite ztake_app, zdrop_app by done.
Qed.

Lemma split_at_panic l n : zlen l < n -> split_at l n = Panic.
Proof.
  intros. unfold split_at. rewrite (proj2 (Z.leb_gt n _)) by lia.
  by rewrite andb_false_r.
Qed.
End Slices.

Lemma zlen_zeros n : 0 <= n -> zlen (zeros n) = n.
Proof. apply zlen_replicate. Qed.

Lemma zlen_resize l n : 0 <= n -> zlen (resize l n) = n.
Proof.
  intros. unfold resize. case_match eqn:E.
  - apply zlen_ztake. lia.
  - rewrite zlen_app, zlen_zeros by lia. lia.
Qed.

Lemma copy_from_slice_ok dst src : zlen dst = zlen src -> copy_from_slice dst src = Done src.
Proof. intros H. unfold copy_from_slice. by rewrite (proj2 (Z.eqb_eq _ _) H). Qed.

Lemma copy_from_slice_panic dst src : zlen dst <> zlen src -> copy_from_slice dst src = Panic.
Proof. intros H. unfold copy_from_slice. by rewrite (proj2 (Z.eqb_neq _ _) H). Qed.

Lemma write_at_ok l off bs : 0 <= off -> off + zlen bs <= zlen l ->
  write_at l off bs = Done (ztake off l ++ bs ++ zdrop (off + zlen bs) l).
Proof. intros. unfold write_at. by rewrite !(proj2 (Z.leb_le _ _)) by lia. Qed.

Lemma write_at_app a b c d off : off = zlen a -> zlen b = zlen d ->
  write_at (a ++ b ++ c) off d = Done (a ++ d ++ c).
Proof.
  intros -> Hbd. pose proof (zlen_nonneg a). pose proof (zlen_nonneg c).
  pose proof (zlen_nonneg d).
  rewrite write_at_ok by (rewrite ?zlen_app; lia).
  rewrite ztake_app by done. do 3 f_equal. rewrite <- Hbd.
  rewrite zdrop_app_ge by lia. rewrite zdrop_app by lia. done.
Qed.

Lemma write_at_front b c d : zlen b = zlen d -> write_at (b ++ c) 0 d = Done (d ++ c).
Proof. intros. by apply (write_at_app []). Qed.

Lemma write_at_back a b d off : off = zlen a -> zlen b = zlen d ->
  write_at (a ++ b) off d = Done (a ++ d).
Proof.
  intros Ho Hl. pose proof (write_at_app a b [] d off Ho Hl) as H. by rewrite !app_nil_r in H.
Qed.

Lemma write_at_length l off bs l' : write_at l off bs = Done l' -> zlen l' = zlen l.
Proof.
  unfold write_at. case_match eqn:E; [|done]. intros [= <-].
  apply andb_prop in E as [? ?].
  pose proof (zlen_nonneg bs).
  rewrite !zlen_app, zlen_ztake, zlen_zdrop by lia. lia.
Qed.

#[export] Hint Rewrite @zlen_app @zlen_cons @zlen_nil : rd_len.
#[export] Hint Rewrite @zdrop_0 @ztake_0 app_nil_r : rd_slice.
#[export] Hint Resolve zlen_nonneg : core.

(** Decides side conditions on lengths. *)
Ltac zlen_pose :=
  repeat match goal with
  | |- context [zlen ?l] =>
    lazymatch goal with
    | _ : 0 <= zlen l |- _ => fail
    | _ => pose proof (zlen_nonneg l)
    end
  | H : context [zlen ?l] |- _ =>
    lazymatch goal with
    | _ : 0 <= zlen l |- _ => fail
    | _ => pose proof (zlen_nonneg l)
    end
  end.
Ltac solve_len :=
  intros; autorewrite with rd_len in *; zlen_pose; lia.

(** Turns boolean comparisons of [Z] in the context into propositions. *)
Ltac zbool :=
  repeat match goal with
  | H : _ && _ = true |- _ => apply andb_prop in H as [? ?]
  | H : (_ <=? _) = true |- _ => apply Z.leb_le in H
  | H : (_ <=? _) = false |- _ => apply Z.leb_gt in H
  | H : (_ <? _) = true |- _ => apply Z.ltb_lt in H
  | H : (_ <? _) = false |- _ => apply Z.ltb_ge in H
  | H : (_ =? _) = true |- _ => apply Z.eqb_eq in H
  | H : (_ =? _) = false |- _ => apply Z.eqb_neq in H
  end.

(** Proves an equation between closed terms by evaluating both sides. *)
Ltac vm_refl := lazymatch goal with |- ?x = ?y => exact (@eq_refl _ y <: x = y) end.

(** * Big-endian [u32] *)

Definition U32_MAX : Z := 2 ^ 32 - 1.
Definition U64_MOD : Z := 2 ^ 64.

(** [z as u32]. *)
Definition as_u32 (z : Z) : Z := z mod 2 ^ 32.

(** [z.to_be_bytes()] for a [u32]. *)
Definition to_be_bytes (z : Z) : bytes :=
  [byte_of_Z (Z.shiftr z 24); byte_of_Z (Z.shiftr z 16);
   byte_of_Z (Z.shiftr z 8); byte_of_Z z].

#[global] Arguments to_be_bytes : simpl never.

(** [u32::from_be_bytes(bs)] for a 4-byte array. *)
Definition from_be_bytes (bs : bytes) : Z :=
  foldl (fun acc b => Z.lor (Z.shiftl acc 8) (byte_to_Z b)) 0 bs.

Lemma zlen_to_be_bytes z : zlen (to_be_bytes z) = 4.
Proof. done. Qed.

Lemma lor_shiftl8 x y : 0 <= y < 256 -> Z.lor (Z.shiftl x 8) y = x * 256 + y.
Proof.
  intros. rewrite Z.shiftl_mul_pow2 by lia.
  pose proof (Z.add_lor_land (x * 2 ^ 8) y) as Hadd.
  enough (Z.land (x * 2 ^ 8) y = 0) by lia. clear Hadd.
  apply Z.bits_inj'. intros n Hn. rewrite Z.land_spec, Z.bits_0.
  destruct (decide (n < 8)).
  - rewrite Z.mul_pow2_bits_low by lia. done.
  - replace (Z.testbit y n) with false; [by rewrite andb_false_r|].
    symmetry. apply Z.testbit_false; [lia|].
    rewrite Z.div_small; [done|]. split; [lia|].
    apply Z.lt_le_trans with (2 ^ 8); [lia|]. apply Z.pow_le_mono_r; lia.
Qed.

Lemma from_to_be_bytes z : 0 <= z < 2 ^ 32 -> from_be_bytes (to_be_bytes z) = z.
Proof.
  intros Hz. unfold from_be_bytes, to_be_bytes. cbn [foldl].
  rewrite !byte_to_of_Z, !Z.shiftr_div_pow2 by lia.
  rewrite !lor_shiftl8 by (apply Z.mod_pos_bound; lia).
  change (2 ^ 24) with 16777216. change (2 ^ 16) with 65536. change (2 ^ 8) with 256.
  change (2 ^ 32) with 4294967296 in Hz.
  Z.to_euclidean_division_equations. lia.
Qed.

Lemma from_be_bytes_range bs : length bs = 4%nat -> 0 <= from_be_bytes bs < 2 ^ 32.
Proof.
  intros H. destruct bs as [|a [|b [|c [|d [|]]]]]; try done.
  unfold from_be_bytes. cbn [foldl].
  pose proof (byte_to_Z_range a). pose proof (byte_to_Z_range b).
  pose proof (byte_to_Z_range c). pose proof (byte_to_Z_range d).
  rewrite !lor_shiftl8 by done. change (2 ^ 32) with 4294967296. lia.
Qed.

Lemma to_from_be_bytes bs : length bs = 4%nat -> to_be_bytes (from_be_bytes bs) = bs.
Proof.
  intros H. destruct bs as [|a [|b [|c [|d [|]]]]]; try done.
  unfold from_be_bytes, to_be_bytes. cbn [foldl].
  pose proof (byte_to_Z_range a). pose proof (byte_to_Z_range b).
  pose proof (byte_to_Z_range c). pose proof (byte_to_Z_range d).
  rewrite !lor_shiftl8 by done. rewrite !Z.shiftr_div_pow2 by lia.
  change (2 ^ 24) with 16777216. change (2 ^ 16) with 65536. change (2 ^ 8) with 256.
  repeat f_equal; apply byte_of_Z_eq; Z.to_euclidean_division_equations; lia.
Qed.

(** * Rust strings *)

(** A Rust [String] is its UTF-8 bytes; [len] counts bytes. *)
Definition str_len (s : string) : Z := Z.of_nat (String.length s).
Definition as_bytes (s : string) : bytes := String.list_byte_of_string s.
Definition str_is_empty (s : string) : bool := str_len s =? 0.

(** A continuation byte [10xxxxxx]. *)
Definition is_cont_byte (b : byte) : bool :=
  (128 <=? byte_to_Z b) && (byte_to_Z b <? 192).

(** [s.to_lowercase()], on ASCII letters. *)
Definition ascii_lower (c : Ascii.ascii) : Ascii.ascii :=
  let n := Ascii.nat_of_ascii c in
  if (65 <=? n)%nat && (n <=? 90)%nat then Ascii.ascii_of_nat (n + 32) else c.
Fixpoint to_lowercase (s : string) : string :=
  match s with
  | EmptyString => EmptyString
  | String c s => String (ascii_lower c) (to_lowercase s)
  end.

(** [s.contains(pattern)]. *)
Definition str_contains (s pattern : string) : bool :=
  match String.index 0 pattern s with Some _ => true | None => false end.

(** [&s[..n]]: panics past the end or inside a character. *)
Definition str_prefix (s : string) (n : Z) : outcome string :=
  if str_len s <? n then Panic
  else match as_bytes s !! Z.to_nat n with
       | Some b => if is_cont_byte b then Panic else Done (String.substring 0 (Z.to_nat n) s)
       | None => Done s
       end.

Lemma length_as_bytes s : zlen (as_bytes s) = str_len s.
Proof.
  unfold as_bytes, zlen, str_len. f_equal. unfold String.list_byte_of_string.
  rewrite length_map. induction s; simpl; [done|]. by rewrite IHs.
Qed.

Lemma as_bytes_inj s1 s2 : as_bytes s1 = as_bytes s2 -> s1 = s2.
Proof.
  intros H. rewrite <- (String.string_of_list_byte_of_string s1), <- (String.string_of_list_byte_of_string s2).
  unfold as_bytes in H. by rewrite H.
Qed.

Lemma str_prefix_short s n : str_len s < n -> str_prefix s n = Panic.
Proof. intros. unfold str_prefix. by rewrite (proj2 (Z.ltb_lt _ _)). Qed.
