(* ===== verification/F64.v ===== *)
(** The [f64] and [f32] arithmetic of the rate limiter, the tracker and the
    response headers: [f64] is the kernel's binary64 type with the rounding of
    the hardware, [f32] is binary32 through the same specification. *)
From Stdlib Require Import Floats Uint63 ZArith Lia.
From S2P Require Import Prelude.

Abbreviation f64 := PrimFloat.float.
Abbreviation f32 := SpecFloat.spec_float.

(** [n as f64] for an unsigned integer. *)
Definition f64_of_Z (n : Z) : f64 := SF2Prim (SpecFloat.binary_normalize prec emax n 0 false).

(** [a.min(b)]: a NaN argument is ignored. *)
Definition f64_min (a b : f64) : f64 :=
  if is_nan a then b else if is_nan b then a
  else if (a <? b)%float then a else b.

(** [x as u64]: truncates, saturates, and sends NaN to 0. *)
Definition f64_to_u64 (x : f64) : Z :=
  match Prim2SF x with
  | SpecFloat.S754_finite false m e => Z.min (Z.shiftl (Zpos m) e) (U64_MOD - 1)
  | SpecFloat.S754_infinity false => U64_MOD - 1
  | _ => 0
  end.

Definition NANOS_PER_SEC : Z := 1000000000.

(** [Duration::as_secs_f64] of a duration in nanoseconds: whole seconds plus
    the nanosecond part over 10^9. *)
Definition as_secs_f64 (ns : Z) : f64 :=
  (f64_of_Z (ns / NANOS_PER_SEC) + f64_of_Z (ns mod NANOS_PER_SEC) / f64_of_Z NANOS_PER_SEC)%float.

(** [Duration::as_secs_f32]. *)
Definition as_secs_f32 (ns : Z) : f32 :=
  let of_Z n := SpecFloat.binary_normalize 24 128 n 0 false in
  SpecFloat.SFadd 24 128 (of_Z (ns / NANOS_PER_SEC))
    (SpecFloat.SFdiv 24 128 (of_Z (ns mod NANOS_PER_SEC)) (of_Z NANOS_PER_SEC)).

(** * Sign reasoning

    [not_neg x]: [x] is NaN or does not carry a strictly negative value. *)
Definition sf_not_neg (x : SpecFloat.spec_float) : Prop :=
  match x with
  | SpecFloat.S754_finite s _ _ | SpecFloat.S754_infinity s => s = false
  | _ => True
  end.
Definition not_neg (x : f64) : Prop := sf_not_neg (Prim2SF x).

(** A non-negative number, so not NaN. *)
Definition nonneg (x : f64) : Prop := (0 <=? x)%float = true.

Section SpecSigns.
Variables (p e : Z).
Import SpecFloat.

Lemma shr_1_nonneg r : 0 <= shr_m r -> 0 <= shr_m (shr_1 r).
Proof. destruct r as [[|[]|] ? ?]; simpl; lia. Qed.

Lemma iter_shr_1_nonneg n r : 0 <= shr_m r -> 0 <= shr_m (iter_pos shr_1 n r).
Proof. revert r. induction n; intros r Hr; simpl; auto using shr_1_nonneg. Qed.

Lemma shr_fexp_nonneg m x l : 0 <= m -> 0 <= shr_m (fst (shr_fexp p e m x l)).
Proof.
  intros Hm. unfold shr_fexp, shr.
  assert (0 <= shr_m (shr_record_of_loc m l)) by (destruct l as [|[]]; done).
  case_match; simpl; auto using iter_shr_1_nonneg.
Qed.

Lemma round_nearest_even_nonneg m l : 0 <= m -> 0 <= round_nearest_even m l.
Proof. intros. destruct l as [|[]]; simpl; try lia. case_match; lia. Qed.

Lemma binary_round_aux_not_neg m x l : 0 <= m -> sf_not_neg (binary_round_aux p e false m x l).
Proof.
  intros Hm. unfold binary_round_aux.
  pose proof (shr_fexp_nonneg m x l Hm) as H1.
  destruct (shr_fexp p e m x l) as [r1 e1]. simpl in H1.
  pose proof (shr_fexp_nonneg _ e1 loc_Exact
    (round_nearest_even_nonneg _ (loc_of_shr_record r1) H1)) as H2.
  destruct (shr_fexp p e _ e1 loc_Exact) as [r2 e2].
  destruct (shr_m r2); simpl; try case_match; done.
Qed.

(** Rounding a non-negative mantissa never gives NaN. *)
Lemma binary_round_aux_not_nan s m x l : 0 <= m -> binary_round_aux p e s m x l <> S754_nan.
Proof.
  intros Hm. unfold binary_round_aux.
  pose proof (shr_fexp_nonneg m x l Hm) as H1.
  destruct (shr_fexp p e m x l) as [r1 e1]. simpl in H1.
  pose proof (shr_fexp_nonneg _ e1 loc_Exact
    (round_nearest_even_nonneg _ (loc_of_shr_record r1) H1)) as H2.
  destruct (shr_fexp p e _ e1 loc_Exact) as [r2 e2]. simpl in H2.
  destruct (shr_m r2); simpl; try case_match; try done; lia.
Qed.

Lemma binary_normalize_not_neg m x : 0 <= m -> sf_not_neg (binary_normalize p e m x false).
Proof.
  intros. unfold binary_normalize, binary_round. case_match; [done| |lia].
  case_match. apply binary_round_aux_not_neg. lia.
Qed.

Lemma binary_normalize_not_nan m x s : binary_normalize p e m x s <> S754_nan.
Proof.
  unfold binary_normalize, binary_round.
  case_match; [done| |]; case_match; apply binary_round_aux_not_nan; lia.
Qed.

Lemma SFadd_not_neg x y : sf_not_neg x -> sf_not_neg y -> sf_not_neg (SFadd p e x y).
Proof.
  intros Hx Hy. destruct x, y; simpl in *; subst; try done; try by repeat case_match.
  apply binary_normalize_not_neg. unfold cond_Zopp. lia.
Qed.

Lemma SFmul_not_neg x y : sf_not_neg x -> sf_not_neg y -> sf_not_neg (SFmul p e x y).
Proof.
  intros Hx Hy. destruct x, y; simpl in *; subst; try done.
  apply binary_round_aux_not_neg. lia.
Qed.

Lemma SFdiv_not_neg x y : sf_not_neg x -> sf_not_neg y ->
  (forall s, y <> S754_zero s) -> sf_not_neg (SFdiv p e x y).
Proof.
  intros Hx Hy Hz. destruct x, y; simpl in *; subst; try done; try by (exfalso; eapply Hz).
  unfold SFdiv_core_binary.
  set (m' := match _ with Z0 => _ | Zpos _ => _ | Zneg _ => _ end).
  assert (0 <= m') by (subst m'; case_match; try lia; apply Z.shiftl_nonneg; lia).
  pose proof (Z_div_mod m' (Zpos m0) ltac:(lia)) as Hdm.
  destruct (Z.div_eucl m' (Zpos m0)) as [q r].
  apply binary_round_aux_not_neg. nia.
Qed.

Lemma SFldexp_not_neg x n : sf_not_neg x -> sf_not_neg (SFldexp p e x n).
Proof.
  destruct x as [| | |s m ex]; simpl; intros; subst; try done.
  unfold binary_round. case_match. apply binary_round_aux_not_neg. lia.
Qed.
End SpecSigns.

(** [y <= x] on finite canonical numbers compares the aligned mantissas. *)
Section SpecSub.
Import SpecFloat.

Lemma shl_align_value m x z : z <= x ->
  Zpos (fst (shl_align m x z)) = Zpos m * 2 ^ (x - z).
Proof.
  intros. unfold shl_align. destruct (z - x) as [|d|d] eqn:E; simpl fst.
  - replace (x - z) with 0 by lia. lia.
  - lia.
  - replace (x - z) with (Zpos d) by lia.
    rewrite <- Z.shiftl_mul_pow2 by lia.
    by apply (Pos.iter_swap_gen _ _ Zpos xO (Z.mul 2)).
Qed.

Lemma digits2_pos_spec m : 2 ^ (Zpos (digits2_pos m) - 1) <= Zpos m < 2 ^ Zpos (digits2_pos m).
Proof.
  induction m as [m IH|m IH|]; simpl digits2_pos; [| |done];
    rewrite Pos2Z.inj_succ;
    replace (Z.succ (Zpos (digits2_pos m)) - 1) with (Z.succ (Zpos (digits2_pos m) - 1)) by lia;
    rewrite !Z.pow_succ_r by lia; lia.
Qed.

Lemma bounded_align p e m1 e1 m2 e2 : 0 < p ->
  bounded p e m1 e1 = true -> bounded p e m2 e2 = true ->
  e1 < e2 -> Zpos m1 <= Zpos m2 * 2 ^ (e2 - e1).
Proof.
  unfold bounded, canonical_mantissa, fexp. intros Hp [H1 _]%andb_prop [H2 _]%andb_prop He.
  apply Z.eqb_eq in H1, H2.
  pose proof (digits2_pos_spec m1) as [_ D1]. pose proof (digits2_pos_spec m2) as [D2 _].
  assert (Zpos (digits2_pos m2) = p) as Hd2 by (unfold emin in *; lia).
  assert (Zpos (digits2_pos m1) <= p) as Hd1 by (unfold emin in *; lia).
  rewrite Hd2 in D2.
  assert (2 ^ Zpos (digits2_pos m1) <= 2 ^ p) by (apply Z.pow_le_mono_r; lia).
  assert (2 ^ p = 2 ^ (p - 1) * 2 ^ 1) as Hpow by (rewrite <- Z.pow_add_r by lia; f_equal; lia).
  assert (2 ^ 1 <= 2 ^ (e2 - e1)) by (apply Z.pow_le_mono_r; lia).
  nia.
Qed.

Lemma SFsub_nonneg p e x y : 0 < p ->
  valid_binary p e x = true -> valid_binary p e y = true ->
  sf_not_neg y -> (forall s, y <> S754_infinity s) -> SFleb y x = true ->
  sf_not_neg (SFsub p e x y) /\ SFsub p e x y <> S754_nan.
Proof.
  intros Hp Hvx Hvy Hny Hinf Hle.
  destruct y as [sy|sy| |sy my ey]; [|by exfalso; eapply Hinf|by destruct x|];
    destruct x as [sx|sx| |sx mx ex]; simpl in *; subst; try done;
    try (by repeat case_match); try (by destruct sx).
  destruct sx; [done|]. simpl in *.
  split; [|apply binary_normalize_not_nan].
  apply binary_normalize_not_neg.
  unfold cond_Zopp. rewrite !shl_align_value by lia.
  unfold SFleb, SFcompare in Hle.
  destruct (Z.compare_spec ey ex) as [->|He|He]; [| |done].
  - rewrite !Z.min_id, !Z.sub_diag, !Z.mul_1_r.
    fold (Pos.compare my mx) in Hle.
    destruct (Pos.compare_spec my mx); try done; lia.
  - rewrite Z.min_r by lia. rewrite Z.sub_diag, Z.mul_1_r.
    pose proof (bounded_align p e my ey mx ex Hp Hvy Hvx He). lia.
Qed.
End SpecSub.

Lemma f64_of_Z_not_neg n : 0 <= n -> not_neg (f64_of_Z n).
Proof.
  intros Hn. unfold not_neg, f64_of_Z.
  pose proof (binary_normalize_not_neg prec emax n 0 Hn) as H.
  destruct (SpecFloat.binary_normalize prec emax n 0 false) as [[]|[]| |s m x]; simpl in H; subst; try done.
  unfold SF2Prim.
  assert (sf_not_neg (Prim2SF (of_uint63 (Uint63.of_Z (Zpos m))))) as Hm.
  { rewrite FloatAxioms.of_uint63_spec. apply binary_normalize_not_neg.
    pose proof (Uint63.to_Z_bounded (Uint63.of_Z (Zpos m))). lia. }
  unfold Z.ldexp. rewrite FloatAxioms.ldshiftexp_spec. by apply SFldexp_not_neg.
Qed.

Lemma not_neg_add x y : not_neg x -> not_neg y -> not_neg (x + y)%float.
Proof. unfold not_neg. rewrite FloatAxioms.add_spec. apply SFadd_not_neg. Qed.

Lemma not_neg_mul x y : not_neg x -> not_neg y -> not_neg (x * y)%float.
Proof. unfold not_neg. rewrite FloatAxioms.mul_spec. apply SFmul_not_neg. Qed.

Lemma as_secs_f64_not_neg ns : 0 <= ns -> not_neg (as_secs_f64 ns).
Proof.
  intros Hns. unfold as_secs_f64. apply not_neg_add.
  - apply f64_of_Z_not_neg. apply Z.div_pos; [done|]. unfold NANOS_PER_SEC. lia.
  - unfold not_neg. rewrite FloatAxioms.div_spec. apply SFdiv_not_neg.
    + apply f64_of_Z_not_neg. apply Z.mod_pos_bound. unfold NANOS_PER_SEC. lia.
    + vm_compute. done.
    + intros s. vm_compute. done.
Qed.

Lemma nonneg_iff x : nonneg x <-> not_neg x /\ Prim2SF x <> SpecFloat.S754_nan.
Proof.
  unfold nonneg, not_neg. rewrite FloatAxioms.leb_spec.
  change (Prim2SF 0) with (SpecFloat.S754_zero false).
  unfold SpecFloat.SFleb.
  destruct (Prim2SF x) as [|[]| |[]]; simpl; split; try (by intros [? ?]); by intros.
Qed.

Lemma is_nan_true x : is_nan x = true <-> Prim2SF x = SpecFloat.S754_nan.
Proof.
  unfold is_nan. rewrite FloatAxioms.eqb_spec. unfold SpecFloat.SFeqb.
  destruct (Prim2SF x) as [|[]| |[] m e]; simpl; try done;
    rewrite ?Z.compare_refl; try done;
    fold (Pos.compare m m); rewrite Pos.compare_refl; done.
Qed.

Lemma f64_min_nan_l a b : is_nan a = true -> f64_min a b = b.
Proof. unfold f64_min. by intros ->. Qed.

Lemma SFltb_false_leb a b : a <> SpecFloat.S754_nan -> b <> SpecFloat.S754_nan ->
  SpecFloat.SFltb a b = false -> SpecFloat.SFleb b a = true.
Proof.
  unfold SpecFloat.SFltb, SpecFloat.SFleb.
  destruct a as [|[]| |[] ma ea], b as [|[]| |[] mb eb]; simpl; try done;
  rewrite (Z.compare_antisym ea eb); destruct (Z.compare ea eb); simpl; try done;
  fold (Pos.compare ma mb); fold (Pos.compare mb ma);
  rewrite (Pos.compare_antisym ma mb); destruct (Pos.compare ma mb); done.
Qed.

Lemma SFleb_refl a : a <> SpecFloat.S754_nan -> SpecFloat.SFleb a a = true.
Proof.
  unfold SpecFloat.SFleb. destruct a as [|[]| |[] m e]; simpl; try done;
  rewrite Z.compare_refl; fold (Pos.compare m m); by rewrite Pos.compare_refl.
Qed.

(** The minimum is at most the bound, whatever the other argument. *)
Lemma f64_min_le_r a b : nonneg b -> (f64_min a b <=? b)%float = true.
Proof.
  intros [_ Hb]%nonneg_iff. unfold f64_min.
  destruct (is_nan a) eqn:Ha; [rewrite FloatAxioms.leb_spec; by apply SFleb_refl|].
  destruct (is_nan b) eqn:Hnb; [by apply is_nan_true in Hnb|].
  destruct (a <? b)%float eqn:Hlt.
  - rewrite FloatAxioms.ltb_spec in Hlt. rewrite FloatAxioms.leb_spec. unfold SpecFloat.SFltb in Hlt.
    unfold SpecFloat.SFleb. repeat case_match; done.
  - rewrite FloatAxioms.leb_spec. by apply SFleb_refl.
Qed.

Lemma f64_min_nonneg a b : not_neg a -> nonneg b -> nonneg (f64_min a b).
Proof.
  intros Ha Hb. unfold f64_min.
  destruct (is_nan a) eqn:Hna; [done|].
  destruct (is_nan b) eqn:Hnb.
  - apply nonneg_iff in Hb as [_ Hb]. by apply is_nan_true in Hnb.
  - case_match; [|done]. apply nonneg_iff. split; [done|].
    intros Hn%is_nan_true. congruence.
Qed.

Lemma SFleb_trans a b c : SpecFloat.SFleb a b = true -> SpecFloat.SFleb b c = true ->
  SpecFloat.SFleb a c = true.
Proof.
  unfold SpecFloat.SFleb.
  destruct a as [|[]| |[] ma ea], b as [|[]| |[] mb eb], c as [|[]| |[] mc ec]; simpl; try done;
    fold (Pos.compare ma mb) (Pos.compare mb mc) (Pos.compare ma mc);
    destruct (Z.compare_spec ea eb), (Z.compare_spec eb ec), (Z.compare_spec ea ec); subst; try lia; try done;
    destruct (Pos.compare_spec ma mb), (Pos.compare_spec mb mc), (Pos.compare_spec ma mc); simpl; done || lia.
Qed.

Lemma f64_leb_trans a b c : (a <=? b)%float = true -> (b <=? c)%float = true -> (a <=? c)%float = true.
Proof. rewrite !FloatAxioms.leb_spec. apply SFleb_trans. Qed.

(** Taking a finite cost from at least that many tokens leaves a
    non-negative number of tokens. *)
Lemma f64_sub_nonneg x y : nonneg y -> (forall s, Prim2SF y <> SpecFloat.S754_infinity s) ->
  (y <=? x)%float = true -> nonneg (x - y)%float.
Proof.
  intros [Hy _]%nonneg_iff Hinf Hle. rewrite FloatAxioms.leb_spec in Hle. apply nonneg_iff.
  unfold not_neg. rewrite FloatAxioms.sub_spec.
  apply SFsub_nonneg; try done; apply Prim2SF_valid.
Qed.
