(* ===== verification/External.v ===== *)
(** The code the program calls and does not contain, as interfaces: each
    class holds the functions the source uses, each [...Laws] class the
    documented behaviour the theorems rely on. Nothing here is a definition of
    that code; Sample.v instantiates every class with concrete functions. *)
From S2P Require Import Prelude.

(** * Serialisation: [postcard] for the wire and the metadata, [serde_json]
    for the client's files *)

Class Postcard (T : Type) := {
  to_allocvec : T -> result bytes;
  to_io : T -> result bytes;      (* what [to_io] appends to the writer *)
  from_bytes : bytes -> result T;
}.

Class PostcardLaws (T : Type) `{Postcard T} : Prop := {
  to_allocvec_total (x : T) : exists b, to_allocvec x = Ok b;
  from_to_allocvec (x : T) b : to_allocvec x = Ok b -> from_bytes b = Ok x;
  to_io_total (x : T) : exists b, to_io x = Ok b;
  from_to_io (x : T) b : to_io x = Ok b -> from_bytes b = Ok x;
}.

Class Json (T : Type) := {
  to_string_pretty : T -> result string;
  from_str : string -> result T;
}.

Class JsonLaws (T : Type) `{Json T} : Prop := {
  to_string_pretty_total (x : T) : exists s, to_string_pretty x = Ok s;
  from_to_string (x : T) s : to_string_pretty x = Ok s -> from_str s = Ok x;
}.

(** * [hex] *)

Class Hex := {
  encode : bytes -> string;
  decode : string -> result bytes;
}.

(** The digits [hex::encode] prints. *)
Definition is_hex_digit (b : byte) : bool :=
  let z := byte_to_Z b in
  ((48 <=? z) && (z <=? 57)) || ((97 <=? z) && (z <=? 102)).

Class HexLaws `{Hex} : Prop := {
  decode_encode b : decode (encode b) = Ok b;
  encode_len b : str_len (encode b) = 2 * zlen b;
  encode_digits b : Forall (fun c => is_hex_digit c = true) (as_bytes (encode b));
}.

(** * [sha2] *)

Class Sha2 := {
  sha256_state : Type;
  sha256_new : sha256_state;
  sha256_update : sha256_state -> bytes -> sha256_state;
  sha256_finalize : sha256_state -> bytes;
  sha256_digest : bytes -> bytes;
  sha512_digest : bytes -> bytes;
}.

Class Sha2Laws `{Sha2} : Prop := {
  sha256_digest_streaming b : sha256_digest b = sha256_finalize (sha256_update sha256_new b);
  sha256_update_nil s : sha256_update s [] = s;
  sha256_update_app s a b : sha256_update (sha256_update s a) b = sha256_update s (a ++ b);
  sha256_len s : zlen (sha256_finalize s) = 32;
  sha512_len b : zlen (sha512_digest b) = 64;
}.

(** * [aes_gcm]: AES-256-GCM

    [gcm_encrypt_detached]/[gcm_decrypt_detached] are the in-place detached
    operations with an empty associated data; [gcm_encrypt]/[gcm_decrypt] the
    allocating ones of the [Aead] trait, which append the tag. *)

Definition P_MAX : Z := 2 ^ 36.

Class AesGcm := {
  gcm_encrypt_detached : bytes -> bytes -> bytes -> result (bytes * bytes);
  gcm_decrypt_detached : bytes -> bytes -> bytes -> bytes -> result bytes;
  gcm_encrypt : bytes -> bytes -> bytes -> result bytes;
  gcm_decrypt : bytes -> bytes -> bytes -> result bytes;
}.

(** GCM is deterministic in key and nonce, its tag is recomputed on
    decryption, and the ciphertext is as long as the plaintext. *)
Class AesGcmLaws `{AesGcm} : Prop := {
  gcm_total k n p : zlen k = 32 -> zlen n = 12 -> zlen p <= P_MAX ->
    exists c t, gcm_encrypt_detached k n p = Ok (c, t);
  gcm_len k n p c t : gcm_encrypt_detached k n p = Ok (c, t) ->
    zlen c = zlen p /\ zlen t = 16;
  gcm_open_sealed k n p c t : gcm_encrypt_detached k n p = Ok (c, t) ->
    gcm_decrypt_detached k n c t = Ok p;
  gcm_sealed_open k n p c t : gcm_decrypt_detached k n c t = Ok p ->
    gcm_encrypt_detached k n p = Ok (c, t);
  gcm_encrypt_postfix k n p c t : gcm_encrypt_detached k n p = Ok (c, t) ->
    gcm_encrypt k n p = Ok (c ++ t);
  gcm_decrypt_postfix k n c t : zlen t = 16 ->
    gcm_decrypt k n (c ++ t) = gcm_decrypt_detached k n c t;
}.

(** * [ed25519_dalek] and [x25519_dalek] *)

Class Ed25519 := {
  VerifyingKey : Type;
  vk_try_from : bytes -> result VerifyingKey;
  vk_to_bytes : VerifyingKey -> bytes;
  verifying_key : bytes -> VerifyingKey;             (* of a signing key's 32 bytes *)
  ed_sign : bytes -> bytes -> bytes;                 (* signing key, message *)
  ed_verify : VerifyingKey -> bytes -> bytes -> result unit;
  ed_verify_strict : VerifyingKey -> bytes -> bytes -> result unit;
}.

Class Ed25519Laws `{Ed25519} : Prop := {
  vk_len v : zlen (vk_to_bytes v) = 32;
  vk_from_to v : vk_try_from (vk_to_bytes v) = Ok v;
  vk_to_from b v : vk_try_from b = Ok v -> vk_to_bytes v = b;
  ed_sign_len k m : zlen (ed_sign k m) = 64;
  ed_verify_sign k m : ed_verify (verifying_key k) m (ed_sign k m) = Ok tt;
  ed_verify_strict_sign k m : ed_verify_strict (verifying_key k) m (ed_sign k m) = Ok tt;
}.

Class X25519 := {
  x_public : bytes -> bytes;                         (* [PublicKey::from(&secret)] *)
  diffie_hellman : bytes -> bytes -> bytes;          (* secret, their public key *)
}.

Class X25519Laws `{X25519} : Prop := {
  x_public_len s : zlen (x_public s) = 32;
  diffie_hellman_len s p : zlen (diffie_hellman s p) = 32;
  diffie_hellman_comm a b : diffie_hellman a (x_public b) = diffie_hellman b (x_public a);
}.

(** * [uuid]: the simple form of a version 4 identifier made of 16 random bytes *)

Class Uuid := { uuid_v4_simple : bytes -> string }.

Class UuidLaws `{Uuid} : Prop := {
  uuid_simple_len b : zlen b = 16 -> str_len (uuid_v4_simple b) = 32;
}.

(** * [chrono]: the two formats the code prints *)

Class Chrono := {
  fmt_local : Z -> string;     (* "%Y-%m-%d %H:%M:%S" of a local time *)
  to_rfc3339 : Z -> string;
}.

Section Derived.
Context {HX : Hex} {SH : Sha2} {HXL : HexLaws} {SHL : Sha2Laws}.

Lemma sha256_digest_len b : zlen (sha256_digest b) = 32.
Proof. rewrite sha256_digest_streaming. apply sha256_len. Qed.

Lemma encode_inj a b : encode a = encode b -> a = b.
Proof.
  intros H%(f_equal decode). rewrite !decode_encode in H. by injection H.
Qed.

Lemma encode_sha256_len b : str_len (encode (sha256_digest b)) = 64.
Proof. by rewrite encode_len, sha256_digest_len. Qed.

Lemma encode_sha512_len b : str_len (encode (sha512_digest b)) = 128.
Proof. by rewrite encode_len, sha512_len. Qed.
End Derived.
