(* ===== verification/RateLimit.v ===== *)
(** The per-IP token bucket limiter (src/ratelimit.rs): one bucket per
    address in a map, refilled lazily from the monotonic clock. Time is
    [Instant] in nanoseconds, passed where the code calls [Instant::now]. *)
From Stdlib Require Import Floats.
From S2P Require Import Prelude F64.

(** [std::net::IpAddr]. *)
Inductive IpAddr : Set :=
| V4 (a : Z)
| V6 (a : Z).

#[export] Instance IpAddr_eq_dec : EqDecision IpAddr.
Proof. solve_decision. Defined.

#[export] Instance IpAddr_countable : Countable IpAddr.
Proof.
  refine (inj_countable'
    (fun i => match i with V4 a => inl a | V6 a => inr a end)
    (fun s => match s with inl a => V4 a | inr a => V6 a end) _).
  by intros [].
Defined.

(** * One bucket *)

Record TokenBucket := {
  tokens : f64;
  max_tokens : f64;
  refill_rate : f64;
  last_refill : Z;
}.

Definition init_bucket (max rate : f64) (now : Z) : TokenBucket :=
  {| tokens := max; max_tokens := max; refill_rate := rate; last_refill := now |}.

(** [now.duration_since(earlier)] saturates at zero. *)
Definition duration_since (now earlier : Z) : Z := Z.max 0 (now - earlier).

Definition refill (now : Z) (b : TokenBucket) : TokenBucket :=
  let elapsed := as_secs_f64 (duration_since now (last_refill b)) in
  {| tokens := f64_min (tokens b + elapsed * refill_rate b)%float (max_tokens b);
     max_tokens := max_tokens b;
     refill_rate := refill_rate b;
     last_refill := now |}.

Definition set_tokens (t : f64) (b : TokenBucket) : TokenBucket :=
  {| tokens := t; max_tokens := max_tokens b; refill_rate := refill_rate b;
     last_refill := last_refill b |}.

Definition try_consume (now : Z) (cost : f64) (b : TokenBucket) : bool * TokenBucket :=
  let b := refill now b in
  if (cost <=? tokens b)%float
  then (true, set_tokens (tokens b - cost)%float b)
  else (false, b).

(** * The limiter *)

Record RateLimiter := {
  buckets : gmap IpAddr TokenBucket;
  rl_max_tokens : f64;
  rl_refill_rate : f64;
}.

Definition init_limiter (max rate : f64) : RateLimiter :=
  {| buckets := ∅; rl_max_tokens := max; rl_refill_rate := rate |}.

Definition set_buckets (m : gmap IpAddr TokenBucket) (l : RateLimiter) : RateLimiter :=
  {| buckets := m; rl_max_tokens := rl_max_tokens l; rl_refill_rate := rl_refill_rate l |}.

(** [self.buckets.entry(ip).or_insert_with(..)]. *)
Definition entry_bucket (now : Z) (ip : IpAddr) (l : RateLimiter) : TokenBucket :=
  default (init_bucket (rl_max_tokens l) (rl_refill_rate l) now) (buckets l !! ip).

Definition is_allowed_cost (now : Z) (ip : IpAddr) (cost : f64) (l : RateLimiter)
    : bool * RateLimiter :=
  let '(ok, b) := try_consume now cost (entry_bucket now ip l) in
  (ok, set_buckets (<[ip := b]> (buckets l)) l).

Definition is_allowed (now : Z) (ip : IpAddr) (l : RateLimiter) : bool * RateLimiter :=
  let '(ok, b) := try_consume now 1%float (entry_bucket now ip l) in
  (ok, set_buckets (<[ip := b]> (buckets l)) l).

Definition tokens_remaining (ip : IpAddr) (l : RateLimiter) : f64 :=
  default (rl_max_tokens l) (tokens <$> buckets l !! ip).

(** [as_secs] of the age is compared with [max_age_secs]. *)
Definition is_fresh (now max_age_secs : Z) (b : TokenBucket) : Prop :=
  duration_since now (last_refill b) / NANOS_PER_SEC < max_age_secs.

#[export] Instance is_fresh_dec now age b : Decision (is_fresh now age b).
Proof. unfold is_fresh. apply _. Defined.

Definition cleanup_stale (now max_age_secs : Z) (l : RateLimiter) : RateLimiter :=
  set_buckets (filter (fun kv => is_fresh now max_age_secs kv.2) (buckets l)) l.

(** * The limiter as a state machine *)

(** The operations the server can run, each at the time it reads. *)
Inductive rl_step : RateLimiter -> RateLimiter -> Prop :=
| rl_allow now ip cost l :
    nonneg cost -> (forall s, Prim2SF cost <> SpecFloat.S754_infinity s) ->
    rl_step l (is_allowed_cost now ip cost l).2
| rl_allow1 now ip l : rl_step l (is_allowed now ip l).2
| rl_cleanup now age l : rl_step l (cleanup_stale now age l).

(** A bucket as the limiter makes it: its parameters are the limiter's, and
    the number of tokens is a non-negative number. *)
Definition bucket_wf (max rate : f64) (b : TokenBucket) : Prop :=
  max_tokens b = max /\ refill_rate b = rate /\ nonneg (tokens b).

Definition limiter_wf (max rate : f64) (l : RateLimiter) : Prop :=
  rl_max_tokens l = max /\ rl_refill_rate l = rate /\
  map_Forall (fun _ b => bucket_wf max rate b) (buckets l).

Section Bucket.
Context (max rate : f64).
Hypothesis max_nonneg : nonneg max.
Hypothesis rate_nonneg : nonneg rate.

Lemma not_neg_of_nonneg x : nonneg x -> not_neg x.
Proof. by intros [? _]%nonneg_iff. Qed.

Lemma init_bucket_wf now : bucket_wf max rate (init_bucket max rate now).
Proof. done. Qed.

Lemma refill_bounds now b : bucket_wf max rate b ->
  nonneg (tokens (refill now b)) /\ (tokens (refill now b) <=? max)%float = true.
Proof.
  intros (Hm & Hr & Ht). unfold refill. simpl. rewrite Hm, Hr. split.
  - apply f64_min_nonneg; [|done]. apply not_neg_add; [by apply not_neg_of_nonneg|].
    apply not_neg_mul; [|by apply not_neg_of_nonneg].
    apply as_secs_f64_not_neg. unfold duration_since. lia.
  - by apply f64_min_le_r.
Qed.

Lemma try_consume_wf now cost b :
  nonneg cost -> (forall s, Prim2SF cost <> SpecFloat.S754_infinity s) ->
  bucket_wf max rate b -> bucket_wf max rate (try_consume now cost b).2.
Proof.
  intros Hc Hinf Hb. pose proof (refill_bounds now b Hb) as [Ht _].
  destruct Hb as (Hm & Hr & _). unfold try_consume.
  case_match eqn:E; simpl; split_and!; try done.
  by apply f64_sub_nonneg.
Qed.

Lemma entry_bucket_wf now ip l : limiter_wf max rate l -> bucket_wf max rate (entry_bucket now ip l).
Proof.
  intros (Hm & Hr & Hb). unfold entry_bucket. rewrite Hm, Hr.
  destruct (buckets l !! ip) as [b|] eqn:E; simpl; [by eapply Hb|done].
Qed.

Lemma is_allowed_cost_wf now ip cost l :
  nonneg cost -> (forall s, Prim2SF cost <> SpecFloat.S754_infinity s) ->
  limiter_wf max rate l -> limiter_wf max rate (is_allowed_cost now ip cost l).2.
Proof.
  intros Hc Hinf Hl. pose proof (try_consume_wf now cost _ Hc Hinf (entry_bucket_wf now ip l Hl)) as Hb.
  unfold is_allowed_cost. destruct (try_consume now cost (entry_bucket now ip l)) as [ok b].
  destruct Hl as (? & ? & ?). simpl in *. split_and!; try done.
  by apply map_Forall_insert_2.
Qed.

Lemma is_allowed_is_cost_1 now ip l : is_allowed now ip l = is_allowed_cost now ip 1%float l.
Proof. done. Qed.
End Bucket.

Lemma one_finite s : Prim2SF 1%float <> SpecFloat.S754_infinity s.
Proof. done. Qed.

(** In every state the limiter can reach from [init], through any
    sequence of requests, clean-ups and clock readings, each bucket keeps the
    limiter's capacity and rate and holds a non-negative number of tokens:
    never NaN and never a debt. *)
Theorem rate_limiter_invariant (max rate : f64) (l : RateLimiter) :
  nonneg max -> nonneg rate ->
  rtc rl_step (init_limiter max rate) l -> limiter_wf max rate l.
Proof.
  intros Hmax Hrate Hsteps.
  assert (limiter_wf max rate (init_limiter max rate)) as H0
    by (split_and!; [done..|apply map_Forall_empty]).
  revert l Hsteps. apply (rtc_ind_r (limiter_wf max rate)); [done|].
  intros l1 l2 _ Hstep IH. destruct Hstep as [now ip cost l Hc Hinf|now ip l|now age l].
  - by apply is_allowed_cost_wf.
  - rewrite is_allowed_is_cost_1. by apply is_allowed_cost_wf.
  - destruct IH as (? & ? & Hb). split_and!; try done.
    simpl. intros i b [Hi _]%map_lookup_filter_Some. by eapply Hb.
Qed.

(** A request is decided on its own address only: it is allowed exactly
    when the cost is at most the refilled tokens of that address, which are
    at most the capacity; an allowed request pays the cost, a refused one
    pays nothing, and every other address keeps its bucket. *)
Theorem is_allowed_cost_spec (max rate : f64) (now : Z) (ip : IpAddr) (cost : f64) (l : RateLimiter) :
  nonneg max -> nonneg rate -> limiter_wf max rate l ->
  let t := tokens (refill now (entry_bucket now ip l)) in
  let '(ok, l') := is_allowed_cost now ip cost l in
  ok = (cost <=? t)%float /\
  (t <=? max)%float = true /\
  tokens_remaining ip l' = (if ok then (t - cost)%float else t) /\
  (forall b, buckets l' !! ip = Some b -> last_refill b = now) /\
  (forall ip', ip' <> ip -> buckets l' !! ip' = buckets l !! ip').
Proof.
  intros Hmax Hrate Hl t. unfold is_allowed_cost, try_consume. fold t.
  pose proof (refill_bounds max rate Hmax Hrate now _ (entry_bucket_wf max rate Hmax now ip l Hl)) as [_ Hle].
  destruct (cost <=? t)%float; split_and!; try done; intros;
    unfold tokens_remaining; simpl in *;
    rewrite ?lookup_insert_eq, ?lookup_insert_ne in * by done; by simplify_eq.
Qed.

(** A request that costs more than the capacity is never allowed, however
    long the client waits. *)
Theorem over_capacity_never_allowed (max rate : f64) (now : Z) (ip : IpAddr) (cost : f64) (l : RateLimiter) :
  nonneg max -> nonneg rate -> limiter_wf max rate l ->
  (cost <=? max)%float = false ->
  (is_allowed_cost now ip cost l).1 = false.
Proof.
  intros Hmax Hrate Hl Hover.
  pose proof (refill_bounds max rate Hmax Hrate now _ (entry_bucket_wf max rate Hmax now ip l Hl)) as [_ Hle].
  unfold is_allowed_cost, try_consume.
  destruct (cost <=? tokens (refill now (entry_bucket now ip l)))%float eqn:E; [|done].
  by rewrite (f64_leb_trans _ _ _ E Hle) in Hover.
Qed.

(** [cleanup_stale] keeps exactly the buckets used within the last
    [max_age_secs] seconds, unchanged. *)
Theorem cleanup_stale_spec (now age : Z) (l : RateLimiter) (ip : IpAddr) :
  buckets (cleanup_stale now age l) !! ip =
  match buckets l !! ip with
  | Some b => if decide (is_fresh now age b) then Some b else None
  | None => None
  end.
Proof.
  unfold cleanup_stale. simpl. rewrite map_lookup_filter.
  destruct (buckets l !! ip) as [b|]; [|done]. simpl.
  by repeat (case_guard || case_decide).
Qed.

(** * Concrete runs *)

Definition demo_ip : IpAddr := V4 167772161.
Definition demo_limiter : RateLimiter := init_limiter 10%float 1%float.

Lemma rate_limiter_invariant_witness :
  limiter_wf 10%float 1%float
    (is_allowed_cost 7 demo_ip 5%float (is_allowed 3 demo_ip demo_limiter).2).2.
Proof.
  apply rate_limiter_invariant; [vm_compute; auto..|].
  eapply rtc_l; [apply (rl_allow1 3 demo_ip)|].
  eapply rtc_l; [apply (rl_allow 7 demo_ip 5%float); [vm_compute; auto|done]|]. apply rtc_refl.
Defined.

Lemma is_allowed_cost_spec_witness :
  let '(ok, l') := is_allowed_cost 7 demo_ip 5%float demo_limiter in
  ok = true /\ tokens_remaining demo_ip l' = 5%float.
Proof.
  pose proof (is_allowed_cost_spec 10%float 1%float 7 demo_ip 5%float demo_limiter) as H.
  vm_compute in H |- *.
  destruct H as (_ & _ & H & _); [vm_compute; auto..| |done].
  split_and!; [done..|]. intros i b Hb. by vm_compute in Hb.
Defined.

Lemma over_capacity_never_allowed_witness :
  (is_allowed_cost 1000000000000 demo_ip 11%float demo_limiter).1 = false.
Proof.
  apply (over_capacity_never_allowed 10%float 1%float); [vm_compute; auto..| |reflexivity].
  split_and!; [done..|]. intros i b Hb. by vm_compute in Hb.
Defined.
