(* ===== verification/FileSys.v ===== *)
(** The part of [std::fs] (through [tokio::fs]) the program uses, as a map
    from absolute paths to nodes: a path is the list of its components, [/] is
    the empty list. Symbolic links and permissions are outside the model, and
    the disk is never full. *)
From Stdlib Require Import Ascii.
From S2P Require Import Prelude.

Inductive node : Type :=
| File (content : bytes)
| Dir.

#[export] Instance node_eq_dec : EqDecision node.
Proof. solve_decision. Defined.

Abbreviation path := (list string).
Abbreviation fs := (gmap (list string) node).

(** The node at a path; the root always exists. *)
Definition lookup_node (f : fs) (p : path) : option node :=
  match p with [] => Some Dir | _ => f !! p end.

Definition exists_ (f : fs) (p : path) : bool := bool_decide (is_Some (lookup_node f p)).
Definition is_dir (f : fs) (p : path) : bool := bool_decide (lookup_node f p = Some Dir).

Definition parent (p : path) : path := take (length p - 1) p.

Definition ENOENT : string := "No such file or directory (os error 2)".
Definition ENOTDIR : string := "Not a directory (os error 20)".
Definition EISDIR : string := "Is a directory (os error 21)".
Definition ENOTEMPTY : string := "Directory not empty (os error 39)".
Definition EINVAL : string := "Invalid argument (os error 22)".
Definition EEXIST : string := "File exists (os error 17)".

(** The non-empty prefixes of a path, shortest first. *)
Fixpoint prefixes (p : path) : list path :=
  match p with
  | [] => []
  | c :: p => [c] :: map (cons c) (prefixes p)
  end.

(** [create_dir_all]: creates every missing ancestor, fails on a file. *)
Fixpoint create_dirs (f : fs) (ps : list path) : result fs :=
  match ps with
  | [] => Ok f
  | p :: ps =>
    match f !! p with
    | Some Dir => create_dirs f ps
    | Some (File _) => Err (match ps with [] => EEXIST | _ => ENOTDIR end)
    | None => create_dirs (<[p := Dir]> f) ps
    end
  end.
Definition create_dir_all (f : fs) (p : path) : result fs := create_dirs f (prefixes p).

(** [File::create]: truncates an existing file. *)
Definition create_file (f : fs) (p : path) : result fs :=
  match lookup_node f (parent p) with
  | None => Err ENOENT
  | Some (File _) => Err ENOTDIR
  | Some Dir =>
    match lookup_node f p with
    | Some Dir => Err EISDIR
    | _ => Ok (<[p := File []]> f)
    end
  end.

(** Appending to an open file. *)
Definition append_file (f : fs) (p : path) (bs : bytes) : fs :=
  match f !! p with
  | Some (File old) => <[p := File (old ++ bs)]> f
  | _ => f
  end.

(** [std::fs::write]. *)
Definition write_file (f : fs) (p : path) (bs : bytes) : result fs :=
  match create_file f p with
  | Ok f => Ok (<[p := File bs]> f)
  | Err e => Err e
  end.

(** [File::open] and reading to the end; opening a directory succeeds on
    Linux and the first read fails. *)
Definition read_file (f : fs) (p : path) : result bytes :=
  match lookup_node f p with
  | Some (File bs) => Ok bs
  | Some Dir => Err EISDIR
  | None => Err ENOENT
  end.

Definition remove_file (f : fs) (p : path) : result fs :=
  match lookup_node f p with
  | Some (File _) => Ok (delete p f)
  | Some Dir => Err EISDIR
  | None => Err ENOENT
  end.

(** * Subtrees and [rename] *)

(** [p] is [q] followed by the returned components. *)
Fixpoint strip_path (q p : path) : option path :=
  match q, p with
  | [], _ => Some p
  | a :: q, b :: p => if decide (a = b) then strip_path q p else None
  | _ :: _, [] => None
  end.

Definition under (q p : path) : Prop := is_Some (strip_path q p).
#[export] Instance under_dec q p : Decision (under q p).
Proof. unfold under. apply _. Defined.

(** The directory [p] has no entry. *)
Definition is_empty_dir (f : fs) (p : path) : bool :=
  bool_decide (filter (fun kv : path * node => under p kv.1 /\ kv.1 <> p) f = ∅).

(** Every entry below [p], moved below [q]. *)
Definition move_subtree (f : fs) (p q : path) : fs :=
  map_fold (fun k v acc =>
    match strip_path p k with
    | Some rest => <[q ++ rest := v]> acc
    | None => acc
    end) (filter (fun kv => ~ under p kv.1 /\ ~ under q kv.1) f) f.

(** rename(2): replaces a file, or an empty directory by a directory. *)
Definition rename (f : fs) (p q : path) : result fs :=
  match lookup_node f p with
  | None => Err ENOENT
  | Some np =>
    if decide (p = q) then Ok f
    else if decide (under p q) then Err EINVAL
    else match lookup_node f (parent q) with
    | None => Err ENOENT
    | Some (File _) => Err ENOTDIR
    | Some Dir =>
      match np, lookup_node f q with
      | _, None => Ok (move_subtree f p q)
      | Dir, Some Dir => if is_empty_dir f q then Ok (move_subtree f p q) else Err ENOTEMPTY
      | Dir, Some (File _) => Err ENOTDIR
      | File _, Some Dir => Err EISDIR
      | File _, Some (File _) => Ok (move_subtree f p q)
      end
    end
  end.

(** * Paths *)

Lemma strip_path_Some q p r : strip_path q p = Some r <-> p = q ++ r.
Proof.
  revert p. induction q as [|a q IH]; intros p; simpl.
  - split; congruence.
  - destruct p as [|b p]; [split; congruence|].
    case_decide as E; subst.
    + rewrite IH. split; [by intros ->|by intros [= ->]].
    + split; [done|]. intros [= ? ?]. congruence.
Qed.

Lemma strip_path_app q r : strip_path q (q ++ r) = Some r.
Proof. by apply strip_path_Some. Qed.

Lemma under_iff q p : under q p <-> exists r, p = q ++ r.
Proof. unfold under, is_Some. by setoid_rewrite strip_path_Some. Qed.

Lemma under_refl p : under p p.
Proof. apply under_iff. exists []. by rewrite app_nil_r. Qed.

Lemma under_app p r : under p (p ++ r).
Proof. apply under_iff. eauto. Qed.

Lemma strip_path_None q p : strip_path q p = None <-> ~ under q p.
Proof. unfold under. by rewrite eq_None_not_Some. Qed.

Lemma parent_snoc p c : parent (p ++ [c]) = p.
Proof. unfold parent. rewrite length_app. simpl. rewrite Nat.add_sub. apply take_app_length. Qed.

Lemma path_snoc (p : path) : p <> [] -> exists q c, p = q ++ [c].
Proof. intros H. destruct p using rev_ind; [done|eauto]. Qed.

Lemma elem_of_prefixes p q : q ∈ prefixes p <-> q <> [] /\ exists r, p = q ++ r.
Proof.
  revert q. induction p as [|c p IH]; intros q; simpl.
  - rewrite elem_of_nil. split; [done|]. intros [Hq [r Hr]]. by destruct q.
  - rewrite elem_of_cons, list_elem_of_fmap. split.
    + intros [->|(q' & -> & Hq')].
      * split; [done|]. by exists p.
      * apply IH in Hq' as [_ [r ->]]. split; [done|]. by exists r.
    + intros [Hq [r Hr]]. destruct q as [|c' q]; [done|]. injection Hr as <- ->.
      destruct q as [|d q]; [by left|]. right. exists (d :: q). split; [done|].
      apply IH. eauto.
Qed.

(** * Well-formed trees: every entry sits in a directory *)

Definition fs_wf (f : fs) : Prop :=
  forall p n, f !! p = Some n -> p <> [] /\ lookup_node f (parent p) = Some Dir.

Lemma lookup_node_insert f p n q : p <> [] ->
  lookup_node (<[p := n]> f) q = if decide (q = p) then Some n else lookup_node f q.
Proof.
  intros Hp. destruct q as [|c q]; simpl.
  - by rewrite decide_False by congruence.
  - rewrite lookup_insert. repeat case_decide; congruence.
Qed.

Lemma lookup_node_nonempty f p : p <> [] -> lookup_node f p = f !! p.
Proof. by destruct p. Qed.

Lemma parent_ne p : p <> [] -> parent p <> p.
Proof.
  intros (q & c & ->)%path_snoc. rewrite parent_snoc. intros H%(f_equal length).
  rewrite length_app in H. simpl in H. lia.
Qed.

(** Writing a file or a directory where a directory is not replaced by a file
    keeps the tree well-formed. *)
Lemma fs_wf_insert f p n : fs_wf f -> p <> [] ->
  lookup_node f (parent p) = Some Dir ->
  (n = Dir \/ f !! p <> Some Dir) -> fs_wf (<[p := n]> f).
Proof.
  intros Hwf Hp Hpar Hn q m Hq.
  rewrite lookup_node_insert by done.
  rewrite lookup_insert in Hq. case_decide as E.
  - subst q. split; [done|]. rewrite decide_False by by apply parent_ne. done.
  - destruct (Hwf _ _ Hq) as [? Hd]. split; [done|].
    case_decide as E'; [|done]. destruct Hn as [->|Hn]; [done|].
    exfalso. apply Hn. rewrite <- E'. rewrite <- lookup_node_nonempty by congruence. done.
Qed.

Definition extends_with_dirs (f f' : fs) (p : path) : Prop :=
  (forall k n, f !! k = Some n -> f' !! k = Some n) /\
  (forall k n, f' !! k = Some n -> f !! k = Some n \/ (n = Dir /\ k ∈ prefixes p)).

Lemma create_dirs_spec f ps f' : create_dirs f ps = Ok f' ->
  (forall k n, f !! k = Some n -> f' !! k = Some n) /\
  (forall k n, f' !! k = Some n -> f !! k = Some n \/ (n = Dir /\ k ∈ ps)) /\
  (forall k, k ∈ ps -> f' !! k = Some Dir).
Proof.
  revert f. induction ps as [|p ps IH]; intros f; simpl.
  { intros [= ->]. split_and!; eauto. by intros ? ?%elem_of_nil. }
  destruct (f !! p) as [[]|] eqn:E; [done| |]; intros H; apply IH in H as (H1 & H2 & H3).
  - split_and!; [done| |].
    + intros k n Hk. destruct (H2 k n Hk) as [|[? ?]]; set_solver.
    + intros k [->|Hk]%elem_of_cons; eauto.
  - split_and!.
    + intros k n Hk. apply H1. rewrite lookup_insert_ne; [done|]. congruence.
    + intros k n Hk. destruct (H2 k n Hk) as [Hi|[? ?]]; [|set_solver].
      rewrite lookup_insert in Hi. case_decide; [|by left]. right. simplify_eq. set_solver.
    + intros k [->|Hk]%elem_of_cons; [|eauto]. apply H1. apply lookup_insert_eq.
Qed.

Lemma create_dir_all_ok f p f' : create_dir_all f p = Ok f' ->
  extends_with_dirs f f' p /\ is_dir f' p = true.
Proof.
  intros (H1 & H2 & H3)%create_dirs_spec. split; [done|].
  unfold is_dir. apply bool_decide_eq_true_2.
  destruct p as [|c p]; [done|]. apply H3. apply elem_of_prefixes. split; [done|].
  exists []. by rewrite app_nil_r.
Qed.

(** [create_dir_all] succeeds unless a file is in the way. *)
Lemma create_dirs_total f ps :
  (forall k c, k ∈ ps -> f !! k <> Some (File c)) -> exists f', create_dirs f ps = Ok f'.
Proof.
  revert f. induction ps as [|p ps IH]; intros f Hf; simpl; [eauto|].
  destruct (f !! p) as [[c|]|] eqn:E.
  - exfalso. eapply Hf; [|exact E]. set_solver.
  - apply IH. set_solver.
  - apply IH. intros k c Hk. rewrite lookup_insert. case_decide; [done|]. set_solver.
Qed.

Lemma create_dir_all_wf f p f' : fs_wf f -> create_dir_all f p = Ok f' -> fs_wf f'.
Proof.
  intros Hwf H. apply create_dirs_spec in H as (H1 & H2 & H3). intros k n Hk.
  destruct (H2 k n Hk) as [Hold|[-> Hpre]].
  - destruct (Hwf _ _ Hold) as [? Hd]. split; [done|].
    destruct (parent k) as [|c q] eqn:E; [done|]. simpl in *. eauto.
  - apply elem_of_prefixes in Hpre as [Hk0 [r ->]]. split; [done|].
    destruct (path_snoc k Hk0) as (q & c & ->). rewrite parent_snoc.
    destruct (decide (q = [])) as [->|Hq]; [done|].
    rewrite lookup_node_nonempty by done. apply H3. apply elem_of_prefixes.
    split; [done|]. exists ([c] ++ r). by rewrite app_assoc.
Qed.

(** Nothing to create. *)
Lemma prefixes_are_dirs f d : fs_wf f -> lookup_node f d = Some Dir ->
  forall k, k ∈ prefixes d -> f !! k = Some Dir.
Proof.
  intros Hwf. induction d as [|c d IH] using rev_ind; intros Hd k [Hk [r Hr]]%elem_of_prefixes.
  - by destruct k.
  - rewrite lookup_node_nonempty in Hd by (by destruct d).
    destruct r as [|x r _] using rev_ind.
    + rewrite app_nil_r in Hr. by subst.
    + rewrite app_assoc in Hr. apply app_inj_tail in Hr as [-> <-].
      apply IH; [|apply elem_of_prefixes; eauto].
      destruct (Hwf _ _ Hd) as [_ Hpar]. by rewrite parent_snoc in Hpar.
Qed.

Lemma create_dir_all_existing f d : fs_wf f -> lookup_node f d = Some Dir ->
  create_dir_all f d = Ok f.
Proof.
  intros Hwf Hd. unfold create_dir_all. pose proof (prefixes_are_dirs f d Hwf Hd) as H.
  induction (prefixes d) as [|k ks IH]; [done|]. simpl. rewrite H by set_solver.
  apply IH. set_solver.
Qed.

Lemma prefixes_snoc d c : prefixes (d ++ [c]) = prefixes d ++ [d ++ [c]].
Proof. induction d as [|x d IH]; [done|]. simpl. by rewrite IH, map_app. Qed.

Lemma create_dirs_app f ps qs : (forall k, k ∈ ps -> f !! k = Some Dir) ->
  create_dirs f (ps ++ qs) = create_dirs f qs.
Proof.
  induction ps as [|p ps IH]; [done|]. intros H. simpl. rewrite H by set_solver.
  apply IH. set_solver.
Qed.

(** One missing component. *)
Lemma create_dir_all_child f d c : fs_wf f -> lookup_node f d = Some Dir -> f !! (d ++ [c]) = None ->
  create_dir_all f (d ++ [c]) = Ok (<[d ++ [c] := Dir]> f).
Proof.
  intros Hwf Hd Hc. unfold create_dir_all. rewrite prefixes_snoc.
  rewrite create_dirs_app by (by apply prefixes_are_dirs). simpl. by rewrite Hc.
Qed.

Lemma create_file_ok f p f' : create_file f p = Ok f' ->
  f' = <[p := File []]> f /\ lookup_node f (parent p) = Some Dir /\ p <> [] /\ f !! p <> Some Dir.
Proof.
  unfold create_file. destruct (lookup_node f (parent p)) as [[]|] eqn:Hp; try done.
  destruct (decide (p = [])) as [->|Hne]; [done|].
  rewrite (lookup_node_nonempty f p) by done.
  destruct (f !! p) as [[]|] eqn:E; try done; by intros [= <-].
Qed.

Lemma create_file_total f p : p <> [] ->
  lookup_node f (parent p) = Some Dir -> f !! p <> Some Dir ->
  create_file f p = Ok (<[p := File []]> f).
Proof.
  intros Hp Hpar Hd. unfold create_file. rewrite Hpar.
  rewrite lookup_node_nonempty by done. by destruct (f !! p) as [[]|].
Qed.

Lemma create_file_wf f p f' : fs_wf f -> create_file f p = Ok f' -> fs_wf f'.
Proof. intros Hwf (-> & ? & ? & ?)%create_file_ok. apply fs_wf_insert; auto. Qed.

Lemma append_file_wf f p bs : fs_wf f -> fs_wf (append_file f p bs).
Proof.
  intros Hwf. unfold append_file. destruct (f !! p) as [[c|]|] eqn:E; try done.
  destruct (Hwf _ _ E). apply fs_wf_insert; auto. right. congruence.
Qed.

Lemma write_file_ok f p bs f' : write_file f p bs = Ok f' ->
  f' = <[p := File bs]> f /\ lookup_node f (parent p) = Some Dir /\ p <> [] /\ f !! p <> Some Dir.
Proof.
  unfold write_file. destruct (create_file f p) as [g|] eqn:E; [|done].
  apply create_file_ok in E as (-> & ? & ? & ?). intros [= <-].
  by rewrite insert_insert_eq.
Qed.

Lemma write_file_total f p bs : p <> [] ->
  lookup_node f (parent p) = Some Dir -> f !! p <> Some Dir ->
  write_file f p bs = Ok (<[p := File bs]> f).
Proof.
  intros. unfold write_file. rewrite create_file_total by done. by rewrite insert_insert_eq.
Qed.

Lemma write_file_wf f p bs f' : fs_wf f -> write_file f p bs = Ok f' -> fs_wf f'.
Proof. intros Hwf (-> & ? & ? & ?)%write_file_ok. apply fs_wf_insert; auto. Qed.

Lemma remove_file_ok f p f' : remove_file f p = Ok f' ->
  f' = delete p f /\ exists c, f !! p = Some (File c).
Proof.
  unfold remove_file. destruct p as [|c p]; [done|]. simpl.
  destruct (f !! (c :: p)) as [[]|]; try done. intros [= <-]. eauto.
Qed.

Lemma remove_file_wf f p f' : fs_wf f -> remove_file f p = Ok f' -> fs_wf f'.
Proof.
  intros Hwf (-> & c & Hc)%remove_file_ok k n [Hne Hk]%lookup_delete_Some.
  destruct (Hwf _ _ Hk) as [? Hd]. split; [done|].
  destruct (parent k) as [|a q] eqn:E; [done|]. simpl in *.
  rewrite lookup_delete_ne; [done|]. congruence.
Qed.

(** * [rename] *)

Lemma lookup_move_subtree f p q k :
  move_subtree f p q !! k =
  match strip_path q k with
  | Some rest => f !! (p ++ rest)
  | None => if decide (under p k) then None else f !! k
  end.
Proof.
  unfold move_subtree.
  set (base := filter _ f).
  assert (forall m, (map_fold (fun k v acc => match strip_path p k with
      | Some rest => <[q ++ rest := v]> acc | None => acc end) base m : fs) !! k =
    match strip_path q k with
    | Some rest => match m !! (p ++ rest) with Some v => Some v | None => base !! k end
    | None => base !! k end) as H.
  { intros m. induction m as [|i x m Hi Hfold IH] using map_first_key_ind.
    - rewrite map_fold_empty. destruct (strip_path q k); by rewrite ?lookup_empty.
    - rewrite map_fold_insert_first_key by done.
      destruct (strip_path p i) as [rest|] eqn:Ep.
      + apply strip_path_Some in Ep as ->. rewrite lookup_insert.
        case_decide as E; subst.
        * rewrite strip_path_app. by rewrite lookup_insert_eq.
        * rewrite IH. destruct (strip_path q k) as [r|] eqn:Eq; [|done].
          apply strip_path_Some in Eq as ->. rewrite lookup_insert_ne; [done|].
          intros H%app_inv_head. congruence.
      + rewrite IH. destruct (strip_path q k) as [r|] eqn:Eq; [|done].
        rewrite lookup_insert_ne; [done|]. intros ->. by rewrite strip_path_app in Ep. }
  rewrite H. subst base. rewrite map_lookup_filter.
  destruct (strip_path q k) as [r|] eqn:Eq.
  - destruct (f !! (p ++ r)); [done|]. destruct (f !! k); [|done]. simpl.
    case_guard as G; [|done]. exfalso. apply G. unfold under. simpl. rewrite Eq. eauto.
  - destruct (f !! k); simpl; case_decide; try case_guard as G; try done; simpl in *.
    + exfalso. naive_solver.
    + exfalso. apply G. split; [done|]. by apply strip_path_None.
Qed.

Lemma is_empty_dir_lookup f p k : is_empty_dir f p = true -> under p k -> k <> p -> f !! k = None.
Proof.
  intros He%bool_decide_eq_true Hk Hne. destruct (f !! k) as [n|] eqn:E; [|done].
  assert (filter (fun kv : path * node => under p kv.1 /\ kv.1 <> p) f !! k = Some n) as H
    by (by apply map_lookup_filter_Some).
  by rewrite He in H.
Qed.

Lemma rename_ok f p q f' : fs_wf f -> rename f p q = Ok f' -> p <> q ->
  f' = move_subtree f p q /\ ~ under p q /\ ~ under q p /\
  lookup_node f (parent q) = Some Dir /\ is_Some (f !! p) /\
  (forall k, under q k -> k <> q -> f !! k = None) .
Proof.
  intros Hwf H Hpq. unfold rename in H.
  destruct (lookup_node f p) as [np|] eqn:Ep; [|done].
  rewrite decide_False in H by done. case_decide as Hu; [done|].
  destruct (lookup_node f (parent q)) as [[]|] eqn:Eq; try done.
  assert (p <> []) as Hp0 by (intros ->; apply Hu; apply under_iff; eauto).
  assert (q <> []) as Hq0.
  { intros ->. simpl in H. destruct np; [done|].
    destruct (is_empty_dir f []) eqn:Ee; [|done]. rewrite lookup_node_nonempty in Ep by done.
    rewrite (is_empty_dir_lookup f [] p) in Ep; [done|done| |done]. apply under_iff. by exists p. }
  rewrite lookup_node_nonempty in Ep by done.
  rewrite (lookup_node_nonempty f q) in H by done.
  assert (Hnone : (f !! q <> Some Dir \/ is_empty_dir f q = true) ->
    forall k, under q k -> k <> q -> f !! k = None).
  { intros [Hd|He] k Hk Hne.
    - apply under_iff in Hk as [r ->].
      assert (r <> []) as Hr by (intros ->; by rewrite app_nil_r in Hne). clear Hne.
      induction r as [|c r IH] using rev_ind; [done|]. clear Hr.
      destruct (f !! (q ++ r ++ [c])) as [n|] eqn:En; [|done]. exfalso.
      destruct (Hwf _ _ En) as [_ Hd']. rewrite app_assoc, parent_snoc in Hd'.
      rewrite lookup_node_nonempty in Hd' by (destruct q; [done|by destruct r]).
      destruct (decide (r = [])) as [->|Hr]; [by rewrite app_nil_r in Hd'|].
      by rewrite IH in Hd'.
    - by eapply is_empty_dir_lookup. }
  assert (~ under q p) as Hqp.
  { intros Hqp. enough (f !! p = None) by congruence. apply Hnone; [|done|done].
    destruct np, (f !! q) as [[]|] eqn:E; try done; try (left; congruence).
    right. by destruct (is_empty_dir f q). }
  assert (f' = move_subtree f p q) as ->.
  { destruct np, (f !! q) as [[]|]; try done; try (by injection H).
    destruct (is_empty_dir f q); [by injection H|done]. }
  split_and!; try done. apply Hnone.
  destruct np, (f !! q) as [[]|] eqn:E; try done; try (left; congruence).
  right. by destruct (is_empty_dir f q).
Qed.

Lemma rename_wf f p q f' : fs_wf f -> rename f p q = Ok f' -> fs_wf f'.
Proof.
  intros Hwf H. destruct (decide (p = q)) as [->|Hpq].
  { unfold rename in H. destruct (lookup_node f q); [|done].
    rewrite decide_True in H by done. by injection H as <-. }
  apply rename_ok in H as (-> & Hpq' & Hqp & Hpar & [np Hp] & Hnone); [|done|done].
  intros k n Hk. rewrite lookup_move_subtree in Hk.
  assert (Hdir : forall d, lookup_node f d = Some Dir -> ~ under p d -> ~ under q d ->
    lookup_node (move_subtree f p q) d = Some Dir).
  { intros d Hd Hnp Hnq. destruct d as [|a d]; [done|]. simpl in *.
    rewrite lookup_move_subtree. apply strip_path_None in Hnq. rewrite Hnq.
    by rewrite decide_False. }
  destruct (strip_path q k) as [rest|] eqn:Eq.
  - apply strip_path_Some in Eq as ->.
    destruct (Hwf _ _ Hk) as [_ Hd].
    assert (q <> []) as Hq0 by (intros ->; apply Hqp; apply under_iff; by exists p).
    split; [by destruct q|].
    destruct rest as [|c rest _] using rev_ind.
    + rewrite app_nil_r. apply Hdir; [done| |].
      * intros Hu. apply Hpq'. destruct (path_snoc q Hq0) as (q' & c & ->).
        rewrite parent_snoc in Hu. apply under_iff in Hu as [r ->]. rewrite <- app_assoc. apply under_app.
      * intros Hu. destruct (path_snoc q Hq0) as (q' & c & ->).
        rewrite parent_snoc in Hu. apply under_iff in Hu as [r Hr].
        apply (f_equal length) in Hr. rewrite !length_app in Hr. simpl in Hr. lia.
    + rewrite app_assoc, parent_snoc in *.
      rewrite lookup_node_nonempty by (destruct q; done).
      rewrite lookup_move_subtree, strip_path_app.
      rewrite lookup_node_nonempty in Hd; [done|].
      intros [-> _]%app_eq_nil. apply Hpq'. apply under_iff. by exists q.
  - case_decide as Hu; [done|]. destruct (Hwf _ _ Hk) as [Hk0 Hd]. split; [done|].
    apply Hdir; [done| |].
    + intros [r Hr]%under_iff. apply Hu. destruct (path_snoc k Hk0) as (k' & c & ->).
      rewrite parent_snoc in Hr. subst k'. rewrite <- app_assoc. apply under_app.
    + intros [r Hr]%under_iff. apply strip_path_None in Eq. apply Eq.
      destruct (path_snoc k Hk0) as (k' & c & ->).
      rewrite parent_snoc in Hr. subst k'. rewrite <- app_assoc. apply under_app.
Qed.

(** Renaming to a name that is free. *)
Lemma rename_fresh f d a b : fs_wf f -> lookup_node f d = Some Dir ->
  is_Some (f !! (d ++ [a])) -> f !! (d ++ [b]) = None ->
  rename f (d ++ [a]) (d ++ [b]) = Ok (move_subtree f (d ++ [a]) (d ++ [b])).
Proof.
  intros Hwf Hd [n Ha] Hb. unfold rename.
  rewrite (lookup_node_nonempty f (d ++ [a])), (lookup_node_nonempty f (d ++ [b])) by (by destruct d).
  rewrite Ha.
  assert (a <> b) as Hab by congruence.
  rewrite decide_False by (by intros [_ [=]]%app_inj_tail).
  rewrite decide_False.
  - rewrite parent_snoc, Hd, Hb. by destruct n.
  - intros [r Hr]%under_iff. rewrite <- app_assoc in Hr. apply app_inv_head in Hr. by injection Hr.
Qed.

(** Two renames in two directories, neither inside the other. *)
Section TwoRenames.
Context (f : fs) (A S : path) (a a' s s' : string).
Hypothesis Hwf : fs_wf f.
Hypothesis HA : lookup_node f A = Some Dir.
Hypothesis HS : lookup_node f S = Some Dir.
Hypothesis Hdis : forall x r y r', A ++ x :: r <> S ++ y :: r'.
Hypothesis HAS : forall x r, A ++ x :: r <> S.
Hypothesis Ha : is_Some (f !! (A ++ [a])).
Hypothesis Ha' : f !! (A ++ [a']) = None.
Hypothesis Hs : is_Some (f !! (S ++ [s])).
Hypothesis Hs' : f !! (S ++ [s']) = None.

Lemma strip_snoc_None (d : path) x y r : x <> y -> strip_path (d ++ [x]) (d ++ y :: r) = None.
Proof.
  intros Hxy. apply strip_path_None. intros [z Hz]%under_iff. rewrite <- app_assoc in Hz.
  apply app_inv_head in Hz. simpl in Hz. congruence.
Qed.

Lemma strip_other x y r : strip_path (A ++ [x]) (S ++ y :: r) = None.
Proof.
  apply strip_path_None. intros [z Hz]%under_iff. rewrite <- app_assoc in Hz.
  symmetry in Hz. by apply Hdis in Hz.
Qed.

Lemma strip_other' x y r : strip_path (S ++ [x]) (A ++ y :: r) = None.
Proof.
  apply strip_path_None. intros [z Hz]%under_iff. rewrite <- app_assoc in Hz. by apply Hdis in Hz.
Qed.

Lemma move_other x y r : move_subtree f (A ++ [a]) (A ++ [x]) !! (S ++ y :: r) = f !! (S ++ y :: r).
Proof.
  rewrite lookup_move_subtree, strip_other, decide_False; [done|]. apply strip_path_None, strip_other.
Qed.

Lemma move_keeps_root x : lookup_node (move_subtree f (A ++ [a]) (A ++ [x])) S = Some Dir.
Proof.
  destruct S as [|c S'] eqn:E; [done|]. rewrite <- E in *. rewrite lookup_node_nonempty in HS |- * by (by rewrite E).
  assert (forall z, strip_path (A ++ [z]) S = None) as Hx.
  { intros z. apply strip_path_None. intros [w Hw]%under_iff. rewrite <- app_assoc in Hw. symmetry in Hw. by apply HAS in Hw. }
  rewrite lookup_move_subtree, Hx, decide_False; [done|]. apply strip_path_None, Hx.
Qed.

(** The outcome of both. *)
Lemma rename_two : exists f1 f2,
  rename f (A ++ [a]) (A ++ [a']) = Ok f1 /\ rename f1 (S ++ [s]) (S ++ [s']) = Ok f2 /\ fs_wf f2 /\
  (forall r, f2 !! (S ++ s' :: r) = f !! (S ++ s :: r)) /\ (forall r, f2 !! (S ++ s :: r) = None) /\
  (forall r, f2 !! (A ++ a' :: r) = f !! (A ++ a :: r)) /\ (forall r, f2 !! (A ++ a :: r) = None) /\
  (forall k, ~ under (S ++ [s]) k -> ~ under (S ++ [s']) k -> ~ under (A ++ [a]) k ->
             ~ under (A ++ [a']) k -> f2 !! k = f !! k).
Proof.
  pose proof (rename_fresh f A a a' Hwf HA Ha Ha') as H1.
  pose proof (rename_wf _ _ _ _ Hwf H1) as Hwf1.
  assert (rename (move_subtree f (A ++ [a]) (A ++ [a'])) (S ++ [s]) (S ++ [s']) =
    Ok (move_subtree (move_subtree f (A ++ [a]) (A ++ [a'])) (S ++ [s]) (S ++ [s']))) as H2.
  { apply rename_fresh; [done|apply move_keeps_root|by rewrite move_other|by rewrite move_other]. }
  assert (a <> a' /\ s <> s') as [Haa Hss].
  { split; intros <-; [rewrite Ha' in Ha; by destruct Ha|rewrite Hs' in Hs; by destruct Hs]. }
  assert (Hu : forall (d : path) x r, under (d ++ [x]) (d ++ x :: r)).
  { intros d x r. apply under_iff. exists r. by rewrite <- app_assoc. }
  assert (Hst : forall (d : path) x r, strip_path (d ++ [x]) (d ++ x :: r) = Some r).
  { intros d x r. apply strip_path_Some. by rewrite <- app_assoc. }
  eexists _, _. split; [exact H1|]. split; [exact H2|]. split; [by eapply rename_wf|].
  split_and!; intros.
  - rewrite lookup_move_subtree, Hst, <- app_assoc. simpl. apply move_other.
  - rewrite lookup_move_subtree, strip_snoc_None by done. by rewrite decide_True.
  - rewrite lookup_move_subtree, strip_other', decide_False by (apply strip_path_None, strip_other').
    by rewrite lookup_move_subtree, Hst, <- app_assoc.
  - rewrite lookup_move_subtree, strip_other', decide_False by (apply strip_path_None, strip_other').
    rewrite lookup_move_subtree, strip_snoc_None by done. by rewrite decide_True.
  - match goal with H : ~ under (S ++ [s']) _, G : ~ under (A ++ [a']) _ |- _ =>
      apply strip_path_None in H, G; rewrite lookup_move_subtree, H, decide_False by done;
      rewrite lookup_move_subtree, G, decide_False by done end.
    done.
Qed.
End TwoRenames.

(** * [Path::join] *)

Fixpoint split_slash (s : string) : list string :=
  match s with
  | EmptyString => [EmptyString]
  | String c s =>
    if Ascii.eqb c "/"%char then EmptyString :: split_slash s
    else match split_slash s with
         | h :: t => String c h :: t
         | [] => [String c EmptyString]
         end
  end.

(** [Path::components]: empty components and [.] disappear, [..] stays. *)
Definition components (s : string) : path :=
  filter (fun c => c <> ""%string /\ c <> "."%string) (split_slash s).

(** An absolute argument replaces the path. *)
Definition join (p : path) (s : string) : path :=
  match s with
  | String "/"%char _ => components s
  | _ => p ++ components s
  end.

Definition no_slash (s : string) : Prop := ~ In "/"%char (String.list_ascii_of_string s).

Lemma no_slash_app a b : no_slash (a +:+ b) <-> no_slash a /\ no_slash b.
Proof.
  unfold no_slash. induction a as [|c a IH]; simpl; [tauto|]. tauto.
Qed.

Lemma split_slash_plain s : no_slash s -> split_slash s = [s].
Proof.
  unfold no_slash. induction s as [|c s IH]; simpl; [done|]. intros H.
  destruct (Ascii.eqb_spec c "/"%char); [subst; tauto|]. rewrite IH by tauto. done.
Qed.

(** Joining a plain name appends it. *)
Lemma join_plain p s : no_slash s -> s <> ""%string -> s <> "."%string -> join p s = p ++ [s].
Proof.
  intros Hs He Hd. unfold join, components. rewrite split_slash_plain by done.
  rewrite filter_cons_True by done. rewrite filter_nil.
  destruct s as [|c s]; [done|]. destruct (decide (c = "/"%char)) as [->|Hc].
  - exfalso. apply Hs. simpl. by left.
  - destruct c as [[] [] [] [] [] [] [] []]; first [done | by destruct Hc].
Qed.

(** * Reading a file to the end

    A [read] into a buffer of [cap] bytes returns between one and [cap] bytes
    before the end of the file; [short] says how many it returns at a
    position. *)
Definition read_len (short : Z -> Z) (cap pos rest : Z) : Z :=
  Z.max 1 (Z.min (short pos) (Z.min cap rest)).

Fixpoint read_loop (fuel : nat) (short : Z -> Z) (cap pos : Z) (data : bytes) : list bytes :=
  match fuel, data with
  | S fuel, _ :: _ =>
    let n := read_len short cap pos (zlen data) in
    ztake n data :: read_loop fuel short cap (pos + n) (zdrop n data)
  | _, _ => []
  end.

(** The non-empty reads of the loop [loop { n = read(buf); if n == 0 {break} .. }]. *)
Definition reads (short : Z -> Z) (cap : Z) (data : bytes) : list bytes :=
  read_loop (length data) short cap 0 data.

(** Every read fills the buffer while there is enough data. *)
Definition full_reads : Z -> Z := fun _ => 2 ^ 62.

Lemma read_len_bounds short cap pos (data : bytes) : 1 <= cap -> data <> [] ->
  1 <= read_len short cap pos (zlen data) <= Z.min cap (zlen data).
Proof.
  intros Hcap Hd. assert (1 <= zlen data) by (destruct data; [done|]; rewrite zlen_cons; zlen_pose; lia).
  unfold read_len. lia.
Qed.

Lemma read_loop_concat fuel short cap pos data : 1 <= cap -> (length data <= fuel)%nat ->
  concat (read_loop fuel short cap pos data) = data.
Proof.
  revert pos data. induction fuel as [|fuel IH]; intros pos data Hcap Hf; simpl.
  { destruct data; [done|]. simpl in Hf. lia. }
  destruct data as [|b data]; [done|].
  pose proof (read_len_bounds short cap pos (b :: data) Hcap ltac:(done)) as Hn.
  cbn [concat]. rewrite IH; [apply ztake_zdrop|done|].
  assert (zlen (zdrop (read_len short cap pos (zlen (b :: data))) (b :: data)) < zlen (b :: data))
    by (rewrite zlen_zdrop; lia).
  unfold zlen in *. simpl in *. lia.
Qed.

Lemma reads_concat short cap data : 1 <= cap -> concat (reads short cap data) = data.
Proof. intros. by apply read_loop_concat. Qed.

Lemma reads_bounds short cap data : 1 <= cap ->
  Forall (fun c => 1 <= zlen c <= cap) (reads short cap data).
Proof.
  intros Hcap. unfold reads. generalize 0 as pos. generalize (length data) as fuel.
  intros fuel. revert data. induction fuel as [|fuel IH]; intros data pos; simpl; [done|].
  destruct data as [|b data]; [done|].
  pose proof (read_len_bounds short cap pos (b :: data) Hcap ltac:(done)) as Hn.
  constructor; [|apply IH]. rewrite zlen_ztake by lia. lia.
Qed.
