(* ===== verification/Disk.v ===== *)
(** Regular files as the operating system keeps them: a name leads to an inode,
    an open handle is an inode and a position, and it outlives its name. FileSys.v
    gives the operations on names alone; here is what several open handles on
    one file see, and the agreement of the two as long as a handle is used
    while its name stays. *)
From S2P Require Import Prelude FileSys.

Record disk := {
  d_names : gmap path nat;      (* the regular files: name to inode *)
  d_inodes : gmap nat bytes;
  d_next : nat;                 (* the next fresh inode *)
}.

Definition inode (d : disk) (i : nat) : bytes := default [] (d_inodes d !! i).
Definition set_inode (i : nat) (bs : bytes) (d : disk) : disk :=
  {| d_names := d_names d; d_inodes := <[i := bs]> (d_inodes d); d_next := d_next d |}.

(** [File::create]: truncates the inode of the name, or makes a new one. *)
Definition open_create (p : path) (d : disk) : nat * disk :=
  match d_names d !! p with
  | Some i => (i, set_inode i [] d)
  | None => (d_next d,
      {| d_names := <[p := d_next d]> (d_names d); d_inodes := <[d_next d := []]> (d_inodes d);
         d_next := S (d_next d) |})
  end.

(** [File::open]. *)
Definition open_read (p : path) (d : disk) : option nat := d_names d !! p.

(** Writing at a position of the inode; a gap reads as zeros. *)
Definition pwrite (data : bytes) (off : Z) (bs : bytes) : bytes :=
  match bs with
  | [] => data
  | _ => ztake off (data ++ zeros (off - zlen data)) ++ bs ++ zdrop (off + zlen bs) data
  end.
Definition write_handle (i : nat) (off : Z) (bs : bytes) (d : disk) : disk :=
  set_inode i (pwrite (inode d i) off bs) d.

(** Up to [n] bytes from a position. *)
Definition read_handle (i : nat) (off n : Z) (d : disk) : bytes := ztake n (zdrop off (inode d i)).

(** [remove_file]: the name goes, the inode stays for its handles. *)
Definition unlink (p : path) (d : disk) : disk :=
  {| d_names := delete p (d_names d); d_inodes := d_inodes d; d_next := d_next d |}.

(** What is read under a name. *)
Definition content (d : disk) (p : path) : option bytes := inode d <$> d_names d !! p.

(** A name of its own for every inode in use. *)
Record disk_wf (d : disk) : Prop := {
  dw_inj : forall p q i, d_names d !! p = Some i -> d_names d !! q = Some i -> p = q;
  dw_next : forall p i, d_names d !! p = Some i -> (i < d_next d)%nat;
}.

(** [d'] is [d] but for the names in [P]. *)
Definition same_but (P : path -> Prop) (d d' : disk) : Prop :=
  forall q, ~ P q -> d_names d' !! q = d_names d !! q /\ content d' q = content d q.

Lemma same_but_refl P d : same_but P d d.
Proof. done. Qed.
Lemma same_but_trans P d1 d2 d3 : same_but P d1 d2 -> same_but P d2 d3 -> same_but P d1 d3.
Proof. intros H1 H2 q Hq. destruct (H1 q Hq), (H2 q Hq). split; congruence. Qed.
Lemma same_but_mono (P Q : path -> Prop) d d' : (forall q, P q -> Q q) -> same_but P d d' -> same_but Q d d'.
Proof. intros H Hd q Hq. apply Hd. auto. Qed.

Lemma content_at d p i : d_names d !! p = Some i -> content d p = Some (inode d i).
Proof. intros H. unfold content. by rewrite H. Qed.

Lemma content_Some d p bs : content d p = Some bs <-> exists i, d_names d !! p = Some i /\ inode d i = bs.
Proof. unfold content. rewrite fmap_Some. by split; intros (i & H & E); exists i. Qed.

Lemma inode_set d i bs j : inode (set_inode i bs d) j = if decide (j = i) then bs else inode d j.
Proof. unfold inode. simpl. rewrite lookup_insert. repeat case_decide; by subst. Qed.

Lemma set_inode_wf d i bs : disk_wf d -> disk_wf (set_inode i bs d).
Proof. by intros []. Qed.

Lemma set_inode_same d p i bs : disk_wf d -> d_names d !! p = Some i -> same_but (eq p) d (set_inode i bs d).
Proof.
  intros [Hinj _] Hp q Hq. split; [done|]. unfold content. simpl.
  destruct (d_names d !! q) as [j|] eqn:Ej; [|done]. simpl. rewrite inode_set, decide_False; [done|].
  intros ->. apply Hq. by eapply Hinj.
Qed.

Lemma open_create_spec p d i d' : disk_wf d -> open_create p d = (i, d') ->
  disk_wf d' /\ same_but (eq p) d d' /\ d_names d' !! p = Some i /\ inode d' i = [].
Proof.
  intros Hwf. unfold open_create. destruct (d_names d !! p) as [j|] eqn:Ep; intros [= <- <-].
  - split_and!; [by apply set_inode_wf|by apply set_inode_same|done|by rewrite inode_set, decide_True].
  - pose proof Hwf as [Hinj Hnext]. split_and!.
    + split; simpl.
      * intros q r k. rewrite !lookup_insert. repeat case_decide; subst; try done; [| |apply Hinj].
        -- intros [= <-] E%Hnext. lia.
        -- intros E%Hnext [= <-]. lia.
      * intros q k. rewrite lookup_insert. case_decide; [intros [= <-]; lia|]. intros E%Hnext. lia.
    + intros q Hq. simpl. rewrite lookup_insert_ne by done. split; [done|]. unfold content. simpl.
      rewrite lookup_insert_ne by done. destruct (d_names d !! q) as [j|] eqn:Ej; [|done].
      simpl. f_equal. unfold inode. simpl. rewrite lookup_insert_ne; [done|]. apply Hnext in Ej. lia.
    + apply lookup_insert_eq.
    + unfold inode. simpl. by rewrite lookup_insert_eq.
Qed.

Lemma pwrite_end data bs : pwrite data (zlen data) bs = data ++ bs.
Proof.
  unfold pwrite. destruct bs as [|b bs]; [by rewrite app_nil_r|].
  rewrite Z.sub_diag. change (zeros 0) with (@nil byte). rewrite app_nil_r, ztake_ge by lia.
  rewrite zdrop_ge by (unfold zlen; lia). by rewrite app_nil_r.
Qed.

Lemma write_handle_spec p i off bs d : disk_wf d -> d_names d !! p = Some i ->
  let d' := write_handle i off bs d in
  disk_wf d' /\ same_but (eq p) d d' /\ d_names d' !! p = Some i /\ inode d' i = pwrite (inode d i) off bs.
Proof.
  intros Hwf Hp d'. split_and!; [by apply set_inode_wf|by apply set_inode_same|done|].
  unfold d', write_handle. by rewrite inode_set, decide_True.
Qed.

Lemma unlink_spec p d : disk_wf d ->
  disk_wf (unlink p d) /\ same_but (eq p) d (unlink p d) /\ d_names (unlink p d) !! p = None.
Proof.
  intros [Hinj Hnext]. split_and!.
  - split; simpl.
    + intros q r k [_ ?]%lookup_delete_Some [_ ?]%lookup_delete_Some. eauto.
    + intros q k [_ ?]%lookup_delete_Some. eauto.
  - intros q Hq. unfold content. simpl. by rewrite lookup_delete_ne.
  - apply lookup_delete_eq.
Qed.

(** * Agreement with the operations on names *)

(** The regular files of [f] are those of [d]. *)
Definition shows (f : fs) (d : disk) : Prop := forall p bs, f !! p = Some (File bs) <-> content d p = Some bs.

Lemma shows_insert f d d' p bs : shows f d -> same_but (eq p) d d' -> content d' p = Some bs ->
  shows (<[p := File bs]> f) d'.
Proof.
  intros Hs Hd Hp q bs'. destruct (decide (p = q)) as [<-|Hne].
  - rewrite lookup_insert_eq, Hp. split; by intros [= ->].
  - rewrite lookup_insert_ne by done. destruct (Hd q Hne) as [_ ->]. apply Hs.
Qed.

Lemma shows_dirs f f' d p : shows f d -> extends_with_dirs f f' p -> shows f' d.
Proof.
  intros Hs [Hold Hnew] q bs. rewrite <- (Hs q bs). split; [|apply Hold].
  by intros [?|[? _]]%Hnew.
Qed.

Lemma shows_create f f' d p i d' : shows f d -> disk_wf d -> create_file f p = Ok f' -> open_create p d = (i, d') ->
  shows f' d' /\ disk_wf d' /\ d_names d' !! p = Some i.
Proof.
  intros Hs Hwf [-> _]%create_file_ok Ho. destruct (open_create_spec _ _ _ _ Hwf Ho) as (Hwf' & Hd & Hp & Hi).
  split_and!; [|done|done]. apply (shows_insert _ d); [done|done|]. by rewrite (content_at _ _ _ Hp), Hi.
Qed.

Lemma shows_append f d p i bs : shows f d -> disk_wf d -> d_names d !! p = Some i ->
  shows (append_file f p bs) (write_handle i (zlen (inode d i)) bs d).
Proof.
  intros Hs Hwf Hp. destruct (write_handle_spec p i (zlen (inode d i)) bs d Hwf Hp) as (Hwf' & Hd & Hp' & Hi).
  unfold append_file. rewrite (proj2 (Hs p (inode d i)) (content_at _ _ _ Hp)).
  apply (shows_insert _ d); [done|done|]. by rewrite (content_at _ _ _ Hp'), Hi, pwrite_end.
Qed.

Lemma shows_remove f f' d p : shows f d -> disk_wf d -> remove_file f p = Ok f' -> shows f' (unlink p d).
Proof.
  intros Hs Hwf Hr q bs. destruct (unlink_spec p d Hwf) as (_ & Hd & Hn).
  apply remove_file_ok in Hr as [-> _]. destruct (decide (p = q)) as [<-|Hne].
  - rewrite lookup_delete_eq. unfold content. by rewrite Hn.
  - rewrite lookup_delete_ne by done. destruct (Hd q Hne) as [_ ->]. apply Hs.
Qed.

Lemma shows_read f d p bs : shows f d -> p <> [] -> read_file f p = Ok bs -> content d p = Some bs.
Proof.
  intros Hs Hp H. apply Hs. unfold read_file in H. rewrite lookup_node_nonempty in H by done.
  destruct (f !! p) as [[]|]; by simplify_eq.
Qed.

(** Every tree is shown by some disk. *)
Lemma disk_for (f : fs) : exists d, disk_wf d /\ shows f d.
Proof.
  induction f as [|p n f Hp IH] using map_ind.
  - exists {| d_names := ∅; d_inodes := ∅; d_next := 0 |}. split; [by split|done].
  - destruct IH as (d & Hwf & Hs). destruct n as [bs|].
    + destruct (open_create p d) as [i d1] eqn:E. destruct (open_create_spec _ _ _ _ Hwf E) as (W1 & S1 & N1 & I1).
      destruct (write_handle_spec p i 0 bs d1 W1 N1) as (W2 & S2 & N2 & I2). eexists. split; [exact W2|].
      apply (shows_insert _ d); [done|by eapply same_but_trans|]. rewrite (content_at _ _ _ N2), I2, I1.
      change 0 with (zlen (@nil byte)). by rewrite pwrite_end.
    + exists d. split; [done|]. intros q bs. rewrite <- (Hs q bs). destruct (decide (p = q)) as [<-|Hne].
      * rewrite lookup_insert_eq, Hp. done.
      * by rewrite lookup_insert_ne.
Qed.
