(* ===== verification/Locks.v ===== *)
(** The per-file locks (src/lib.rs, [SHARED_FILE_LOCK]): a shared table from
    file ids to [Arc<RwLock<()>>], the operations the handlers run on it, and
    the interleavings of the connections that run them. A lock object keeps
    its identity when its table entry is removed, as an [Arc] does. *)
From S2P Require Import Prelude.

(** * The table and the lock objects *)

(** A [tokio::sync::RwLock]: how many read guards, and whether a write guard. *)
Record rwlock := { readers : nat; writer : bool }.
Definition unlocked : rwlock := {| readers := 0; writer := false |}.

Record LockTable := {
  lt_map : gmap string nat;      (* file id to lock object *)
  lt_heap : gmap nat rwlock;
  lt_next : nat;                 (* the next fresh object *)
}.

Definition empty_locks : LockTable := {| lt_map := ∅; lt_heap := ∅; lt_next := 0 |}.

Definition lock_state (t : LockTable) (l : nat) : rwlock := default unlocked (lt_heap t !! l).

Definition set_lock (l : nat) (s : rwlock) (t : LockTable) : LockTable :=
  {| lt_map := lt_map t; lt_heap := <[l := s]> (lt_heap t); lt_next := lt_next t |}.

(** [map.entry(id).or_insert_with(|| Arc::new(RwLock::new(()))).clone()]. *)
Definition hold_file_lock (id : string) (t : LockTable) : nat * LockTable :=
  match lt_map t !! id with
  | Some l => (l, t)
  | None => (lt_next t,
      {| lt_map := <[id := lt_next t]> (lt_map t);
         lt_heap := <[lt_next t := unlocked]> (lt_heap t);
         lt_next := S (lt_next t) |})
  end.

(** [map.remove(id)]: the object lives on in the clones. *)
Definition release_file_lock (id : string) (t : LockTable) : LockTable :=
  {| lt_map := delete id (lt_map t); lt_heap := lt_heap t; lt_next := lt_next t |}.

Definition try_write (l : nat) (t : LockTable) : option LockTable :=
  let s := lock_state t l in
  if (writer s || negb (readers s =? 0)%nat)%bool then None
  else Some (set_lock l {| readers := 0; writer := true |} t).

Definition try_read (l : nat) (t : LockTable) : option LockTable :=
  let s := lock_state t l in
  if writer s then None
  else Some (set_lock l {| readers := S (readers s); writer := false |} t).

Definition drop_write (l : nat) (t : LockTable) : LockTable :=
  set_lock l {| readers := readers (lock_state t l); writer := false |} t.

Definition drop_read (l : nat) (t : LockTable) : LockTable :=
  set_lock l {| readers := pred (readers (lock_state t l)); writer := writer (lock_state t l) |} t.

(** * Connections that use the locks

    The program points of [handle_upload] and [handle_download] as far as the
    locks go. *)
Inductive role : Set := Uploader | Downloader.

Inductive pc : Set :=
| Start                 (* before [hold_file_lock] *)
| Cloned (l : nat)      (* the [Arc] is cloned, [try_write]/[try_read] is next *)
| Locked (l : nat)      (* the guard is held: the file is read or written *)
| Unlocked              (* after [drop(guard)], [release_file_lock] is next *)
| Finished.

Record task := { t_role : role; t_file : string; t_pc : pc }.

#[export] Instance role_eq_dec : EqDecision role.
Proof. solve_decision. Defined.
#[export] Instance pc_eq_dec : EqDecision pc.
Proof. solve_decision. Defined.

Definition at_pc (p : pc) (k : task) : task :=
  {| t_role := t_role k; t_file := t_file k; t_pc := p |}.

Definition try_lock (k : task) (l : nat) (t : LockTable) : option LockTable :=
  match t_role k with Uploader => try_write l t | Downloader => try_read l t end.

Definition drop_guard (k : task) (l : nat) (t : LockTable) : LockTable :=
  match t_role k with Uploader => drop_write l t | Downloader => drop_read l t end.

Abbreviation tasks := (gmap nat task).
Record sys := { s_table : LockTable; s_tasks : tasks }.

Definition init_sys : sys := {| s_table := empty_locks; s_tasks := ∅ |}.

(** One atomic action of one connection; [fail] is an error or an early return
    while the guard is held, which drops the guard and nothing else. *)
Definition step_task (fail : bool) (k : task) (t : LockTable) : option (task * LockTable) :=
  match t_pc k with
  | Start => let '(l, t') := hold_file_lock (t_file k) t in Some (at_pc (Cloned l) k, t')
  | Cloned l =>
    match try_lock k l t with
    | Some t' => Some (at_pc (Locked l) k, t')
    | None => Some (at_pc Finished k, t)
    end
  | Locked l => Some (at_pc (if fail then Finished else Unlocked) k, drop_guard k l t)
  | Unlocked => Some (at_pc Finished k, release_file_lock (t_file k) t)
  | Finished => None
  end.

Inductive act : Set :=
| Spawn (i : nat) (r : role) (f : string)
| Step (i : nat) (fail : bool).

Definition do_act (a : act) (s : sys) : option sys :=
  match a with
  | Spawn i r f =>
    match s_tasks s !! i with
    | Some _ => None
    | None => Some {| s_table := s_table s;
        s_tasks := <[i := {| t_role := r; t_file := f; t_pc := Start |}]> (s_tasks s) |}
    end
  | Step i fail =>
    match s_tasks s !! i with
    | None => None
    | Some k =>
      match step_task fail k (s_table s) with
      | Some (k', t') => Some {| s_table := t'; s_tasks := <[i := k']> (s_tasks s) |}
      | None => None
      end
    end
  end.

Definition lock_step (s s' : sys) : Prop := exists a, do_act a s = Some s'.

(** A sequence of actions. *)
Fixpoint run_acts (l : list act) (s : sys) : option sys :=
  match l with
  | [] => Some s
  | a :: l => match do_act a s with Some s' => run_acts l s' | None => None end
  end.

(** The task holds a clone of the lock of its file. *)
Definition has_clone (k : task) : bool :=
  match t_pc k with Cloned _ | Locked _ => true | _ => false end.

(** No other connection holds a clone of the lock of [f]. *)
Definition alone (s : sys) (i : nat) (f : string) : Prop :=
  map_Forall (fun j k => j <> i -> t_file k = f -> has_clone k = false) (s_tasks s).

(** The steps in which [release_file_lock] is taken only by the last connection
    that holds a clone of that file's lock. *)
Definition quiet_step (s s' : sys) : Prop :=
  exists a, do_act a s = Some s' /\
    match a with
    | Spawn _ _ _ => True
    | Step i _ => forall k, s_tasks s !! i = Some k -> t_pc k = Unlocked -> alone s i (t_file k)
    end.

(** * The lock objects count their guards *)

Definition locks_with (r : role) (l : nat) (k : task) : Prop := t_role k = r /\ t_pc k = Locked l.
#[export] Instance locks_with_dec r l k : Decision (locks_with r l k).
Proof. unfold locks_with. apply _. Defined.

Definition count (P : task -> Prop) `{!forall k, Decision (P k)} (ks : tasks) : nat :=
  size (filter (fun ik => P ik.2) ks).

Definition b2n (P : Prop) `{!Decision P} : nat := if decide P then 1%nat else 0%nat.

Section Count.
Context (P : task -> Prop) `{!forall k, Decision (P k)}.

Lemma count_empty : count P ∅ = 0%nat.
Proof. unfold count. by rewrite map_filter_empty, map_size_empty. Qed.

Lemma count_insert_new ks i k : ks !! i = None ->
  count P (<[i := k]> ks) = (b2n (P k) + count P ks)%nat.
Proof.
  intros Hi. unfold count, b2n. case_decide as E.
  - rewrite map_filter_insert_True by done. rewrite map_size_insert_None; [done|].
    rewrite map_lookup_filter, Hi. done.
  - rewrite map_filter_insert_False by done. by rewrite delete_id.
Qed.

Lemma count_update ks i k k' : ks !! i = Some k ->
  (count P (<[i := k']> ks) + b2n (P k) = count P ks + b2n (P k'))%nat.
Proof.
  intros Hi. rewrite <- (insert_delete_id ks i k Hi) at 2. rewrite <- insert_delete_eq.
  rewrite !count_insert_new by apply lookup_delete_eq. lia.
Qed.

Lemma count_pos ks i k : ks !! i = Some k -> P k -> (0 < count P ks)%nat.
Proof.
  intros Hi HP. pose proof (count_update ks i k k Hi).
  rewrite <- (insert_delete_id ks i k Hi).
  rewrite count_insert_new by apply lookup_delete_eq. unfold b2n. rewrite decide_True by done. lia.
Qed.

Lemma count_two ks i j k k' : i <> j -> ks !! i = Some k -> ks !! j = Some k' -> P k -> P k' ->
  (2 <= count P ks)%nat.
Proof.
  intros Hij Hi Hj HP HP'. rewrite <- (insert_delete_id ks i k Hi).
  rewrite count_insert_new by apply lookup_delete_eq.
  assert (delete i ks !! j = Some k') as Hj' by by rewrite lookup_delete_ne.
  pose proof (count_pos _ _ _ Hj' HP'). unfold b2n. rewrite decide_True by done. lia.
Qed.
End Count.

(** Each object's state is what the guards held on it say, and every object in
    use is allocated. *)
Definition guards_counted (s : sys) : Prop :=
  (forall l, readers (lock_state (s_table s) l) = count (locks_with Downloader l) (s_tasks s)) /\
  (forall l, count (locks_with Uploader l) (s_tasks s) =
     if writer (lock_state (s_table s) l) then 1%nat else 0%nat) /\
  (forall l, writer (lock_state (s_table s) l) = true -> readers (lock_state (s_table s) l) = 0%nat) /\
  (forall l, (lt_next (s_table s) <= l)%nat -> lock_state (s_table s) l = unlocked) /\
  (forall i k l, s_tasks s !! i = Some k -> (t_pc k = Cloned l \/ t_pc k = Locked l) ->
     (l < lt_next (s_table s))%nat) /\
  (forall f l, lt_map (s_table s) !! f = Some l -> (l < lt_next (s_table s))%nat).

Lemma lock_state_set l s t l' :
  lock_state (set_lock l s t) l' = if decide (l' = l) then s else lock_state t l'.
Proof.
  unfold lock_state, set_lock. simpl. rewrite lookup_insert.
  repeat case_decide; subst; done.
Qed.

Lemma b2n_locks_with r l k : b2n (locks_with r l k) =
  if decide (t_role k = r) then (if decide (t_pc k = Locked l) then 1%nat else 0%nat) else 0%nat.
Proof. unfold b2n, locks_with. repeat case_decide; intuition. Qed.

Section Step.
Variables (t : LockTable) (ks : tasks).
Hypothesis Hinv : guards_counted {| s_table := t; s_tasks := ks |}.

Lemma unlocked_reader l i k : ks !! i = Some k -> locks_with Downloader l k ->
  readers (lock_state t l) <> 0%nat.
Proof.
  intros Hi Hk. destruct Hinv as (Hr & _). simpl in Hr. rewrite Hr.
  pose proof (count_pos _ _ _ _ Hi Hk). lia.
Qed.

Lemma unlocked_writer l i k : ks !! i = Some k -> locks_with Uploader l k ->
  writer (lock_state t l) = true.
Proof.
  intros Hi Hk. destruct Hinv as (_ & Hw & _). simpl in Hw. specialize (Hw l).
  pose proof (count_pos _ _ _ _ Hi Hk). destruct (writer _); [done|lia].
Qed.

(** A step that moves task [i] and changes lock [l0] at most. *)
Lemma guards_counted_move i k p t' l0 s0 :
  ks !! i = Some k ->
  (forall l, lock_state t' l = if decide (l = l0) then s0 else lock_state t l) ->
  (forall r l, l <> l0 -> b2n (locks_with r l (at_pc p k)) = b2n (locks_with r l k)) ->
  (readers s0 + b2n (locks_with Downloader l0 k) =
   readers (lock_state t l0) + b2n (locks_with Downloader l0 (at_pc p k)))%nat ->
  ((if writer s0 then 1 else 0) + b2n (locks_with Uploader l0 k) =
   (if writer (lock_state t l0) then 1 else 0) + b2n (locks_with Uploader l0 (at_pc p k)))%nat ->
  (writer s0 = true -> readers s0 = 0%nat) ->
  (lt_next t <= lt_next t')%nat ->
  (forall l, (lt_next t' <= l)%nat -> l <> l0 \/ s0 = unlocked) ->
  (forall l, (p = Cloned l \/ p = Locked l) -> (l < lt_next t')%nat) ->
  (forall f l, lt_map t' !! f = Some l -> (l < lt_next t')%nat) ->
  guards_counted {| s_table := t'; s_tasks := <[i := at_pc p k]> ks |}.
Proof.
  intros Hi Hls Hother Hrd Hwr Hexcl Hnext Hfr Hpc' Hmap'.
  destruct Hinv as (Hr & Hw & Hx & Hfresh & Hpc & Hmap). simpl in *.
  unfold guards_counted; simpl. split_and!; try done.
  - intros l. rewrite Hls. pose proof (count_update (locks_with Downloader l) ks i k (at_pc p k) Hi) as Hc.
    specialize (Hr l). case_decide as E; [subst l; lia|rewrite (Hother _ _ E) in Hc; lia].
  - intros l. rewrite Hls. pose proof (count_update (locks_with Uploader l) ks i k (at_pc p k) Hi) as Hc.
    specialize (Hw l). case_decide as E; [subst l; lia|rewrite (Hother _ _ E) in Hc; lia].
  - intros l. rewrite Hls. case_decide; auto.
  - intros l Hl. rewrite Hls. case_decide; [|apply Hfresh; lia].
    destruct (Hfr l Hl); congruence.
  - intros j k' l Hj. rewrite lookup_insert in Hj. case_decide as E.
    + simplify_eq. auto.
    + intros Hk'. specialize (Hpc _ _ _ Hj Hk'). lia.
Qed.

(** A step that leaves the locks as they are. *)
Lemma guards_counted_same i k p t' :
  ks !! i = Some k -> (forall l, t_pc k <> Locked l) -> (forall l, p <> Locked l) ->
  (forall l, lock_state t' l = lock_state t l) -> lt_next t' = lt_next t ->
  (forall l, p = Cloned l -> (l < lt_next t)%nat) ->
  (forall f l, lt_map t' !! f = Some l -> lt_map t !! f = Some l) ->
  guards_counted {| s_table := t'; s_tasks := <[i := at_pc p k]> ks |}.
Proof.
  intros Hi Hk Hp Hls Hnext Hcl Hsub. pose proof Hinv as (Hr & Hw & Hx & Hfresh & Hpc & Hmap). simpl in *.
  assert (Hz : forall r l, b2n (locks_with r l k) = 0%nat /\ b2n (locks_with r l (at_pc p k)) = 0%nat).
  { intros r l. rewrite !b2n_locks_with. simpl. specialize (Hk l). specialize (Hp l).
    by repeat case_decide. }
  eapply (guards_counted_move i k p t' 0%nat (lock_state t 0%nat)); eauto; try lia.
  - intros l. rewrite Hls. case_decide; by subst.
  - intros. by rewrite !(proj1 (Hz _ _)), !(proj2 (Hz _ _)).
  - by rewrite !(proj1 (Hz _ _)), !(proj2 (Hz _ _)).
  - by rewrite !(proj1 (Hz _ _)), !(proj2 (Hz _ _)).
  - intros l Hl. destruct (decide (l = 0%nat)); [|by left]. subst. right. apply Hfresh. lia.
  - intros l [?|?]; [rewrite Hnext; auto|by exfalso; eapply Hp].
  - intros f l ?. rewrite Hnext. eauto.
Qed.

Lemma guards_counted_hold i k l t' :
  ks !! i = Some k -> t_pc k = Start -> hold_file_lock (t_file k) t = (l, t') ->
  guards_counted {| s_table := t'; s_tasks := <[i := at_pc (Cloned l) k]> ks |}.
Proof.
  intros Hi Epc Hh. pose proof Hinv as (Hr & Hw & Hx & Hfresh & Hpc & Hmap). simpl in *.
  unfold hold_file_lock in Hh. destruct (lt_map t !! t_file k) as [l'|] eqn:Em; injection Hh as <- <-.
  - apply guards_counted_same; try done; [congruence|]. intros ? [= <-]. eauto.
  - assert (Hu : lock_state t (lt_next t) = unlocked) by (apply Hfresh; lia).
    eapply (guards_counted_move i k _ _ (lt_next t) unlocked); eauto; simpl; try lia;
      rewrite ?b2n_locks_with, ?Hu; simpl; rewrite ?Epc; try (by repeat case_decide).
    + intros l. unfold lock_state. simpl. rewrite lookup_insert. repeat case_decide; by subst.
    + intros r l _. rewrite !b2n_locks_with. simpl. rewrite Epc. by repeat case_decide.
    + intros l [E|E]; [injection E; lia|done].
    + intros f l. rewrite lookup_insert. case_decide; intros; simplify_eq; [lia|].
      specialize (Hmap _ _ ltac:(done)). lia.
Qed.

(** Taking or dropping a guard on [l]. *)
Lemma guards_counted_guard i k l p s0 :
  ks !! i = Some k -> (t_pc k = Cloned l \/ t_pc k = Locked l) ->
  (p = Locked l \/ p = Unlocked \/ p = Finished) ->
  (readers s0 + b2n (locks_with Downloader l k) =
   readers (lock_state t l) + b2n (locks_with Downloader l (at_pc p k)))%nat ->
  ((if writer s0 then 1 else 0) + b2n (locks_with Uploader l k) =
   (if writer (lock_state t l) then 1 else 0) + b2n (locks_with Uploader l (at_pc p k)))%nat ->
  (writer s0 = true -> readers s0 = 0%nat) ->
  guards_counted {| s_table := set_lock l s0 t; s_tasks := <[i := at_pc p k]> ks |}.
Proof.
  intros Hi Epc Hp Hrd Hwr Hexcl. pose proof Hinv as (Hr & Hw & Hx & Hfresh & Hpc & Hmap). simpl in *.
  assert (l < lt_next t)%nat as Hl by eauto.
  eapply (guards_counted_move i k p _ l s0); eauto using lock_state_set; simpl; try lia.
  - intros r l' Hne. rewrite !b2n_locks_with. simpl.
    by destruct Epc as [-> | ->], Hp as [-> |[-> | ->]]; repeat (case_decide; simplify_eq).
  - intros l' [-> | ->]; destruct Hp as [?|[?|?]]; by simplify_eq.
Qed.

Lemma guards_counted_lock i k l t' :
  ks !! i = Some k -> t_pc k = Cloned l -> try_lock k l t = Some t' ->
  guards_counted {| s_table := t'; s_tasks := <[i := at_pc (Locked l) k]> ks |}.
Proof.
  intros Hi Epc Et. unfold try_lock in Et. destruct (t_role k) eqn:Er.
  - unfold try_write in Et. destruct (writer (lock_state t l)) eqn:Ew; [done|].
    destruct (readers (lock_state t l)) eqn:Ed; [|done]. injection Et as <-.
    apply guards_counted_guard; auto; rewrite !b2n_locks_with; simpl;
      rewrite Epc, Er, ?Ew, ?Ed; by repeat (case_decide; simplify_eq).
  - unfold try_read in Et. destruct (writer (lock_state t l)) eqn:Ew; [done|]. injection Et as <-.
    apply guards_counted_guard; auto; rewrite ?b2n_locks_with; simpl;
      rewrite ?Epc, ?Er, ?Ew; repeat (case_decide; simplify_eq); lia.
Qed.

Lemma guards_counted_drop i k l p :
  ks !! i = Some k -> t_pc k = Locked l -> (p = Unlocked \/ p = Finished) ->
  guards_counted {| s_table := drop_guard k l t; s_tasks := <[i := at_pc p k]> ks |}.
Proof.
  intros Hi Epc Hp. pose proof Hinv as (Hr & Hw & Hx & Hfresh & Hpc & Hmap). simpl in *.
  unfold drop_guard. destruct (t_role k) eqn:Er.
  - pose proof (unlocked_writer l i k Hi ltac:(done)) as Ew. pose proof (Hx l Ew) as Ed.
    apply guards_counted_guard; auto; rewrite ?b2n_locks_with; simpl;
      rewrite ?Epc, ?Er, ?Ew, ?Ed; destruct Hp as [-> | ->]; by repeat (case_decide; simplify_eq).
  - pose proof (unlocked_reader l i k Hi ltac:(done)) as Ed.
    apply guards_counted_guard; auto; rewrite ?b2n_locks_with; simpl; rewrite ?Epc, ?Er;
      [destruct Hp as [-> | ->]; repeat (case_decide; simplify_eq); lia..|].
    intros Ew. by rewrite Hx.
Qed.
End Step.

Lemma guards_counted_init : guards_counted init_sys.
Proof. unfold guards_counted. simpl. split_and!; intros; by try apply lookup_empty_Some in H. Qed.

Lemma guards_counted_spawn t ks i r f :
  guards_counted {| s_table := t; s_tasks := ks |} -> ks !! i = None ->
  guards_counted {| s_table := t;
    s_tasks := <[i := {| t_role := r; t_file := f; t_pc := Start |}]> ks |}.
Proof.
  intros (Hr & Hw & Hx & Hfresh & Hpc & Hmap) Hi. simpl in *.
  unfold guards_counted; simpl. split_and!; try done.
  - intros l. rewrite count_insert_new, b2n_locks_with by done. destruct r; simpl; apply Hr.
  - intros l. rewrite count_insert_new, b2n_locks_with by done. destruct r; simpl; apply Hw.
  - intros j k l Hj. rewrite lookup_insert in Hj. case_decide; simplify_eq; [|eauto].
    intros [?|?]; done.
Qed.

Lemma guards_counted_step s s' : lock_step s s' -> guards_counted s -> guards_counted s'.
Proof.
  intros [a Ha] Hinv. destruct s as [t ks]. destruct a as [i r f|i fail]; simpl in Ha.
  - destruct (ks !! i) as [|] eqn:Hi; [done|]. injection Ha as <-. by apply guards_counted_spawn.
  - destruct (ks !! i) as [k|] eqn:Hi; [|done]. unfold step_task in Ha.
    destruct (t_pc k) as [|l|l| |] eqn:Epc; [| | | |done].
    + destruct (hold_file_lock (t_file k) t) as [l t'] eqn:Eh. injection Ha as <-.
      by eapply guards_counted_hold.
    + destruct (try_lock k l t) as [t'|] eqn:Et; injection Ha as <-.
      * by eapply guards_counted_lock.
      * apply (guards_counted_same _ _ Hinv); try done; congruence.
    + injection Ha as <-. eapply guards_counted_drop; eauto. destruct fail; auto.
    + injection Ha as <-. apply (guards_counted_same _ _ Hinv); try done; [congruence|].
      simpl. by intros f l [_ ?]%lookup_delete_Some.
Qed.

Lemma guards_counted_reachable s : rtc lock_step init_sys s -> guards_counted s.
Proof.
  revert s. apply (rtc_ind_r guards_counted); [apply guards_counted_init|].
  intros s s' _ Hstep IH. by eapply guards_counted_step.
Qed.

Lemma quiet_is_lock_step s s' : quiet_step s s' -> lock_step s s'.
Proof. intros (a & Ha & _). by exists a. Qed.

(** Two guards on one object are two read guards. *)
Lemma guards_exclusive s i j k k' l : guards_counted s -> i <> j ->
  s_tasks s !! i = Some k -> s_tasks s !! j = Some k' ->
  t_pc k = Locked l -> t_pc k' = Locked l ->
  t_role k = Downloader /\ t_role k' = Downloader.
Proof.
  intros Hinv Hij Hi Hj Hk Hk'. destruct s as [t ks]. simpl in *.
  pose proof Hinv as (Hr & Hw & Hx & _). simpl in *.
  destruct (t_role k) eqn:Er, (t_role k') eqn:Er'; [| | |done]; exfalso.
  - pose proof (count_two (locks_with Uploader l) ks i j k k' Hij Hi Hj ltac:(done) ltac:(done)) as H.
    rewrite Hw in H. destruct (writer _); lia.
  - apply (unlocked_reader _ _ Hinv l j k' Hj); [done|]. apply Hx.
    by apply (unlocked_writer _ _ Hinv l i k).
  - apply (unlocked_reader _ _ Hinv l i k Hi); [done|]. apply Hx.
    by apply (unlocked_writer _ _ Hinv l j k').
Qed.

(** * The table points to the lock every clone holds, when releases are quiet *)

Definition clones_current (s : sys) : Prop :=
  forall i k l, s_tasks s !! i = Some k -> t_pc k = Cloned l \/ t_pc k = Locked l ->
    lt_map (s_table s) !! t_file k = Some l.

Lemma hold_file_lock_map f t l t' : hold_file_lock f t = (l, t') ->
  lt_map t' !! f = Some l /\
  (forall f' l', lt_map t !! f' = Some l' -> lt_map t' !! f' = Some l').
Proof.
  unfold hold_file_lock. destruct (lt_map t !! f) eqn:E; intros [= <- <-]; [done|]. simpl.
  split; [apply lookup_insert_eq|]. intros f' l' H. rewrite lookup_insert_ne; [done|]. congruence.
Qed.

Lemma try_lock_map k l t t' : try_lock k l t = Some t' -> lt_map t' = lt_map t.
Proof.
  unfold try_lock, try_write, try_read. repeat case_match; intros; by simplify_eq.
Qed.

Lemma drop_guard_map k l t : lt_map (drop_guard k l t) = lt_map t.
Proof. unfold drop_guard. by destruct (t_role k). Qed.

Lemma clones_current_step s s' : quiet_step s s' -> clones_current s -> clones_current s'.
Proof.
  intros (a & Ha & Hq) Hinv. destruct s as [t ks]. unfold clones_current in *. simpl in *.
  destruct a as [i r f|i fail]; simpl in Ha.
  - destruct (ks !! i) eqn:Hi; [done|]. injection Ha as <-. simpl. intros j k l Hj Hpc.
    rewrite lookup_insert in Hj. case_decide; simplify_eq; [by destruct Hpc|eauto].
  - destruct (ks !! i) as [k|] eqn:Hi; [|done]. unfold step_task in Ha.
    destruct (t_pc k) as [|l|l| |] eqn:Epc; [| | | |done].
    + destruct (hold_file_lock (t_file k) t) as [l t'] eqn:Eh. injection Ha as <-. simpl.
      apply hold_file_lock_map in Eh as [Hnew Hold]. intros j k' l' Hj Hpc.
      rewrite lookup_insert in Hj. case_decide; simplify_eq; [|by eauto].
      destruct Hpc as [[= <-]|?]; done.
    + destruct (try_lock k l t) as [t'|] eqn:Et; injection Ha as <-; simpl;
        [rewrite (try_lock_map _ _ _ _ Et)|]; intros j k' l' Hj Hpc;
        rewrite lookup_insert in Hj; case_decide; simplify_eq; [|by eauto| |by eauto].
      * destruct Hpc as [?|[= <-]]; [done|]. simpl. eauto.
      * by destruct Hpc.
    + injection Ha as <-. simpl. rewrite drop_guard_map. intros j k' l' Hj Hpc.
      rewrite lookup_insert in Hj. case_decide; simplify_eq; [|by eauto].
      by destruct fail, Hpc.
    + injection Ha as <-. simpl. intros j k' l' Hj Hpc.
      rewrite lookup_insert in Hj. case_decide as E; simplify_eq; [by destruct Hpc|].
      rewrite lookup_delete_ne; [eauto|]. intros Hf.
      specialize (Hq k eq_refl Epc j k' Hj ltac:(congruence) (eq_sym Hf)).
      unfold has_clone in Hq. destruct Hpc as [Hpc|Hpc]; by rewrite Hpc in Hq.
Qed.

(** Whatever connections run and however their actions interleave, two
    guards held at once on one lock object are both read guards: an upload's
    guard excludes every other guard on the same object. *)
Theorem lock_exclusion (s : sys) (i j : nat) (k k' : task) (l : nat) :
  rtc lock_step init_sys s -> i <> j ->
  s_tasks s !! i = Some k -> s_tasks s !! j = Some k' ->
  t_pc k = Locked l -> t_pc k' = Locked l ->
  t_role k = Downloader /\ t_role k' = Downloader.
Proof. intros ?%guards_counted_reachable. by apply guards_exclusive. Qed.

Lemma quiet_reachable s : rtc quiet_step init_sys s -> guards_counted s /\ clones_current s.
Proof.
  revert s. apply (rtc_ind_r (fun s => guards_counted s /\ clones_current s)).
  - split; [apply guards_counted_init|]. done.
  - intros s s' _ Hstep [IH1 IH2]. split.
    + eapply guards_counted_step; [by apply quiet_is_lock_step|done].
    + by eapply clones_current_step.
Qed.

Lemma file_exclusive s i j k k' l l' : guards_counted s -> clones_current s -> i <> j ->
  s_tasks s !! i = Some k -> s_tasks s !! j = Some k' -> t_file k = t_file k' ->
  t_pc k = Locked l -> t_pc k' = Locked l' -> t_role k = Downloader /\ t_role k' = Downloader.
Proof.
  intros Hg Hc Hij Hi Hj Hf Hk Hk'.
  pose proof (Hc _ _ _ Hi (or_intror Hk)) as H1. pose proof (Hc _ _ _ Hj (or_intror Hk')) as H2.
  rewrite <- Hf, H1 in H2. injection H2 as <-. by eapply (guards_exclusive s i j).
Qed.

(** As long as [release_file_lock] runs only when no other connection
    still holds a clone of that file's lock, the exclusion holds per file: an
    upload of a file runs alone with respect to every other transfer of it. *)
Theorem file_exclusion_when_quiet (s : sys) (i j : nat) (k k' : task) (l l' : nat) :
  rtc quiet_step init_sys s -> i <> j ->
  s_tasks s !! i = Some k -> s_tasks s !! j = Some k' -> t_file k = t_file k' ->
  t_pc k = Locked l -> t_pc k' = Locked l' ->
  t_role k = Downloader /\ t_role k' = Downloader.
Proof.
  intros [Hg Hc]%quiet_reachable. by apply file_exclusive.
Qed.

Lemma run_acts_sound acts s s' : run_acts acts s = Some s' -> rtc lock_step s s'.
Proof.
  revert s. induction acts as [|a acts IH]; intros s; simpl; [by intros [= ->]|].
  destruct (do_act a s) as [s1|] eqn:E; [|done]. intros H.
  eapply rtc_l; [by exists a|auto].
Qed.

(** An interleaving: two downloads start, the
    first ends, an upload starts. *)
Definition release_trace (f : string) : list act :=
  [Spawn 0 Downloader f; Step 0 false; Step 0 false;
   Spawn 1 Downloader f; Step 1 false; Step 1 false;
   Step 0 false; Step 0 false;
   Spawn 2 Uploader f; Step 2 false; Step 2 false].

(** Without that proviso it fails: the first of two downloads of a file
    removes the table entry when it ends, an upload of the same file then gets
    a fresh lock and runs while the second download is still reading. *)
Theorem release_breaks_exclusion : exists (s : sys) (i j : nat) (k k' : task) (l l' : nat),
  rtc lock_step init_sys s /\ i <> j /\
  s_tasks s !! i = Some k /\ s_tasks s !! j = Some k' /\ t_file k = t_file k' /\
  t_pc k = Locked l /\ t_pc k' = Locked l' /\ t_role k = Uploader /\ t_role k' = Downloader.
Proof.
  eexists _, 2%nat, 1%nat, _, _, _, _. split.
  { apply (run_acts_sound (release_trace "f")). vm_compute. reflexivity. }
  split_and!; [done|vm_compute; reflexivity..].
Qed.

(** A transfer is refused with 409 only because another connection holds
    a guard on the same lock object that conflicts with the one it asked for. *)
Theorem busy_means_conflict (s : sys) (i : nat) (k : task) (l : nat) :
  rtc lock_step init_sys s -> s_tasks s !! i = Some k -> t_pc k = Cloned l ->
  try_lock k l (s_table s) = None ->
  exists j k', s_tasks s !! j = Some k' /\ j <> i /\ t_pc k' = Locked l /\
    (t_role k = Uploader \/ t_role k' = Uploader).
Proof.
  intros Hg%guards_counted_reachable Hi Hpc Hbusy. destruct s as [t ks]. simpl in *.
  destruct Hg as (Hr & Hw & Hx & _). simpl in *.
  assert (Hex : forall r, count (locks_with r l) ks <> 0%nat ->
    (t_role k = Uploader \/ r = Uploader) ->
    exists j k', ks !! j = Some k' /\ j <> i /\ t_pc k' = Locked l /\
      (t_role k = Uploader \/ t_role k' = Uploader)).
  { intros r Hc Hor. unfold count in Hc. rewrite map_size_ne_0_lookup in Hc.
    destruct Hc as (j & k' & [Hj [Hrole Hl]]%map_lookup_filter_Some).
    exists j, k'. simpl in *. split_and!; try done; [congruence|]. by subst r. }
  unfold try_lock, try_write, try_read in Hbusy.
  destruct (t_role k) eqn:Er; destruct (writer (lock_state t l)) eqn:Ew; try done.
  - apply (Hex Uploader); [by rewrite Hw, Ew|auto].
  - apply (Hex Downloader); [|auto]. rewrite <- Hr. by destruct (readers (lock_state t l)).
  - apply (Hex Uploader); [by rewrite Hw, Ew|auto].
Qed.

(** * Concrete runs: a download and an upload of two files, an upload that
    finds its file busy *)

Definition run_or_init (l : list act) : sys := default init_sys (run_acts l init_sys).

Definition two_readers : sys :=
  run_or_init [Spawn 0 Downloader "f"; Step 0 false; Step 0 false;
               Spawn 1 Downloader "f"; Step 1 false; Step 1 false].

Definition busy_upload : sys :=
  run_or_init [Spawn 0 Downloader "f"; Step 0 false; Step 0 false; Spawn 1 Uploader "f"; Step 1 false].

Definition downloader_at (p : pc) : task := {| t_role := Downloader; t_file := "f"; t_pc := p |}.

Lemma run_or_init_reachable l : run_acts l init_sys <> None -> rtc lock_step init_sys (run_or_init l).
Proof.
  unfold run_or_init. intros H. destruct (run_acts l init_sys) eqn:E; [|done].
  by eapply run_acts_sound.
Qed.

Lemma lock_exclusion_witness : t_role (downloader_at (Locked 0)) = Downloader.
Proof.
  apply (lock_exclusion two_readers 0 1 (downloader_at (Locked 0)) (downloader_at (Locked 0)) 0);
    [apply run_or_init_reachable; vm_compute; discriminate|discriminate|vm_compute; reflexivity..].
Defined.

Lemma file_exclusion_when_quiet_witness : t_role (downloader_at (Locked 0)) = Downloader.
Proof.
  apply (file_exclusion_when_quiet two_readers 0 1 (downloader_at (Locked 0)) (downloader_at (Locked 0)) 0 0);
    [|discriminate|vm_compute; reflexivity..].
  eapply rtc_l; [by exists (Spawn 0 Downloader "f")|].
  eapply rtc_l; [exists (Step 0 false); split; [reflexivity|by intros ? [= <-]]|].
  eapply rtc_l; [exists (Step 0 false); split; [reflexivity|by intros ? [= <-]]|].
  eapply rtc_l; [by exists (Spawn 1 Downloader "f")|].
  eapply rtc_l; [exists (Step 1 false); split; [reflexivity|by intros ? [= <-]]|].
  eapply rtc_l; [exists (Step 1 false); split; [reflexivity|by intros ? [= <-]]|].
  apply rtc_refl.
Defined.

Lemma busy_means_conflict_witness : exists j k',
  s_tasks busy_upload !! j = Some k' /\ j <> 1%nat /\ t_pc k' = Locked 0 /\
  (Uploader = Uploader \/ t_role k' = Uploader).
Proof.
  apply (busy_means_conflict busy_upload 1 {| t_role := Uploader; t_file := "f"; t_pc := Cloned 0 |} 0);
    [apply run_or_init_reachable; vm_compute; discriminate|vm_compute; reflexivity..].
Defined.
