(* ===== verification/Lib.v ===== *)
(** src/lib.rs: where things are stored, the configuration read from the
    environment, the metadata next to each file, the client's catalog and map
    of trusted servers, the transfer counters. *)
From Stdlib Require Import Floats Ascii.
From S2P Require Import Prelude F64 External RateLimit FileSys.

(** * Sizes and timeouts *)

Definition NETWORK_READ_BUFFER : Z := 4 * 1024 * 1024.
Definition NETWORK_WRITE_BUFFER : Z := 8 * 1024 * 1024.
Definition READ_CHUNK_SIZE : Z := 64 * 1024.
Definition WRITE_CHUNK_SIZE : Z := 96 * 1024.
(** Durations in seconds. *)
Definition READ_TIMEOUT : Z := 30.
Definition WRITE_TIMEOUT : Z := 60.
Definition CHUNK_TIMEOUT : Z := 30.
Definition HANDSHAKE_TIMEOUT : Z := 15.

(** * Directories *)

Section Dirs.
(** [dirs::home_dir()]. *)
Variable home_dir : option path.

Definition in_home (cs : path) : result path :=
  match home_dir with
  | None => Err "Failed to get home directory"
  | Some h => Ok (h ++ cs)
  end.

Definition get_storage_dir : result path := in_home [".rdrive"; "storage"]%string.
Definition get_public_storage_dir : result path := in_home [".rdrive"; "storage"; "public"]%string.
Definition get_authorized_client_dir : result path := in_home [".rdrive"; "authorized_keys"]%string.
Definition get_server_key_dir : result path := in_home [".rdrive"; "server"]%string.
Definition get_user_key_dir : result path := in_home [".rdrive"; "user"]%string.

Definition get_catalog_path : result path :=
  match get_user_key_dir with Ok p => Ok (join p "catalog.map") | Err e => Err e end.
Definition get_authorized_server_map_path : result path :=
  match get_user_key_dir with Ok p => Ok (join p "server.map") | Err e => Err e end.
End Dirs.

(** * The configuration *)

(** [str::parse] of an unsigned integer: an optional [+] and decimal digits. *)
Definition digit_of (c : ascii) : option Z :=
  let n := Z.of_nat (nat_of_ascii c) in
  if (48 <=? n) && (n <=? 57) then Some (n - 48) else None.

Fixpoint parse_digits (s : string) (acc max : Z) : option Z :=
  match s with
  | EmptyString => Some acc
  | String c s =>
    match digit_of c with
    | Some d => let v := acc * 10 + d in if v <=? max then parse_digits s v max else None
    | None => None
    end
  end.

Definition parse_uint (max : Z) (s : string) : option Z :=
  match s with
  | EmptyString => None
  | String "+"%char EmptyString => None
  | String "+"%char s => parse_digits s 0 max
  | s => parse_digits s 0 max
  end.

(** [str::parse::<bool>]. *)
Definition parse_bool (s : string) : option bool :=
  if String.eqb s "true" then Some true
  else if String.eqb s "false" then Some false else None.

Section Env.
(** [std::env::var(..).ok()], after [dotenv] filled it. *)
Variable env : string -> option string.

Definition env_parse {A} (parse : string -> option A) (name : string) (dflt : A) : A :=
  default dflt (env name ≫= parse).

Definition ENABLE_ECHO : bool := env_parse parse_bool "ENABLE_ECHO" false.
Definition ENABLE_CLIENT_WHITELIST : bool := env_parse parse_bool "ENABLE_CLIENT_WHITELIST" true.
Definition MAX_CONNECTIONS : Z := env_parse (parse_uint (U64_MOD - 1)) "MAX_CONNECTIONS" 256.
Definition MAX_FILE_SIZE_GB : Z :=
  env_parse (parse_uint (U64_MOD - 1)) "MAX_FILE_SIZE_GB" (8 * 1024 * 1024 * 1024).
Definition CONNECTION_LIFETIME : Z :=
  env_parse (parse_uint (U64_MOD - 1)) "CONNECTION_LIFETIME_SECS" 3600.
End Env.

(** * Hashing a file *)

Section Hash.
Context {HX : Hex} {SH : Sha2}.

(** [file_hasher]: the reads of the file go through the hasher one by one. *)
Definition file_hasher (short : Z -> Z) (f : fs) (p : path) : result string :=
  match read_file f p with
  | Err e => Err e
  | Ok data =>
    Ok (encode (sha256_finalize
      (foldl sha256_update sha256_new (reads short READ_CHUNK_SIZE data))))
  end.

Lemma sha256_update_concat {SHL : Sha2Laws} (s : sha256_state) (cs : list bytes) :
  foldl sha256_update s cs = sha256_update s (concat cs).
Proof.
  revert s. induction cs as [|c cs IH]; intros s; simpl; [by rewrite sha256_update_nil|].
  by rewrite IH, sha256_update_app.
Qed.

Lemma file_hasher_eq {SHL : Sha2Laws} short f p data : read_file f p = Ok data ->
  file_hasher short f p = Ok (encode (sha256_digest data)).
Proof.
  unfold file_hasher. intros ->. rewrite sha256_update_concat, reads_concat by done.
  by rewrite sha256_digest_streaming.
Qed.
End Hash.

(** * Metadata *)

Record MetadataFile := {
  m_filename : string;
  m_file_size : Z;
  m_file_hash : string;
  m_file_key_hash : string;
}.

#[export] Instance MetadataFile_eq_dec : EqDecision MetadataFile.
Proof. solve_decision. Defined.

Section Metadata.
Context {PM : Postcard MetadataFile}.

Definition read_from_disk (f : fs) (p : path) : result MetadataFile :=
  match read_file f p with Ok bs => from_bytes bs | Err e => Err e end.

Definition save_to_disk (f : fs) (p : path) (m : MetadataFile) : result fs :=
  match to_allocvec m with Ok bs => write_file f p bs | Err e => Err e end.

Lemma save_then_read {L : PostcardLaws MetadataFile} f p m f' :
  save_to_disk f p m = Ok f' -> read_from_disk f' p = Ok m.
Proof.
  unfold save_to_disk, read_from_disk. destruct (to_allocvec m) as [bs|] eqn:E; [|done].
  intros (-> & _ & Hp & _)%write_file_ok. unfold read_file.
  rewrite lookup_node_nonempty, lookup_insert_eq by done. by apply from_to_allocvec.
Qed.

Lemma save_to_disk_ok f p m f' : save_to_disk f p m = Ok f' ->
  exists bs, to_allocvec m = Ok bs /\ f' = <[p := File bs]> f /\ write_file f p bs = Ok f'.
Proof.
  unfold save_to_disk. destruct (to_allocvec m) as [bs|]; [|done]. intros H. exists bs.
  split; [done|]. split; [|done]. by apply write_file_ok in H as [-> _].
Qed.

Lemma save_to_disk_total {L : PostcardLaws MetadataFile} f p m : p <> [] ->
  lookup_node f (parent p) = Some Dir -> f !! p <> Some Dir ->
  exists bs, to_allocvec m = Ok bs /\ save_to_disk f p m = Ok (<[p := File bs]> f).
Proof.
  intros Hp Hpar Hd. destruct (to_allocvec_total m) as [bs Hbs]. exists bs. split; [done|].
  unfold save_to_disk. rewrite Hbs. by apply write_file_total.
Qed.
End Metadata.

(** * The client's catalog *)

Record FileHistory := { name : string; last_push : string; last_pull : string }.

Record Catalog := {
  file_map : gmap string FileHistory;
  file_index : gmap string (list string);
}.

Definition empty_catalog : Catalog := {| file_map := ∅; file_index := ∅ |}.

(** The in-memory part of [update_on_push]. *)
Definition catalog_push (timestamp file_name file_id : string) (c : Catalog) : Catalog :=
  {| file_map := <[file_id :=
       match file_map c !! file_id with
       | Some m => {| name := name m; last_push := timestamp; last_pull := last_pull m |}
       | None => {| name := file_name; last_push := timestamp; last_pull := "never" |}
       end]> (file_map c);
     file_index := <[file_name :=
       match file_index c !! file_name with
       | Some tracked => if bool_decide (file_id ∈ tracked) then tracked else tracked ++ [file_id]
       | None => [file_id]
       end]> (file_index c) |}.

(** The in-memory part of [update_on_pull]. *)
Definition catalog_pull (timestamp file_id : string) (c : Catalog) : Catalog :=
  {| file_map :=
       match file_map c !! file_id with
       | Some m => <[file_id := {| name := name m; last_push := last_push m; last_pull := timestamp |}]> (file_map c)
       | None => file_map c
       end;
     file_index := file_index c |}.

Section CatalogIO.
Context {JC : Json Catalog}.

(** [read_to_string]; the text is taken as it is, the check that it is UTF-8 is
    not modelled. *)
Definition read_to_string (f : fs) (p : path) : result string :=
  match read_file f p with Ok bs => Ok (String.string_of_list_byte bs) | Err e => Err e end.

Definition catalog_read (f : fs) (p : path) : result Catalog :=
  match read_to_string f p with Ok s => from_str s | Err e => Err e end.

Definition catalog_write (f : fs) (p : path) (c : Catalog) : result fs :=
  match to_string_pretty c with
  | Ok s => write_file f p (as_bytes s)
  | Err e => Err ("Failed to serialize catalog to JSON: " +:+ e)
  end.
End CatalogIO.

(** * The map of trusted servers *)

Record SocketAddr := { sa_ip : IpAddr; sa_port : Z }.

#[export] Instance SocketAddr_eq_dec : EqDecision SocketAddr.
Proof. solve_decision. Defined.
#[export] Instance SocketAddr_countable : Countable SocketAddr.
Proof.
  refine (inj_countable' (fun a => (sa_ip a, sa_port a))
    (fun p => {| sa_ip := p.1; sa_port := p.2 |}) _).
  by intros [].
Defined.

Record AuthServerMap := { server_map : gmap SocketAddr string }.

Definition server_map_insert (a : SocketAddr) (k : string) (m : AuthServerMap) : AuthServerMap :=
  {| server_map := <[a := k]> (server_map m) |}.

Section ServerMapIO.
Context {JS : Json AuthServerMap}.

Definition server_map_read (f : fs) (p : path) : result AuthServerMap :=
  match read_to_string f p with Ok s => from_str s | Err e => Err e end.

Definition server_map_write (f : fs) (p : path) (m : AuthServerMap) : result fs :=
  match to_string_pretty m with
  | Ok s => write_file f p (as_bytes s)
  | Err e => Err e
  end.
End ServerMapIO.

(** * The counters *)

Record Tracker := {
  total_download : Z;          (* usize *)
  total_uploaded : Z;          (* usize *)
  total_bandwidth_gb : f64;
}.

Definition default_tracker : Tracker :=
  {| total_download := 0; total_uploaded := 0; total_bandwidth_gb := 0%float |}.

Definition GIB : f64 := 1073741824%float.

(** [usize] addition of the release build. *)
Definition usize_add (a b : Z) : Z := (a + b) mod U64_MOD.

Definition log_upload (n : Z) (t : Tracker) : Tracker :=
  {| total_download := total_download t;
     total_uploaded := usize_add (total_uploaded t) 1;
     total_bandwidth_gb := (total_bandwidth_gb t + f64_of_Z n / GIB)%float |}.

Definition log_download (n : Z) (t : Tracker) : Tracker :=
  {| total_download := usize_add (total_download t) 1;
     total_uploaded := total_uploaded t;
     total_bandwidth_gb := (total_bandwidth_gb t + f64_of_Z n / GIB)%float |}.

(** [try_get_uptime_hrs]: whole hours since [START_TIME]; times in ns. *)
Definition try_get_uptime_hrs (start : option Z) (now : Z) : f64 :=
  match start with
  | Some s => f64_of_Z (Z.quot (now - s) (3600 * NANOS_PER_SEC))
  | None => 0%float
  end.
