(* ===== verification/Config.v ===== *)
(** src/lib.rs: the settings of the rate limiter, read from the environment as
    [f64]. [RATE_LIMIT_MAX_TOKENS] and [RATE_LIMIT_REFILL_RATE] go through
    [str::parse::<f64>], which accepts [nan] and [inf] as well as numbers. *)
From Stdlib Require Import Floats Ascii.
From S2P Require Import Prelude F64 External RateLimit FileSys Locks Lib.

(** * [str::parse::<f64>]

    [[+|-] (nan | inf | infinity | digits[.digits][e[+|-]digits])], in any case,
    with at least one digit before the exponent; a number is rounded to the
    nearest double, ties to even. *)

Definition ascii_lower (c : ascii) : ascii :=
  let n := nat_of_ascii c in
  if ((65 <=? n) && (n <=? 90))%nat then ascii_of_nat (n + 32) else c.

(** [s.to_ascii_lowercase()]. *)
Fixpoint to_ascii_lower (s : string) : string :=
  match s with
  | EmptyString => EmptyString
  | String c s => String (ascii_lower c) (to_ascii_lower s)
  end.

(** Decimal digits from the front: their value after [acc], how many, the rest. *)
Fixpoint scan_digits (s : string) (acc count : Z) : Z * Z * string :=
  match s with
  | String c rest =>
    match digit_of c with
    | Some d => scan_digits rest (acc * 10 + d) (count + 1)
    | None => (acc, count, s)
    end
  | EmptyString => (acc, count, s)
  end.

Definition split_sign (s : string) : bool * string :=
  match s with
  | String "-"%char s => (true, s)
  | String "+"%char s => (false, s)
  | s => (false, s)
  end.

(** The digits after [e]: all that is left. *)
Definition scan_exponent (s : string) : option Z :=
  let '(neg, s) := split_sign s in
  match scan_digits s 0 0 with
  | (e, count, EmptyString) => if count =? 0 then None else Some (if neg then - e else e)
  | _ => None
  end.

(** The number [m * 10^e], and how many digits it was written with. *)
Definition scan_number (s : string) : option (Z * Z * Z) :=
  let '(int, before, rest) := scan_digits s 0 0 in
  let '(m, after, rest) :=
    match rest with
    | String "."%char rest => scan_digits rest int 0
    | _ => (int, 0, rest)
    end in
  if before + after =? 0 then None
  else
    match rest with
    | EmptyString => Some (m, - after, before + after)
    | String c rest =>
      if decide (ascii_lower c = "e"%char) then
        match scan_exponent rest with
        | Some e => Some (m, e - after, before + after)
        | None => None
        end
      else None
    end.

(** The double nearest to [m * 10^e]. Beyond [10^400] a number of one digit or
    more is infinite, and below [10^-400] it is zero: the power is not taken. *)
Definition round_decimal (neg : bool) (m e digits : Z) : f64 :=
  match m with
  | Zpos p =>
    if 400 <? e then (if neg then PrimFloat.neg_infinity else PrimFloat.infinity)
    else if e + digits <? -400 then (if neg then PrimFloat.neg_zero else PrimFloat.zero)
    else
      let '(mz, ez, lz) :=
        SpecFloat.SFdiv_core_binary prec emax (Zpos p * 10 ^ Z.max e 0) 0 (10 ^ Z.max (- e) 0) 0 in
      SF2Prim (SpecFloat.binary_round_aux prec emax neg mz ez lz)
  | _ => if neg then PrimFloat.neg_zero else PrimFloat.zero
  end.

Definition parse_f64 (s : string) : option f64 :=
  let '(neg, body) := split_sign s in
  let word := to_ascii_lower body in
  if String.eqb word "nan" then Some PrimFloat.nan
  else if String.eqb word "inf" || String.eqb word "infinity" then Some (if neg then PrimFloat.neg_infinity else PrimFloat.infinity)
  else match scan_number body with
       | Some (m, e, digits) => Some (round_decimal neg m e digits)
       | None => None
       end.

Example parse_default : parse_f64 "20.0" = Some 20%float. Proof. reflexivity. Qed.
Example parse_tenth : parse_f64 "0.1" = Some 0x1.999999999999ap-4%float. Proof. reflexivity. Qed.
Example parse_exponent : parse_f64 "-1.5E+2" = Some (-150)%float. Proof. reflexivity. Qed.
Example parse_tie : parse_f64 "9007199254740993" = Some 9007199254740992%float. Proof. reflexivity. Qed.
Example parse_max : parse_f64 "1.7976931348623157e308" = Some 0x1.fffffffffffffp+1023%float. Proof. reflexivity. Qed.
Example parse_over : parse_f64 "1e309" = Some PrimFloat.infinity. Proof. reflexivity. Qed.
Example parse_least : parse_f64 "4.9e-324" = Some 0x1p-1074%float. Proof. reflexivity. Qed.
Example parse_under : parse_f64 "2.4e-324" = Some PrimFloat.zero. Proof. reflexivity. Qed.
Example parse_inf : parse_f64 "-Infinity" = Some PrimFloat.neg_infinity. Proof. reflexivity. Qed.
Example parse_point : parse_f64 "." = None. Proof. reflexivity. Qed.
Example parse_space : parse_f64 " 1" = None. Proof. reflexivity. Qed.
Example parse_empty_exponent : parse_f64 "1e" = None. Proof. reflexivity. Qed.

(** * The limiter of the server *)

Section Settings.
(** [std::env::var(..).ok()]. *)
Variable env : string -> option string.

Definition RATE_LIMITER : RateLimiter :=
  let max_tokens := env_parse env parse_f64 "RATE_LIMIT_MAX_TOKENS" 20%float in
  let refill_rate := env_parse env parse_f64 "RATE_LIMIT_REFILL_RATE" 10%float in
  init_limiter max_tokens refill_rate.

(** Every bucket has the parameters of the limiter it belongs to, and a bucket
    without a limit has no number of tokens. *)
Definition limiter_of_settings (l : RateLimiter) : Prop :=
  rl_max_tokens l = rl_max_tokens RATE_LIMITER /\ rl_refill_rate l = rl_refill_rate RATE_LIMITER /\
  map_Forall (fun _ b => max_tokens b = rl_max_tokens l /\ refill_rate b = rl_refill_rate l /\
                         (is_nan (max_tokens b) = true -> is_nan (tokens b) = true)) (buckets l).

Lemma nan_mul_r x y : is_nan y = true -> is_nan (x * y)%float = true.
Proof.
  rewrite !is_nan_true, FloatAxioms.mul_spec. intros ->. by destruct (Prim2SF x).
Qed.
Lemma nan_add_r x y : is_nan y = true -> is_nan (x + y)%float = true.
Proof. rewrite !is_nan_true, FloatAxioms.add_spec. intros ->. by destruct (Prim2SF x). Qed.
Lemma nan_add_l x y : is_nan x = true -> is_nan (x + y)%float = true.
Proof. rewrite !is_nan_true, FloatAxioms.add_spec. by intros ->. Qed.
Lemma nan_not_reached cost x : is_nan x = true -> (cost <=? x)%float = false.
Proof.
  rewrite is_nan_true, FloatAxioms.leb_spec. intros ->. unfold SpecFloat.SFleb. by destruct (Prim2SF cost) as [| | |[]].
Qed.

(** A refill at a rate that is not a number fills the bucket. *)
Lemma refill_nan_rate now b : is_nan (refill_rate b) = true -> tokens (refill now b) = max_tokens b.
Proof. intros H. unfold refill. simpl. by apply f64_min_nan_l, nan_add_r, nan_mul_r. Qed.

(** A bucket with no limit never gets a number of tokens. *)
Lemma refill_nan_max now b : is_nan (max_tokens b) = true -> is_nan (tokens b) = true ->
  is_nan (tokens (refill now b)) = true.
Proof.
  intros Hm Ht. unfold refill. simpl. rewrite f64_min_nan_l; [done|by apply nan_add_l].
Qed.

Lemma try_consume_settings now cost b :
  (is_nan (max_tokens b) = true -> is_nan (tokens b) = true) ->
  let b' := (try_consume now cost b).2 in
  max_tokens b' = max_tokens b /\ refill_rate b' = refill_rate b /\
  (is_nan (max_tokens b') = true -> is_nan (tokens b') = true).
Proof.
  intros Hb b'. unfold b', try_consume. destruct (cost <=? _)%float eqn:E; simpl.
  - split_and!; [done..|]. intros Hm. pose proof (refill_nan_max now b Hm (Hb Hm)) as H.
    by rewrite nan_not_reached in E.
  - split_and!; [done..|]. intros Hm. by apply (refill_nan_max now b Hm (Hb Hm)).
Qed.

Lemma entry_settings now ip l : limiter_of_settings l ->
  max_tokens (entry_bucket now ip l) = rl_max_tokens l /\ refill_rate (entry_bucket now ip l) = rl_refill_rate l /\
  (is_nan (max_tokens (entry_bucket now ip l)) = true -> is_nan (tokens (entry_bucket now ip l)) = true).
Proof.
  intros (_ & _ & Hb). unfold entry_bucket. destruct (buckets l !! ip) as [b|] eqn:E; simpl; [|done].
  by apply (Hb ip).
Qed.

Lemma consume_settings now ip cost l : limiter_of_settings l ->
  limiter_of_settings (set_buckets (<[ip := (try_consume now cost (entry_bucket now ip l)).2]> (buckets l)) l).
Proof.
  intros Hl. pose proof (entry_settings now ip l Hl) as (Hm & Hr & Hn). destruct Hl as (H1 & H2 & H3).
  split_and!; [done..|]. simpl. apply map_Forall_insert_2; [|done].
  destruct (try_consume_settings now cost _ Hn) as (-> & -> & ?). done.
Qed.

Lemma reachable_settings l : rtc rl_step RATE_LIMITER l -> limiter_of_settings l.
Proof.
  revert l. apply (rtc_ind_r limiter_of_settings).
  - split_and!; [done..|]. apply map_Forall_empty.
  - intros l l' _ Hstep Hl. destruct Hstep as [now ip cost l _ _|now ip l|now age l].
    + unfold is_allowed_cost. pose proof (consume_settings now ip cost l Hl). by destruct (try_consume _ _ _).
    + unfold is_allowed. pose proof (consume_settings now ip 1%float l Hl). by destruct (try_consume _ _ _).
    + destruct Hl as (H1 & H2 & H3). split_and!; [done..|]. simpl. intros i b [Hb _]%map_lookup_filter_Some. by apply (H3 i).
Qed.

(** The two settings are taken as they parse, and [nan] parses. With
    [RATE_LIMIT_REFILL_RATE=nan] the limiter stops limiting: at any time, in any
    state it can reach, every address may run every command that costs no more
    than the maximum, as often as it likes. With [RATE_LIMIT_MAX_TOKENS=nan] it
    refuses everyone, everything, for ever. *)
Theorem nan_settings_break_limiter (l : RateLimiter) (now : Z) (ip : IpAddr) (cost : f64) :
  rtc rl_step RATE_LIMITER l ->
  (env "RATE_LIMIT_REFILL_RATE" = Some "nan"%string -> (cost <=? rl_max_tokens RATE_LIMITER)%float = true ->
    (is_allowed_cost now ip cost l).1 = true) /\
  (env "RATE_LIMIT_MAX_TOKENS" = Some "nan"%string -> (is_allowed_cost now ip cost l).1 = false).
Proof.
  intros Hl%reachable_settings. pose proof (entry_settings now ip l Hl) as (Hm & Hr & Hn).
  destruct Hl as (Hlm & Hlr & _). set (b := entry_bucket now ip l) in *.
  unfold is_allowed_cost. fold b. unfold try_consume. split; intros He.
  - intros Hc. rewrite refill_nan_rate, Hm, Hlm, Hc; [done|].
    rewrite Hr, Hlr. unfold RATE_LIMITER, env_parse. simpl. by rewrite He.
  - rewrite nan_not_reached; [done|].
    assert (is_nan (max_tokens b) = true) as Hnan
      by (rewrite Hm, Hlm; unfold RATE_LIMITER, env_parse; simpl; by rewrite He).
    by apply refill_nan_max; [|apply Hn].
Qed.
End Settings.

Module ConfigWitness.
Definition set_env (name value : string) (n : string) : option string :=
  if String.eqb n name then Some value else None.

Lemma nan_settings_break_limiter_witness :
  (is_allowed_cost 5 (V4 1) 20%float (RATE_LIMITER (set_env "RATE_LIMIT_REFILL_RATE" "nan"))).1 = true /\
  (is_allowed_cost 5 (V4 1) 1%float (RATE_LIMITER (set_env "RATE_LIMIT_MAX_TOKENS" "nan"))).1 = false.
Proof.
  split.
  - apply (nan_settings_break_limiter (set_env "RATE_LIMIT_REFILL_RATE" "nan")
      (RATE_LIMITER (set_env "RATE_LIMIT_REFILL_RATE" "nan")) 5 (V4 1) 20%float); [apply rtc_refl|reflexivity|reflexivity].
  - apply (nan_settings_break_limiter (set_env "RATE_LIMIT_MAX_TOKENS" "nan")
      (RATE_LIMITER (set_env "RATE_LIMIT_MAX_TOKENS" "nan")) 5 (V4 1) 1%float); [apply rtc_refl|reflexivity].
Defined.
End ConfigWitness.
