(* ===== verification/Log.v ===== *)
(** src/log.rs: levels, the level set in the environment, and the line a
    message prints. *)
From S2P Require Import Prelude Lib Config.

Inductive Level : Set := Trace | Debug | Info | Warn | Error.

#[export] Instance Level_eq_dec : EqDecision Level.
Proof. solve_decision. Defined.

(** The discriminants, and the derived order. *)
Definition level_number (l : Level) : Z :=
  match l with Trace => 0 | Debug => 1 | Info => 2 | Warn => 3 | Error => 4 end.
Definition level_ge (a b : Level) : bool := level_number b <=? level_number a.

(** [colored]: what a style makes of a string, and what it prints. *)
Class Colored := {
  ColoredString : Type;
  dimmed : string -> ColoredString;
  blue : string -> ColoredString;
  green : string -> ColoredString;
  yellow : string -> ColoredString;
  red : string -> ColoredString;
  bold : ColoredString -> ColoredString;
  show_colored : ColoredString -> string;
}.

Section Log.
Context {CO : Colored}.
(** [now.format("%H:%M:%S")] of a local time. *)
Variable fmt_time : Z -> string.
(** [std::env::var(..).ok()], after [dotenv] filled it. *)
Variable env : string -> option string.

(** [s.to_lowercase()] is compared with words without a [k], the only ASCII
    letter another character lowers to: lowering the ASCII letters is enough. *)
Definition parse_level (s : string) : option Level :=
  let s := to_ascii_lower s in
  if String.eqb s "trace" then Some Trace
  else if String.eqb s "debug" then Some Debug
  else if String.eqb s "info" then Some Info
  else if String.eqb s "warn" then Some Warn
  else if String.eqb s "error" then Some Error
  else None.

Definition from_env : Level := default Info (env "LOG_LEVEL" ≫= parse_level).

(** [LOG_LEVEL] is [from_env], once. *)
Definition should_log (level : Level) : bool := level_ge level from_env.

Definition level_str (level : Level) : ColoredString :=
  match level with
  | Trace => dimmed "TRACE"
  | Debug => bold (blue "DEBUG")
  | Info => bold (green "INFO")
  | Warn => bold (yellow "WARN")
  | Error => bold (red "ERROR")
  end.

(** The line printed at [now], if any. *)
Definition log (now : Z) (level : Level) (msg : ColoredString) : option string :=
  if negb (should_log level) then None
  else Some ("[" +:+ fmt_time now +:+ "][" +:+ show_colored (level_str level) +:+ "] " +:+ show_colored msg)%string.

(** The macros, on the formatted message. *)
Definition trace (now : Z) (msg : string) : option string := log now Trace (dimmed msg).
Definition debug (now : Z) (msg : string) : option string := log now Debug (blue msg).
Definition info (now : Z) (msg : string) : option string := log now Info (green msg).
Definition warn (now : Z) (msg : string) : option string := log now Warn (yellow msg).
Definition error (now : Z) (msg : string) : option string := log now Error (red msg).

(** The level set in the environment is a threshold: a message is printed
    exactly when its level is at or above it, so what one setting prints is
    printed by every lower one too. Errors are printed whatever the
    environment says; without a setting, or with one that is no level, so are
    warnings and infos, and nothing below. *)
Theorem log_threshold (now : Z) (msg : string) :
  (forall level m, is_Some (log now level m) <-> level_number from_env <= level_number level) /\
  is_Some (error now msg) /\
  ((env "LOG_LEVEL" ≫= parse_level) = None ->
    is_Some (warn now msg) /\ is_Some (info now msg) /\ debug now msg = None /\ trace now msg = None).
Proof.
  assert (forall level m, is_Some (log now level m) <-> level_number from_env <= level_number level) as H.
  { intros level m. unfold log, should_log, level_ge. destruct (level_number from_env <=? _) eqn:E; zbool; simpl.
    - split; [done|]. intros _. eexists. reflexivity.
    - split; [by intros []|lia]. }
  split; [exact H|]. split; [apply H; by destruct from_env|].
  intros He. assert (from_env = Info) as Hi by (unfold from_env; by rewrite He).
  split_and!; [by apply H; rewrite Hi..| |]; unfold debug, trace, log, should_log; by rewrite Hi.
Qed.
End Log.

Module LogWitness.
(** Strings without colours. *)
#[export] Instance plain : Colored := {|
  ColoredString := string; dimmed s := s; blue s := s; green s := s; yellow s := s; red s := s;
  bold s := s; show_colored s := s |}.

Definition quiet (n : string) : option string := if String.eqb n "LOG_LEVEL" then Some "WARN"%string else None.
Example quiet_warn : warn (fun _ => "12:00:00"%string) quiet 0 "low disk" = Some "[12:00:00][WARN] low disk"%string.
Proof. reflexivity. Qed.
Example quiet_info : info (fun _ => "12:00:00"%string) quiet 0 "hello" = None.
Proof. reflexivity. Qed.

Lemma log_threshold_witness :
  is_Some (warn (fun _ => "12:00:00"%string) (fun _ => None) 0 "m") /\
  debug (fun _ => "12:00:00"%string) (fun _ => None) 0 "m" = None.
Proof.
  destruct (log_threshold (fun _ => "12:00:00"%string) (fun _ => None) 0 "m") as (_ & _ & H).
  destruct H as (Hw & _ & Hd & _); [reflexivity|]. split; [exact Hw|exact Hd].
Defined.
End LogWitness.
