(* ===== verification/Users.v ===== *)
(** Where a user's data lives: the names the handlers build from keys and
    identifiers are hexadecimal digests, so joining them to a directory appends
    one component and can never leave it. *)
From Stdlib Require Import Ascii.
From S2P Require Import Prelude F64 External RateLimit FileSys Locks Lib.

Section Users.
Context {HX : Hex} {HXL : HexLaws}.

Lemma list_ascii_as_bytes s : map ascii_of_byte (as_bytes s) = String.list_ascii_of_string s.
Proof.
  unfold as_bytes, String.list_byte_of_string. induction (String.list_ascii_of_string s) as [|c l IH]; [done|].
  simpl. by rewrite IH, ascii_of_byte_of_ascii.
Qed.

Lemma encode_no_slash b : no_slash (encode b).
Proof.
  intros Hin. rewrite <- list_ascii_as_bytes in Hin.
  apply in_map_iff in Hin as (x & Hx & Hin). pose proof (encode_digits b) as Hd.
  rewrite List.Forall_forall in Hd. specialize (Hd _ Hin). by destruct x.
Qed.

Lemma encode_first b c s : encode b = String c s -> c <> "."%char.
Proof.
  intros H ->. pose proof (encode_digits b) as Hd. rewrite H in Hd. by inversion Hd.
Qed.

Lemma encode_nonempty b : b <> [] -> encode b <> EmptyString.
Proof.
  intros Hb H. pose proof (encode_len b) as Hl. rewrite H in Hl. unfold str_len in Hl. simpl in Hl.
  destruct b as [|x b]; [done|]. rewrite zlen_cons in Hl. pose proof (zlen_nonneg b). lia.
Qed.

Lemma join_encode p b : b <> [] -> join p (encode b) = p ++ [encode b].
Proof.
  intros Hb. apply join_plain; [apply encode_no_slash|by apply encode_nonempty|].
  intros H. by apply encode_first in H.
Qed.

(** [join(format!("{}.ext", hex))]. *)
Lemma join_encode_ext p b ext : b <> [] -> no_slash ext ->
  join p (encode b +:+ ext) = p ++ [encode b +:+ ext].
Proof.
  intros Hb He. pose proof (encode_nonempty b Hb) as Hn.
  destruct (encode b) as [|c s] eqn:E; [done|]. apply join_plain.
  - rewrite <- E. apply no_slash_app. split; [apply encode_no_slash|done].
  - done.
  - simpl. intros [= -> _]. by apply encode_first in E.
Qed.

Context {SH : Sha2} {SHL : Sha2Laws}.

Lemma sha512_nonempty b : sha512_digest b <> [].
Proof. intros H. pose proof (sha512_len b) as Hl. by rewrite H in Hl. Qed.
Lemma sha256_nonempty b : sha256_digest b <> [].
Proof. intros H. pose proof (sha256_digest_len b) as Hl. by rewrite H in Hl. Qed.

(** [~/.rdrive/authorized_keys/<sha256 of the hex of the key>]. *)
Definition auth_name (key : bytes) : string := encode (sha256_digest (as_bytes (encode key))).
(** [~/.rdrive/storage/<sha512 of the key>]. *)
Definition storage_name (key : bytes) : string := encode (sha512_digest key).

Definition auth_root (home : path) : path := home ++ [".rdrive"; "authorized_keys"]%string.
Definition storage_root (home : path) : path := home ++ [".rdrive"; "storage"]%string.
Definition auth_entry (home : path) (key : bytes) : path := auth_root home ++ [auth_name key].
Definition user_dir (root : path) (key : bytes) : path := root ++ [storage_name key].

Lemma get_storage_dir_eq home : get_storage_dir (Some home) = Ok (storage_root home).
Proof. done. Qed.
Lemma get_authorized_client_dir_eq home : get_authorized_client_dir (Some home) = Ok (auth_root home).
Proof. done. Qed.

Lemma auth_not_storage home k k' r r' : auth_entry home k ++ r <> user_dir (storage_root home) k' ++ r'.
Proof.
  unfold auth_entry, user_dir, auth_root, storage_root. rewrite <- !app_assoc.
  by intros H%app_inv_head.
Qed.

Lemma auth_not_storage_root home x r y r' :
  auth_root home ++ x :: r <> storage_root home ++ y :: r'.
Proof. unfold auth_root, storage_root. rewrite <- !app_assoc. by intros H%app_inv_head. Qed.
Lemma auth_not_root home x r : auth_root home ++ x :: r <> storage_root home.
Proof. unfold auth_root, storage_root. rewrite <- app_assoc. by intros H%app_inv_head. Qed.

(** A slice of a digest's hex never panics. *)
Lemma str_prefix_encode b n : 0 <= n <= 2 * zlen b -> exists s, str_prefix (encode b) n = Done s.
Proof.
  intros Hn. unfold str_prefix. rewrite (proj2 (Z.ltb_ge _ _)) by (rewrite encode_len; lia).
  destruct (as_bytes (encode b) !! Z.to_nat n) as [x|] eqn:E; [|eauto].
  assert (is_hex_digit x = true) as Hx by exact (Forall_lookup_1 _ _ _ _ (encode_digits b) E).
  destruct x; first [discriminate Hx | eexists; reflexivity].
Qed.
End Users.
