(* ===== verification/World.v ===== *)
(** The state a connection runs in, and the computations over it: what
    [tokio]'s streams and timers, [rand] and the process-wide statics give the
    code. A computation takes the whole state and returns an [outcome] with the
    new state, so that an error, a panic or a cancelled wait keeps the effects
    that happened before it. *)
From S2P Require Import Prelude F64 External RateLimit FileSys Locks Lib.

(** * The state *)

(** What the peer does after the bytes already sent. *)
Inductive read_end : Set :=
| ReadEof                      (* it closed its side *)
| ReadStall                    (* it stays silent *)
| ReadReset (e : string).      (* the connection broke *)

Inductive write_peer : Set :=
| WriteOpen
| WriteStall                   (* it stopped reading and the window is full *)
| WriteBroken (e : string).

Record Conn := {
  rd : bytes;                  (* bytes that have arrived or will arrive *)
  rd_end : read_end;
  wr_pend : bytes;             (* written, not flushed *)
  wr_sent : bytes;             (* flushed to the peer *)
  wr_shut : bool;              (* [shutdown] of the write side *)
  wr_peer : write_peer;
  rng_tape : nat -> byte;      (* the bytes [rand::rng()] yields *)
  rng_pos : nat;
  pool : bytes;                (* the connection's [mem_pool] *)
  time_limit : option Z;       (* tightest enclosing [timeout], seconds *)
  tie_inner : bool;            (* of two equal timers, does the inner one win *)
}.

(** The statics, read-only after start-up. *)
Record Config := {
  enable_echo : bool;
  enable_client_whitelist : bool;
  max_connections : Z;
  max_file_size : Z;
  connection_lifetime : Z;
  server_pri_key_bytes : bytes;
  server_pub_key_bytes : bytes;
}.

Record Host := {
  h_home : option path;
  h_fs : fs;
  h_locks : LockTable;
  h_limiter : RateLimiter;
  h_tracker : Tracker;
  h_now : Z;                   (* the clocks, in ns *)
  h_ticks : list Z;            (* time passed before each reading *)
  h_start_time : option Z;
  h_stdin : list string;       (* the lines the user types *)
}.

Record World := { conn : Conn; host : Host }.

(** * Field updates *)

Definition set_rd (x : bytes) (c : Conn) : Conn :=
  {| rd := x; rd_end := rd_end c; wr_pend := wr_pend c; wr_sent := wr_sent c;
     wr_shut := wr_shut c; wr_peer := wr_peer c; rng_tape := rng_tape c; rng_pos := rng_pos c;
     pool := pool c; time_limit := time_limit c; tie_inner := tie_inner c |}.
Definition set_wr (pend sent : bytes) (shut : bool) (c : Conn) : Conn :=
  {| rd := rd c; rd_end := rd_end c; wr_pend := pend; wr_sent := sent;
     wr_shut := shut; wr_peer := wr_peer c; rng_tape := rng_tape c; rng_pos := rng_pos c;
     pool := pool c; time_limit := time_limit c; tie_inner := tie_inner c |}.
Definition set_rng_pos (x : nat) (c : Conn) : Conn :=
  {| rd := rd c; rd_end := rd_end c; wr_pend := wr_pend c; wr_sent := wr_sent c;
     wr_shut := wr_shut c; wr_peer := wr_peer c; rng_tape := rng_tape c; rng_pos := x;
     pool := pool c; time_limit := time_limit c; tie_inner := tie_inner c |}.
Definition set_pool (x : bytes) (c : Conn) : Conn :=
  {| rd := rd c; rd_end := rd_end c; wr_pend := wr_pend c; wr_sent := wr_sent c;
     wr_shut := wr_shut c; wr_peer := wr_peer c; rng_tape := rng_tape c; rng_pos := rng_pos c;
     pool := x; time_limit := time_limit c; tie_inner := tie_inner c |}.
Definition set_limit (x : option Z) (c : Conn) : Conn :=
  {| rd := rd c; rd_end := rd_end c; wr_pend := wr_pend c; wr_sent := wr_sent c;
     wr_shut := wr_shut c; wr_peer := wr_peer c; rng_tape := rng_tape c; rng_pos := rng_pos c;
     pool := pool c; time_limit := x; tie_inner := tie_inner c |}.

Definition set_fs (x : fs) (h : Host) : Host :=
  {| h_home := h_home h; h_fs := x; h_locks := h_locks h; h_limiter := h_limiter h;
     h_tracker := h_tracker h; h_now := h_now h; h_ticks := h_ticks h;
     h_start_time := h_start_time h; h_stdin := h_stdin h |}.
Definition set_locks (x : LockTable) (h : Host) : Host :=
  {| h_home := h_home h; h_fs := h_fs h; h_locks := x; h_limiter := h_limiter h;
     h_tracker := h_tracker h; h_now := h_now h; h_ticks := h_ticks h;
     h_start_time := h_start_time h; h_stdin := h_stdin h |}.
Definition set_limiter (x : RateLimiter) (h : Host) : Host :=
  {| h_home := h_home h; h_fs := h_fs h; h_locks := h_locks h; h_limiter := x;
     h_tracker := h_tracker h; h_now := h_now h; h_ticks := h_ticks h;
     h_start_time := h_start_time h; h_stdin := h_stdin h |}.
Definition set_tracker (x : Tracker) (h : Host) : Host :=
  {| h_home := h_home h; h_fs := h_fs h; h_locks := h_locks h; h_limiter := h_limiter h;
     h_tracker := x; h_now := h_now h; h_ticks := h_ticks h;
     h_start_time := h_start_time h; h_stdin := h_stdin h |}.
Definition set_clock (now : Z) (ticks : list Z) (h : Host) : Host :=
  {| h_home := h_home h; h_fs := h_fs h; h_locks := h_locks h; h_limiter := h_limiter h;
     h_tracker := h_tracker h; h_now := now; h_ticks := ticks;
     h_start_time := h_start_time h; h_stdin := h_stdin h |}.
Definition set_stdin (x : list string) (h : Host) : Host :=
  {| h_home := h_home h; h_fs := h_fs h; h_locks := h_locks h; h_limiter := h_limiter h;
     h_tracker := h_tracker h; h_now := h_now h; h_ticks := h_ticks h;
     h_start_time := h_start_time h; h_stdin := x |}.

Definition on_conn (f : Conn -> Conn) (w : World) : World := {| conn := f (conn w); host := host w |}.
Definition on_host (f : Host -> Host) (w : World) : World := {| conn := conn w; host := f (host w) |}.

(** * Computations *)

Definition M (A : Type) : Type := World -> outcome A * World.

Definition ret {A} (a : A) : M A := fun w => (Done a, w).
Definition throw {A} (e : string) : M A := fun w => (Throw e, w).
Definition hang {A} : M A := fun w => (Hang, w).
Definition lift {A} (o : outcome A) : M A := fun w => (o, w).
Definition lift_result {A} (r : result A) : M A := lift (of_result r).

Definition bind {A B} (m : M A) (k : A -> M B) : M B := fun w =>
  match m w with
  | (Done a, w) => k a w
  | (Throw e, w) => (Throw e, w)
  | (Panic, w) => (Panic, w)
  | (Hang, w) => (Hang, w)
  end.

Notation "'let*' x := m 'in' k" := (bind m (fun x => k))
  (at level 10, x pattern, m at level 100, k at level 200) : rd_scope.
Notation "m ;;; k" := (bind m (fun _ => k))
  (at level 100, right associativity) : rd_scope.

Definition gets {A} (f : World -> A) : M A := fun w => (Done (f w), w).
Definition modify_conn (f : Conn -> Conn) : M unit := fun w => (Done tt, on_conn f w).
Definition modify_host (f : Host -> Host) : M unit := fun w => (Done tt, on_host f w).

(** The outcome as a value: what a [match] on an awaited [Result] sees. A
    panic or a cancelled wait is not a value. *)
Definition try_ {A} (m : M A) : M (result A) := fun w =>
  match m w with
  | (Done a, w) => (Done (Ok a), w)
  | (Throw e, w) => (Done (Err e), w)
  | (Panic, w) => (Panic, w)
  | (Hang, w) => (Hang, w)
  end.

(** A scope guard's [drop]: it runs on every way out of the scope. *)
Definition finally {A} (m : M A) (drop : World -> World) : M A := fun w =>
  let '(o, w) := m w in (o, drop w).

(** * [tokio::time::timeout] *)

Inductive timed (A : Type) : Type :=
| Elapsed
| InTime (r : result A).
Arguments Elapsed {A}.
Arguments InTime {A} r.

Definition ELAPSED : string := "deadline has elapsed".

(** Does a timer of [d] seconds fire before the enclosing one, when the awaited
    future never completes? *)
Definition fires_first (d : Z) (limit : option Z) (tie_inner : bool) : bool :=
  match limit with
  | None => true
  | Some l => (d <? l) || ((d =? l) && tie_inner)
  end.

Definition tighten (d : Z) (limit : option Z) : option Z :=
  Some (match limit with None => d | Some l => Z.min d l end).

Definition timeout {A} (d : Z) (m : M A) : M (timed A) := fun w =>
  let l := time_limit (conn w) in
  let '(o, w') := m (on_conn (set_limit (tighten d l)) w) in
  let w' := on_conn (set_limit l) w' in
  match o with
  | Done a => (Done (InTime (Ok a)), w')
  | Throw e => (Done (InTime (Err e)), w')
  | Panic => (Panic, w')
  | Hang => if fires_first d l (tie_inner (conn w')) then (Done Elapsed, w') else (Hang, w')
  end.

(** [timeout(d, m).await.map_err(|_| anyhow!(msg))??]. *)
Definition timeout_or {A} (msg : string) (d : Z) (m : M A) : M A :=
  let* r := timeout d m in
  match r with
  | Elapsed => throw msg
  | InTime (Err e) => throw e
  | InTime (Ok a) => ret a
  end.

(** [timeout(d, m).await??]. *)
Definition timeout_qq {A} (d : Z) (m : M A) : M A := timeout_or ELAPSED d m.

(** * Streams *)

Definition EARLY_EOF : string := "early eof".
Definition BROKEN_PIPE : string := "Broken pipe (os error 32)".

(** [reader.read_exact(&mut buf[..n])]: on failure the partial data is lost. *)
Definition read_exact (n : Z) : M bytes := fun w =>
  let c := conn w in
  if n <=? zlen (rd c) then (Done (ztake n (rd c)), on_conn (set_rd (zdrop n (rd c))) w)
  else match rd_end c with
       | ReadEof => (Throw EARLY_EOF, on_conn (set_rd []) w)
       | ReadReset e => (Throw e, on_conn (set_rd []) w)
       | ReadStall => (Hang, on_conn (set_rd []) w)
       end.

(** [writer.write_all(bs)] into the buffered writer. *)
Definition write_all (bs : bytes) : M unit := fun w =>
  let c := conn w in
  if wr_shut c then (Throw BROKEN_PIPE, w)
  else match wr_peer c with
       | WriteOpen => (Done tt, on_conn (fun c => set_wr (wr_pend c ++ bs) (wr_sent c) false c) w)
       | WriteStall => (Hang, w)
       | WriteBroken e => (Throw e, w)
       end.

(** [writer.flush()]: nothing to do when nothing is pending. *)
Definition flush : M unit := fun w =>
  let c := conn w in
  match wr_pend c with
  | [] => (Done tt, w)
  | _ =>
    match wr_peer c with
    | WriteOpen => (Done tt, on_conn (fun c => set_wr [] (wr_sent c ++ wr_pend c) (wr_shut c) c) w)
    | WriteStall => (Hang, w)
    | WriteBroken e => (Throw e, w)
    end
  end.

(** [writer.shutdown()]: flushes, then closes the write side. *)
Definition shutdown : M unit :=
  flush ;;; modify_conn (fun c => set_wr (wr_pend c) (wr_sent c) true c).

(** * Randomness and time *)

(** The next [n] bytes of the generator. *)
Definition next_random (n : Z) (c : Conn) : bytes :=
  map (fun i => rng_tape c (rng_pos c + i)%nat) (seq 0 (Z.to_nat n)).

(** [rand::rng().fill_bytes(&mut [0u8; n])]. *)
Definition fill_bytes (n : Z) : M bytes := fun w =>
  (Done (next_random n (conn w)), on_conn (fun c => set_rng_pos (rng_pos c + Z.to_nat n)%nat c) w).

(** [Instant::now()]. *)
Definition instant_now : M Z := fun w =>
  let h := host w in
  match h_ticks h with
  | d :: ds => (Done (h_now h + d), on_host (set_clock (h_now h + d) ds) w)
  | [] => (Done (h_now h), w)
  end.

(** * The file system *)

Definition gets_fs {A} (f : fs -> A) : M A := gets (fun w => f (h_fs (host w))).

(** A file-system operation that may fail. *)
Definition fs_op (op : fs -> result fs) : M unit := fun w =>
  match op (h_fs (host w)) with
  | Ok f => (Done tt, on_host (set_fs f) w)
  | Err e => (Throw e, w)
  end.

(** * Reasoning about computations *)

Section Bind.
Context {A B : Type}.
Implicit Types (m : M A) (k : A -> M B).

Lemma bind_done m k w a w' : m w = (Done a, w') -> bind m k w = k a w'.
Proof. unfold bind. by intros ->. Qed.

Lemma bind_throw m k w e w' : m w = (Throw e, w') -> bind m k w = (Throw e, w').
Proof. unfold bind. by intros ->. Qed.

Lemma bind_panic m k w w' : m w = (Panic, w') -> bind m k w = (Panic, w').
Proof. unfold bind. by intros ->. Qed.

Lemma bind_hang m k w w' : m w = (Hang, w') -> bind m k w = (Hang, w').
Proof. unfold bind. by intros ->. Qed.

Lemma bind_done_inv m k w b w' : bind m k w = (Done b, w') ->
  exists a w1, m w = (Done a, w1) /\ k a w1 = (Done b, w').
Proof. unfold bind. destruct (m w) as [[a|e| |] w1]; intros H; [eauto|done..]. Qed.

Lemma bind_panic_inv m k w w' : bind m k w = (Panic, w') ->
  m w = (Panic, w') \/ exists a w1, m w = (Done a, w1) /\ k a w1 = (Panic, w').
Proof. unfold bind. destruct (m w) as [[a|e| |] w1]; intros H; simplify_eq; eauto. Qed.
End Bind.

Lemma ret_done {A} (a : A) w : ret a w = (Done a, w).
Proof. done. Qed.

(** A computation that finishes in time is not affected by [timeout], whatever
    the limit, when its result does not depend on the limit. *)
Lemma timeout_or_done {A} msg d (m : M A) w a w' :
  m (on_conn (set_limit (tighten d (time_limit (conn w)))) w) = (Done a, w') ->
  timeout_or msg d m w = (Done a, on_conn (set_limit (time_limit (conn w))) w').
Proof. unfold timeout_or, bind, timeout. intros ->. done. Qed.

Lemma timeout_or_throw {A} msg d (m : M A) w e w' :
  m (on_conn (set_limit (tighten d (time_limit (conn w)))) w) = (Throw e, w') ->
  timeout_or msg d m w = (Throw e, on_conn (set_limit (time_limit (conn w))) w').
Proof. unfold timeout_or, bind, timeout. intros ->. done. Qed.

Lemma timeout_or_done_inv {A} msg d (m : M A) w a w' :
  timeout_or msg d m w = (Done a, w') ->
  exists w1, m (on_conn (set_limit (tighten d (time_limit (conn w)))) w) = (Done a, w1) /\
    w' = on_conn (set_limit (time_limit (conn w))) w1.
Proof.
  unfold timeout_or, bind, timeout. destruct (m _) as [[b|e| |] w1]; simpl; try done.
  - intros [= <- <-]. eauto.
  - by destruct (fires_first _ _ _).
Qed.

Lemma timeout_or_panic_inv {A} msg d (m : M A) w w' :
  timeout_or msg d m w = (Panic, w') ->
  exists w1, m (on_conn (set_limit (tighten d (time_limit (conn w)))) w) = (Panic, w1).
Proof.
  unfold timeout_or, bind, timeout. destruct (m _) as [[b|e| |] w1]; simpl; try done; eauto.
  by destruct (fires_first _ _ _).
Qed.

(** * Panic freedom

    Closed under the ways the code composes computations; discharged by
    [auto with rd_safe]. *)
Definition no_panic {A} (m : M A) : Prop := forall w w', m w <> (Panic, w').

Create HintDb rd_safe.

Lemma no_panic_ret {A} (a : A) : no_panic (ret a).
Proof. by intros w w'. Qed.
Lemma no_panic_throw {A} e : no_panic (@throw A e).
Proof. by intros w w'. Qed.
Lemma no_panic_bind {A B} (m : M A) (k : A -> M B) :
  no_panic m -> (forall a, no_panic (k a)) -> no_panic (bind m k).
Proof. intros Hm Hk w w' [H|(a & w1 & _ & H)]%bind_panic_inv; [by eapply Hm|by eapply Hk]. Qed.
Lemma no_panic_lift_result {A} (r : result A) : no_panic (lift_result r).
Proof. intros w w'. unfold lift_result, lift. by destruct r. Qed.
Lemma no_panic_timeout {A} d (m : M A) : no_panic m -> no_panic (timeout d m).
Proof.
  intros Hm w w'. unfold timeout. destruct (m _) as [[b|e| |] w1] eqn:E; simpl; try done.
  - by apply Hm in E.
  - by destruct (fires_first _ _ _).
Qed.
Lemma no_panic_timeout_or {A} msg d (m : M A) : no_panic m -> no_panic (timeout_or msg d m).
Proof. intros Hm w w' [w1 H]%timeout_or_panic_inv. by apply Hm in H. Qed.
Lemma no_panic_try {A} (m : M A) : no_panic m -> no_panic (try_ m).
Proof.
  intros Hm w w'. unfold try_. destruct (m w) as [[b|e| |] w1] eqn:E; try done. by apply Hm in E.
Qed.
Lemma no_panic_finally {A} (m : M A) f : no_panic m -> no_panic (finally m f).
Proof.
  intros Hm w w'. unfold finally. destruct (m w) as [[b|e| |] w1] eqn:E; try done. by apply Hm in E.
Qed.
Lemma no_panic_gets {A} (f : World -> A) : no_panic (gets f).
Proof. by intros w w'. Qed.
Lemma no_panic_modify_conn f : no_panic (modify_conn f).
Proof. by intros w w'. Qed.
Lemma no_panic_modify_host f : no_panic (modify_host f).
Proof. by intros w w'. Qed.
Lemma no_panic_read_exact n : no_panic (read_exact n).
Proof. intros w w'. unfold read_exact. case_match; [done|]. by case_match. Qed.
Lemma no_panic_write_all bs : no_panic (write_all bs).
Proof. intros w w'. unfold write_all. case_match; [done|]. by case_match. Qed.
Lemma no_panic_flush : no_panic flush.
Proof. intros w w'. unfold flush. case_match; [done|]. by case_match. Qed.
Lemma no_panic_fill_bytes n : no_panic (fill_bytes n).
Proof. by intros w w'. Qed.
Lemma no_panic_instant_now : no_panic instant_now.
Proof. intros w w'. unfold instant_now. by case_match. Qed.
Lemma no_panic_fs_op op : no_panic (fs_op op).
Proof. intros w w'. unfold fs_op. by case_match. Qed.

#[export] Hint Resolve no_panic_ret no_panic_throw no_panic_bind no_panic_lift_result
  no_panic_timeout no_panic_timeout_or no_panic_try no_panic_finally no_panic_gets
  no_panic_modify_conn no_panic_modify_host no_panic_read_exact no_panic_write_all
  no_panic_flush no_panic_fill_bytes no_panic_instant_now no_panic_fs_op : rd_safe.

Lemma no_panic_shutdown : no_panic shutdown.
Proof. unfold shutdown. auto with rd_safe. Qed.
#[export] Hint Resolve no_panic_shutdown : rd_safe.

(** * What a computation may touch

    [keeps P m]: whatever the outcome, [m] relates the state before to the
    state after by the preorder [P]. [P] is one that only looks at the host, or
    at the parts of the connection no timer sets. *)
Definition keeps {A} (P : World -> World -> Prop) (m : M A) : Prop := forall w, P w (m w).2.

Class Tracks (P : World -> World -> Prop) : Prop := {
  tracks_preorder : PreOrder P;
  tracks_limit w l : P w (on_conn (set_limit l) w);
}.
#[export] Existing Instance tracks_preorder.

Create HintDb rd_keeps.

Section Keeps.
Context (P : World -> World -> Prop) {HP : Tracks P}.

Lemma keeps_ret {A} (a : A) : keeps P (ret a).
Proof. intros w. simpl. reflexivity. Qed.
Lemma keeps_throw {A} e : keeps P (@throw A e).
Proof. intros w. simpl. reflexivity. Qed.
Lemma keeps_lift {A} (o : outcome A) : keeps P (lift o).
Proof. intros w. simpl. reflexivity. Qed.
Lemma keeps_lift_result {A} (r : result A) : keeps P (lift_result r).
Proof. apply keeps_lift. Qed.
Lemma keeps_gets {A} (f : World -> A) : keeps P (gets f).
Proof. intros w. simpl. reflexivity. Qed.
Lemma keeps_bind {A B} (m : M A) (k : A -> M B) :
  keeps P m -> (forall a, keeps P (k a)) -> keeps P (bind m k).
Proof.
  intros Hm Hk w. unfold bind. specialize (Hm w).
  destruct (m w) as [[a|e| |] w1]; simpl in *; [|done..]. etrans; [exact Hm|apply Hk].
Qed.
Lemma keeps_try {A} (m : M A) : keeps P m -> keeps P (try_ m).
Proof. intros Hm w. specialize (Hm w). unfold try_. by destruct (m w) as [[a|e| |] w1]. Qed.
Lemma keeps_timeout {A} d (m : M A) : keeps P m -> keeps P (timeout d m).
Proof.
  intros Hm w. unfold timeout.
  pose proof (Hm (on_conn (set_limit (tighten d (time_limit (conn w)))) w)) as H.
  destruct (m _) as [o w1]. simpl in H.
  assert (P w (on_conn (set_limit (time_limit (conn w))) w1)) as H'.
  { etrans; [apply tracks_limit|]. etrans; [exact H|]. apply tracks_limit. }
  destruct o; simpl; try done. by destruct (fires_first _ _ _).
Qed.
Lemma keeps_timeout_or {A} msg d (m : M A) : keeps P m -> keeps P (timeout_or msg d m).
Proof.
  intros Hm. apply keeps_bind; [by apply keeps_timeout|].
  intros [|[]]; [apply keeps_throw|apply keeps_ret|apply keeps_throw].
Qed.
End Keeps.

#[export] Hint Resolve keeps_ret keeps_throw keeps_lift keeps_lift_result keeps_gets
  keeps_bind keeps_try keeps_timeout keeps_timeout_or : rd_keeps.

(** The connection's own operations leave the host alone. *)
Definition same_host (w w' : World) : Prop := host w' = host w.

#[export] Instance same_host_tracks : Tracks same_host.
Proof.
  split; [|done]. split; [done|]. intros w1 w2 w3. unfold same_host. by intros -> ->.
Qed.

Lemma keeps_host_modify_conn f : keeps same_host (modify_conn f).
Proof. done. Qed.
Lemma keeps_host_read_exact n : keeps same_host (read_exact n).
Proof. intros w. unfold read_exact. case_match; [done|]. by case_match. Qed.
Lemma keeps_host_write_all bs : keeps same_host (write_all bs).
Proof. intros w. unfold write_all. case_match; [done|]. by case_match. Qed.
Lemma keeps_host_flush : keeps same_host flush.
Proof. intros w. unfold flush. case_match; [done|]. by case_match. Qed.
Lemma keeps_host_fill_bytes n : keeps same_host (fill_bytes n).
Proof. done. Qed.
#[export] Hint Resolve keeps_host_modify_conn keeps_host_read_exact keeps_host_write_all
  keeps_host_flush keeps_host_fill_bytes : rd_keeps.
Lemma keeps_host_shutdown : keeps same_host shutdown.
Proof. unfold shutdown. eauto with rd_keeps typeclass_instances. Qed.
#[export] Hint Resolve keeps_host_shutdown : rd_keeps.

(** The files change as [R] says, whatever else happens. *)
Definition fs_rel (R : fs -> fs -> Prop) (w w' : World) : Prop := R (h_fs (host w)) (h_fs (host w')).

#[export] Instance fs_rel_tracks R `{!PreOrder R} : Tracks (fs_rel R).
Proof.
  unfold fs_rel. split; [|intros; reflexivity].
  split; [intros w; reflexivity|intros w1 w2 w3; intros; by etrans].
Qed.

Lemma keeps_fs_of_host {A} R `{!PreOrder R} (m : M A) : keeps same_host m -> keeps (fs_rel R) m.
Proof. intros H w. unfold fs_rel. by rewrite (H w). Qed.
#[export] Hint Resolve keeps_fs_of_host | 10 : rd_keeps.

Section FsRel.
Context (R : fs -> fs -> Prop) `{!PreOrder R}.
Lemma keeps_fs_modify_host f : (forall h, R (h_fs h) (h_fs (f h))) -> keeps (fs_rel R) (modify_host f).
Proof. intros H w. apply H. Qed.
Lemma keeps_fs_op op : (forall f f', op f = Ok f' -> R f f') -> keeps (fs_rel R) (fs_op op).
Proof.
  intros H w. unfold fs_op. destruct (op _) eqn:E; [by apply H|]. unfold fs_rel. simpl. reflexivity.
Qed.
Lemma keeps_fs_instant_now : keeps (fs_rel R) instant_now.
Proof. intros w. unfold instant_now, fs_rel. case_match; simpl; reflexivity. Qed.
Lemma keeps_fs_finally {A} (m : M A) f : (forall h, h_fs (f h) = h_fs h) ->
  keeps (fs_rel R) m -> keeps (fs_rel R) (finally m (on_host f)).
Proof.
  intros Hf Hm w. specialize (Hm w). unfold finally. destruct (m w) as [o w1]. unfold fs_rel in *. simpl in *.
  by rewrite Hf.
Qed.
End FsRel.
#[export] Hint Resolve keeps_fs_instant_now : rd_keeps.

(** The generator is left alone. *)
Definition same_rng (w w' : World) : Prop :=
  rng_tape (conn w') = rng_tape (conn w) /\ rng_pos (conn w') = rng_pos (conn w).
(** And nothing is read. *)
Definition same_in (w w' : World) : Prop := same_rng w w' /\ rd (conn w') = rd (conn w).

#[export] Instance same_rng_tracks : Tracks same_rng.
Proof.
  split; [|done]. split; [done|]. unfold same_rng. intros w1 w2 w3 [] []. split; congruence.
Qed.
#[export] Instance same_in_tracks : Tracks same_in.
Proof.
  split; [|done]. split; [done|]. unfold same_in, same_rng. intros w1 w2 w3 [[] ?] [[] ?].
  split_and!; congruence.
Qed.

Lemma keeps_rng_read_exact n : keeps same_rng (read_exact n).
Proof. intros w. unfold read_exact. case_match; [done|]. by case_match. Qed.
Lemma keeps_in_write_all bs : keeps same_in (write_all bs).
Proof. intros w. unfold write_all. case_match; [done|]. by case_match. Qed.
Lemma keeps_in_flush : keeps same_in flush.
Proof. intros w. unfold flush. case_match; [done|]. by case_match. Qed.
Lemma keeps_in_shutdown : keeps same_in shutdown.
Proof. unfold shutdown. apply keeps_bind; [apply _|apply keeps_in_flush|done]. Qed.
Lemma keeps_in_fs_op op : keeps same_in (fs_op op).
Proof. intros w. unfold fs_op. by case_match. Qed.
Lemma keeps_in_modify_host f : keeps same_in (modify_host f).
Proof. done. Qed.
#[export] Hint Resolve keeps_rng_read_exact keeps_in_write_all keeps_in_flush keeps_in_shutdown
  keeps_in_fs_op keeps_in_modify_host : rd_keeps.

(** Nothing is read, whatever else happens. *)
Definition same_rd (w w' : World) : Prop := rd (conn w') = rd (conn w).
#[export] Instance same_rd_tracks : Tracks same_rd.
Proof. split; [|done]. split; [done|]. unfold same_rd. intros w1 w2 w3. congruence. Qed.

Lemma keeps_rd_of_in {A} (m : M A) : keeps same_in m -> keeps same_rd m.
Proof. intros H w. apply H. Qed.
Lemma keeps_rd_fill_bytes n : keeps same_rd (fill_bytes n).
Proof. done. Qed.
Lemma keeps_rd_instant_now : keeps same_rd instant_now.
Proof. intros w. unfold instant_now. by case_match. Qed.
#[export] Hint Resolve keeps_rd_of_in | 10 : rd_keeps.
#[export] Hint Resolve keeps_rd_fill_bytes keeps_rd_instant_now : rd_keeps.

(** Proves [keeps P m] by following the composition of [m]. *)
Ltac keeps_step :=
  match goal with
  | |- keeps _ (bind _ _) => apply keeps_bind; [apply _| |intros ?]
  | |- keeps _ (if ?b then _ else _) => destruct b
  | |- keeps _ (let '(_, _) := ?x in _) => destruct x
  | |- keeps _ (match ?x with _ => _ end) => destruct x
  | |- keeps _ (ret _) => apply keeps_ret, _
  | |- keeps _ (throw _) => apply keeps_throw, _
  | |- keeps _ (lift _) => apply keeps_lift, _
  | |- keeps _ (lift_result _) => apply keeps_lift_result, _
  | |- keeps _ (gets _) => apply keeps_gets, _
  | |- keeps _ (gets_fs _) => apply keeps_gets, _
  | |- keeps _ (try_ _) => apply keeps_try
  | |- keeps _ (timeout _ _) => apply keeps_timeout; [apply _|]
  | |- keeps _ (timeout_or _ _ _) => apply keeps_timeout_or; [apply _|]
  | |- keeps _ (timeout_qq _ _) => apply keeps_timeout_or; [apply _|]
  | |- _ => solve [auto with rd_keeps]
  | |- keeps _ (let _ := _ in _) => cbv zeta
  end.
Ltac keeps_auto := repeat keeps_step.

(** * The streams, when the peer reads and nothing is shut *)

Definition writable (c : Conn) : Prop := wr_peer c = WriteOpen /\ wr_shut c = false.

Lemma read_exact_app n a b w : rd (conn w) = a ++ b -> n = zlen a ->
  read_exact n w = (Done a, on_conn (set_rd b) w).
Proof.
  intros Hrd ->. unfold read_exact. rewrite Hrd.
  rewrite (proj2 (Z.leb_le _ _)) by solve_len.
  by rewrite ztake_app, zdrop_app by done.
Qed.

Lemma read_exact_done_inv n w a w' : read_exact n w = (Done a, w') ->
  exists b, rd (conn w) = a ++ b /\ w' = on_conn (set_rd b) w /\ (0 <= n -> zlen a = n).
Proof.
  unfold read_exact. case_match eqn:E; [|by case_match]. zbool. intros [= <- <-].
  eexists. split_and!; [by rewrite ztake_zdrop|done|]. intros. by apply zlen_ztake.
Qed.

Lemma write_all_open bs w : writable (conn w) ->
  write_all bs w = (Done tt, on_conn (fun c => set_wr (wr_pend c ++ bs) (wr_sent c) false c) w).
Proof. intros [H1 H2]. unfold write_all. by rewrite H1, H2. Qed.

Lemma flush_open w : wr_peer (conn w) = WriteOpen ->
  flush w = (Done tt, on_conn (fun c => set_wr [] (wr_sent c ++ wr_pend c) (wr_shut c) c) w).
Proof.
  intros H. unfold flush. destruct (wr_pend (conn w)) eqn:E; [|by rewrite H].
  unfold on_conn, set_wr. rewrite E, app_nil_r. destruct w as [[] h]; simpl in *. by rewrite E.
Qed.

Lemma write_all_done_inv bs w u w' : write_all bs w = (Done u, w') ->
  writable (conn w) /\ w' = on_conn (fun c => set_wr (wr_pend c ++ bs) (wr_sent c) false c) w.
Proof.
  unfold write_all, writable. repeat case_match; intros; simplify_eq; done.
Qed.

Lemma next_random_len n c : 0 <= n -> zlen (next_random n c) = n.
Proof. intros. unfold next_random, zlen. rewrite length_map, length_seq. lia. Qed.

(** The state after a computation that returned. *)
Lemma keeps_done {A} P (m : M A) w o w' : keeps P m -> m w = (o, w') -> P w w'.
Proof. intros Hm H. specialize (Hm w). by rewrite H in Hm. Qed.

(** Splits a run that returned at its first statement. *)
Tactic Notation "binv" hyp(H) "as" simple_intropattern(x) simple_intropattern(w) simple_intropattern(E) :=
  apply bind_done_inv in H as (x & w & E & H).

(** A statement that does not touch the state. *)
Lemma lift_done_inv {A} (o : outcome A) w a w' : lift o w = (Done a, w') -> o = Done a /\ w' = w.
Proof. unfold lift. by intros [= -> ->]. Qed.
Lemma lift_result_done_inv {A} (r : result A) w a w' : lift_result r w = (Done a, w') -> r = Ok a /\ w' = w.
Proof. unfold lift_result, lift. destruct r; simpl; by intros [= -> ->]. Qed.
Lemma map_err_ok {A} e (r : result A) a : map_err e r = Ok a -> r = Ok a.
Proof. by destruct r. Qed.

(** Rewrites what is left to read after a run that read nothing to what was
    left before it. *)
Ltac read_nothing E :=
  let Hr := fresh in pose proof E as Hr; apply (keeps_done same_rd) in Hr;
  [unfold same_rd in Hr; rewrite Hr; clear Hr|keeps_auto].
