(* ===== verification/Exec.v ===== *)
(** Running a computation against what the code can observe of its connection
    and host. [exec m v o v'] says that from every state that looks like [v],
    whatever the contents of the memory pool and the timers set around it, [m]
    ends with outcome [o] in a state that looks like [v']. Its rules follow the
    composition of the code, so a handler is run by applying one rule per
    statement. *)
From S2P Require Import Prelude F64 External RateLimit FileSys Locks Lib World.

Record View := {
  v_in : bytes;                (* what the peer has sent *)
  v_end : read_end;
  v_pend : bytes;              (* written, not flushed *)
  v_out : bytes;               (* flushed *)
  v_shut : bool;
  v_tape : nat -> byte;
  v_pos : nat;
  v_host : Host;
}.

Definition v_set_in (x : bytes) (v : View) : View :=
  {| v_in := x; v_end := v_end v; v_pend := v_pend v; v_out := v_out v; v_shut := v_shut v;
     v_tape := v_tape v; v_pos := v_pos v; v_host := v_host v |}.
Definition v_set_wr (pend out : bytes) (shut : bool) (v : View) : View :=
  {| v_in := v_in v; v_end := v_end v; v_pend := pend; v_out := out; v_shut := shut;
     v_tape := v_tape v; v_pos := v_pos v; v_host := v_host v |}.
Definition v_set_pos (x : nat) (v : View) : View :=
  {| v_in := v_in v; v_end := v_end v; v_pend := v_pend v; v_out := v_out v; v_shut := v_shut v;
     v_tape := v_tape v; v_pos := x; v_host := v_host v |}.
Definition v_set_host (x : Host) (v : View) : View :=
  {| v_in := v_in v; v_end := v_end v; v_pend := v_pend v; v_out := v_out v; v_shut := v_shut v;
     v_tape := v_tape v; v_pos := v_pos v; v_host := x |}.

Lemma v_set_in_same x v : v_in v = x -> v_set_in x v = v.
Proof. intros <-. by destruct v. Qed.

(** [w] looks like [v]: the peer reads what is written to it. *)
Record looks (w : World) (v : View) : Prop := {
  lk_in : rd (conn w) = v_in v;
  lk_end : rd_end (conn w) = v_end v;
  lk_pend : wr_pend (conn w) = v_pend v;
  lk_out : wr_sent (conn w) = v_out v;
  lk_shut : wr_shut (conn w) = v_shut v;
  lk_peer : wr_peer (conn w) = WriteOpen;
  lk_tape : rng_tape (conn w) = v_tape v;
  lk_pos : rng_pos (conn w) = v_pos v;
  lk_host : host w = v_host v;
}.

Definition exec {A} (m : M A) (v : View) (o : outcome A) (v' : View) : Prop :=
  forall w, looks w v -> exists w', m w = (o, w') /\ looks w' v'.

(** A state that looks like [v], with an empty pool and no timer. *)
Definition world_of (v : View) : World :=
  {| conn := {| rd := v_in v; rd_end := v_end v; wr_pend := v_pend v; wr_sent := v_out v;
                wr_shut := v_shut v; wr_peer := WriteOpen; rng_tape := v_tape v;
                rng_pos := v_pos v; pool := []; time_limit := None; tie_inner := true |};
     host := v_host v |}.

Lemma looks_world_of v : looks (world_of v) v.
Proof. done. Qed.

(** The bytes the generator yields next. *)
Definition v_random (n : Z) (v : View) : bytes :=
  map (fun i => v_tape v (v_pos v + i)%nat) (seq 0 (Z.to_nat n)).

Lemma v_random_len n v : 0 <= n -> zlen (v_random n v) = n.
Proof. intros. unfold v_random, zlen. rewrite length_map, length_seq. lia. Qed.

Lemma v_random_looks n w v : looks w v -> next_random n (conn w) = v_random n v.
Proof. intros []. unfold next_random, v_random. by rewrite lk_tape0, lk_pos0. Qed.

Section Rules.
Context {A B : Type}.
Implicit Types (m : M A) (k : A -> M B) (v : View).

Lemma exec_ret (a : A) v : exec (ret a) v (Done a) v.
Proof. intros w H. eauto. Qed.

Lemma exec_to m v o v1 v2 : exec m v o v1 -> v1 = v2 -> exec m v o v2.
Proof. by intros ? <-. Qed.

Lemma exec_throw e v : exec (@throw A e) v (Throw e) v.
Proof. intros w H. unfold throw. eauto. Qed.

Lemma exec_lift (o o' : outcome A) v : o = o' -> exec (lift o) v o' v.
Proof. intros -> w H. unfold lift. eauto. Qed.

Lemma exec_lift_result (r : result A) a v : r = Ok a -> exec (lift_result r) v (Done a) v.
Proof. intros ->. by apply exec_lift. Qed.

Lemma exec_lift_result_err (r : result A) e v : r = Err e -> exec (lift_result r) v (Throw e) v.
Proof. intros ->. by apply exec_lift. Qed.

Lemma exec_bind m k v a v1 o v2 :
  exec m v (Done a) v1 -> exec (k a) v1 o v2 -> exec (bind m k) v o v2.
Proof.
  intros Hm Hk w H. destruct (Hm w H) as (w1 & E1 & H1). destruct (Hk w1 H1) as (w2 & E2 & H2).
  exists w2. split; [|done]. by rewrite (bind_done _ _ _ _ _ E1).
Qed.

Lemma exec_bind_throw m k v e v1 : exec m v (Throw e) v1 -> exec (bind m k) v (Throw e) v1.
Proof.
  intros Hm w H. destruct (Hm w H) as (w1 & E1 & H1). exists w1. split; [|done].
  by apply bind_throw.
Qed.

Lemma exec_bind_panic m k v v1 : exec m v Panic v1 -> exec (bind m k) v Panic v1.
Proof.
  intros Hm w H. destruct (Hm w H) as (w1 & E1 & H1). exists w1. split; [|done].
  by apply bind_panic.
Qed.

Lemma exec_try m v a v1 : exec m v (Done a) v1 -> exec (try_ m) v (Done (Ok a)) v1.
Proof.
  intros Hm w H. destruct (Hm w H) as (w1 & E1 & H1). exists w1. split; [|done].
  unfold try_. by rewrite E1.
Qed.

Lemma exec_try_throw m v e v1 : exec m v (Throw e) v1 -> exec (try_ m) v (Done (Err e)) v1.
Proof.
  intros Hm w H. destruct (Hm w H) as (w1 & E1 & H1). exists w1. split; [|done].
  unfold try_. by rewrite E1.
Qed.

Lemma looks_limit w v l : looks w v -> looks (on_conn (set_limit l) w) v.
Proof. by intros []. Qed.

Lemma exec_timeout d m v a v1 : exec m v (Done a) v1 -> exec (timeout d m) v (Done (InTime (Ok a))) v1.
Proof.
  intros Hm w H. unfold timeout.
  destruct (Hm _ (looks_limit _ _ (tighten d (time_limit (conn w))) H)) as (w1 & E1 & H1).
  rewrite E1. eexists. split; [done|]. by apply looks_limit.
Qed.

Lemma exec_timeout_throw d m v e v1 :
  exec m v (Throw e) v1 -> exec (timeout d m) v (Done (InTime (Err e))) v1.
Proof.
  intros Hm w H. unfold timeout.
  destruct (Hm _ (looks_limit _ _ (tighten d (time_limit (conn w))) H)) as (w1 & E1 & H1).
  rewrite E1. eexists. split; [done|]. by apply looks_limit.
Qed.

Lemma exec_try_panic m v v1 : exec m v Panic v1 -> exec (try_ m) v Panic v1.
Proof.
  intros Hm w H. destruct (Hm w H) as (w1 & E1 & H1). exists w1. split; [|done].
  unfold try_. by rewrite E1.
Qed.

Lemma exec_timeout_panic d m v v1 : exec m v Panic v1 -> exec (timeout d m) v Panic v1.
Proof.
  intros Hm w H. unfold timeout.
  destruct (Hm _ (looks_limit _ _ (tighten d (time_limit (conn w))) H)) as (w1 & E1 & H1).
  rewrite E1. eexists. split; [done|]. by apply looks_limit.
Qed.

Lemma exec_finally m f v o v1 : exec m v o v1 ->
  exec (finally m (on_host f)) v o (v_set_host (f (v_host v1)) v1).
Proof.
  intros Hm w H. destruct (Hm w H) as (w1 & E1 & H1). eexists. unfold finally. rewrite E1.
  split; [done|]. destruct H1. split; simpl; try done. by rewrite lk_host0.
Qed.

Lemma exec_gets (f : Host -> A) v : exec (gets (fun w => f (host w))) v (Done (f (v_host v))) v.
Proof. intros w H. unfold gets. rewrite (lk_host _ _ H). eauto. Qed.

Lemma exec_done_inv m v a v1 w w' x : exec m v (Done a) v1 -> looks w v -> m w = (x, w') ->
  x = Done a /\ looks w' v1.
Proof. intros Hm H E. destruct (Hm w H) as (w1 & E1 & H1). rewrite E in E1. by simplify_eq. Qed.
End Rules.

Lemma exec_timeout_or {A} msg d (m : M A) v a v1 : exec m v (Done a) v1 -> exec (timeout_or msg d m) v (Done a) v1.
Proof. intros Hm. unfold timeout_or. eapply exec_bind; [by apply exec_timeout|apply exec_ret]. Qed.

Lemma exec_timeout_or_throw {A} msg d (m : M A) v e v1 :
  exec m v (Throw e) v1 -> exec (timeout_or msg d m) v (Throw e) v1.
Proof. intros Hm. unfold timeout_or. eapply exec_bind; [by apply exec_timeout_throw|apply exec_throw]. Qed.

Lemma exec_gets_fs {A} (f : fs -> A) v : exec (gets_fs f) v (Done (f (h_fs (v_host v)))) v.
Proof. apply (exec_gets (fun h => f (h_fs h))). Qed.

Lemma exec_modify_host f v : exec (modify_host f) v (Done tt) (v_set_host (f (v_host v)) v).
Proof. intros w []. eexists. split; [done|]. split; simpl; try done. by rewrite lk_host0. Qed.

Lemma exec_fs_op op v f : op (h_fs (v_host v)) = Ok f ->
  exec (fs_op op) v (Done tt) (v_set_host (set_fs f (v_host v)) v).
Proof.
  intros E w H. pose proof (lk_host _ _ H) as Hh. unfold fs_op. rewrite Hh, E.
  eexists. split; [done|]. destruct H. split; simpl; try done. by rewrite lk_host0.
Qed.

Lemma exec_fs_op_err op v e : op (h_fs (v_host v)) = Err e -> exec (fs_op op) v (Throw e) v.
Proof.
  intros E w H. pose proof (lk_host _ _ H) as Hh. unfold fs_op. rewrite Hh, E. eauto.
Qed.

(** Memory-pool updates do not show. *)
Lemma exec_set_pool x v : exec (modify_conn (set_pool x)) v (Done tt) v.
Proof. intros w []. by eexists. Qed.

Lemma exec_read_exact n a b v : v_in v = a ++ b -> zlen a = n ->
  exec (read_exact n) v (Done a) (v_set_in b v).
Proof.
  intros Hin Hn w []. eexists. split; [eapply read_exact_app; [by rewrite lk_in0|done]|].
  by split.
Qed.

(** The peer closed before sending [n] bytes. *)
Lemma exec_read_eof n v : zlen (v_in v) < n -> v_end v = ReadEof ->
  exec (read_exact n) v (Throw EARLY_EOF) (v_set_in [] v).
Proof.
  intros Hn Hend w []. unfold read_exact. rewrite lk_in0, lk_end0, Hend.
  rewrite (proj2 (Z.leb_gt _ _)) by done. eexists. split; [done|]. by split.
Qed.

Lemma exec_write_all bs v : v_shut v = false ->
  exec (write_all bs) v (Done tt) (v_set_wr (v_pend v ++ bs) (v_out v) false v).
Proof.
  intros Hs w []. eexists. split; [apply write_all_open; split; by rewrite ?lk_shut0|].
  split; simpl; try done. by rewrite lk_pend0.
Qed.

Lemma exec_write_all_shut bs v : v_shut v = true -> exec (write_all bs) v (Throw BROKEN_PIPE) v.
Proof. intros Hs w H. exists w. split; [|done]. unfold write_all. by rewrite (lk_shut _ _ H), Hs. Qed.

Lemma exec_flush v : exec flush v (Done tt) (v_set_wr [] (v_out v ++ v_pend v) (v_shut v) v).
Proof.
  intros w []. eexists. split; [by apply flush_open|].
  split; simpl; try done. by rewrite lk_out0, lk_pend0.
Qed.

(** Nothing pending: [flush] does nothing. *)
Lemma exec_flush_nothing v : v_pend v = [] -> exec flush v (Done tt) v.
Proof.
  intros Hp w H. exists w. split; [|done]. unfold flush. by rewrite (lk_pend _ _ H), Hp.
Qed.

Lemma exec_shutdown v : exec shutdown v (Done tt) (v_set_wr [] (v_out v ++ v_pend v) true v).
Proof.
  unfold shutdown. eapply exec_bind; [apply exec_flush|]. intros w []. eexists. split; [done|].
  simpl in *. split; simpl; done.
Qed.

Lemma exec_fill_bytes n v :
  exec (fill_bytes n) v (Done (v_random n v)) (v_set_pos (v_pos v + Z.to_nat n) v).
Proof.
  intros w H. unfold fill_bytes. rewrite (v_random_looks _ _ _ H). eexists. split; [done|].
  destruct H. split; simpl; try done. by rewrite lk_pos0.
Qed.

(** The clock after one reading. *)
Definition tick (h : Host) : Host :=
  match h_ticks h with d :: ds => set_clock (h_now h + d) ds h | [] => h end.

Lemma exec_instant_now v :
  exec instant_now v (Done (h_now (tick (v_host v)))) (v_set_host (tick (v_host v)) v).
Proof.
  intros w H. pose proof (lk_host _ _ H) as Hh. unfold instant_now, tick. rewrite Hh.
  destruct (h_ticks (v_host v)) eqn:E; (eexists; split; [done|]).
  - by destruct H.
  - destruct H. split; simpl; try done. by rewrite lk_host0.
Qed.

(** The run from the state [world_of v]. *)
Lemma exec_run {A} (m : M A) v o v' : exec m v o v' -> m (world_of v) = (o, snd (m (world_of v))).
Proof. intros H. destruct (H _ (looks_world_of v)) as (w' & E & _). by rewrite E. Qed.

Lemma exec_ext {A} (m m' : M A) v o v' : (forall w, looks w v -> m w = m' w) ->
  exec m v o v' -> exec m' v o v'.
Proof. intros Hm H w Hw. destruct (H w Hw) as (w' & E & L). exists w'. by rewrite <- Hm. Qed.

#[global] Opaque exec.

(** Runs one statement with the given rule and leaves the rest. *)
Tactic Notation "estep" uconstr(r) := eapply exec_bind; [eapply r|].
Tactic Notation "estep" uconstr(r) "by" tactic3(t) := eapply exec_bind; [eapply r; t|].
