(* ===== verification/Crypto.v ===== *)
(** src/crypto.rs: AES-256-GCM packets [nonce || ciphertext || tag], in freshly
    allocated vectors and in caller-supplied buffers, and key handling. *)
From S2P Require Import Prelude External World Exec.

Definition NONCE_LEN : Z := 12.
Definition TAG_LEN : Z := 16.

(** [format!("Output buffer too small, need at least {} bytes", n)]. *)
Definition too_small (n : Z) : string :=
  ("Output buffer too small, need at least " +:+ pretty n +:+ " bytes")%string.

Section Crypto.
Context {AG : AesGcm} {HX : Hex} {ED : Ed25519} {XD : X25519}.

Definition encrypt_data (data key : bytes) : M bytes :=
  let* nonce := fill_bytes NONCE_LEN in
  let* ciphertext := lift_result (map_err "Encryption failed: " (gcm_encrypt key nonce data)) in
  lift (
    let! out := write_at (zeros (NONCE_LEN + zlen ciphertext)) 0 nonce in
    write_at out NONCE_LEN ciphertext).

Definition decrypt_data (data key : bytes) : outcome bytes :=
  let! _ := bail_if (zlen data <? NONCE_LEN + TAG_LEN) "Ciphertext too short" in
  let! (nonce, ciphertext) := split_at data NONCE_LEN in
  let! nonce := of_result (array_try_from NONCE_LEN nonce) in
  of_result (map_err "Decryption failed: " (gcm_decrypt key nonce ciphertext)).

(** [encrypt_into]: the buffer is returned with the count. *)
Definition encrypt_into (input output key : bytes) : M (bytes * Z) :=
  let plaintext_len := zlen input in
  lift (bail_if (zlen output <? NONCE_LEN + plaintext_len + TAG_LEN)
          (too_small (NONCE_LEN + plaintext_len + TAG_LEN))) ;;;
  let* (nonce_buf, data_tag) := lift (split_at output NONCE_LEN) in
  let* (data, tag_buf) := lift (split_at data_tag plaintext_len) in
  let* nonce_buf := fill_bytes (zlen nonce_buf) in
  let* data := lift (copy_from_slice data input) in
  let* nonce := lift_result (array_try_from NONCE_LEN nonce_buf) in
  let* (data, auth_tag) := lift_result (gcm_encrypt_detached key nonce data) in
  let* tag_buf := lift (copy_from_slice tag_buf auth_tag) in
  ret (nonce_buf ++ data ++ tag_buf, NONCE_LEN + plaintext_len + TAG_LEN).

Definition decrypt_into (input output key : bytes) : outcome (bytes * Z) :=
  let! _ := bail_if (zlen input <? NONCE_LEN + TAG_LEN) "Ciphertext too short" in
  let ciphertext_len := zlen input - NONCE_LEN - TAG_LEN in
  let! _ := bail_if (zlen output <? ciphertext_len) (too_small ciphertext_len) in
  let! nonce := slice input 0 NONCE_LEN in
  let! nonce := of_result (array_try_from NONCE_LEN nonce) in
  let! tag := slice input (NONCE_LEN + ciphertext_len) (zlen input) in
  let! tag := of_result (array_try_from TAG_LEN tag) in
  let! data := slice output 0 ciphertext_len in
  let! src := slice input NONCE_LEN (NONCE_LEN + ciphertext_len) in
  let! data := copy_from_slice data src in
  let! data := of_result (gcm_decrypt_detached key nonce data tag) in
  let! output := write_at output 0 data in
  Done (output, ciphertext_len).

Definition generate_b32key : M string :=
  let* key := fill_bytes 32 in ret (encode key).

(** [SigningKey::generate] takes 32 random bytes. *)
Definition generate_ed25519_keypair : M (bytes * VerifyingKey) :=
  let* private_key := fill_bytes 32 in
  let public_key := verifying_key private_key in
  let message := as_bytes "ed25519 key gen-test" in
  let signature := ed_sign private_key message in
  lift_result (map_err "Failed to verify signature: " (ed_verify public_key message signature)) ;;;
  ret (private_key, public_key).

Definition validate_signature (public_bytes signature_bytes nonce : bytes) : result VerifyingKey :=
  match map_err "Failed to construct signature from bytes: " (array_try_from 64 signature_bytes) with
  | Err e => Err e
  | Ok signature =>
    match map_err "Failed to construct public key from bytes: " (vk_try_from public_bytes) with
    | Err e => Err e
    | Ok public_key =>
      match map_err "Signature verification failed: " (ed_verify_strict public_key nonce signature) with
      | Err e => Err e
      | Ok tt => Ok public_key
      end
    end
  end.

(** [EphemeralSecret::random_from_rng] takes 32 random bytes. *)
Definition generate_x25519_keypair : M (bytes * bytes) :=
  let* private_key := fill_bytes 32 in
  ret (private_key, x_public private_key).

(** * What a packet is *)

(** The packet that carries [p] under [key] and [nonce]. *)
Definition seal (key nonce p : bytes) : result bytes :=
  match gcm_encrypt_detached key nonce p with
  | Ok (c, t) => Ok (nonce ++ c ++ t)
  | Err e => Err e
  end.

(** [pkt] is a packet for [p] under [key]. *)
Definition sealed (key p pkt : bytes) : Prop :=
  exists nonce, zlen nonce = NONCE_LEN /\ seal key nonce p = Ok pkt.

Section Laws.
Context {AGL : AesGcmLaws}.

Lemma seal_len key nonce p pkt : zlen nonce = NONCE_LEN -> seal key nonce p = Ok pkt ->
  zlen pkt = NONCE_LEN + zlen p + TAG_LEN.
Proof.
  unfold seal, NONCE_LEN, TAG_LEN. intros Hn.
  destruct (gcm_encrypt_detached key nonce p) as [[c t]|] eqn:E; [|done]. intros [= <-].
  apply gcm_len in E as [? ?]. autorewrite with rd_len. lia.
Qed.

Lemma sealed_len key p pkt : sealed key p pkt -> zlen pkt = NONCE_LEN + zlen p + TAG_LEN.
Proof. intros (n & Hn & H). by eapply seal_len. Qed.

(** A packet carries one plaintext. *)
Lemma sealed_inj key p p' pkt : sealed key p pkt -> sealed key p' pkt -> p = p'.
Proof.
  intros (n & Hn & H) (n' & Hn' & H'). unfold seal in *.
  destruct (gcm_encrypt_detached key n p) as [[c t]|] eqn:E; [|done].
  destruct (gcm_encrypt_detached key n' p') as [[c' t']|] eqn:E'; [|done].
  injection H as <-. injection H' as H'.
  pose proof (gcm_len _ _ _ _ _ E) as [_ Ht]. pose proof (gcm_len _ _ _ _ _ E') as [_ Ht'].
  assert (n' = n /\ c' ++ t' = c ++ t) as [-> H2].
  { apply app_inj_1; [|done]. unfold zlen, NONCE_LEN in *. lia. }
  assert (c' = c /\ t' = t) as [-> ->].
  { apply app_inj_2; [|done]. unfold zlen in *. lia. }
  apply gcm_open_sealed in E, E'. congruence.
Qed.

(** The exact success of [encrypt_into]: the buffer is exactly as long as the
    packet, and holds it. *)
Lemma encrypt_into_exact input output key w pkt :
  zlen output = NONCE_LEN + zlen input + TAG_LEN ->
  seal key (next_random NONCE_LEN (conn w)) input = Ok pkt ->
  encrypt_into input output key w =
    (Done (pkt, zlen pkt),
     on_conn (fun c => set_rng_pos (rng_pos c + Z.to_nat NONCE_LEN)%nat c) w).
Proof.
  intros Hlen Hseal.
  pose proof (next_random_len NONCE_LEN (conn w) ltac:(done)) as Hn.
  pose proof (seal_len _ _ _ _ Hn Hseal) as Hpl. unfold seal in Hseal.
  destruct (gcm_encrypt_detached key _ input) as [[c t]|] eqn:E; [|done]. injection Hseal as <-.
  pose proof (gcm_len _ _ _ _ _ E) as [Hc Ht].
  pose proof (zlen_nonneg input). unfold encrypt_into, NONCE_LEN, TAG_LEN in *.
  unfold bail_if. rewrite (proj2 (Z.ltb_ge _ _)) by lia.
  unfold bind, lift at 1. rewrite split_at_ok by lia. unfold lift at 1.
  rewrite split_at_ok by (rewrite zlen_zdrop; lia). unfold lift at 1, fill_bytes.
  rewrite zlen_ztake by lia. unfold lift at 1.
  rewrite copy_from_slice_ok by (rewrite zlen_ztake; rewrite ?zlen_zdrop; lia).
  unfold lift_result, lift at 1, array_try_from. rewrite Hn. simpl of_result.
  unfold lift at 1. rewrite E. simpl of_result. unfold lift at 1.
  rewrite copy_from_slice_ok by (rewrite !zlen_zdrop by (rewrite ?zlen_zdrop; lia); lia).
  unfold ret. by rewrite Hpl.
Qed.

#[local] Transparent exec.
Lemma exec_encrypt_into input output key v pkt :
  zlen output = NONCE_LEN + zlen input + TAG_LEN ->
  seal key (v_random NONCE_LEN v) input = Ok pkt ->
  exec (encrypt_into input output key) v (Done (pkt, zlen pkt))
    (v_set_pos (v_pos v + Z.to_nat NONCE_LEN)%nat v).
Proof.
  intros Hl Hs w H. eexists. split.
  - apply encrypt_into_exact; [done|]. by rewrite (v_random_looks _ _ _ H).
  - destruct H as [? ? ? ? ? ? ? Hpos ?]. split; simpl; try done. by rewrite Hpos.
Qed.
#[local] Opaque exec.

Lemma encrypt_into_short input output key w : zlen output < NONCE_LEN + zlen input + TAG_LEN ->
  encrypt_into input output key w = (Throw (too_small (NONCE_LEN + zlen input + TAG_LEN)), w).
Proof.
  intros H. unfold encrypt_into, bail_if. by rewrite (proj2 (Z.ltb_lt _ _) H).
Qed.

(** A longer buffer makes [tag_buf] longer than the tag. *)
Lemma encrypt_into_long input output key w pkt :
  NONCE_LEN + zlen input + TAG_LEN < zlen output ->
  seal key (next_random NONCE_LEN (conn w)) input = Ok pkt ->
  encrypt_into input output key w =
    (Panic, on_conn (fun c => set_rng_pos (rng_pos c + Z.to_nat NONCE_LEN)%nat c) w).
Proof.
  intros Hlen Hseal.
  pose proof (next_random_len NONCE_LEN (conn w) ltac:(done)) as Hn. unfold seal in Hseal.
  destruct (gcm_encrypt_detached key _ input) as [[c t]|] eqn:E; [|done]. clear Hseal.
  pose proof (gcm_len _ _ _ _ _ E) as [Hc Ht].
  pose proof (zlen_nonneg input). unfold encrypt_into, NONCE_LEN, TAG_LEN in *.
  unfold bail_if. rewrite (proj2 (Z.ltb_ge _ _)) by lia.
  unfold bind, lift at 1. rewrite split_at_ok by lia. unfold lift at 1.
  rewrite split_at_ok by (rewrite zlen_zdrop; lia). unfold lift at 1, fill_bytes.
  rewrite zlen_ztake by lia. unfold lift at 1.
  rewrite copy_from_slice_ok by (rewrite zlen_ztake; rewrite ?zlen_zdrop; lia).
  unfold lift_result, lift at 1, array_try_from. rewrite Hn. simpl of_result.
  unfold lift at 1. rewrite E. simpl of_result. unfold lift at 1.
  rewrite copy_from_slice_panic by (rewrite !zlen_zdrop by (rewrite ?zlen_zdrop; lia); lia).
  done.
Qed.

#[local] Transparent exec.
Lemma exec_encrypt_into_long input output key v pkt :
  NONCE_LEN + zlen input + TAG_LEN < zlen output ->
  seal key (v_random NONCE_LEN v) input = Ok pkt ->
  exec (encrypt_into input output key) v Panic (v_set_pos (v_pos v + Z.to_nat NONCE_LEN)%nat v).
Proof.
  intros Hl Hs w H. eexists. split.
  - eapply encrypt_into_long; [done|]. by rewrite (v_random_looks _ _ _ H).
  - destruct H as [? ? ? ? ? ? ? Hpos ?]. split; simpl; try done. by rewrite Hpos.
Qed.
#[local] Opaque exec.

Lemma sealed_app_inv key p pkt : sealed key p pkt -> exists n c t,
  pkt = n ++ c ++ t /\ zlen n = 12 /\ zlen c = zlen p /\ zlen t = 16 /\
  gcm_encrypt_detached key n p = Ok (c, t).
Proof.
  intros (n & Hn & Hs). unfold seal in Hs.
  destruct (gcm_encrypt_detached key n p) as [[c t]|] eqn:E; [|done]. injection Hs as <-.
  pose proof (gcm_len _ _ _ _ _ E) as [? ?]. eauto 10.
Qed.

(** [decrypt_into] as one comparison: what it does on a long enough input. *)
Lemma decrypt_into_unfold n c t output key :
  zlen n = 12 -> zlen t = 16 -> zlen c <= zlen output ->
  decrypt_into (n ++ c ++ t) output key =
    match gcm_decrypt_detached key n c t with
    | Ok p => let! o := write_at output 0 p in Done (o, zlen c)
    | Err e => Throw e
    end.
Proof.
  intros Hn Ht Hc. unfold decrypt_into, NONCE_LEN, TAG_LEN.
  zlen_pose. autorewrite with rd_len. unfold bail_if.
  rewrite (proj2 (Z.ltb_ge _ _)) by lia. cbn [obind].
  replace (zlen n + (zlen c + zlen t) - 12 - 16) with (zlen c) by lia.
  rewrite (proj2 (Z.ltb_ge _ _)) by lia. cbn [obind].
  replace (slice (n ++ c ++ t) 0 12) with (Done n); cycle 1.
  { symmetry. rewrite slice_ok by (autorewrite with rd_len; lia).
    rewrite zdrop_0, ztake_app; [done|lia]. }
  cbn [obind]. unfold array_try_from. rewrite Hn. cbn [of_result obind].
  replace (slice (n ++ c ++ t) (12 + zlen c) _) with (Done t); cycle 1.
  { symmetry. rewrite <- (app_nil_r t) at 1. rewrite (app_assoc n).
    apply slice_at; autorewrite with rd_len; lia. }
  cbn [obind]. rewrite Ht. cbn [of_result obind].
  rewrite slice_ok by lia. cbn [obind].
  replace (slice (n ++ c ++ t) 12 (12 + zlen c)) with (Done c); cycle 1.
  { symmetry. apply slice_at; lia. }
  cbn [obind]. rewrite copy_from_slice_ok by (rewrite zdrop_0, zlen_ztake; lia).
  cbn. by destruct (gcm_decrypt_detached key n c t).
Qed.

Lemma decrypt_into_sealed key p pkt output : sealed key p pkt -> zlen p <= zlen output ->
  decrypt_into pkt output key = Done (p ++ zdrop (zlen p) output, zlen p).
Proof.
  intros (n & c & t & -> & Hn & Hc & Ht & E)%sealed_app_inv Hout.
  rewrite decrypt_into_unfold by lia. apply gcm_open_sealed in E. rewrite E.
  rewrite write_at_ok by lia. cbn [obind]. by rewrite ztake_0, Hc.
Qed.

(** An input long enough to be a packet, cut at its fixed offsets. *)
Lemma packet_parts (input : bytes) : NONCE_LEN + TAG_LEN <= zlen input -> exists n c t,
  input = n ++ c ++ t /\ zlen n = 12 /\ zlen t = 16 /\ zlen c = zlen input - 28.
Proof.
  unfold NONCE_LEN, TAG_LEN. intros Hl.
  destruct (app_split 12 input) as (n & rest & -> & Hn); [lia|]. autorewrite with rd_len in *.
  destruct (app_split (zlen rest - 16) rest) as (c & t & -> & Hc); [zlen_pose; lia|].
  autorewrite with rd_len in *. exists n, c, t. split_and!; [done|lia..].
Qed.

Lemma decrypt_into_sizes input output key o : decrypt_into input output key = o -> (forall e, o <> Throw e) ->
  NONCE_LEN + TAG_LEN <= zlen input /\ zlen input - 28 <= zlen output.
Proof.
  intros <- H. unfold decrypt_into, bail_if, NONCE_LEN, TAG_LEN in *.
  destruct (zlen input <? _) eqn:E1; [by edestruct H|]. cbn [obind] in H.
  destruct (zlen output <? _) eqn:E2; [by edestruct H|]. zbool. lia.
Qed.

(** What success of [decrypt_into] means: the input is a packet. *)
Lemma decrypt_into_done_inv input output key out n : decrypt_into input output key = Done (out, n) ->
  exists p, sealed key p input /\ n = zlen p /\ zlen p <= zlen output /\
    out = p ++ zdrop (zlen p) output.
Proof.
  intros H. destruct (decrypt_into_sizes _ _ _ _ H) as [Hl Ho]; [done|].
  destruct (packet_parts _ Hl) as (nn & c & t & -> & Hn & Ht & Hc).
  rewrite decrypt_into_unfold in H by lia.
  destruct (gcm_decrypt_detached key nn c t) as [p|e] eqn:E; [|done].
  apply gcm_sealed_open in E. pose proof (gcm_len _ _ _ _ _ E) as [Hcp _].
  rewrite write_at_ok in H by lia. cbn [obind] in H. injection H as <- <-.
  exists p. split_and!; [|lia|lia|done].
  exists nn. split; [done|]. unfold seal. by rewrite E.
Qed.

Lemma decrypt_into_never_panics input output key : decrypt_into input output key <> Panic.
Proof.
  intros H. destruct (decrypt_into_sizes _ _ _ _ H) as [Hl Ho]; [done|].
  destruct (packet_parts _ Hl) as (nn & c & t & -> & Hn & Ht & Hc).
  rewrite decrypt_into_unfold in H by lia.
  destruct (gcm_decrypt_detached key nn c t) as [p|e] eqn:E; [|done].
  apply gcm_sealed_open in E. pose proof (gcm_len _ _ _ _ _ E) as [Hcp _].
  by rewrite write_at_ok in H by lia.
Qed.

(** * The two pairs of routines *)

Lemma decrypt_data_unfold n c t key : zlen n = 12 -> zlen t = 16 ->
  decrypt_data (n ++ c ++ t) key = of_result (map_err "Decryption failed: " (gcm_decrypt_detached key n c t)).
Proof.
  intros Hn Ht. unfold decrypt_data, bail_if, NONCE_LEN, TAG_LEN. pose proof (zlen_nonneg c). autorewrite with rd_len.
  rewrite (proj2 (Z.ltb_ge _ _)) by lia. cbn [obind]. rewrite split_at_app by done. cbn [obind].
  unfold array_try_from. rewrite Hn. cbn [Z.eqb Pos.eqb of_result obind]. by rewrite gcm_decrypt_postfix.
Qed.

Lemma encrypt_data_sealed data key w pkt : seal key (next_random NONCE_LEN (conn w)) data = Ok pkt ->
  encrypt_data data key w = (Done pkt, on_conn (fun c => set_rng_pos (rng_pos c + Z.to_nat NONCE_LEN)%nat c) w).
Proof.
  intros Hs. pose proof (next_random_len NONCE_LEN (conn w) ltac:(done)) as Hn. unfold seal in Hs.
  destruct (gcm_encrypt_detached key _ data) as [[c t]|] eqn:E; [|done]. injection Hs as <-.
  unfold encrypt_data, bind, fill_bytes, lift_result, lift. rewrite (gcm_encrypt_postfix _ _ _ _ _ E). cbn [map_err of_result].
  unfold zeros. rewrite Z2Nat.inj_add by (unfold NONCE_LEN, zlen; lia). rewrite replicate_add.
  rewrite write_at_front; cycle 1.
  { rewrite Hn. unfold zlen. by rewrite length_replicate. }
  cbn [obind]. rewrite write_at_back; [done|by rewrite Hn|]. rewrite zlen_replicate; [done|apply zlen_nonneg].
Qed.

Lemma decrypt_data_sealed key p pkt : sealed key p pkt -> decrypt_data pkt key = Done p.
Proof.
  intros (n & c & t & -> & Hn & Hc & Ht & E)%sealed_app_inv.
  rewrite decrypt_data_unfold by done. by rewrite (gcm_open_sealed _ _ _ _ _ E).
Qed.

(** There is a packet for the generator's next nonce. *)
Lemma next_packet data key w : zlen key = 32 -> zlen data <= P_MAX ->
  exists pkt, seal key (next_random NONCE_LEN (conn w)) data = Ok pkt /\ sealed key data pkt /\
    zlen pkt = NONCE_LEN + zlen data + TAG_LEN.
Proof.
  intros Hk Hd. pose proof (next_random_len NONCE_LEN (conn w) ltac:(done)) as Hn.
  destruct (gcm_total key (next_random NONCE_LEN (conn w)) data) as (c & t & E); [done|exact Hn|done|].
  set (n := next_random NONCE_LEN (conn w)) in *.
  assert (seal key n data = Ok (n ++ c ++ t)) as Hs by (unfold seal; by rewrite E).
  assert (sealed key data (n ++ c ++ t)) as Hsd by (by exists n).
  exists (n ++ c ++ t). split_and!; [done..|by apply (sealed_len key)].
Qed.

(** (C30) On any input, packet or not, [decrypt_into] with a buffer that is long
    enough and [decrypt_data] do the same: both return the same plaintext, the
    first one at the front of its buffer, whose rest it leaves alone, with its
    length; or both fail. Neither panics. *)
Theorem decryptions_agree (input output key : bytes) : zlen input - NONCE_LEN - TAG_LEN <= zlen output ->
  match decrypt_data input key with
  | Done p => decrypt_into input output key = Done (p ++ zdrop (zlen p) output, zlen p)
  | Throw _ => exists e, decrypt_into input output key = Throw e
  | Panic | Hang => False
  end.
Proof.
  intros Ho. unfold NONCE_LEN, TAG_LEN in Ho. destruct (decide (NONCE_LEN + TAG_LEN <= zlen input)) as [Hl|Hl].
  - destruct (packet_parts _ Hl) as (n & c & t & -> & Hn & Ht & Hc).
    rewrite decrypt_data_unfold, decrypt_into_unfold by lia.
    destruct (gcm_decrypt_detached key n c t) as [p|e] eqn:E; cbn [map_err of_result]; [|by eexists].
    apply gcm_sealed_open in E. pose proof (gcm_len _ _ _ _ _ E) as [Hcp _].
    rewrite write_at_ok by lia. cbn [obind]. by rewrite ztake_0, Hcp.
  - unfold decrypt_data, decrypt_into, bail_if. rewrite !(proj2 (Z.ltb_lt _ _)) by lia. cbn [obind]. by eexists.
Qed.

(** [encrypt_into] and [encrypt_data] make the same packet and leave the
    generator at the same place, when the buffer has exactly the packet's
    length, 28 bytes more than the data; a shorter buffer is an error, and a
    longer one, which the comment of the function allows, a panic. The packet
    opens to the data with either decryption. *)
Theorem encryptions_agree (data key : bytes) (w : World) : zlen key = 32 -> zlen data <= P_MAX ->
  exists pkt w', encrypt_data data key w = (Done pkt, w') /\
    zlen pkt = NONCE_LEN + zlen data + TAG_LEN /\
    (forall output, encrypt_into data output key w =
      match Z.compare (zlen output) (zlen pkt) with
      | Lt => (Throw (too_small (zlen pkt)), w)
      | Eq => (Done (pkt, zlen pkt), w')
      | Gt => (Panic, w')
      end) /\
    decrypt_data pkt key = Done data /\
    forall output, zlen data <= zlen output ->
      decrypt_into pkt output key = Done (data ++ zdrop (zlen data) output, zlen data).
Proof.
  intros Hk Hd. destruct (next_packet data key w Hk Hd) as (pkt & Hs & Hsd & Hl).
  eexists pkt, _. split; [by apply encrypt_data_sealed|]. split; [done|]. split_and!.
  - intros output. rewrite Hl. destruct (Z.compare_spec (zlen output) (NONCE_LEN + zlen data + TAG_LEN)).
    + rewrite <- Hl. by apply encrypt_into_exact.
    + by apply encrypt_into_short.
    + by eapply encrypt_into_long.
  - by apply decrypt_data_sealed.
  - intros output Ho. by apply decrypt_into_sealed.
Qed.
End Laws.
End Crypto.
