(* ===== verification/Header.v ===== *)
(** src/header.rs: the messages of the protocol and the checks made on the two
    file headers. Each message travels as its postcard encoding. *)
From Stdlib Require Import ZifyBool.
From S2P Require Import Prelude F64 External Lib.

(** [[u8; n]]. *)
Record array (n : Z) := mk_array {
  arr : bytes;
  arr_ok : bool_decide (zlen arr = n) = true;
}.
Arguments arr {n} a.
Arguments mk_array {n} arr arr_ok.

Lemma arr_len {n} (a : array n) : zlen (arr a) = n.
Proof. destruct a as [b H]. simpl. by apply bool_decide_eq_true in H. Qed.

Lemma arr_inj {n} (a b : array n) : arr a = arr b -> a = b.
Proof.
  destruct a as [a Ha], b as [b Hb]. simpl. intros ->. f_equal.
  apply Eqdep_dec.UIP_dec, bool_eq_dec.
Qed.

(** An array with the bytes [b], when they are [n]. *)
Definition to_array (n : Z) (b : bytes) : result (array n) :=
  match decide (bool_decide (zlen b = n) = true) with
  | left H => Ok (mk_array b H)
  | right _ => Err "could not convert slice to array"
  end.

Lemma to_array_ok n b : zlen b = n -> exists a, to_array n b = Ok a /\ arr a = b.
Proof.
  intros H. unfold to_array. destruct (decide _) as [Hd|Hd]; [by eexists|].
  destruct Hd. by apply bool_decide_eq_true.
Qed.

Lemma to_array_arr {n} (a : array n) : to_array n (arr a) = Ok a.
Proof.
  destruct (to_array_ok n (arr a) (arr_len a)) as (b & -> & H). f_equal. by apply arr_inj.
Qed.

Record ClientHello := {
  c_x22519_key : array 32;
  c_nonce : array 32;
}.

Record ServerHello := {
  s_ed25519_key : array 32;
  s_x22519_key : array 32;
  s_signature : array 64;
  s_nonce : array 32;
}.

Record UploadHeader := {
  u_file_id : string;
  u_file_name : string;
  u_file_size : Z;             (* u64 *)
  u_file_hash : string;
  u_file_key : string;
}.

Record DownloadHeader := {
  d_file_id : string;
  d_file_key : string;
}.

Inductive Command :=
| Echo
| Auth (flags : Z)             (* u8 *)
| Upload (h : UploadHeader)
| Download (h : DownloadHeader)
| Status.

Record EchoDebugHeader := {
  payload_len : Z;             (* u32 *)
  payload_hash : array 32;
  process_ms : Z;              (* u128 *)
}.

Record UploadResponse := {
  ur_file_id : string;
  ur_file_hash : string;
  ur_network_time : f32;
}.

Record DownloadResponse := {
  dr_file_name : string;
  dr_file_size : Z;            (* u64 *)
  dr_file_hash : string;
  dr_network_time : f32;
}.

Record ErrorHeader := { e_code : Z; e_message : string }.
Record WarnHeader := { w_code : Z; w_message : string }.

Record StatusHeader := {
  timestamp : string;
  uptime_hrs : f64;
  auth_client : Z;             (* u64 *)
  st_total_uploaded : Z;
  st_total_downloaded : Z;
  total_bandwidth_used : Z;
}.

(** The [serialize] and [deserialize] of every message. *)
Definition serialize {T} `{Postcard T} (x : T) : result bytes :=
  map_err "Failed to serialize: " (to_allocvec x).
Definition deserialize {T} `{Postcard T} (b : bytes) : result T :=
  map_err "Failed to deserialize: " (from_bytes b).

Lemma serialize_total {T} `{PostcardLaws T} (x : T) : exists b, serialize x = Ok b.
Proof. destruct (to_allocvec_total x) as [b Hb]. exists b. unfold serialize. by rewrite Hb. Qed.

Lemma deserialize_serialize {T} `{PostcardLaws T} (x : T) b :
  serialize x = Ok b -> deserialize b = Ok x.
Proof.
  unfold serialize, deserialize. destruct (to_allocvec x) eqn:E; [|done].
  intros [= ->]. by rewrite (from_to_allocvec _ _ E).
Qed.

(** * Validation of the file headers *)

Definition BAD_ID : string := "File ID must be a non-empty string between 32 and 256 characters".
Definition BAD_KEY : string := "File key must be between 1 and 512 characters".

(** [UploadHeader::validate]; [max_size] is [*MAX_FILE_SIZE_GB]. *)
Definition upload_validate (max_size : Z) (h : UploadHeader) : result unit :=
  if str_is_empty (u_file_id h) || negb ((32 <=? str_len (u_file_id h)) && (str_len (u_file_id h) <=? 256))
  then Err BAD_ID
  else if str_is_empty (u_file_name h) then Err "File name cannot be empty"
  else if (u_file_size h <? 1024 * 1024) || (max_size <? u_file_size h)
  then Err ("File size must be between 1MB and " +:+ pretty (Z.quot max_size (1024 * 1024 * 1024)) +:+ " GB")
  else if str_is_empty (u_file_hash h) then Err "File hash cannot be empty"
  else if str_is_empty (u_file_key h) || (512 <? str_len (u_file_key h)) then Err BAD_KEY
  else Ok tt.

(** [DownloadHeader::validate]. *)
Definition download_validate (h : DownloadHeader) : result unit :=
  if str_is_empty (d_file_id h) || negb ((32 <=? str_len (d_file_id h)) && (str_len (d_file_id h) <=? 256))
  then Err BAD_ID
  else if str_is_empty (d_file_key h) || (512 <? str_len (d_file_key h)) then Err BAD_KEY
  else Ok tt.

(** What a valid upload header promises. *)
Record upload_valid (max_size : Z) (h : UploadHeader) : Prop := {
  uv_id : 32 <= str_len (u_file_id h) <= 256;
  uv_name : 0 < str_len (u_file_name h);
  uv_size : 1048576 <= u_file_size h <= max_size;
  uv_hash : 0 < str_len (u_file_hash h);
  uv_key : 1 <= str_len (u_file_key h) <= 512;
}.

Lemma str_len_nonneg s : 0 <= str_len s.
Proof. unfold str_len. lia. Qed.

Lemma str_is_empty_spec s : str_is_empty s = false <-> 0 < str_len s.
Proof. unfold str_is_empty. pose proof (str_len_nonneg s). lia. Qed.

(** [UploadHeader::validate] accepts exactly the headers whose id has 32
    to 256 bytes, whose name and hash are not empty, whose size is at least
    1 MiB and at most the configured maximum, and whose key has 1 to 512
    bytes. *)
Theorem upload_validate_spec (max_size : Z) (h : UploadHeader) :
  upload_validate max_size h = Ok tt <-> upload_valid max_size h.
Proof.
  unfold upload_validate, str_is_empty. pose proof (str_len_nonneg (u_file_name h)).
  pose proof (str_len_nonneg (u_file_hash h)). pose proof (str_len_nonneg (u_file_key h)). split.
  - repeat case_match; try done. intros _. split; lia.
  - intros [? ? ? ? ?]. repeat case_match; try done; lia.
Qed.

Lemma download_validate_spec (h : DownloadHeader) :
  download_validate h = Ok tt <->
  32 <= str_len (d_file_id h) <= 256 /\ 1 <= str_len (d_file_key h) <= 512.
Proof.
  unfold download_validate, str_is_empty. pose proof (str_len_nonneg (d_file_key h)). split.
  - repeat case_match; try done. intros _. lia.
  - intros [? ?]. repeat case_match; try done; lia.
Qed.
