(* ===== verification/Sample.v ===== *)
(** Concrete functions for every interface of External.v, with proofs of their
    laws. They are simple stand-ins, none of them secure: they show that the
    laws can hold together, and let the theorems be applied to concrete
    inputs. *)
From Stdlib Require Import Floats Ascii.
From S2P Require Import Prelude F64 External RateLimit FileSys Locks Lib World Exec Header.

Module Toy.

(** * A host and a connection *)

Definition demo_tape (i : nat) : byte := byte_of_Z (Z.of_nat i).

Definition demo_fs : fs := {[ ["home"]%string := Dir ]}.

Definition demo_host : Host := {|
  h_home := Some ["home"]%string; h_fs := demo_fs; h_locks := empty_locks;
  h_limiter := init_limiter 100%float 10%float; h_tracker := default_tracker;
  h_now := 0; h_ticks := []; h_start_time := None; h_stdin := [] |}.

(** A peer that sent [inp] and closed. *)
Definition demo_view (inp : bytes) : View := {|
  v_in := inp; v_end := ReadEof; v_pend := []; v_out := []; v_shut := false;
  v_tape := demo_tape; v_pos := 0; v_host := demo_host |}.

(** * Encodings: the bits of a stdpp encoding, one byte each *)

Fixpoint pos_to_bytes (p : positive) : bytes :=
  match p with
  | xH => []
  | xO p => Byte.x00 :: pos_to_bytes p
  | xI p => Byte.x01 :: pos_to_bytes p
  end.

Fixpoint bytes_to_pos (b : bytes) : positive :=
  match b with
  | [] => xH
  | Byte.x00 :: b => xO (bytes_to_pos b)
  | _ :: b => xI (bytes_to_pos b)
  end.

Lemma bytes_to_pos_to_bytes p : bytes_to_pos (pos_to_bytes p) = p.
Proof. induction p; simpl; by rewrite ?IHp. Qed.

Definition toy_decode {T} `{Countable T} (b : bytes) : result T :=
  match countable.decode (bytes_to_pos b) with Some x => Ok x | None => Err "malformed" end.

Lemma toy_decode_encode {T} `{Countable T} (x : T) :
  toy_decode (pos_to_bytes (countable.encode x)) = Ok x.
Proof. unfold toy_decode. by rewrite bytes_to_pos_to_bytes, countable.decode_encode. Qed.

#[export] Instance toy_postcard {T} `{Countable T} : Postcard T := {|
  to_allocvec x := Ok (pos_to_bytes (countable.encode x));
  to_io x := Ok (pos_to_bytes (countable.encode x));
  from_bytes := toy_decode;
|}.

#[export] Instance toy_postcard_laws {T} `{Countable T} : PostcardLaws T.
Proof. split; simpl; [eauto| |eauto|]; intros x b [= <-]; apply toy_decode_encode. Qed.

#[export] Instance toy_json {T} `{Countable T} : Json T := {|
  to_string_pretty x := Ok (String.string_of_list_byte (pos_to_bytes (countable.encode x)));
  from_str s := toy_decode (as_bytes s);
|}.

#[export] Instance toy_json_laws {T} `{Countable T} : JsonLaws T.
Proof.
  split; simpl; [eauto|]. intros x s [= <-]. unfold as_bytes.
  rewrite String.list_byte_of_string_of_list_byte. apply toy_decode_encode.
Qed.

(** * Countable messages *)

#[export] Instance array_eq_dec n : EqDecision (array n).
Proof.
  intros a b. destruct (decide (arr a = arr b)) as [H|H]; [left|right]; [by apply arr_inj|congruence].
Defined.
#[export] Instance array_countable n : Countable (array n).
Proof.
  refine (inj_countable arr (fun b => match to_array n b with Ok a => Some a | Err _ => None end) _).
  intros a. by rewrite to_array_arr.
Defined.

#[export] Instance spec_float_eq_dec : EqDecision spec_float.
Proof. solve_decision. Defined.
#[export] Instance spec_float_countable : Countable spec_float.
Proof.
  refine (inj_countable'
    (fun x => match x with
     | S754_zero s => inl (inl s) | S754_infinity s => inl (inr s) | S754_nan => inr (inl tt)
     | S754_finite s m e => inr (inr (s, m, e)) end)
    (fun y => match y with
     | inl (inl s) => S754_zero s | inl (inr s) => S754_infinity s | inr (inl _) => S754_nan
     | inr (inr (s, m, e)) => S754_finite s m e end) _).
  by intros [].
Defined.

#[export] Instance float_eq_dec : EqDecision PrimFloat.float.
Proof.
  intros x y. destruct (decide (Prim2SF x = Prim2SF y)) as [H|H]; [left; by apply Prim2SF_inj|right; congruence].
Defined.
#[export] Instance float_countable : Countable PrimFloat.float.
Proof. refine (inj_countable' Prim2SF SF2Prim _). apply SF2Prim_Prim2SF. Defined.

#[export] Instance ClientHello_eq_dec : EqDecision ClientHello.
Proof. solve_decision. Defined.
#[export] Instance ClientHello_countable : Countable ClientHello.
Proof.
  refine (inj_countable' (fun h => (c_x22519_key h, c_nonce h))
    (fun p => {| c_x22519_key := p.1; c_nonce := p.2 |}) _). by intros [].
Defined.

#[export] Instance ServerHello_eq_dec : EqDecision ServerHello.
Proof. solve_decision. Defined.
#[export] Instance ServerHello_countable : Countable ServerHello.
Proof.
  refine (inj_countable' (fun h => (s_ed25519_key h, s_x22519_key h, s_signature h, s_nonce h))
    (fun '(a, b, c, d) => {| s_ed25519_key := a; s_x22519_key := b; s_signature := c; s_nonce := d |}) _).
  by intros [].
Defined.

#[export] Instance UploadHeader_eq_dec : EqDecision UploadHeader.
Proof. solve_decision. Defined.
#[export] Instance UploadHeader_countable : Countable UploadHeader.
Proof.
  refine (inj_countable' (fun h => (u_file_id h, u_file_name h, u_file_size h, u_file_hash h, u_file_key h))
    (fun '(a, b, c, d, e) =>
      {| u_file_id := a; u_file_name := b; u_file_size := c; u_file_hash := d; u_file_key := e |}) _).
  by intros [].
Defined.

#[export] Instance DownloadHeader_eq_dec : EqDecision DownloadHeader.
Proof. solve_decision. Defined.
#[export] Instance DownloadHeader_countable : Countable DownloadHeader.
Proof.
  refine (inj_countable' (fun h => (d_file_id h, d_file_key h))
    (fun p => {| d_file_id := p.1; d_file_key := p.2 |}) _). by intros [].
Defined.

#[export] Instance Command_eq_dec : EqDecision Command.
Proof. solve_decision. Defined.
#[export] Instance Command_countable : Countable Command.
Proof.
  refine (inj_countable'
    (fun c => match c with
     | Echo => inl (inl true) | Status => inl (inl false) | Auth f => inl (inr f)
     | Upload h => inr (inl h) | Download h => inr (inr h) end)
    (fun s => match s with
     | inl (inl true) => Echo | inl (inl false) => Status | inl (inr f) => Auth f
     | inr (inl h) => Upload h | inr (inr h) => Download h end) _).
  by intros [].
Defined.

#[export] Instance EchoDebugHeader_eq_dec : EqDecision EchoDebugHeader.
Proof. solve_decision. Defined.
#[export] Instance EchoDebugHeader_countable : Countable EchoDebugHeader.
Proof.
  refine (inj_countable' (fun h => (payload_len h, payload_hash h, process_ms h))
    (fun '(a, b, c) => {| payload_len := a; payload_hash := b; process_ms := c |}) _). by intros [].
Defined.

#[export] Instance UploadResponse_eq_dec : EqDecision UploadResponse.
Proof. solve_decision. Defined.
#[export] Instance UploadResponse_countable : Countable UploadResponse.
Proof.
  refine (inj_countable' (fun h => (ur_file_id h, ur_file_hash h, ur_network_time h))
    (fun '(a, b, c) => {| ur_file_id := a; ur_file_hash := b; ur_network_time := c |}) _). by intros [].
Defined.

#[export] Instance DownloadResponse_eq_dec : EqDecision DownloadResponse.
Proof. solve_decision. Defined.
#[export] Instance DownloadResponse_countable : Countable DownloadResponse.
Proof.
  refine (inj_countable' (fun h => (dr_file_name h, dr_file_size h, dr_file_hash h, dr_network_time h))
    (fun '(a, b, c, d) =>
      {| dr_file_name := a; dr_file_size := b; dr_file_hash := c; dr_network_time := d |}) _).
  by intros [].
Defined.

#[export] Instance ErrorHeader_eq_dec : EqDecision ErrorHeader.
Proof. solve_decision. Defined.
#[export] Instance ErrorHeader_countable : Countable ErrorHeader.
Proof.
  refine (inj_countable' (fun h => (e_code h, e_message h))
    (fun p => {| e_code := p.1; e_message := p.2 |}) _). by intros [].
Defined.

#[export] Instance WarnHeader_eq_dec : EqDecision WarnHeader.
Proof. solve_decision. Defined.
#[export] Instance WarnHeader_countable : Countable WarnHeader.
Proof.
  refine (inj_countable' (fun h => (w_code h, w_message h))
    (fun p => {| w_code := p.1; w_message := p.2 |}) _). by intros [].
Defined.

#[export] Instance StatusHeader_eq_dec : EqDecision StatusHeader.
Proof. solve_decision. Defined.
#[export] Instance StatusHeader_countable : Countable StatusHeader.
Proof.
  refine (inj_countable'
    (fun h => (timestamp h, uptime_hrs h, auth_client h, st_total_uploaded h, st_total_downloaded h,
               total_bandwidth_used h))
    (fun '(a, b, c, d, e, f) =>
      {| timestamp := a; uptime_hrs := b; auth_client := c; st_total_uploaded := d;
         st_total_downloaded := e; total_bandwidth_used := f |}) _). by intros [].
Defined.

#[export] Instance MetadataFile_countable : Countable MetadataFile.
Proof.
  refine (inj_countable' (fun h => (m_filename h, m_file_size h, m_file_hash h, m_file_key_hash h))
    (fun '(a, b, c, d) =>
      {| m_filename := a; m_file_size := b; m_file_hash := c; m_file_key_hash := d |}) _). by intros [].
Defined.

#[export] Instance FileHistory_eq_dec : EqDecision FileHistory.
Proof. solve_decision. Defined.
#[export] Instance FileHistory_countable : Countable FileHistory.
Proof.
  refine (inj_countable' (fun h => (name h, last_push h, last_pull h))
    (fun '(a, b, c) => {| name := a; last_push := b; last_pull := c |}) _). by intros [].
Defined.

#[export] Instance Catalog_eq_dec : EqDecision Catalog.
Proof. solve_decision. Defined.
#[export] Instance Catalog_countable : Countable Catalog.
Proof.
  refine (inj_countable' (fun c => (file_map c, file_index c))
    (fun p => {| file_map := p.1; file_index := p.2 |}) _). by intros [].
Defined.

#[export] Instance AuthServerMap_eq_dec : EqDecision AuthServerMap.
Proof. solve_decision. Defined.
#[export] Instance AuthServerMap_countable : Countable AuthServerMap.
Proof. refine (inj_countable' server_map Build_AuthServerMap _). by intros []. Defined.

(** * Hexadecimal *)

Definition hex_digit (n : Z) : ascii :=
  ascii_of_nat (Z.to_nat (if n <? 10 then 48 + n else 87 + n)).

Fixpoint toy_hex (b : bytes) : string :=
  match b with
  | [] => EmptyString
  | x :: b => String (hex_digit (byte_to_Z x / 16)) (String (hex_digit (byte_to_Z x mod 16)) (toy_hex b))
  end.

Definition hex_value (c : ascii) : option Z :=
  let n := Z.of_nat (nat_of_ascii c) in
  if (48 <=? n) && (n <=? 57) then Some (n - 48)
  else if (97 <=? n) && (n <=? 102) then Some (n - 87) else None.

Fixpoint toy_unhex (s : string) : option bytes :=
  match s with
  | EmptyString => Some []
  | String c (String d s) =>
    match hex_value c, hex_value d, toy_unhex s with
    | Some x, Some y, Some b => Some (byte_of_Z (x * 16 + y) :: b)
    | _, _, _ => None
    end
  | _ => None
  end.

#[export] Instance toy_hexes : Hex := {|
  External.encode := toy_hex;
  External.decode s := match toy_unhex s with Some b => Ok b | None => Err "Invalid character" end;
|}.

Lemma toy_unhex_hex b : toy_unhex (toy_hex b) = Some b.
Proof. induction b as [|x b IH]; [done|]. simpl. rewrite IH. by destruct x. Qed.

Lemma toy_hex_len b : str_len (toy_hex b) = 2 * zlen b.
Proof. unfold str_len. induction b as [|x b IH]; [done|]. rewrite zlen_cons. simpl. lia. Qed.

Lemma toy_hex_digits b : Forall (fun c => is_hex_digit c = true) (as_bytes (toy_hex b)).
Proof.
  induction b as [|x b IH]; [by constructor|].
  change (as_bytes (toy_hex (x :: b))) with
    (byte_of_ascii (hex_digit (byte_to_Z x / 16)) :: byte_of_ascii (hex_digit (byte_to_Z x mod 16))
       :: as_bytes (toy_hex b)).
  repeat constructor; [by destruct x..|done].
Qed.

#[export] Instance toy_hex_laws : HexLaws.
Proof.
  split; simpl; [intros b; by rewrite toy_unhex_hex|apply toy_hex_len|apply toy_hex_digits].
Qed.

(** * Cryptography *)

Definition pad (n : Z) (b : bytes) : bytes := ztake n (b ++ zeros n).

Lemma pad_len n b : 0 <= n -> zlen (pad n b) = n.
Proof.
  intros. unfold pad. rewrite zlen_ztake; [done|]. rewrite zlen_app, zlen_zeros by done.
  pose proof (zlen_nonneg b). lia.
Qed.

Lemma pad_id n b : zlen b = n -> pad n b = b.
Proof. intros. unfold pad. by apply ztake_app. Qed.

#[export] Instance toy_sha2 : Sha2 := {|
  sha256_state := bytes;
  sha256_new := [];
  sha256_update s b := s ++ b;
  sha256_finalize s := pad 32 s;
  sha256_digest b := pad 32 b;
  sha512_digest b := pad 64 b;
|}.

#[export] Instance toy_sha2_laws : Sha2Laws.
Proof.
  split; simpl; intros; try done; try (by apply pad_len).
  - by rewrite app_nil_r.
  - by rewrite app_assoc.
Qed.

(** The plaintext in clear, tagged with half of the key. *)
Definition gcm_sizes_ok (k n p : bytes) : bool :=
  (zlen k =? 32) && (zlen n =? 12) && (zlen p <=? P_MAX).

Definition toy_seal (k n p : bytes) : result (bytes * bytes) :=
  if gcm_sizes_ok k n p then Ok (p, ztake 16 k) else Err "aead::Error".
Definition toy_open (k n c t : bytes) : result bytes :=
  if gcm_sizes_ok k n c && bool_decide (t = ztake 16 k) then Ok c else Err "aead::Error".

#[export] Instance toy_gcm : AesGcm := {|
  gcm_encrypt_detached := toy_seal;
  gcm_decrypt_detached := toy_open;
  gcm_encrypt k n p := match toy_seal k n p with Ok (c, t) => Ok (c ++ t) | Err e => Err e end;
  gcm_decrypt k n ct := toy_open k n (ztake (zlen ct - 16) ct) (zdrop (zlen ct - 16) ct);
|}.

#[export] Instance toy_gcm_laws : AesGcmLaws.
Proof.
  split; simpl; unfold toy_seal, toy_open, gcm_sizes_ok.
  - intros k n p -> -> Hp. rewrite (proj2 (Z.leb_le _ _) Hp). simpl. eauto.
  - intros k n p c t H. destruct (_ && _) eqn:E; [|done]. zbool. simplify_eq. split; [done|].
    apply zlen_ztake. lia.
  - intros k n p c t H. destruct (_ && _) eqn:E; [|done]. simplify_eq. rewrite E.
    by rewrite bool_decide_eq_true_2.
  - intros k n p c t H. destruct (_ && _) eqn:E; [|done]. simplify_eq.
    apply andb_prop in E as [-> ->%bool_decide_eq_true]. done.
  - intros k n p c t H. destruct (_ && _) eqn:E; [|done]. by simplify_eq.
  - intros k n c t Ht. rewrite zlen_app, Ht, ztake_app, zdrop_app by lia. done.
Qed.

Definition key_array (b : bytes) : array 32.
Proof.
  refine (mk_array (pad 32 b) _). abstract (apply bool_decide_eq_true, pad_len; lia).
Defined.

Definition sig_array (b : bytes) : array 64.
Proof.
  refine (mk_array (pad 64 b) _). abstract (apply bool_decide_eq_true, pad_len; lia).
Defined.

(** A signature is the public key followed by the start of the message. *)
Definition toy_signature (pub m : bytes) : bytes := pad 64 (pub ++ m).

Definition toy_verify (v : array 32) (m s : bytes) : result unit :=
  if bool_decide (s = toy_signature (arr v) m) then Ok tt else Err "signature error".

#[export] Instance toy_ed25519 : Ed25519 := {|
  VerifyingKey := array 32;
  vk_try_from := to_array 32;
  vk_to_bytes := arr;
  verifying_key := key_array;
  ed_sign k m := toy_signature (pad 32 k) m;
  ed_verify := toy_verify;
  ed_verify_strict := toy_verify;
|}.

Lemma toy_verify_sign k m : toy_verify (key_array k) m (toy_signature (pad 32 k) m) = Ok tt.
Proof. unfold toy_verify. by rewrite bool_decide_eq_true_2. Qed.

#[export] Instance toy_ed25519_laws : Ed25519Laws.
Proof.
  split; simpl; [apply arr_len|apply to_array_arr| |intros; by apply pad_len|apply toy_verify_sign..].
  intros b v H. unfold to_array in H. destruct (decide _); by simplify_eq.
Qed.

Definition byte_add (a b : byte) : byte := byte_of_Z (byte_to_Z a + byte_to_Z b).

#[export] Instance toy_x25519 : X25519 := {|
  x_public s := pad 32 s;
  diffie_hellman s p := pad 32 (zip_with byte_add (pad 32 s) (pad 32 p));
|}.

#[export] Instance toy_x25519_laws : X25519Laws.
Proof.
  split; simpl; [intros; by apply pad_len..|]. intros a b. f_equal.
  rewrite !(pad_id 32 (pad 32 _)) by (by apply pad_len).
  assert (forall x y, byte_of_Z (byte_to_Z y + byte_to_Z x) = byte_of_Z (byte_to_Z x + byte_to_Z y)) as Hc.
  { intros. by rewrite Z.add_comm. }
  unfold byte_add. generalize (pad 32 a) (pad 32 b). intros l. induction l as [|x l IH]; intros [|y k]; simpl; try done.
  by rewrite Hc, IH.
Qed.

#[export] Instance toy_chrono : Chrono := {| fmt_local := pretty; to_rfc3339 := pretty |}.

#[export] Instance toy_uuid : Uuid := {| uuid_v4_simple := toy_hex |}.
#[export] Instance toy_uuid_laws : UuidLaws.
Proof. split. intros b Hb. simpl. rewrite toy_hex_len. lia. Qed.

Definition demo_config : Config := {|
  enable_echo := true; enable_client_whitelist := true; max_connections := 256;
  max_file_size := 8589934592; connection_lifetime := 3600;
  server_pri_key_bytes := pad 32 (as_bytes "server");
  server_pub_key_bytes := pad 32 (as_bytes "server") |}.

Definition demo_ip : SocketAddr := {| sa_ip := V4 167772161; sa_port := 3000 |}.

(** [demo_host] with other files. *)
Definition demo_host_with (f : fs) : Host := set_fs f demo_host.

Definition ok_or {A} (d : A) (r : result A) : A := match r with Ok a => a | Err _ => d end.

Definition demo_key : bytes := pad 32 (as_bytes "session key").

End Toy.
