(* ===== verification/Stores.v ===== *)
(** src/lib.rs: the client's two JSON files, the catalog of its uploads and the
    map of trusted servers: opening, updating and saving them. *)
From S2P Require Import Prelude F64 External RateLimit FileSys Locks Lib World Exec Header Sample.

Section Catalog.
Context {JC : Json Catalog} {CH : Chrono}.

Definition catalog_read_or_create (p : path) : M Catalog :=
  match p with
  | [] => throw "Invalid catalog path"
  | _ =>
    fs_op (fun f => create_dir_all f (parent p)) ;;;
    let* e := gets_fs (fun f => exists_ f p) in
    if e then let* r := gets_fs (fun f => catalog_read f p) in lift_result r
    else ret empty_catalog
  end.

(** Both update the catalog in memory, then save it: the new catalog is
    returned with the outcome of the save. *)
Definition update_on_push (p : path) (file_name file_id : string) (c : Catalog) : M Catalog :=
  let* now := instant_now in
  let c := catalog_push (fmt_local now) file_name file_id c in
  fs_op (fun f => catalog_write f p c) ;;; ret c.

Definition update_on_pull (p : path) (file_id : string) (c : Catalog) : M Catalog :=
  let* now := match file_map c !! file_id with
              | Some _ => instant_now
              | None => ret 0
              end in
  let c := catalog_pull (fmt_local now) file_id c in
  fs_op (fun f => catalog_write f p c) ;;; ret c.
End Catalog.

Section ServerMap.
Context {JS : Json AuthServerMap}.

Definition server_map_read_or_create (p : path) : M AuthServerMap :=
  match p with
  | [] => throw "Invalid server map path"
  | _ =>
    fs_op (fun f => create_dir_all f (parent p)) ;;;
    let* e := gets_fs (fun f => exists_ f p) in
    if e then let* r := gets_fs (fun f => server_map_read f p) in lift_result r
    else ret {| server_map := ∅ |}
  end.
End ServerMap.

(** * The catalog's invariant *)

(** Every indexed id is a tracked upload, listed once per name, and every
    tracked upload is listed under the name it was first pushed with. *)
Record catalog_wf (c : Catalog) : Prop := {
  cw_nodup : map_Forall (fun _ ids => NoDup ids) (file_index c);
  cw_tracked : map_Forall (fun _ ids => forall id, id ∈ ids -> is_Some (file_map c !! id)) (file_index c);
  cw_listed : map_Forall (fun id m => exists ids, file_index c !! name m = Some ids /\ id ∈ ids) (file_map c);
}.

Inductive catalog_op : Catalog -> Catalog -> Prop :=
| op_push now file_name file_id c : catalog_op c (catalog_push now file_name file_id c)
| op_pull now file_id c : catalog_op c (catalog_pull now file_id c).

Section Push.
Context (now file_name file_id : string) (c : Catalog).

(** The ids listed under [file_name] after the push. *)
Lemma push_index : exists ids,
  file_index (catalog_push now file_name file_id c) !! file_name = Some ids /\ file_id ∈ ids /\
  (forall old, file_index c !! file_name = Some old -> forall id, id ∈ old -> id ∈ ids) /\
  (forall id, id ∈ ids -> id = file_id \/ exists old, file_index c !! file_name = Some old /\ id ∈ old) /\
  ((forall old, file_index c !! file_name = Some old -> NoDup old) -> NoDup ids).
Proof.
  simpl. rewrite lookup_insert_eq. eexists. split; [done|].
  destruct (file_index c !! file_name) as [old|]; [case_bool_decide as Hin|].
  - split_and!; [done|by intros ? [= <-]|eauto|eauto].
  - split_and!; [set_solver|intros ? [= <-]; set_solver|set_solver|].
    intros H. apply NoDup_app. split_and!; [by apply H|set_solver|apply NoDup_singleton].
  - split_and!; [set_solver|done|set_solver|intros; apply NoDup_singleton].
Qed.

Lemma push_map_is_Some id : is_Some (file_map c !! id) ->
  is_Some (file_map (catalog_push now file_name file_id c) !! id).
Proof. simpl. intros. destruct (decide (id = file_id)) as [->|]; by simplify_map_eq. Qed.

Lemma catalog_push_wf : catalog_wf c -> catalog_wf (catalog_push now file_name file_id c).
Proof.
  intros [Hn Ht Hl]. destruct push_index as (ids & Hids & Hin & Hold & Honly & Hnd).
  split; intros n x Hx.
  - destruct (decide (n = file_name)) as [->|].
    + rewrite Hids in Hx. injection Hx as <-. apply Hnd. intros old. apply Hn.
    + simpl in Hx. rewrite lookup_insert_ne in Hx by done. by eapply Hn.
  - intros id Hid. destruct (decide (n = file_name)) as [->|].
    + rewrite Hids in Hx. injection Hx as <-.
      destruct (Honly _ Hid) as [->|(old & Ho & Hid')].
      * simpl. rewrite lookup_insert_eq. eauto.
      * apply push_map_is_Some. by eapply Ht.
    + apply push_map_is_Some. simpl in Hx. rewrite lookup_insert_ne in Hx by done. by eapply Ht.
  - assert (forall nm l, file_index c !! nm = Some l -> n ∈ l -> exists l',
      file_index (catalog_push now file_name file_id c) !! nm = Some l' /\ n ∈ l') as Hkeep.
    { intros nm l Hnm Hnl. destruct (decide (nm = file_name)) as [->|]; [eauto|].
      simpl. rewrite lookup_insert_ne by done. eauto. }
    simpl in Hx. destruct (decide (n = file_id)) as [->|].
    + rewrite lookup_insert_eq in Hx. injection Hx as <-.
      destruct (file_map c !! file_id) as [m|] eqn:Em; simpl; [|eauto].
      destruct (Hl _ _ Em) as (l & ? & ?). eauto.
    + rewrite lookup_insert_ne in Hx by done. destruct (Hl _ _ Hx) as (l & ? & ?). eauto.
Qed.
End Push.

Lemma catalog_pull_names now file_id c id m :
  file_map (catalog_pull now file_id c) !! id = Some m ->
  exists m0, file_map c !! id = Some m0 /\ name m0 = name m /\ last_push m0 = last_push m.
Proof.
  unfold catalog_pull. simpl. destruct (file_map c !! file_id) as [f|] eqn:E; [|eauto].
  destruct (decide (id = file_id)) as [->|]; [|rewrite lookup_insert_ne by done; eauto].
  rewrite lookup_insert_eq. intros [= <-]. eauto.
Qed.

Lemma catalog_pull_wf now file_id c : catalog_wf c -> catalog_wf (catalog_pull now file_id c).
Proof.
  intros [Hn Ht Hl]. split; [done| |].
  - intros n ids Hx id Hid. destruct (Ht _ _ Hx _ Hid) as [m Hm]. unfold catalog_pull. simpl.
    destruct (file_map c !! file_id) eqn:E; [|eauto].
    destruct (decide (id = file_id)) as [->|]; by simplify_map_eq.
  - intros id m (m0 & Hm & <- & _)%catalog_pull_names. by apply Hl in Hm.
Qed.

(** However many pushes and pulls a client records, the two maps of its
    catalog stay consistent: each id listed under a name is tracked and listed
    once, and each tracked upload is listed under the name it was first pushed
    with. *)
Theorem catalog_invariant (c : Catalog) : rtc catalog_op empty_catalog c -> catalog_wf c.
Proof.
  revert c. apply (rtc_ind_r catalog_wf).
  - split; apply map_Forall_empty.
  - intros c c' _ Hop IH. destruct Hop; [by apply catalog_push_wf|by apply catalog_pull_wf].
Qed.

Lemma catalog_invariant_witness :
  catalog_wf (catalog_pull "t3" "id1" (catalog_push "t2" "b" "id1" (catalog_push "t1" "a" "id1" empty_catalog))).
Proof.
  apply catalog_invariant. eapply rtc_l; [apply (op_push "t1" "a" "id1")|].
  eapply rtc_l; [apply (op_push "t2" "b" "id1")|].
  eapply rtc_l; [apply (op_pull "t3" "id1")|]. apply rtc_refl.
Defined.

Section Saved.
Context {JC : Json Catalog} {JCL : JsonLaws Catalog} {CH : Chrono}.

Lemma catalog_write_ok f p c f' : catalog_write f p c = Ok f' ->
  catalog_read f' p = Ok c /\ exists bs, f' = <[p := File bs]> f.
Proof.
  unfold catalog_write, catalog_read, read_to_string.
  destruct (to_string_pretty c) as [s|] eqn:E; [|done].
  intros (-> & _ & Hp & _)%write_file_ok. split; [|eauto].
  unfold read_file. rewrite lookup_node_nonempty, lookup_insert_eq by done.
  unfold as_bytes. rewrite String.string_of_list_byte_of_string. by apply from_to_string.
Qed.
End Saved.

Section SavedServers.
Context {JS : Json AuthServerMap} {JSL : JsonLaws AuthServerMap}.

Lemma server_map_write_ok f p m f' : server_map_write f p m = Ok f' ->
  server_map_read f' p = Ok m /\ exists bs, f' = <[p := File bs]> f.
Proof.
  unfold server_map_write, server_map_read, read_to_string.
  destruct (to_string_pretty m) as [s|] eqn:E; [|done].
  intros (-> & _ & Hp & _)%write_file_ok. split; [|eauto].
  unfold read_file. rewrite lookup_node_nonempty, lookup_insert_eq by done.
  unfold as_bytes. rewrite String.string_of_list_byte_of_string. by apply from_to_string.
Qed.
End SavedServers.
