(* ===== verification/Net.v ===== *)
(** src/protocol_v1.rs, lines 318-556: length-prefixed frames, encrypted and
    raw, and the responses that end a connection. *)
From Stdlib Require Import ZifyBool.
From S2P Require Import Prelude F64 External RateLimit FileSys Locks Lib World Crypto Header Exec Sample.

Definition MAX_FRAME_LENGTH : Z := 1024 * 1024 * 16.

Definition get_pool : M bytes := gets (fun w => pool (conn w)).
Definition put_pool (p : bytes) : M unit := modify_conn (set_pool p).

(** [if mem_pool.len() < n { mem_pool.resize(n, 0) }]. *)
Definition pool_reserve (n : Z) : M unit :=
  modify_conn (fun c => if zlen (pool c) <? n then set_pool (resize (pool c) n) c else c).

Definition bad_length (n : Z) : string := ("Invalid frame length: " +:+ pretty n)%string.

Definition read_frame_length : M Z :=
  let* result := timeout READ_TIMEOUT (read_exact 4) in
  match result with
  | Elapsed => throw "Timeout reading frame length"
  | InTime (Err e) => throw ("Read error: " +:+ e)
  | InTime (Ok len_buf) =>
    let len := from_be_bytes len_buf in
    if (len =? 0) || (MAX_FRAME_LENGTH <? len) then throw (bad_length len) else ret len
  end.

(** The number of directories among the entries of a directory. *)
Definition count_dirs (f : fs) (d : path) : result Z :=
  match lookup_node f d with
  | Some Dir =>
    Ok (Z.of_nat (size (filter (fun e : path * node =>
      (e.1 <> [] /\ parent e.1 = d) /\ e.2 = Dir) f)))
  | Some (File _) => Err ENOTDIR
  | None => Err ENOENT
  end.

Section Net.
Context {AG : AesGcm}.

Definition read_encrypt_data_into (session_key : bytes) : M bytes :=
  let* ciphertext_len := read_frame_length in
  lift (bail_if (ciphertext_len <? NONCE_LEN + TAG_LEN)
    ("Frame length too short for encrypted header: " +:+ pretty ciphertext_len)) ;;;
  let plaintext_len := ciphertext_len - NONCE_LEN - TAG_LEN in
  let required_len := ciphertext_len + plaintext_len in
  pool_reserve required_len ;;;
  let* mem_pool := get_pool in
  let* (encrypted_chunk, decrypted_chunk) := lift (split_at mem_pool ciphertext_len) in
  let* encrypted_buf := lift (slice encrypted_chunk 0 ciphertext_len) in
  let* encrypted_buf := read_exact (zlen encrypted_buf) in
  put_pool (encrypted_buf ++ decrypted_chunk) ;;;
  let* decrypted_buf := lift (slice decrypted_chunk 0 plaintext_len) in
  let* (decrypted_buf, _) := lift (decrypt_into encrypted_buf decrypted_buf session_key) in
  put_pool (encrypted_buf ++ decrypted_buf ++ zdrop plaintext_len decrypted_chunk) ;;;
  ret decrypted_buf.

Definition read_headers {PC : Postcard Command} (session_key : bytes) : M Command :=
  let* decrypted_buf := read_encrypt_data_into session_key in
  lift_result (deserialize decrypted_buf).

Definition too_large (n : Z) : string := ("Too large content: " +:+ pretty n +:+ " bytes")%string.

Definition write_encrypt_frame_into (data session_key : bytes) : M unit :=
  let plaintext_len := zlen data in
  lift (bail_if (U32_MAX <? plaintext_len) (too_large plaintext_len)) ;;;
  let ciphertext_len := NONCE_LEN + plaintext_len + TAG_LEN in
  let total_frame_len := 4 + ciphertext_len in
  pool_reserve total_frame_len ;;;
  let len_bytes := to_be_bytes (as_u32 ciphertext_len) in
  let* mem_pool := get_pool in
  let* mem_pool := lift (write_at mem_pool 0 len_bytes) in
  let* out := lift (slice mem_pool 4 total_frame_len) in
  let* (out, _) := encrypt_into data out session_key in
  let* mem_pool := lift (write_at mem_pool 4 out) in
  put_pool mem_pool ;;;
  let* frame := lift (slice mem_pool 0 total_frame_len) in
  write_all frame ;;;
  flush.

Definition read_raw_data_into : M bytes :=
  let* len := read_frame_length in
  read_exact len.

Definition write_raw_frame_into (data : bytes) : M unit :=
  let len := zlen data in
  lift (bail_if (U32_MAX <? len) (too_large len)) ;;;
  write_all (to_be_bytes (as_u32 len) ++ data) ;;;
  flush.

Definition send_success {T} {PT : Postcard T} (response : T) (session_key : bytes) : M unit :=
  let* payload := lift_result (map_err "Failed to serialize success response: " (to_io response)) in
  let rsp := byte_of_Z 1 :: payload in
  timeout_qq WRITE_TIMEOUT (write_encrypt_frame_into rsp session_key) ;;;
  shutdown.

Definition send_warn {PT : Postcard WarnHeader} (response : WarnHeader) (session_key : bytes) : M unit :=
  let* payload_bytes := lift_result (serialize response) in
  let rsp := byte_of_Z 2 :: payload_bytes in
  timeout_qq WRITE_TIMEOUT (write_encrypt_frame_into rsp session_key) ;;;
  shutdown.

Definition send_failed {PT : Postcard ErrorHeader} (response : ErrorHeader) (session_key : bytes) : M unit :=
  let* payload_bytes := lift_result (serialize response) in
  let rsp := byte_of_Z 3 :: payload_bytes in
  timeout_qq WRITE_TIMEOUT (write_encrypt_frame_into rsp session_key) ;;;
  shutdown.

Definition send_status {PT : Postcard StatusHeader} {CH : Chrono} (session_key : bytes) : M unit :=
  let* now := instant_now in
  let* start := gets (fun w => h_start_time (host w)) in
  let hrs := try_get_uptime_hrs start now in
  let* lock := gets (fun w => h_tracker (host w)) in
  let* home := gets (fun w => h_home (host w)) in
  let* user_storage_path := lift_result (get_storage_dir home) in
  let* count := gets_fs (fun f => count_dirs f user_storage_path) in
  let* dir_count := lift_result count in
  let* utc := instant_now in
  let* status := lift_result (serialize
    {| timestamp := to_rfc3339 utc; uptime_hrs := hrs; auth_client := dir_count;
       st_total_uploaded := total_uploaded lock;
       st_total_downloaded := total_download lock;
       total_bandwidth_used := f64_to_u64 (total_bandwidth_gb lock) |}) in
  timeout_qq WRITE_TIMEOUT (write_encrypt_frame_into status session_key) ;;;
  shutdown.

(** * Frames *)

(** What a frame with content [pkt] looks like on the wire. *)
Definition frame (pkt : bytes) : bytes := to_be_bytes (as_u32 (zlen pkt)) ++ pkt.

(** The view after a frame with [pkt] was written and flushed. *)
Definition v_sent (pkt : bytes) (v : View) : View :=
  v_set_wr [] (v_out v ++ v_pend v ++ frame pkt) (v_shut v) v.
(** The view after an encryption took its nonce. *)
Definition v_nonce (v : View) : View := v_set_pos (v_pos v + Z.to_nat NONCE_LEN)%nat v.
Definition v_close (v : View) : View := v_set_wr [] (v_out v ++ v_pend v) true v.

(** The pool, once reserved: the rest must run whatever it holds. *)
#[local] Transparent exec.
Lemma exec_reserved {A} n (k : bytes -> M A) v o v' : 0 <= n ->
  (forall p, n <= zlen p -> exec (k p) v o v') ->
  exec (pool_reserve n ;;; let* p := get_pool in k p) v o v'.
Proof.
  intros Hn Hk w H. unfold bind, pool_reserve, modify_conn, get_pool, gets. simpl.
  apply Hk.
  - destruct (zlen (pool (conn w)) <? n) eqn:E; simpl; zbool; [|lia].
    rewrite zlen_resize; lia.
  - destruct H. split; simpl; try done; by case_match.
Qed.
#[local] Opaque exec.

Section Laws.
Context {AGL : AesGcmLaws}.

Lemma from_to_u32 n : 0 <= n <= U32_MAX -> from_be_bytes (to_be_bytes (as_u32 n)) = n.
Proof.
  unfold U32_MAX. intros. unfold as_u32. rewrite Z.mod_small by lia.
  apply from_to_be_bytes. lia.
Qed.

Lemma exec_read_frame_length pkt rest v : v_in v = frame pkt ++ rest ->
  0 < zlen pkt <= MAX_FRAME_LENGTH ->
  exec read_frame_length v (Done (zlen pkt)) (v_set_in (pkt ++ rest) v).
Proof.
  intros Hin Hl. unfold frame in Hin. rewrite <- app_assoc in Hin.
  unfold read_frame_length.
  estep exec_timeout; [eapply exec_read_exact; [exact Hin|done]|].
  cbn match zeta. rewrite from_to_u32 by (unfold U32_MAX, MAX_FRAME_LENGTH in *; lia).
  rewrite (proj2 (Z.eqb_neq _ _)), (proj2 (Z.ltb_ge _ _)) by lia. apply exec_ret.
Qed.

Lemma exec_read_encrypt key p pkt rest v : v_in v = frame pkt ++ rest -> sealed key p pkt ->
  zlen pkt <= MAX_FRAME_LENGTH ->
  exec (read_encrypt_data_into key) v (Done p) (v_set_in rest v).
Proof.
  intros Hin Hs Hl. pose proof (sealed_len _ _ _ Hs) as Hpl. unfold NONCE_LEN, TAG_LEN in Hpl.
  pose proof (zlen_nonneg p).
  unfold read_encrypt_data_into, NONCE_LEN, TAG_LEN.
  estep exec_read_frame_length; [exact Hin|lia|].
  unfold bail_if. rewrite (proj2 (Z.ltb_ge _ _)) by lia.
  estep exec_lift; [done|].
  apply exec_reserved; [lia|]. intros mp Hmp.
  estep exec_lift; [apply split_at_ok; lia|].
  estep exec_lift; [apply slice_ok; [lia|rewrite zlen_ztake; lia]|].
  rewrite zdrop_0, Z.sub_0_r, (ztake_ge (zlen pkt)) by (rewrite zlen_ztake; lia).
  rewrite zlen_ztake by lia.
  estep exec_read_exact; [done|done|].
  estep exec_set_pool.
  estep exec_lift; [apply slice_ok; [lia|rewrite zlen_zdrop; lia]|].
  rewrite zdrop_0, Z.sub_0_r.
  assert (zlen (ztake (zlen pkt - 12 - 16) (zdrop (zlen pkt) mp)) = zlen p) as Hd.
  { rewrite zlen_ztake; [lia|]. rewrite zlen_zdrop; lia. }
  estep exec_lift; [eapply decrypt_into_sealed; [done|lia]|].
  rewrite zdrop_ge by lia. rewrite app_nil_r.
  estep exec_set_pool. apply exec_ret.
Qed.

(** Writing a frame: the packet is the encryption of [data] under the next
    nonce. *)
Lemma exec_write_encrypt key data pkt v : v_shut v = false -> zlen data <= U32_MAX ->
  seal key (v_random NONCE_LEN v) data = Ok pkt ->
  exec (write_encrypt_frame_into data key) v (Done tt) (v_sent pkt (v_nonce v)).
Proof.
  intros Hs Hl Hseal.
  pose proof (seal_len _ _ _ _ (v_random_len NONCE_LEN v ltac:(done)) Hseal) as Hpl.
  pose proof (zlen_nonneg data).
  unfold write_encrypt_frame_into, bail_if. rewrite (proj2 (Z.ltb_ge _ _)) by lia.
  unfold NONCE_LEN, TAG_LEN in *.
  estep exec_lift; [done|].
  apply exec_reserved; [lia|]. intros mp Hmp.
  estep exec_lift; [apply write_at_ok; [lia|rewrite zlen_to_be_bytes; lia]|].
  rewrite ztake_0, zlen_to_be_bytes. simpl (_ ++ _ ++ _).
  set (hd := to_be_bytes (as_u32 (12 + zlen data + 16))).
  assert (zlen hd = 4) as Hhd by done.
  destruct (app_split (12 + zlen data + 16) (zdrop 4 mp)) as (buf & tl & Hb & Hbl);
    [rewrite zlen_zdrop; lia|]. change (0 + 4) with 4.
  change (?a :: ?b :: ?c :: ?d :: zdrop 4 mp) with (hd ++ zdrop 4 mp). rewrite Hb.
  estep exec_lift; [apply slice_at; [done|lia]|].
  eapply exec_bind; [apply (exec_encrypt_into data buf key v pkt); [unfold NONCE_LEN, TAG_LEN; lia|exact Hseal]|].
  estep exec_lift; [apply write_at_app; [done|lia]|].
  estep exec_set_pool.
  estep exec_lift; [rewrite app_assoc; apply (slice_at [] (hd ++ pkt) tl); [done|rewrite zlen_app, zlen_nil, Hhd; lia]|].
  estep exec_write_all; [done|].
  eapply exec_to; [apply exec_flush|].
  unfold v_sent, frame, hd, v_set_wr. simpl. by rewrite <- Hpl, Hs.
Qed.

(** * Replies

    The packet the next encryption makes, and the views after a reply was
    written and after it was the last one. *)
Definition packet (key data : bytes) (v : View) : bytes :=
  match seal key (v_random NONCE_LEN v) data with Ok p => p | Err _ => [] end.
Definition v_reply (key data : bytes) (v : View) : View := v_sent (packet key data v) (v_nonce v).

(** A message that fits in a frame. *)
Definition fits {T} `{Postcard T} (x : T) : Prop :=
  exists b, serialize x = Ok b /\ zlen b < U32_MAX.

Definition v_failed `{Postcard ErrorHeader} (key : bytes) (e : ErrorHeader) (v : View) : View :=
  match serialize e with Ok b => v_close (v_reply key (byte_of_Z 3 :: b) v) | Err _ => v end.
Definition v_warned `{Postcard WarnHeader} (key : bytes) (e : WarnHeader) (v : View) : View :=
  match serialize e with Ok b => v_close (v_reply key (byte_of_Z 2 :: b) v) | Err _ => v end.
Definition v_success {T} `{Postcard T} (key : bytes) (x : T) (v : View) : View :=
  match to_io x with Ok b => v_close (v_reply key (byte_of_Z 1 :: b) v) | Err _ => v end.

Lemma seal_total key n data : zlen key = 32 -> zlen n = NONCE_LEN -> zlen data <= P_MAX ->
  exists pkt, seal key n data = Ok pkt.
Proof.
  intros Hk Hn Hd. destruct (gcm_total key n data) as (c & t & E); [done..|].
  unfold seal. rewrite E. eauto.
Qed.

Lemma seal_packet key data v : zlen key = 32 -> zlen data <= P_MAX ->
  seal key (v_random NONCE_LEN v) data = Ok (packet key data v).
Proof.
  intros Hk Hd. destruct (seal_total key (v_random NONCE_LEN v) data) as [pkt E]; [done|by apply v_random_len|done|].
  unfold packet. by rewrite E.
Qed.

Lemma packet_sealed key data v : zlen key = 32 -> zlen data <= P_MAX ->
  sealed key data (packet key data v).
Proof. intros. eexists. split; [|by apply seal_packet]. by apply v_random_len. Qed.

Lemma exec_reply key data v : zlen key = 32 -> zlen data <= U32_MAX -> v_shut v = false ->
  exec (write_encrypt_frame_into data key) v (Done tt) (v_reply key data v).
Proof.
  intros Hk Hd Hs. apply exec_write_encrypt; [done..|]. apply seal_packet; [done|].
  unfold U32_MAX, P_MAX in *. lia.
Qed.

Lemma exec_last_reply key data v : zlen key = 32 -> zlen data <= U32_MAX -> v_shut v = false ->
  exec (timeout_qq WRITE_TIMEOUT (write_encrypt_frame_into data key) ;;; shutdown) v (Done tt)
    (v_close (v_reply key data v)).
Proof.
  intros. eapply exec_bind; [apply exec_timeout_or; by apply exec_reply|apply exec_shutdown].
Qed.

Lemma exec_send_failed `{Postcard ErrorHeader} key e v : zlen key = 32 -> v_shut v = false ->
  fits e -> exec (send_failed e key) v (Done tt) (v_failed key e v).
Proof.
  intros Hk Hs (b & E & Hb). unfold send_failed, v_failed. rewrite E.
  estep exec_lift_result; [done|]. apply exec_last_reply; [done|solve_len|done].
Qed.

Lemma exec_send_warn `{Postcard WarnHeader} key e v : zlen key = 32 -> v_shut v = false ->
  fits e -> exec (send_warn e key) v (Done tt) (v_warned key e v).
Proof.
  intros Hk Hs (b & E & Hb). unfold send_warn, v_warned. rewrite E.
  estep exec_lift_result; [done|]. apply exec_last_reply; [done|solve_len|done].
Qed.

Lemma exec_send_success {T} `{Postcard T} key (x : T) b v : zlen key = 32 -> v_shut v = false ->
  to_io x = Ok b -> zlen b < U32_MAX ->
  exec (send_success x key) v (Done tt) (v_success key x v).
Proof.
  intros Hk Hs E Hb. unfold send_success, v_success. rewrite E.
  estep exec_lift_result; [done|]. apply exec_last_reply; [done|solve_len|done].
Qed.

(** (C13) A frame written by [write_encrypt_frame_into] is read back by
    [read_encrypt_data_into] under the same key: the reader gets exactly the
    data, and the bytes after the frame are still unread. The writer uses one
    nonce of twelve random bytes and leaves nothing unflushed. *)
Theorem frame_roundtrip (key data rest : bytes) (v : View) :
  zlen key = 32 -> zlen data + 28 <= MAX_FRAME_LENGTH -> v_shut v = false ->
  exists fr,
    exec (write_encrypt_frame_into data key) v (Done tt)
      (v_set_wr [] (v_out v ++ v_pend v ++ fr) false (v_nonce v)) /\
    forall r : View, v_in r = fr ++ rest ->
      exec (read_encrypt_data_into key) r (Done data) (v_set_in rest r).
Proof.
  intros Hk Hd Hs. exists (frame (packet key data v)).
  assert (zlen data <= U32_MAX /\ zlen data <= P_MAX) as [].
  { unfold U32_MAX, P_MAX, MAX_FRAME_LENGTH in *. lia. }
  assert (sealed key data (packet key data v)) as Hsl by by apply packet_sealed.
  pose proof (sealed_len _ _ _ Hsl). unfold NONCE_LEN, TAG_LEN in *. split.
  - eapply exec_to; [by apply exec_reply|]. unfold v_reply, v_sent. by rewrite <- Hs.
  - intros r Hr. eapply exec_read_encrypt; [done|done|lia].
Qed.

Lemma read_frame_length_inv n w w' : read_frame_length w = (Done n, w') ->
  1 <= n <= MAX_FRAME_LENGTH /\ rd (conn w) = to_be_bytes n ++ rd (conn w') /\ host w' = host w.
Proof.
  unfold read_frame_length. intros (r & w1 & H1 & H)%bind_done_inv. unfold timeout in H1.
  destruct (read_exact 4 _) as [o w2] eqn:E. destruct o as [b|e| |]; simpl in H1; simplify_eq.
  - apply read_exact_done_inv in E as (rest & Hrd & -> & Hl). simpl in Hrd.
    specialize (Hl ltac:(lia)). simpl in H.
    case_match eqn:Hb; [done|]. unfold ret in H. simplify_eq.
    cbn [conn on_conn rd set_rd set_limit host].
    apply orb_false_iff in Hb as [? ?]. zbool.
    assert (length b = 4%nat) as Hb4 by (unfold zlen in Hl; lia).
    pose proof (from_be_bytes_range b Hb4). rewrite to_from_be_bytes by done.
    split; [lia|]. by rewrite Hrd.
  - by destruct (fires_first _ _ _); simplify_eq.
Qed.

Lemma read_encrypt_inv (key p : bytes) (w w' : World) :
  read_encrypt_data_into key w = (Done p, w') ->
  exists pkt, sealed key p pkt /\ rd (conn w) = frame pkt ++ rd (conn w') /\
    28 <= zlen pkt <= MAX_FRAME_LENGTH /\ host w' = host w.
Proof.
  unfold read_encrypt_data_into.
  intros (n & w1 & (Hn & Hrd & Hh)%read_frame_length_inv & H)%bind_done_inv.
  apply bind_done_inv in H as (u & w2 & H2 & H). unfold lift, bail_if in H2.
  case_match eqn:Hlen; [done|]. zbool. simplify_eq. unfold NONCE_LEN, TAG_LEN in *.
  apply bind_done_inv in H as (u' & w3 & H3 & H). unfold pool_reserve, modify_conn in H3.
  simplify_eq. apply bind_done_inv in H as (mp & w4 & H4 & H). unfold get_pool, gets in H4.
  simplify_eq. apply bind_done_inv in H as ([ec dc] & w5 & H5 & H). unfold lift in H5.
  unfold split_at in H5. case_match eqn:Hsp; simplify_eq. zbool.
  rewrite slice_ok in H by (rewrite ?zlen_ztake; lia).
  apply bind_done_inv in H as (eb & w6 & H6 & H). unfold lift in H6. simplify_eq.
  rewrite zdrop_0, Z.sub_0_r, (ztake_ge n) in H by (rewrite zlen_ztake; lia).
  rewrite zlen_ztake in H by lia.
  apply bind_done_inv in H as (pkt & w7 & (rest & Hrd7 & -> & Hpl)%read_exact_done_inv & H).
  specialize (Hpl ltac:(lia)).
  apply bind_done_inv in H as (u7 & w8 & H8 & H). unfold put_pool, modify_conn in H8. simplify_eq.
  apply bind_done_inv in H as (db & w9 & H9 & H). unfold lift in H9.
  injection H9 as H9 <-. apply slice_done in H9 as (_ & _ & Hdb).
  apply bind_done_inv in H as ([out m] & w10 & H10 & H). unfold lift in H10.
  injection H10 as H10 <-. apply decrypt_into_done_inv in H10 as (q & Hq & -> & _ & ->).
  apply bind_done_inv in H as (u9 & w11 & H11 & H). unfold put_pool, modify_conn in H11. simplify_eq.
  unfold ret in H. simplify_eq. cbn [conn on_conn rd set_rd set_pool host].
  pose proof (sealed_len _ _ _ Hq) as Hql. unfold NONCE_LEN, TAG_LEN in *.
  exists pkt. rewrite zdrop_ge, app_nil_r by lia. split_and!; [done| |lia|lia|done].
  rewrite Hrd. assert (rd (conn w2) = pkt ++ rest) as -> by (rewrite <- Hrd7; simpl; by case_match).
  unfold frame, as_u32. rewrite Z.mod_small by (unfold MAX_FRAME_LENGTH in *; lia).
  by rewrite <- app_assoc.
Qed.

(** (C16) What [read_encrypt_data_into] returns was sealed under the session
    key, came as one well-formed frame, and exactly that frame was consumed. *)
Theorem read_encrypt_authentic (key p : bytes) (w w' : World) :
  read_encrypt_data_into key w = (Done p, w') ->
  exists pkt, sealed key p pkt /\ rd (conn w) = frame pkt ++ rd (conn w') /\
    28 <= zlen pkt <= MAX_FRAME_LENGTH /\ host w' = host w.
Proof. apply read_encrypt_inv. Qed.

Lemma no_panic_read_frame_length : no_panic read_frame_length.
Proof.
  unfold read_frame_length. apply no_panic_bind; [auto with rd_safe|].
  intros [|[len|e]]; [auto with rd_safe..|auto with rd_safe]. cbv zeta. case_match; auto with rd_safe.
Qed.

(** Statements that cannot panic, and one whose continuation may rely on the
    size reserved. *)
Lemma no_panic_reserved {A} n (k : bytes -> M A) : 0 <= n ->
  (forall p, n <= zlen p -> no_panic (k p)) ->
  no_panic (pool_reserve n ;;; let* p := get_pool in k p).
Proof.
  intros Hn Hk w w'. unfold bind, pool_reserve, modify_conn, get_pool, gets. simpl.
  apply Hk. destruct (zlen (pool (conn w)) <? n) eqn:E; simpl; zbool; [|lia].
  rewrite zlen_resize; lia.
Qed.

Lemma no_panic_lift_done {A B} (o : outcome A) a (k : A -> M B) : o = Done a ->
  no_panic (k a) -> no_panic (bind (lift o) k).
Proof. intros -> H w w'. unfold bind, lift. apply H. Qed.

Lemma no_panic_lift_bail {B} b e (k : unit -> M B) :
  (b = false -> no_panic (k tt)) -> no_panic (bind (lift (bail_if b e)) k).
Proof. intros H w w'. unfold bind, lift, bail_if. destruct b; [done|]. by apply H. Qed.

Lemma no_panic_read_exact_bind {B} n (k : bytes -> M B) : 0 <= n ->
  (forall b, zlen b = n -> no_panic (k b)) -> no_panic (bind (read_exact n) k).
Proof.
  intros Hn Hk w w' [H|(b & w1 & (r & _ & _ & Hl)%read_exact_done_inv & H)]%bind_panic_inv.
  - by apply no_panic_read_exact in H.
  - by apply Hk in H; [|apply Hl].
Qed.

Lemma read_frame_length_range_bind {B} (k : Z -> M B) :
  (forall n, 1 <= n <= MAX_FRAME_LENGTH -> no_panic (k n)) -> no_panic (bind read_frame_length k).
Proof.
  intros Hk w w' [H|(n & w1 & (Hn & _)%read_frame_length_inv & H)]%bind_panic_inv.
  - by apply no_panic_read_frame_length in H.
  - by apply (Hk n) in H.
Qed.

(** Whatever bytes the peer sends and however the connection ends,
    reading an encrypted frame never panics: every length is checked before it
    is used to split the pool. *)
Theorem read_encrypt_never_panics (key : bytes) : no_panic (read_encrypt_data_into key).
Proof.
  unfold read_encrypt_data_into, NONCE_LEN, TAG_LEN.
  apply read_frame_length_range_bind. intros n Hn.
  apply no_panic_lift_bail. intros Hl. zbool. apply no_panic_reserved; [lia|]. intros mp Hmp.
  eapply no_panic_lift_done; [apply split_at_ok; lia|]. cbn match.
  eapply no_panic_lift_done; [apply slice_ok; [lia|rewrite zlen_ztake; lia]|].
  rewrite zdrop_0, Z.sub_0_r, (ztake_ge n) by (rewrite zlen_ztake; lia).
  rewrite zlen_ztake by lia. apply no_panic_read_exact_bind; [lia|]. intros b Hb.
  apply no_panic_bind; [apply no_panic_modify_conn|]. intros _.
  eapply no_panic_lift_done; [apply slice_ok; [lia|rewrite zlen_zdrop; lia]|].
  apply no_panic_bind.
  - intros w w'. unfold lift. intros [= H]. by apply decrypt_into_never_panics in H.
  - intros [out m]. unfold put_pool. auto with rd_safe.
Qed.

(** [read_frame_length] on every input: four bytes are taken as a
    big-endian length, refused when zero or above 16 MiB; a peer that closes
    gives a read error, and one that stays silent the 30 second timeout, unless
    a tighter timer around it fires first. *)
Theorem read_frame_length_spec (w : World) :
  (4 <= zlen (rd (conn w)) ->
     let n := from_be_bytes (ztake 4 (rd (conn w))) in
     (read_frame_length w).1 =
       if (1 <=? n) && (n <=? 16777216) then Done n else Throw (bad_length n)) /\
  (zlen (rd (conn w)) < 4 ->
     (read_frame_length w).1 =
       match rd_end (conn w) with
       | ReadEof => Throw "Read error: early eof"
       | ReadReset e => Throw ("Read error: " +:+ e)
       | ReadStall => if fires_first READ_TIMEOUT (time_limit (conn w)) (tie_inner (conn w))
                      then Throw "Timeout reading frame length" else Hang
       end).
Proof.
  unfold read_frame_length, bind, timeout. split; intros Hl; unfold read_exact; simpl.
  - rewrite (proj2 (Z.leb_le _ _)) by done. cbv zeta.
    set (b := ztake 4 (rd (conn w))).
    assert (zlen b = 4) as Hb by (apply zlen_ztake; lia).
    pose proof (from_be_bytes_range b ltac:(unfold zlen in *; lia)) as Hr.
    unfold MAX_FRAME_LENGTH. change (1024 * 1024 * 16) with 16777216.
    replace ((from_be_bytes b =? 0) || (16777216 <? from_be_bytes b))
      with (negb ((1 <=? from_be_bytes b) && (from_be_bytes b <=? 16777216))) by lia.
    by destruct (_ && _).
  - rewrite (proj2 (Z.leb_gt _ _)) by done. destruct (rd_end (conn w)); simpl; try done.
    by destruct (fires_first _ _ _).
Qed.

(** The length check looks at the plaintext but the prefix carries the
    packet's length as [u32]: for the last 28 plaintext sizes it accepts, the
    prefix wraps around and announces a few bytes while the whole packet
    follows. *)
Theorem frame_prefix_wraps (key data : bytes) (v : View) :
  zlen key = 32 -> v_shut v = false -> U32_MAX - 28 < zlen data <= U32_MAX ->
  exists pkt, zlen pkt = zlen data + 28 /\
    exec (write_encrypt_frame_into data key) v (Done tt)
      (v_set_wr [] (v_out v ++ v_pend v ++ to_be_bytes (zlen data + 28 - 2 ^ 32) ++ pkt) false
         (v_nonce v)).
Proof.
  intros Hk Hs Hd. assert (zlen data <= P_MAX) by (unfold U32_MAX, P_MAX in *; lia).
  assert (sealed key data (packet key data v)) as Hsl by by apply packet_sealed.
  pose proof (sealed_len _ _ _ Hsl). unfold NONCE_LEN, TAG_LEN in *.
  exists (packet key data v). split; [lia|]. eapply exec_to; [apply exec_reply; [done|lia|done]|].
  unfold v_reply, v_sent, frame.
  replace (as_u32 (zlen (packet key data v))) with (zlen data + 28 - 2 ^ 32); [by rewrite <- Hs|].
  unfold as_u32, U32_MAX in *. apply (Z.mod_unique_pos _ _ 1); lia.
Qed.
End Laws.
End Net.

(** * Raw frames *)

Lemma exec_read_raw b rest v : v_in v = frame b ++ rest -> 0 < zlen b <= MAX_FRAME_LENGTH ->
  exec read_raw_data_into v (Done b) (v_set_in rest v).
Proof.
  intros Hin Hl. unfold read_raw_data_into. estep exec_read_frame_length; [exact Hin|lia|].
  eapply exec_to; [by eapply exec_read_exact|done].
Qed.

Lemma exec_write_raw b v : v_shut v = false -> zlen b <= U32_MAX ->
  exec (write_raw_frame_into b) v (Done tt) (v_sent b v).
Proof.
  intros Hs Hb. unfold write_raw_frame_into, bail_if. rewrite (proj2 (Z.ltb_ge _ _)) by lia.
  estep exec_lift; [done|]. estep exec_write_all; [done|].
  eapply exec_to; [apply exec_flush|]. unfold v_sent, frame. by rewrite Hs.
Qed.

Lemma read_raw_inv b w w' : read_raw_data_into w = (Done b, w') ->
  rd (conn w) = frame b ++ rd (conn w') /\ 0 < zlen b <= MAX_FRAME_LENGTH /\ host w' = host w.
Proof.
  unfold read_raw_data_into.
  intros (n & w1 & (Hn & Hrd & Hh)%read_frame_length_inv & (r & Hr & -> & Hl)%read_exact_done_inv)%bind_done_inv.
  specialize (Hl ltac:(lia)). cbn [conn on_conn rd set_rd host]. split_and!; [|lia|lia|done].
  rewrite Hrd, Hr. unfold frame, as_u32. rewrite Z.mod_small by (unfold MAX_FRAME_LENGTH in *; lia).
  by rewrite Hl, <- app_assoc.
Qed.

Lemma keeps_rng_read_frame_length : keeps same_rng read_frame_length.
Proof.
  unfold read_frame_length. apply keeps_bind; [apply _|auto with rd_keeps typeclass_instances|].
  intros [|[l|e]]; [apply keeps_throw, _| |apply keeps_throw, _].
  cbv zeta. case_match; [apply keeps_throw, _|apply keeps_ret, _].
Qed.
Lemma keeps_rng_read_raw : keeps same_rng read_raw_data_into.
Proof.
  unfold read_raw_data_into. apply keeps_bind; [apply _|apply keeps_rng_read_frame_length|].
  auto with rd_keeps.
Qed.
Lemma keeps_in_write_raw b : keeps same_in (write_raw_frame_into b).
Proof.
  unfold write_raw_frame_into. apply keeps_bind; [apply _|apply keeps_lift, _|].
  intros _. apply keeps_bind; [apply _|auto with rd_keeps..].
Qed.

(** Frames leave the host alone. *)
(** Writing a frame reads nothing. *)
Lemma keeps_rd_pool_reserve n : keeps same_rd (pool_reserve n).
Proof. intros w. unfold same_rd, pool_reserve, modify_conn. simpl. by case_match. Qed.
Lemma keeps_rd_get_pool : keeps same_rd get_pool.
Proof. done. Qed.
Lemma keeps_rd_put_pool p : keeps same_rd (put_pool p).
Proof. done. Qed.
#[export] Hint Resolve keeps_rd_pool_reserve keeps_rd_get_pool keeps_rd_put_pool : rd_keeps.
Lemma keeps_rd_write_encrypt `{AesGcm} d k : keeps same_rd (write_encrypt_frame_into d k).
Proof. unfold write_encrypt_frame_into, encrypt_into. keeps_auto. Qed.
#[export] Hint Resolve keeps_rd_write_encrypt : rd_keeps.
Lemma keeps_rd_send_success {T} `{AesGcm} `{Postcard T} (x : T) k : keeps same_rd (send_success x k).
Proof. unfold send_success. keeps_auto. Qed.
#[export] Hint Resolve keeps_rd_send_success : rd_keeps.

Lemma keeps_host_pool n : keeps same_host (pool_reserve n).
Proof. done. Qed.
Lemma keeps_host_get_pool : keeps same_host get_pool.
Proof. done. Qed.
Lemma keeps_host_put_pool p : keeps same_host (put_pool p).
Proof. done. Qed.
#[export] Hint Resolve keeps_host_pool keeps_host_get_pool keeps_host_put_pool : rd_keeps.

Lemma keeps_host_encrypt_into `{AesGcm} i o k : keeps same_host (encrypt_into i o k).
Proof. unfold encrypt_into. cbv zeta. keeps_auto. Qed.
Lemma keeps_host_read_frame_length : keeps same_host read_frame_length.
Proof. unfold read_frame_length. keeps_auto. Qed.
#[export] Hint Resolve keeps_host_encrypt_into keeps_host_read_frame_length : rd_keeps.

Lemma keeps_host_read_encrypt `{AesGcm} k : keeps same_host (read_encrypt_data_into k).
Proof. unfold read_encrypt_data_into. keeps_auto. Qed.
Lemma keeps_host_write_encrypt `{AesGcm} d k : keeps same_host (write_encrypt_frame_into d k).
Proof. unfold write_encrypt_frame_into. cbv zeta. keeps_auto. Qed.
Lemma keeps_host_read_raw : keeps same_host read_raw_data_into.
Proof. unfold read_raw_data_into. keeps_auto. Qed.
Lemma keeps_host_write_raw b : keeps same_host (write_raw_frame_into b).
Proof. unfold write_raw_frame_into. cbv zeta. keeps_auto. Qed.
#[export] Hint Resolve keeps_host_read_encrypt keeps_host_write_encrypt keeps_host_read_raw
  keeps_host_write_raw : rd_keeps.

Lemma keeps_host_send_success {T} `{AesGcm} `{Postcard T} (x : T) k : keeps same_host (send_success x k).
Proof. unfold send_success. keeps_auto. Qed.
Lemma keeps_host_send_warn `{AesGcm} `{Postcard WarnHeader} e k : keeps same_host (send_warn e k).
Proof. unfold send_warn. keeps_auto. Qed.
Lemma keeps_host_send_failed `{AesGcm} `{Postcard ErrorHeader} e k : keeps same_host (send_failed e k).
Proof. unfold send_failed. keeps_auto. Qed.
#[export] Hint Resolve keeps_host_send_success keeps_host_send_warn keeps_host_send_failed : rd_keeps.

(** * Concrete frames *)
Module NetWitness.
Import Toy.

Definition hello : bytes := as_bytes "hello".

Lemma frame_roundtrip_witness : exists fr,
  exec (write_encrypt_frame_into hello demo_key) (demo_view []) (Done tt)
    (v_set_wr [] fr false (v_nonce (demo_view []))) /\
  forall r : View, v_in r = fr ++ hello ->
    exec (read_encrypt_data_into demo_key) r (Done hello) (v_set_in hello r).
Proof. apply (frame_roundtrip demo_key hello hello (demo_view [])); [reflexivity|vm_compute; discriminate|reflexivity]. Defined.

(** A frame that carries "hello", and the state of a connection it came on. *)
Definition hello_world : World :=
  world_of (demo_view (frame (packet demo_key hello (demo_view [])) ++ hello)).

Lemma read_encrypt_authentic_witness :
  let w' := snd (read_encrypt_data_into demo_key hello_world) in
  exists pkt, sealed demo_key hello pkt /\ rd (conn hello_world) = frame pkt ++ rd (conn w') /\
  28 <= zlen pkt <= MAX_FRAME_LENGTH /\ host w' = host hello_world.
Proof.
  apply (read_encrypt_authentic demo_key hello hello_world
    (snd (read_encrypt_data_into demo_key hello_world))).
  vm_compute. reflexivity.
Defined.

Lemma read_encrypt_never_panics_witness : no_panic (read_encrypt_data_into demo_key).
Proof. apply read_encrypt_never_panics. Defined.

Lemma frame_prefix_wraps_witness : exists pkt, zlen pkt = zlen (zeros U32_MAX) + 28 /\
  exec (write_encrypt_frame_into (zeros U32_MAX) demo_key) (demo_view []) (Done tt)
    (v_set_wr [] (to_be_bytes (zlen (zeros U32_MAX) + 28 - 2 ^ 32) ++ pkt) false
      (v_nonce (demo_view []))).
Proof.
  apply (frame_prefix_wraps demo_key (zeros U32_MAX) (demo_view [])); [reflexivity..|].
  rewrite zlen_zeros; unfold U32_MAX; lia.
Defined.
End NetWitness.
