(* ===== verification/Handshake.v ===== *)
(** src/protocol_v1.rs, [server_handshake] and [client_handshake_helper]: the
    X25519 exchange, the signatures both sides check, the client's decision to
    trust a server, and the session key. *)
From Stdlib Require Import Ascii.
From S2P Require Import Prelude F64 External RateLimit FileSys Locks Lib World Exec Crypto Header Sample Stores Net.

Definition HANDSHAKE_BYTES : bytes := as_bytes "V1PROTOCOL_HANDSHAKE".

(** The 128 bytes both sides hash and the server signs. *)
Definition signed_transcript (client_nonce server_nonce client_x server_x : bytes) : outcome bytes :=
  let! t := write_at (zeros 128) 0 client_nonce in
  let! t := write_at t 32 server_nonce in
  let! t := write_at t 64 client_x in
  write_at t 96 server_x.

Section Handshake.
Context {HX : Hex} {SH : Sha2} {ED : Ed25519} {XD : X25519}
  {PCH : Postcard ClientHello} {PSH : Postcard ServerHello} {JS : Json AuthServerMap}.

(** The salting of the shared key, the same text in [handle_connection] and
    [client_handshake_helper]. *)
Definition salt_session_key (shared_key : bytes) : outcome bytes :=
  let! key := write_at (replicate 148 (byte_of_Z 15)) 0 shared_key in
  let! key := write_at key 64 shared_key in
  let! key := write_at key 128 HANDSHAKE_BYTES in
  Done (sha256_digest key).

(** A value whose Rust type fixes its length. *)
Definition array_of (n : Z) (b : bytes) : M (array n) := lift_result (to_array n b).

Definition server_hello_for (cfg : Config) (x25519_pub : bytes) (client_hello : ClientHello)
    : M ServerHello :=
  let* nonce := fill_bytes 32 in
  let* ed22519_pub := lift_result (vk_try_from (server_pub_key_bytes cfg)) in
  let* transcript := lift (signed_transcript (arr (c_nonce client_hello)) nonce
                             (arr (c_x22519_key client_hello)) x25519_pub) in
  let signature := ed_sign (server_pri_key_bytes cfg) (sha512_digest transcript) in
  let* ed25519_key := array_of 32 (vk_to_bytes ed22519_pub) in
  let* x22519_key := array_of 32 x25519_pub in
  let* signature := array_of 64 signature in
  let* nonce := array_of 32 nonce in
  ret {| s_ed25519_key := ed25519_key; s_x22519_key := x22519_key;
         s_signature := signature; s_nonce := nonce |}.

Definition server_handshake (cfg : Config) : M (bytes * bytes) :=
  let* (x25519_pri, x25519_pub) := generate_x25519_keypair in
  let* client_hello_data := timeout_or "Handshake timed out reading client hello" HANDSHAKE_TIMEOUT
                              read_raw_data_into in
  let* client_hello := lift_result (deserialize client_hello_data) in
  let* server_hello := server_hello_for cfg x25519_pub client_hello in
  let* hello_bytes := lift_result (serialize server_hello) in
  timeout_qq WRITE_TIMEOUT (write_raw_frame_into hello_bytes) ;;;
  let* nonce := fill_bytes 64 in
  let nonce := sha512_digest nonce in
  write_raw_frame_into nonce ;;;
  flush ;;;
  let* packet := timeout_or "Handshake timed out reading client signature" HANDSHAKE_TIMEOUT
                   read_raw_data_into in
  let* (signature, pub_key) := lift (split_at packet 64) in
  let* signature := lift_result
    (map_err "Failed to parse signature from client: " (array_try_from 64 signature)) in
  let* verify_key := lift_result
    (map_err "Failed to construct client's Ed25519 public key from bytes: " (vk_try_from pub_key)) in
  lift_result (map_err "Failed to verify client's signature: " (ed_verify verify_key nonce signature)) ;;;
  ret (diffie_hellman x25519_pri (arr (c_x22519_key client_hello)), vk_to_bytes verify_key).

(** * The client's side *)

Definition is_ascii_space (b : byte) : bool :=
  let z := byte_to_Z b in (z =? 32) || ((9 <=? z) && (z <=? 13)).

Fixpoint drop_spaces (b : bytes) : bytes :=
  match b with
  | x :: b' => if is_ascii_space x then drop_spaces b' else b
  | [] => []
  end.

(** [input.trim()], on ASCII white space. *)
Definition trim (b : bytes) : bytes := rev (drop_spaces (rev (drop_spaces b))).

(** [input.trim().eq_ignore_ascii_case("y")]. *)
Definition says_yes (line : string) : bool :=
  let t := trim (as_bytes line) in
  bool_decide (t = as_bytes "y") || bool_decide (t = as_bytes "Y").

(** [io::stdin().read_line(&mut input)]; at end of input the line is empty. *)
Definition read_line : M string :=
  let* lines := gets (fun w => h_stdin (host w)) in
  match lines with
  | l :: ls => modify_host (set_stdin ls) ;;; ret l
  | [] => ret EmptyString
  end.

Definition save_server_map (m : AuthServerMap) : M unit :=
  let* home := gets (fun w => h_home (host w)) in
  let* p := lift_result (get_authorized_server_map_path home) in
  fs_op (fun f => server_map_write f p m).

Definition REJECTED_ROTATED : string := "User rejected rotated server key".
Definition REJECTED_UNKNOWN : string := "User rejected unknown server".

(** The block [let approved_server_key = { .. }]. *)
Definition approve_server_key (server_ip : SocketAddr) (server_hello : ServerHello)
    (should_trust : bool) : M VerifyingKey :=
  let* home := gets (fun w => h_home (host w)) in
  let* p := lift_result (get_authorized_server_map_path home) in
  let* authorized_server := server_map_read_or_create p in
  let* server_key := lift_result (vk_try_from (arr (s_ed25519_key server_hello))) in
  let server_key_hex := encode (arr (s_ed25519_key server_hello)) in
  let server_key_fp := encode (sha256_digest (as_bytes server_key_hex)) in
  let* authorized_server :=
    if should_trust
    then let m := server_map_insert server_ip server_key_hex authorized_server in
         save_server_map m ;;; ret m
    else ret authorized_server in
  match server_map authorized_server !! server_ip with
  | Some existing_server_key_hex =>
    if negb (String.eqb existing_server_key_hex server_key_hex) then
      let* input := read_line in
      if negb (says_yes input) then shutdown ;;; throw REJECTED_ROTATED
      else
        save_server_map (server_map_insert server_ip server_key_fp authorized_server) ;;;
        ret server_key
    else
      let* key := lift_result (decode existing_server_key_hex) in
      let* key_bytes := lift_result (map_err "Failed to decode existing server 32bytes key: "
                                       (array_try_from 32 key)) in
      lift_result (vk_try_from key_bytes)
  | None =>
    let* input := read_line in
    if negb (says_yes input) then shutdown ;;; throw REJECTED_UNKNOWN
    else
      save_server_map (server_map_insert server_ip server_key_hex authorized_server) ;;;
      ret server_key
  end.

(** [client_handshake_helper], from the connected stream on. *)
Definition client_handshake_helper (server_ip : SocketAddr) (signing_key : bytes)
    (should_trust : bool) : M bytes :=
  let* (x25519_pri, x25519_pub) := generate_x25519_keypair in
  let* nonce := fill_bytes 32 in
  let* x22519_key := array_of 32 x25519_pub in
  let* c_nonce' := array_of 32 nonce in
  let client_hello := {| c_x22519_key := x22519_key; c_nonce := c_nonce' |} in
  let* hello_bytes := lift_result (serialize client_hello) in
  write_raw_frame_into hello_bytes ;;;
  let* server_hello_data := read_raw_data_into in
  let* server_hello := lift_result (deserialize server_hello_data) in
  let* approved_server_key := approve_server_key server_ip server_hello should_trust in
  let* transcript := lift (signed_transcript (arr (c_nonce client_hello)) (arr (s_nonce server_hello))
                             x25519_pub (arr (s_x22519_key server_hello))) in
  lift_result (map_err "Failed to verify server's signature: "
    (ed_verify approved_server_key (sha512_digest transcript) (arr (s_signature server_hello)))) ;;;
  let* nonce := read_raw_data_into in
  let signature := ed_sign signing_key nonce in
  let pub_key := vk_to_bytes (verifying_key signing_key) in
  let* packet := lift (write_at (zeros 96) 0 signature) in
  let* packet := lift (write_at packet 64 pub_key) in
  write_raw_frame_into packet ;;;
  flush ;;;
  lift (salt_session_key (diffie_hellman x25519_pri (arr (s_x22519_key server_hello)))).

(** * The session key *)

Lemma signed_transcript_eq a b c d : zlen a = 32 -> zlen b = 32 -> zlen c = 32 -> zlen d = 32 ->
  signed_transcript a b c d = Done (a ++ b ++ c ++ d).
Proof.
  intros Ha Hb Hc Hd. unfold signed_transcript.
  change (zeros 128) with (zeros 32 ++ zeros 32 ++ zeros 32 ++ zeros 32).
  rewrite write_at_front by done. cbn [obind].
  rewrite write_at_app by done. cbn [obind].
  rewrite (app_assoc a b), write_at_app by (rewrite ?zlen_app; lia || done). cbn [obind].
  rewrite (app_assoc (a ++ b) c), write_at_back by (rewrite ?zlen_app; lia || done).
  by rewrite <- !app_assoc.
Qed.

(** The 148 bytes that are hashed. *)
Definition salted (shared : bytes) : bytes :=
  let fill := replicate 32 (byte_of_Z 15) in
  shared ++ fill ++ shared ++ fill ++ HANDSHAKE_BYTES.

Lemma salt_session_key_eq shared : zlen shared = 32 ->
  salt_session_key shared = Done (sha256_digest (salted shared)).
Proof.
  intros Hs. unfold salt_session_key, salted. set (fill := replicate 32 (byte_of_Z 15)).
  assert (zlen fill = 32) as Hf by done.
  change (replicate 148 (byte_of_Z 15)) with
    (fill ++ fill ++ fill ++ fill ++ replicate 20 (byte_of_Z 15)).
  rewrite write_at_front by lia. cbn [obind].
  rewrite (app_assoc shared fill), write_at_app by (rewrite ?zlen_app; lia). cbn [obind].
  rewrite (app_assoc (shared ++ fill) shared), (app_assoc ((shared ++ fill) ++ shared) fill).
  rewrite write_at_back by (rewrite ?zlen_app; lia || done).
  cbn [obind]. by rewrite <- !app_assoc.
Qed.

(** * What each side draws and sends *)

Section Honest.
Context {HXL : HexLaws} {SHL : Sha2Laws} {EDL : Ed25519Laws} {XDL : X25519Laws}
  {PCHL : PostcardLaws ClientHello} {PSHL : PostcardLaws ServerHello} {JSL : JsonLaws AuthServerMap}.

Definition v_later (n : Z) (v : View) : View := v_set_pos (v_pos v + Z.to_nat n)%nat v.

(** The hello a client whose generator stands at [v] sends. *)
Definition client_hello_of (v : View) (ch : ClientHello) : Prop :=
  arr (c_x22519_key ch) = x_public (v_random 32 v) /\ arr (c_nonce ch) = v_random 32 (v_later 32 v).

(** The hello a server at [v] with key pair [cfg] answers [ch] with. *)
Record server_hello_of (cfg : Config) (v : View) (ch : ClientHello) (sh : ServerHello) : Prop := {
  so_key : arr (s_ed25519_key sh) = server_pub_key_bytes cfg;
  so_x : arr (s_x22519_key sh) = x_public (v_random 32 v);
  so_nonce : arr (s_nonce sh) = v_random 32 (v_later 32 v);
  so_sig : arr (s_signature sh) = ed_sign (server_pri_key_bytes cfg)
    (sha512_digest (arr (c_nonce ch) ++ arr (s_nonce sh) ++ arr (c_x22519_key ch) ++ arr (s_x22519_key sh)));
}.

(** The challenge the same server sends next, and the client's answer. *)
Definition challenge_of (v : View) : bytes := sha512_digest (v_random 64 (v_later 64 v)).
Definition answer_to (signing_key challenge : bytes) : bytes :=
  ed_sign signing_key challenge ++ vk_to_bytes (verifying_key signing_key).

(** The server's two key files belong together. *)
Definition server_keys_match (cfg : Config) : Prop :=
  server_pub_key_bytes cfg = vk_to_bytes (verifying_key (server_pri_key_bytes cfg)).

Lemma exec_array_of {n} (a : array n) b v : b = arr a -> exec (array_of n b) v (Done a) v.
Proof. intros ->. apply exec_lift_result, to_array_arr. Qed.

Lemma server_hello_of_exists cfg v ch : server_keys_match cfg ->
  exists sh, server_hello_of cfg v ch sh.
Proof.
  intros Hk.
  destruct (to_array_ok 32 (server_pub_key_bytes cfg)) as (a1 & _ & H1); [by rewrite Hk, vk_len|].
  destruct (to_array_ok 32 (x_public (v_random 32 v))) as (a2 & _ & H2); [apply x_public_len|].
  destruct (to_array_ok 32 (v_random 32 (v_later 32 v))) as (a3 & _ & H3); [by apply v_random_len|].
  destruct (to_array_ok 64 (ed_sign (server_pri_key_bytes cfg)
    (sha512_digest (arr (c_nonce ch) ++ arr a3 ++ arr (c_x22519_key ch) ++ arr a2)))) as (a4 & _ & H4);
    [apply ed_sign_len|].
  by exists {| s_ed25519_key := a1; s_x22519_key := a2; s_signature := a4; s_nonce := a3 |}.
Qed.

Lemma exec_server_hello_for cfg v ch sh : server_keys_match cfg -> server_hello_of cfg v ch sh ->
  exec (server_hello_for cfg (x_public (v_random 32 v)) ch) (v_later 32 v) (Done sh) (v_later 64 v).
Proof.
  intros Hk [H1 H2 H3 H4]. unfold server_hello_for. estep exec_fill_bytes.
  estep exec_lift_result; [rewrite Hk; apply vk_from_to|].
  rewrite <- H2, <- H3.
  estep exec_lift; [by apply signed_transcript_eq; apply arr_len|].
  rewrite <- H4. rewrite <- Hk, <- H1.
  estep exec_array_of; [done|]. estep exec_array_of; [done|].
  estep exec_array_of; [done|]. estep exec_array_of; [done|].
  destruct sh. simpl. eapply exec_to; [apply exec_ret|].
  unfold v_later, v_set_pos. simpl. f_equal. lia.
Qed.

Lemma answer_len sk c : zlen (answer_to sk c) = 96.
Proof. unfold answer_to. by rewrite zlen_app, ed_sign_len, vk_len. Qed.

Lemma challenge_len v : zlen (challenge_of v) = 64.
Proof. apply sha512_len. Qed.

(** The view after the server's part. *)
Definition v_server_done (shb rest : bytes) (v : View) : View :=
  v_set_in rest (v_set_wr [] (v_out v ++ v_pend v ++ frame shb ++ frame (challenge_of v)) false
    (v_later 128 v)).

Lemma exec_server_handshake cfg csk v ch chb sh shb rest :
  server_keys_match cfg -> server_hello_of cfg v ch sh ->
  serialize ch = Ok chb -> serialize sh = Ok shb ->
  0 < zlen chb <= MAX_FRAME_LENGTH -> zlen shb <= U32_MAX -> v_shut v = false ->
  v_in v = frame chb ++ frame (answer_to csk (challenge_of v)) ++ rest ->
  exec (server_handshake cfg) v
    (Done (diffie_hellman (v_random 32 v) (arr (c_x22519_key ch)), vk_to_bytes (verifying_key csk)))
    (v_server_done shb rest v).
Proof.
  intros Hk Hsh Hchb Hshb Hcl Hsl Hs Hin. unfold server_handshake, generate_x25519_keypair.
  estep exec_bind; [apply exec_fill_bytes|apply exec_ret|]. cbn match.
  estep exec_timeout_or; [eapply exec_read_raw; [exact Hin|lia]|].
  estep exec_lift_result; [by apply deserialize_serialize|].
  estep (exec_server_hello_for cfg (v_set_in _ v)); [done|by destruct Hsh|].
  estep exec_lift_result; [exact Hshb|].
  estep exec_timeout_or; [by apply exec_write_raw|].
  estep exec_fill_bytes. cbv zeta.
  change (sha512_digest _) with (challenge_of v).
  estep exec_write_raw; [done|rewrite challenge_len; unfold U32_MAX; lia|].
  estep exec_flush_nothing; [done|].
  estep exec_timeout_or; [eapply exec_read_raw; [done|rewrite answer_len; unfold MAX_FRAME_LENGTH; lia]|].
  estep exec_lift; [apply split_at_app; by rewrite ed_sign_len|]. cbn match.
  estep exec_lift_result.
  { unfold array_try_from. by rewrite ed_sign_len. }
  estep exec_lift_result; [by rewrite vk_from_to|].
  estep exec_lift_result; [by rewrite ed_verify_sign|].
  eapply exec_to; [apply exec_ret|].
  unfold v_server_done, v_sent, v_later, v_set_in, v_set_wr, v_set_pos. simpl. rewrite Hs.
  f_equal; [by rewrite <- !app_assoc|lia].
Qed.

(** * The client's decision *)

(** The file of trusted servers opens with content [m]; [f] is the file system
    with its directory made. *)
Record opens_map (h : Host) (p : path) (m : AuthServerMap) (f : fs) : Prop := {
  om_path : get_authorized_server_map_path (h_home h) = Ok p;
  om_nonempty : p <> [];
  om_dirs : create_dir_all (h_fs h) (parent p) = Ok f;
  om_read : (if exists_ f p then server_map_read f p else Ok {| server_map := ∅ |}) = Ok m;
}.

Definition v_set_fs (f : fs) (v : View) : View := v_set_host (set_fs f (v_host v)) v.

Lemma v_set_fs_same v : v_set_fs (h_fs (v_host v)) v = v.
Proof. by destruct v as [? ? ? ? ? ? ? []]. Qed.

Lemma exec_map_read_or_create p m f v : opens_map (v_host v) p m f ->
  exec (server_map_read_or_create p) v (Done m) (v_set_fs f v).
Proof.
  intros [_ Hp Hd Hr]. unfold server_map_read_or_create. destruct p as [|c p]; [done|].
  estep exec_fs_op; [exact Hd|]. estep exec_gets_fs. simpl (h_fs _).
  destruct (exists_ f (c :: p)).
  - estep exec_gets_fs. simpl (h_fs _). by apply exec_lift_result.
  - injection Hr as <-. apply exec_ret.
Qed.

(** The line the user types, or an empty one. *)
Definition next_line (h : Host) : string := default EmptyString (head (h_stdin h)).
Definition v_read_line (v : View) : View :=
  match h_stdin (v_host v) with _ :: ls => v_set_host (set_stdin ls (v_host v)) v | [] => v end.

Lemma exec_read_line v : exec read_line v (Done (next_line (v_host v))) (v_read_line v).
Proof.
  unfold read_line, next_line, v_read_line. estep (exec_gets h_stdin).
  destruct (h_stdin (v_host v)); [apply exec_ret|]. estep exec_modify_host. apply exec_ret.
Qed.

Lemma exec_save_server_map p m v f : get_authorized_server_map_path (h_home (v_host v)) = Ok p ->
  server_map_write (h_fs (v_host v)) p m = Ok f ->
  exec (save_server_map m) v (Done tt) (v_set_fs f v).
Proof.
  intros Hp Hw. unfold save_server_map. estep (exec_gets h_home).
  estep exec_lift_result; [exact Hp|]. by apply exec_fs_op.
Qed.

Section Decision.
Context (ip : SocketAddr) (sh : ServerHello) (vk : VerifyingKey).
Context (p : path) (m : AuthServerMap) (f : fs) (v : View).
Hypothesis Hopen : opens_map (v_host v) p m f.
Hypothesis Hvk : vk_try_from (arr (s_ed25519_key sh)) = Ok vk.

Definition key_hex : string := encode (arr (s_ed25519_key sh)).
Definition key_fp : string := encode (sha256_digest (as_bytes key_hex)).

Lemma exec_approve_known : server_map m !! ip = Some key_hex ->
  exec (approve_server_key ip sh false) v (Done vk) (v_set_fs f v).
Proof.
  intros Hm. unfold approve_server_key. estep (exec_gets h_home).
  estep exec_lift_result; [apply Hopen|]. estep exec_map_read_or_create; [exact Hopen|].
  estep exec_lift_result; [exact Hvk|]. cbv zeta. estep exec_ret. rewrite Hm.
  unfold key_hex. rewrite String.eqb_refl. cbn [negb].
  estep exec_lift_result; [apply decode_encode|].
  estep exec_lift_result; [unfold array_try_from; by rewrite arr_len|].
  by apply exec_lift_result.
Qed.

(** With [should_trust] the key is stored and then known. *)
Lemma exec_approve_trusted f' : server_map_write f p (server_map_insert ip key_hex m) = Ok f' ->
  exec (approve_server_key ip sh true) v (Done vk) (v_set_fs f' v).
Proof.
  intros Hw. unfold approve_server_key. estep (exec_gets h_home).
  estep exec_lift_result; [apply Hopen|]. estep exec_map_read_or_create; [exact Hopen|].
  estep exec_lift_result; [exact Hvk|]. cbv zeta.
  eapply exec_bind.
  { estep exec_save_server_map; [apply Hopen|exact Hw|apply exec_ret]. }
  assert (server_map (server_map_insert ip key_hex m) !! ip = Some key_hex) as Hl by apply lookup_insert_eq.
  fold key_hex. rewrite Hl. unfold key_hex. rewrite String.eqb_refl. cbn [negb].
  estep exec_lift_result; [apply decode_encode|].
  estep exec_lift_result; [unfold array_try_from; by rewrite arr_len|].
  by apply exec_lift_result.
Qed.

(** The stored key differs, or there is none, and the user does not agree. *)
Lemma exec_approve_refused : server_map m !! ip <> Some key_hex ->
  says_yes (next_line (v_host v)) = false ->
  exec (approve_server_key ip sh false) v
    (Throw (match server_map m !! ip with Some _ => REJECTED_ROTATED | None => REJECTED_UNKNOWN end))
    (v_set_wr [] (v_out v ++ v_pend v) true (v_read_line (v_set_fs f v))).
Proof.
  intros Hm Hno. unfold approve_server_key. estep (exec_gets h_home).
  estep exec_lift_result; [apply Hopen|]. estep exec_map_read_or_create; [exact Hopen|].
  estep exec_lift_result; [exact Hvk|]. cbv zeta. estep exec_ret.
  assert (says_yes (next_line (v_host (v_set_fs f v))) = false) as Hno' by exact Hno.
  destruct (server_map m !! ip) as [k|].
  - destruct (String.eqb_spec k (encode (arr (s_ed25519_key sh)))) as [->|Hne]; [done|]. cbn [negb].
    estep exec_read_line. rewrite Hno'. cbn [negb].
    estep exec_shutdown. eapply exec_to; [apply exec_throw|].
    unfold v_read_line. by destruct (h_stdin _).
  - estep exec_read_line. rewrite Hno'. cbn [negb].
    estep exec_shutdown. eapply exec_to; [apply exec_throw|].
    unfold v_read_line. by destruct (h_stdin _).
Qed.

(** The user agrees: what is stored depends on whether a key was stored. *)
Lemma exec_approve_accepted f' : server_map m !! ip <> Some key_hex ->
  says_yes (next_line (v_host v)) = true ->
  let stored := match server_map m !! ip with Some _ => key_fp | None => key_hex end in
  server_map_write f p (server_map_insert ip stored m) = Ok f' ->
  exec (approve_server_key ip sh false) v (Done vk) (v_set_fs f' (v_read_line (v_set_fs f v))).
Proof.
  intros Hm Hyes stored Hw. unfold approve_server_key. estep (exec_gets h_home).
  estep exec_lift_result; [apply Hopen|]. estep exec_map_read_or_create; [exact Hopen|].
  estep exec_lift_result; [exact Hvk|]. cbv zeta. estep exec_ret. subst stored.
  assert (says_yes (next_line (v_host (v_set_fs f v))) = true) as Hyes' by exact Hyes.
  assert (get_authorized_server_map_path (h_home (v_host (v_read_line (v_set_fs f v)))) = Ok p /\
    h_fs (v_host (v_read_line (v_set_fs f v))) = f) as [Hp Hf].
  { destruct Hopen. unfold v_read_line. by destruct (h_stdin _). }
  destruct (server_map m !! ip) as [k|].
  - destruct (String.eqb_spec k (encode (arr (s_ed25519_key sh)))) as [->|Hne]; [done|]. cbn [negb].
    estep exec_read_line. rewrite Hyes'. cbn [negb].
    estep exec_save_server_map; [exact Hp|by rewrite Hf|]. apply exec_ret.
  - estep exec_read_line. rewrite Hyes'. cbn [negb].
    estep exec_save_server_map; [exact Hp|by rewrite Hf|]. apply exec_ret.
Qed.
End Decision.

(** * The client's part *)

Definition v_client_done (chb packet rest : bytes) (f : fs) (v : View) : View :=
  v_set_in rest (v_set_wr [] (v_out v ++ v_pend v ++ frame chb ++ frame packet) false
    (v_set_fs f (v_later 64 v))).

Lemma exec_client_handshake ip csk v ch chb sh shb challenge rest p m f cfg sv :
  server_keys_match cfg -> server_hello_of cfg sv ch sh -> client_hello_of v ch ->
  serialize ch = Ok chb -> serialize sh = Ok shb ->
  zlen chb <= U32_MAX -> 0 < zlen shb <= MAX_FRAME_LENGTH -> v_shut v = false ->
  0 < zlen challenge <= MAX_FRAME_LENGTH ->
  opens_map (v_host v) p m f -> server_map m !! ip = Some (encode (server_pub_key_bytes cfg)) ->
  v_in v = frame shb ++ frame challenge ++ rest ->
  exec (client_handshake_helper ip csk false) v
    (Done (sha256_digest (salted (diffie_hellman (v_random 32 v) (arr (s_x22519_key sh))))))
    (v_client_done chb (answer_to csk challenge) rest f v).
Proof.
  intros Hk [Hso1 Hso2 Hso3 Hso4] [Hx Hn] Hchb Hshb Hcl Hsl Hs Hchl Hopen Hm Hin.
  unfold client_handshake_helper, generate_x25519_keypair.
  estep exec_bind; [apply exec_fill_bytes|apply exec_ret|]. cbn match.
  estep exec_fill_bytes.
  estep exec_array_of; [symmetry; exact Hx|]. estep exec_array_of; [symmetry; exact Hn|].
  destruct ch as [cx cn]. simpl in *.
  estep exec_lift_result; [exact Hchb|].
  estep exec_write_raw; [done|lia|].
  estep exec_read_raw; [exact Hin|lia|].
  estep exec_lift_result; [by apply deserialize_serialize|].
  eapply exec_bind.
  { apply (exec_approve_known ip sh (verifying_key (server_pri_key_bytes cfg)) p m f); [exact Hopen| |].
    - rewrite Hso1, Hk. apply vk_from_to.
    - unfold key_hex. by rewrite Hso1. }
  rewrite <- Hx. estep exec_lift; [by apply signed_transcript_eq; apply arr_len|].
  estep exec_lift_result; [rewrite Hso4; by rewrite ed_verify_sign|].
  estep exec_read_raw; [done|lia|]. cbv zeta.
  change (zeros 96) with (zeros 64 ++ zeros 32).
  estep exec_lift; [apply write_at_front; by rewrite ed_sign_len|].
  estep exec_lift; [apply write_at_back; [by rewrite ed_sign_len|by rewrite vk_len]|].
  change (ed_sign csk challenge ++ _) with (answer_to csk challenge).
  estep exec_write_raw; [done|rewrite answer_len; unfold U32_MAX; lia|].
  estep exec_flush_nothing; [done|].
  eapply exec_to; [apply exec_lift, salt_session_key_eq, diffie_hellman_len|].
  unfold v_client_done, v_sent, v_later, v_set_fs, v_set_in, v_set_wr, v_set_pos, v_set_host. simpl.
  rewrite Hs. f_equal; [by rewrite <- !app_assoc|lia].
Qed.

(** (C3) The two programs run against each other: when the client already
    trusts the server's key and the messages each sends reach the other, both
    finish, the server identifies the client by the public key of its signing
    key, both derive the same session key, and each has read exactly what the
    other wrote. *)
Theorem handshake_agreement (cfg : Config) (ip : SocketAddr) (csk : bytes) (vc vs : View)
    (ch : ClientHello) (sh : ServerHello) (chb shb rest_c rest_s : bytes)
    (p : path) (m : AuthServerMap) (f : fs) :
  server_keys_match cfg ->
  client_hello_of vc ch -> server_hello_of cfg vs ch sh ->
  serialize ch = Ok chb -> serialize sh = Ok shb ->
  0 < zlen chb <= MAX_FRAME_LENGTH -> 0 < zlen shb <= MAX_FRAME_LENGTH ->
  v_shut vc = false -> v_shut vs = false ->
  opens_map (v_host vc) p m f -> server_map m !! ip = Some (encode (server_pub_key_bytes cfg)) ->
  v_in vs = frame chb ++ frame (answer_to csk (challenge_of vs)) ++ rest_s ->
  v_in vc = frame shb ++ frame (challenge_of vs) ++ rest_c ->
  exists shared key vs' vc',
    exec (server_handshake cfg) vs (Done (shared, vk_to_bytes (verifying_key csk))) vs' /\
    exec (client_handshake_helper ip csk false) vc (Done key) vc' /\
    salt_session_key shared = Done key /\ zlen key = 32 /\
    v_in vs' = rest_s /\ v_in vc' = rest_c /\
    v_out vc' = v_out vc ++ v_pend vc ++ frame chb ++ frame (answer_to csk (challenge_of vs)) /\
    v_out vs' = v_out vs ++ v_pend vs ++ frame shb ++ frame (challenge_of vs).
Proof.
  intros Hk Hch Hsh Hchb Hshb Hcl Hsl Hsc Hss Hopen Hm Hins Hinc.
  assert (MAX_FRAME_LENGTH <= U32_MAX) by (unfold MAX_FRAME_LENGTH, U32_MAX; lia).
  eexists _, _, _, _. split; [eapply exec_server_handshake; try done; lia|].
  split. { apply (exec_client_handshake ip csk vc ch chb sh shb (challenge_of vs) rest_c p m f cfg vs); try done; [lia|].
    rewrite challenge_len. unfold MAX_FRAME_LENGTH. lia. }
  split_and!; [|apply sha256_digest_len|done..].
  rewrite salt_session_key_eq by apply diffie_hellman_len.
  destruct Hch as [-> _], Hsh as [_ -> _ _]. by rewrite diffie_hellman_comm.
Qed.

(** A server whose key is not the stored one, or that is not known, is
    used only when the user agrees: otherwise the handshake stops there, the
    list of trusted servers is not written, nothing more is sent and the
    connection is closed. *)
Theorem unapproved_server_rejected (ip : SocketAddr) (sh : ServerHello) (vk : VerifyingKey)
    (p : path) (m : AuthServerMap) (f : fs) (v : View) :
  opens_map (v_host v) p m f -> vk_try_from (arr (s_ed25519_key sh)) = Ok vk ->
  server_map m !! ip <> Some (key_hex sh) -> says_yes (next_line (v_host v)) = false ->
  exists v', exec (approve_server_key ip sh false) v
      (Throw (match server_map m !! ip with Some _ => REJECTED_ROTATED | None => REJECTED_UNKNOWN end)) v' /\
    h_fs (v_host v') = f /\ v_out v' = v_out v ++ v_pend v /\ v_shut v' = true.
Proof.
  intros Ho Hvk Hm Hno. eexists. split; [by eapply exec_approve_refused|].
  unfold v_read_line. by destruct (h_stdin _).
Qed.

(** The map a handshake wrote is the one the next handshake opens. *)
Lemma opens_map_written h h' p m m' f f' : opens_map h p m f -> fs_wf f -> server_map_write f p m' = Ok f' ->
  h_home h' = h_home h -> h_fs h' = f' -> opens_map h' p m' f'.
Proof.
  intros [Hp Hp0 Hd Hr] Hwf Hw Hhome Hfs.
  pose proof (server_map_write_ok _ _ _ _ Hw) as [Hread (bs & Hf')].
  unfold server_map_write in Hw. destruct (to_string_pretty _) as [s|]; [|done].
  pose proof (write_file_wf _ _ _ _ Hwf Hw) as Hwf'.
  apply write_file_ok in Hw as (_ & Hpar & _ & _).
  split; rewrite ?Hhome, ?Hfs; [done|done| |].
  - apply create_dir_all_existing; [done|]. rewrite Hf', lookup_node_insert by done.
    rewrite decide_False by (by apply parent_ne). done.
  - assert (exists_ f' p = true) as ->; [|done].
    unfold exists_. apply bool_decide_eq_true_2.
    rewrite lookup_node_nonempty, Hf', lookup_insert_eq by done. eauto.
Qed.

(** When the user agrees to a changed key, the fingerprint of the key is
    stored where the other branches store the key itself: the next connection
    to the same server finds a different string and asks again. *)
Theorem changed_key_is_not_remembered (ip : SocketAddr) (sh : ServerHello) (vk : VerifyingKey)
    (p : path) (m : AuthServerMap) (f f' : fs) (v : View) (old : string) :
  opens_map (v_host v) p m f -> fs_wf f -> vk_try_from (arr (s_ed25519_key sh)) = Ok vk ->
  server_map m !! ip = Some old -> old <> key_hex sh -> key_fp sh <> key_hex sh ->
  says_yes (next_line (v_host v)) = true ->
  server_map_write f p (server_map_insert ip (key_fp sh) m) = Ok f' ->
  exists v1, exec (approve_server_key ip sh false) v (Done vk) v1 /\
    (says_yes (next_line (v_host v1)) = false ->
     exists v2, exec (approve_server_key ip sh false) v1 (Throw REJECTED_ROTATED) v2).
Proof.
  intros Ho Hwf Hvk Hm Hne Hfp Hyes Hw. eexists. split.
  { eapply exec_approve_accepted; [done|done|congruence|done|]. cbv zeta. by rewrite Hm. }
  intros Hno. eexists. set (v1 := v_set_fs f' _) in *.
  assert (opens_map (v_host v1) p (server_map_insert ip (key_fp sh) m) f') as Ho'.
  { eapply opens_map_written; [exact Ho|done|exact Hw|unfold v1, v_read_line; by destruct (h_stdin _)..]. }
  assert (server_map (server_map_insert ip (key_fp sh) m) !! ip = Some (key_fp sh)) as Hl
    by apply lookup_insert_eq.
  eapply exec_to; [|done].
  pose proof (exec_approve_refused ip sh vk p _ f' v1 Ho' Hvk) as H. rewrite Hl in H.
  apply H; [congruence|done].
Qed.

Lemma exec_short_handshake cfg v ch sh chb shb short rest :
  server_keys_match cfg -> server_hello_of cfg v ch sh ->
  serialize ch = Ok chb -> serialize sh = Ok shb ->
  0 < zlen chb <= MAX_FRAME_LENGTH -> zlen shb <= U32_MAX -> v_shut v = false ->
  0 < zlen short < 64 -> v_in v = frame chb ++ frame short ++ rest ->
  exists v', exec (server_handshake cfg) v Panic v'.
Proof.
  intros Hk Hsh Hchb Hshb Hcl Hsl Hs Hshort Hin. eexists.
  unfold server_handshake, generate_x25519_keypair.
  estep exec_bind; [apply exec_fill_bytes|apply exec_ret|]. cbn match.
  estep exec_timeout_or; [eapply exec_read_raw; [exact Hin|lia]|].
  estep exec_lift_result; [by apply deserialize_serialize|].
  estep (exec_server_hello_for cfg (v_set_in _ v)); [done|by destruct Hsh|].
  estep exec_lift_result; [exact Hshb|].
  estep exec_timeout_or; [by apply exec_write_raw|].
  estep exec_fill_bytes. cbv zeta. change (sha512_digest _) with (challenge_of v).
  estep exec_write_raw; [done|rewrite challenge_len; unfold U32_MAX; lia|].
  estep exec_flush_nothing; [done|].
  estep exec_timeout_or; [eapply exec_read_raw; [done|unfold MAX_FRAME_LENGTH; lia]|].
  eapply exec_bind_panic, exec_lift, split_at_panic. lia.
Qed.

(** The packet with the client's signature is split at byte 64 before its
    length is looked at: a client that answers the challenge with a frame of
    fewer than 64 bytes makes the connection's task panic. *)
Theorem short_handshake_packet_panics (cfg : Config) (v : View) (ch : ClientHello)
    (sh : ServerHello) (chb shb short rest : bytes) :
  server_keys_match cfg -> server_hello_of cfg v ch sh ->
  serialize ch = Ok chb -> serialize sh = Ok shb ->
  0 < zlen chb <= MAX_FRAME_LENGTH -> zlen shb <= U32_MAX -> v_shut v = false ->
  0 < zlen short < 64 -> v_in v = frame chb ++ frame short ++ rest ->
  exists v', exec (server_handshake cfg) v Panic v'.
Proof. apply exec_short_handshake. Qed.

(** * What a finished handshake proves *)

(** The generator's bytes [off] places ahead. *)
Definition random_ahead (off n : Z) (c : Conn) : bytes :=
  map (fun i => rng_tape c (rng_pos c + Z.to_nat off + i)%nat) (seq 0 (Z.to_nat n)).

Lemma server_hello_for_inv cfg x ch w sh w' : server_hello_for cfg x ch w = (Done sh, w') ->
  w' = on_conn (fun c => set_rng_pos (rng_pos c + 32)%nat c) w.
Proof.
  unfold server_hello_for. intros H. binv H as n w1 E1. unfold fill_bytes in E1.
  injection E1 as _ <-.
  binv H as vk w2 (_ & ->)%lift_result_done_inv. binv H as t w3 (_ & ->)%lift_done_inv.
  binv H as a1 w4 (_ & ->)%lift_result_done_inv. binv H as a2 w5 (_ & ->)%lift_result_done_inv.
  binv H as a3 w6 (_ & ->)%lift_result_done_inv. binv H as a4 w7 (_ & ->)%lift_result_done_inv.
  by injection H as _ <-.
Qed.

(** What a finished handshake of the server has read. *)
Lemma server_handshake_inv (cfg : Config) (w w' : World) (shared client_key : bytes) :
  server_handshake cfg w = (Done (shared, client_key), w') ->
  exists hello ch vk sig,
    rd (conn w) = frame hello ++ frame (sig ++ client_key) ++ rd (conn w') /\
    deserialize hello = Ok ch /\
    shared = diffie_hellman (next_random 32 (conn w)) (arr (c_x22519_key ch)) /\
    client_key = vk_to_bytes vk /\ zlen sig = 64 /\
    ed_verify vk (sha512_digest (random_ahead 64 64 (conn w))) sig = Ok tt.
Proof.
  unfold server_handshake, generate_x25519_keypair. intros H.
  binv H as [x_pri x_pub] w1 E1. binv E1 as r w0 E0. unfold fill_bytes in E0.
  injection E0 as <- <-. injection E1 as <- <- <-.
  binv H as hello w2 (w2' & E2 & ->)%timeout_or_done_inv.
  pose proof (keeps_done _ _ _ _ _ keeps_rng_read_raw E2) as [Ht2 Hp2].
  apply read_raw_inv in E2 as (Hrd2 & _ & _).
  binv H as ch w3 (Hch & ->)%lift_result_done_inv.
  binv H as sh w4 ->%server_hello_for_inv.
  binv H as hb w5 (_ & ->)%lift_result_done_inv.
  binv H as u w6 (w6' & E6 & ->)%timeout_or_done_inv.
  apply (keeps_done _ _ _ _ _ (keeps_in_write_raw _)) in E6 as [[Ht6 Hp6] Hrd6].
  binv H as nonce w7 E7. unfold fill_bytes in E7. injection E7 as <- <-. cbv zeta in H.
  binv H as u8 w8 E8. apply (keeps_done _ _ _ _ _ (keeps_in_write_raw _)) in E8 as [_ Hrd8].
  binv H as u9 w9 E9. apply (keeps_done _ _ _ _ _ keeps_in_flush) in E9 as [_ Hrd9].
  binv H as packet w10 (w10' & (Hrd10 & _ & _)%read_raw_inv & ->)%timeout_or_done_inv.
  binv H as [sig pk] w11 (Hsp & ->)%lift_done_inv.
  binv H as sig' w12 (Hsig%map_err_ok & ->)%lift_result_done_inv.
  binv H as vk w13 (Hvk%map_err_ok & ->)%lift_result_done_inv.
  binv H as u14 w14 (Hver%map_err_ok & ->)%lift_result_done_inv.
  injection H as <- <- <-. unfold array_try_from in Hsig. case_match eqn:Hl; [|done].
  injection Hsig as <-. zbool. unfold split_at in Hsp. case_match; [|done]. injection Hsp as <- <-.
  apply vk_to_from in Hvk. exists hello, ch, vk, (ztake 64 packet).
  cbn [conn on_conn rd set_limit set_rng_pos rng_tape rng_pos] in *.
  split_and!; [|done|done|done|done|].
  - rewrite Hrd2, <- Hrd6, <- Hrd8, <- Hrd9, Hrd10. by rewrite Hvk, ztake_zdrop.
  - destruct u14. rewrite <- Hver. do 2 f_equal. unfold next_random, random_ahead.
    cbn [conn on_conn rd set_limit set_rng_pos rng_tape rng_pos].
    rewrite Ht6, Ht2, Hp6, Hp2. apply map_ext. intros i. do 2 f_equal. lia.
Qed.

(** (C11) When the server's handshake returns a client key, whatever was sent to
    it, the client signed with that key the challenge this connection drew
    after the hello: the last frame read is a 64-byte signature that verifies,
    followed by the key, and the shared secret is computed from the ephemeral
    key in the hello. *)
Theorem server_identifies_signer (cfg : Config) (w w' : World) (shared client_key : bytes) :
  server_handshake cfg w = (Done (shared, client_key), w') ->
  exists hello ch vk sig,
    rd (conn w) = frame hello ++ frame (sig ++ client_key) ++ rd (conn w') /\
    deserialize hello = Ok ch /\
    shared = diffie_hellman (next_random 32 (conn w)) (arr (c_x22519_key ch)) /\
    client_key = vk_to_bytes vk /\ zlen sig = 64 /\
    ed_verify vk (sha512_digest (random_ahead 64 64 (conn w))) sig = Ok tt.
Proof. apply server_handshake_inv. Qed.

Lemma keeps_in_save_server_map m : keeps same_in (save_server_map m).
Proof. unfold save_server_map. keeps_auto. Qed.
Lemma keeps_in_map_read_or_create p : keeps same_in (server_map_read_or_create p).
Proof. unfold server_map_read_or_create. keeps_auto. Qed.
Lemma keeps_in_read_line : keeps same_in read_line.
Proof. unfold read_line. keeps_auto. Qed.
#[local] Hint Resolve keeps_in_save_server_map keeps_in_map_read_or_create keeps_in_read_line : rd_keeps.
Lemma keeps_in_approve ip sh t : keeps same_in (approve_server_key ip sh t).
Proof. unfold approve_server_key. keeps_auto. Qed.

Lemma map_read_or_create_inv p m w w' : server_map_read_or_create p w = (Done m, w') ->
  get_authorized_server_map_path (h_home (host w)) = Ok p ->
  opens_map (host w) p m (h_fs (host w')) /\ h_stdin (host w') = h_stdin (host w).
Proof.
  unfold server_map_read_or_create. intros H Hp. destruct p as [|c p]; [done|].
  binv H as u w1 E1. unfold fs_op in E1. destruct (create_dir_all _ _) as [f|] eqn:Ed; [|done].
  injection E1 as _ <-. binv H as ex w2 E2. unfold gets_fs, gets in E2. injection E2 as <- <-.
  simpl in H. destruct (exists_ f (c :: p)) eqn:Ee.
  - binv H as r w3 E3. unfold gets_fs, gets in E3. injection E3 as <- <-.
    apply lift_result_done_inv in H as [Hr ->]. split; [|done].
    split; [done|done|done|]. simpl. by rewrite Ee.
  - injection H as <- <-. split; [|done]. split; [done|done|done|]. simpl. by rewrite Ee.
Qed.

(** Why a key was approved. *)
Definition approved (h : Host) (ip : SocketAddr) (sh : ServerHello) (should_trust : bool) : Prop :=
  should_trust = true \/
  (exists p m f, opens_map h p m f /\ server_map m !! ip = Some (key_hex sh)) \/
  says_yes (next_line h) = true.

Lemma read_line_inv w l w' : read_line w = (Done l, w') -> l = next_line (host w).
Proof.
  unfold read_line, next_line. intros H. binv H as ls w1 E. unfold gets in E. injection E as <- <-.
  destruct (h_stdin (host w)) as [|x xs].
  - by injection H as <- _.
  - binv H as u w2 E. by injection H as <- _.
Qed.

Lemma approve_inv ip sh t w vk w' : approve_server_key ip sh t w = (Done vk, w') ->
  vk_try_from (arr (s_ed25519_key sh)) = Ok vk /\ approved (host w) ip sh t.
Proof.
  unfold approve_server_key. intros H. binv H as home w1 E. unfold gets in E. injection E as <- <-.
  binv H as p w2 (Hp & ->)%lift_result_done_inv.
  binv H as m w3 E3. destruct (map_read_or_create_inv _ _ _ _ E3 Hp) as [Hopen Hstd].
  binv H as vk' w4 (Hvk & ->)%lift_result_done_inv. cbv zeta in H.
  assert (next_line (host w3) = next_line (host w)) as Hline by (unfold next_line; by rewrite Hstd).
  binv H as m' w5 E5. destruct t.
  { split; [|by left]. binv E5 as u w6 E6. injection E5 as <- <-.
    simpl in H. rewrite lookup_insert_eq in H. rewrite String.eqb_refl in H. cbn [negb] in H.
    binv H as k w7 (Hk & ->)%lift_result_done_inv. rewrite decode_encode in Hk. injection Hk as <-.
    binv H as kb w8 (Hkb%map_err_ok & ->)%lift_result_done_inv.
    unfold array_try_from in Hkb. rewrite arr_len in Hkb. injection Hkb as <-.
    by apply lift_result_done_inv in H as [? _]. }
  injection E5 as <- <-. destruct (server_map m !! ip) as [k|] eqn:Em.
  - destruct (String.eqb_spec k (encode (arr (s_ed25519_key sh)))) as [->|Hne]; cbn [negb] in H.
    + binv H as k' w7 (Hk & ->)%lift_result_done_inv. rewrite decode_encode in Hk. injection Hk as <-.
      binv H as kb w8 (Hkb%map_err_ok & ->)%lift_result_done_inv.
      unfold array_try_from in Hkb. rewrite arr_len in Hkb. injection Hkb as <-.
      apply lift_result_done_inv in H as [? _]. split; [done|]. right; left. by exists p, m, (h_fs (host w3)).
    + binv H as l w7 ->%read_line_inv. rewrite Hline in H.
      destruct (says_yes (next_line (host w))) eqn:Ey; cbn [negb] in H.
      * binv H as u w8 E8. injection H as <- _. split; [done|]. by right; right.
      * binv H as u w8 E8. done.
  - binv H as l w7 ->%read_line_inv. rewrite Hline in H.
    destruct (says_yes (next_line (host w))) eqn:Ey; cbn [negb] in H.
    + binv H as u w8 E8. injection H as <- _. split; [done|]. by right; right.
    + binv H as u w8 E8. done.
Qed.

(** (C12) When the client's handshake returns a session key, whatever was sent to
    it, the server signed this very exchange: the signature in the hello
    verifies, under the key in the hello, on both nonces and both ephemeral
    keys; that key was approved (it was the stored one, the user agreed, or
    [--trust] was given); and the session key is the salted shared secret. *)
Theorem client_verifies_server (ip : SocketAddr) (csk : bytes) (trust : bool) (w w' : World) (key : bytes) :
  client_handshake_helper ip csk trust w = (Done key, w') ->
  exists hello sh vk challenge,
    rd (conn w) = frame hello ++ frame challenge ++ rd (conn w') /\
    deserialize hello = Ok sh /\
    vk_try_from (arr (s_ed25519_key sh)) = Ok vk /\ approved (host w) ip sh trust /\
    ed_verify vk (sha512_digest (random_ahead 32 32 (conn w) ++ arr (s_nonce sh) ++
                    x_public (next_random 32 (conn w)) ++ arr (s_x22519_key sh)))
      (arr (s_signature sh)) = Ok tt /\
    key = sha256_digest (salted (diffie_hellman (next_random 32 (conn w)) (arr (s_x22519_key sh)))).
Proof.
  unfold client_handshake_helper, generate_x25519_keypair. intros H.
  binv H as [x_pri x_pub] w1 E1. binv E1 as r w0 E0. unfold fill_bytes in E0.
  injection E0 as <- <-. injection E1 as <- <- <-.
  binv H as nonce w2 E2. unfold fill_bytes in E2. injection E2 as <- <-.
  binv H as cx w3 (Hcx & ->)%lift_result_done_inv. binv H as cn w4 (Hcn & ->)%lift_result_done_inv.
  binv H as hb w5 (_ & ->)%lift_result_done_inv.
  binv H as u w6 E6. apply (keeps_done _ _ _ _ _ (keeps_in_write_raw _)) in E6 as E6'.
  assert (host w6 = host w) as Hh6.
  { apply (keeps_done same_host) in E6; [done|]. unfold write_raw_frame_into. keeps_auto. }
  destruct E6' as [_ Hrd6]. clear E6.
  binv H as hello w7 (Hrd7 & _ & Hh7)%read_raw_inv.
  binv H as sh w8 (Hsh & ->)%lift_result_done_inv.
  binv H as vk w9 E9. pose proof (keeps_done _ _ _ _ _ (keeps_in_approve _ _ _) E9) as [_ Hrd9].
  apply approve_inv in E9 as [Hvk Happ].
  binv H as t w10 (Ht & ->)%lift_done_inv.
  binv H as u11 w11 (Hver%map_err_ok & ->)%lift_result_done_inv.
  binv H as challenge w12 (Hrd12 & _ & _)%read_raw_inv. cbv zeta in H.
  binv H as p1 w13 (_ & ->)%lift_done_inv. binv H as p2 w14 (_ & ->)%lift_done_inv.
  binv H as u15 w15 E15. apply (keeps_done _ _ _ _ _ (keeps_in_write_raw _)) in E15 as [_ Hrd15].
  binv H as u16 w16 E16. apply (keeps_done _ _ _ _ _ keeps_in_flush) in E16 as [_ Hrd16].
  apply lift_done_inv in H as [Hkey ->].
  rewrite salt_session_key_eq in Hkey by apply diffie_hellman_len. injection Hkey as <-.
  unfold to_array in Hcn. destruct (decide _) in Hcn; [|done]. injection Hcn as <-.
  rewrite Hh7, Hh6 in Happ. destruct u11.
  rewrite signed_transcript_eq in Ht; [|apply arr_len|apply arr_len|apply x_public_len|apply arr_len].
  injection Ht as <-. exists hello, sh, vk, challenge. split_and!; try done.
  rewrite Hrd16, Hrd15, <- Hrd12, Hrd9, <- Hrd7, Hrd6. done.
Qed.
End Honest.
End Handshake.

(** * A concrete handshake *)
Module HandshakeWitness.
Import Toy.

Definition map_path : path := ["home"; ".rdrive"; "user"; "server.map"]%string.
Definition map_with (k : string) : AuthServerMap := {| server_map := {[ demo_ip := k ]} |}.
(** The client's files when it stored [k] for the server. *)
Definition files_with (k : string) : fs :=
  ok_or ∅ (server_map_write (ok_or ∅ (create_dir_all demo_fs (parent map_path))) map_path (map_with k)).

Definition server_hex : string := encode (server_pub_key_bytes demo_config).
Definition csk : bytes := pad 32 (as_bytes "client").

Definition client_start (k : string) (inp : bytes) (lines : list string) : View :=
  {| v_in := inp; v_end := ReadEof; v_pend := []; v_out := []; v_shut := false;
     v_tape := demo_tape; v_pos := 7; v_host := set_stdin lines (demo_host_with (files_with k)) |}.

Definition the_client_hello : ClientHello :=
  let v := client_start server_hex [] [] in
  {| c_x22519_key := key_array (x_public (v_random 32 v)); c_nonce := key_array (v_random 32 (v_later 32 v)) |}.
Definition the_server_hello : ServerHello :=
  let v := demo_view [] in
  let x := key_array (x_public (v_random 32 v)) in
  let n := key_array (v_random 32 (v_later 32 v)) in
  {| s_ed25519_key := key_array (server_pub_key_bytes demo_config); s_x22519_key := x; s_nonce := n;
     s_signature := sig_array (ed_sign (server_pri_key_bytes demo_config)
       (sha512_digest (arr (c_nonce the_client_hello) ++ arr n ++ arr (c_x22519_key the_client_hello) ++ arr x))) |}.

Definition chb : bytes := ok_or [] (serialize the_client_hello).
Definition shb : bytes := ok_or [] (serialize the_server_hello).
Definition the_challenge : bytes := challenge_of (demo_view []).

Definition vs : View := demo_view (frame chb ++ frame (answer_to csk the_challenge)).
Definition vc : View := client_start server_hex (frame shb ++ frame the_challenge) [].

Lemma map_opens k inp lines : k = server_hex \/ k = "old"%string ->
  opens_map (v_host (client_start k inp lines)) map_path (map_with k) (files_with k).
Proof. intros [->| ->]; split; (discriminate || vm_refl). Qed.

Lemma hello_ok inp : server_hello_of demo_config (demo_view inp) the_client_hello the_server_hello.
Proof. split; vm_refl. Qed.

Lemma handshake_agreement_witness : exists shared key vs' vc',
  exec (server_handshake demo_config) vs (Done (shared, vk_to_bytes (verifying_key csk))) vs' /\
  exec (client_handshake_helper demo_ip csk false) vc (Done key) vc' /\
  salt_session_key shared = Done key /\ zlen key = 32 /\
  v_in vs' = [] /\ v_in vc' = [] /\
  v_out vc' = v_out vc ++ v_pend vc ++ frame chb ++ frame (answer_to csk (challenge_of vs)) /\
  v_out vs' = v_out vs ++ v_pend vs ++ frame shb ++ frame (challenge_of vs).
Proof.
  apply (handshake_agreement demo_config demo_ip csk vc vs the_client_hello the_server_hello chb shb
    [] [] map_path (map_with server_hex) (files_with server_hex)).
  1: reflexivity. 1: split; vm_refl. 1: apply hello_ok.
  1, 2: vm_refl. 1, 2: split; vm_compute; [reflexivity|discriminate].
  1, 2: reflexivity. 1: apply map_opens; by left. all: vm_refl.
Defined.

Definition the_shared : bytes :=
  diffie_hellman (v_random 32 vs) (arr (c_x22519_key the_client_hello)).

Definition client_pub : bytes := vk_to_bytes (verifying_key csk).

Lemma server_identifies_signer_witness : exists hello ch vk sig,
  let w' := snd (server_handshake demo_config (world_of vs)) in
  rd (conn (world_of vs)) = frame hello ++ frame (sig ++ client_pub) ++ rd (conn w') /\
  deserialize hello = Ok ch /\
  the_shared = diffie_hellman (next_random 32 (conn (world_of vs))) (arr (c_x22519_key ch)) /\
  client_pub = vk_to_bytes vk /\ zlen sig = 64 /\
  ed_verify vk (sha512_digest (random_ahead 64 64 (conn (world_of vs)))) sig = Ok tt.
Proof.
  apply (server_identifies_signer demo_config (world_of vs)
    (snd (server_handshake demo_config (world_of vs))) the_shared client_pub).
  eapply exec_run. eapply (exec_server_handshake demo_config csk vs the_client_hello chb the_server_hello shb []).
  1: reflexivity. 1: apply hello_ok. 1, 2: vm_refl.
  1: split; vm_compute; [reflexivity|discriminate]. 1: vm_compute; discriminate. all: vm_refl.
Defined.

Definition the_session_key : bytes :=
  sha256_digest (salted (diffie_hellman (v_random 32 vc) (arr (s_x22519_key the_server_hello)))).

Lemma client_verifies_server_witness : exists hello sh vk challenge,
  let w' := snd (client_handshake_helper demo_ip csk false (world_of vc)) in
  rd (conn (world_of vc)) = frame hello ++ frame challenge ++ rd (conn w') /\
  deserialize hello = Ok sh /\
  vk_try_from (arr (s_ed25519_key sh)) = Ok vk /\ approved (v_host vc) demo_ip sh false /\
  ed_verify vk (sha512_digest (random_ahead 32 32 (conn (world_of vc)) ++ arr (s_nonce sh) ++
                  x_public (next_random 32 (conn (world_of vc))) ++ arr (s_x22519_key sh)))
    (arr (s_signature sh)) = Ok tt /\
  the_session_key = sha256_digest (salted (diffie_hellman (next_random 32 (conn (world_of vc)))
                                     (arr (s_x22519_key sh)))).
Proof.
  apply (client_verifies_server demo_ip csk false (world_of vc)
    (snd (client_handshake_helper demo_ip csk false (world_of vc))) the_session_key).
  eapply exec_run.
  apply (exec_client_handshake demo_ip csk vc the_client_hello chb the_server_hello shb the_challenge []
    map_path (map_with server_hex) (files_with server_hex) demo_config vs).
  1: reflexivity. 1: apply hello_ok. 1: split; vm_refl. 1, 2: vm_refl. 1: vm_compute; discriminate.
  1: split; vm_compute; [reflexivity|discriminate]. 1: reflexivity.
  1: split; vm_compute; [reflexivity|discriminate]. 1: apply map_opens; by left. all: vm_refl.
Defined.

(** The server's key is not the stored one. *)
Definition vc_changed (lines : list string) : View := client_start "old" [] lines.
Definition server_vk : VerifyingKey := s_ed25519_key the_server_hello.

Lemma server_vk_ok : vk_try_from (arr (s_ed25519_key the_server_hello)) = Ok server_vk.
Proof. apply (vk_from_to server_vk). Qed.

Lemma unapproved_server_rejected_witness : exists v',
  exec (approve_server_key demo_ip the_server_hello false) (vc_changed ["n"%string])
    (Throw REJECTED_ROTATED) v' /\
  h_fs (v_host v') = files_with "old" /\ v_out v' = [] /\ v_shut v' = true.
Proof.
  apply (unapproved_server_rejected demo_ip the_server_hello server_vk map_path (map_with "old")
    (files_with "old") (vc_changed ["n"%string]));
    [apply map_opens; by right|apply server_vk_ok|vm_compute; discriminate|vm_refl].
Defined.

Definition files_after : fs :=
  ok_or ∅ (server_map_write (files_with "old") map_path
    (server_map_insert demo_ip (key_fp the_server_hello) (map_with "old"))).

Lemma files_old_wf : fs_wf (files_with "old").
Proof.
  unfold files_with. destruct (create_dir_all demo_fs (parent map_path)) as [f|] eqn:E;
    [|by vm_compute in E].
  simpl ok_or. destruct (server_map_write f map_path _) as [f'|] eqn:E'; [|intros p n H; simpl in H; by apply lookup_empty_Some in H].
  unfold server_map_write in E'. simpl in E'. eapply write_file_wf; [|exact E'].
  eapply create_dir_all_wf; [|exact E]. intros p n H. unfold demo_fs in H.
  apply lookup_singleton_Some in H as [<- <-]. done.
Qed.

Lemma changed_key_is_not_remembered_witness : exists v1,
  exec (approve_server_key demo_ip the_server_hello false) (vc_changed [" Y "%string]) (Done server_vk) v1 /\
  (says_yes (next_line (v_host v1)) = false ->
   exists v2, exec (approve_server_key demo_ip the_server_hello false) v1 (Throw REJECTED_ROTATED) v2).
Proof.
  apply (changed_key_is_not_remembered demo_ip the_server_hello server_vk map_path (map_with "old")
    (files_with "old") files_after (vc_changed [" Y "%string]) "old");
    [apply map_opens; by right|apply files_old_wf|apply server_vk_ok|vm_refl
    |vm_compute; discriminate|vm_compute; discriminate|vm_refl|vm_refl].
Defined.

Lemma short_handshake_packet_panics_witness : exists v',
  exec (server_handshake demo_config) (demo_view (frame chb ++ frame [Byte.x00])) Panic v'.
Proof.
  apply (short_handshake_packet_panics demo_config (demo_view (frame chb ++ frame [Byte.x00]))
    the_client_hello the_server_hello chb shb [Byte.x00] []);
    [reflexivity|apply hello_ok|vm_refl..|split; vm_compute; [reflexivity|discriminate]
    |vm_compute; discriminate|reflexivity|split; reflexivity|vm_refl].
Defined.
End HandshakeWitness.
