(* ===== verification/Echo.v ===== *)
(** src/protocol_v1.rs, [handle_echo_perf]: the loop that answers every payload
    with its length and hash until a stop word, an end of stream or a silence
    of [CHUNK_TIMEOUT]. *)
From S2P Require Import Prelude F64 External RateLimit FileSys Locks Lib World Exec Crypto Header Sample Net Stores Handshake.

(** Errors that count as a disconnection. *)
Definition ECHO_DISCONNECTS : list string :=
  ["eof"; "early eof"; "unexpected eof"; "forcibly closed"; "connection reset";
   "closed by the remote"; "connection aborted"; "broken pipe"]%string.

Definition matches_any (patterns : list string) (e : string) : bool :=
  existsb (fun pattern => str_contains (to_lowercase e) pattern) patterns.

(** The payloads that end the session. *)
Definition is_stop_word (payload : bytes) : bool :=
  bool_decide (payload = []) || bool_decide (payload = as_bytes " ") ||
  bool_decide (payload = as_bytes "q") || bool_decide (payload = as_bytes "quit") ||
  bool_decide (payload = as_bytes "exit").

Section Echo.
Context {AG : AesGcm} {SH : Sha2} {PE : Postcard EchoDebugHeader}.

(** One turn of the loop; [true] to go on. *)
Definition echo_turn (session_key : bytes) : M bool :=
  let* server_process_ms := instant_now in
  let* payload := timeout CHUNK_TIMEOUT (read_encrypt_data_into session_key) in
  match payload with
  | Elapsed => ret false
  | InTime (Err e) => if matches_any ECHO_DISCONNECTS e then ret false else throw e
  | InTime (Ok payload) =>
    if is_stop_word payload then ret false
    else
      let* hash := array_of 32 (sha256_digest payload) in
      let* now := instant_now in
      let echo := {| payload_len := as_u32 (zlen payload); payload_hash := hash;
                     process_ms := Z.quot (duration_since now server_process_ms) 1000000 |} in
      let* echo := lift_result (serialize echo) in
      timeout_qq WRITE_TIMEOUT (write_encrypt_frame_into echo session_key) ;;;
      ret true
  end.

Fixpoint echo_loop (fuel : nat) (session_key : bytes) : M unit :=
  match fuel with
  | O => hang
  | S fuel =>
    let* go_on := echo_turn session_key in
    if go_on then echo_loop fuel session_key else ret tt
  end.

(** Every turn that goes on has read a frame, so one turn per byte sent is
    enough (see [echo_fuel_enough]). *)
Definition handle_echo_perf (session_key : bytes) : M unit := fun w =>
  echo_loop (S (length (rd (conn w)))) session_key w.

Section Laws.
Context {AGL : AesGcmLaws}.

Lemma keeps_in_write_encrypt data key w : rd (conn (write_encrypt_frame_into data key w).2) = rd (conn w).
Proof. apply keeps_rd_write_encrypt. Qed.

(** A turn that goes on has consumed a frame. *)
Lemma echo_turn_consumes key w w' : echo_turn key w = (Done true, w') ->
  (length (rd (conn w')) < length (rd (conn w)))%nat.
Proof.
  unfold echo_turn. intros H. binv H as t0 w1 E1.
  assert (rd (conn w1) = rd (conn w)) as H1.
  { unfold instant_now in E1. case_match; by injection E1 as _ <-. }
  binv H as r w2 E2. unfold timeout in E2.
  destruct (read_encrypt_data_into key _) as [o w3] eqn:E3. destruct o as [p|e| |].
  - injection E2 as <- <-. apply read_encrypt_inv in E3 as (pkt & _ & Hrd & _).
    cbn [conn on_conn rd set_limit] in *. destruct (is_stop_word p); [done|].
    binv H as h w4 (_ & ->)%lift_result_done_inv. binv H as t w5 E5.
    assert (rd (conn w5) = rd (conn w3)) as H5.
    { unfold instant_now in E5. case_match; by injection E5 as _ <-. }
    cbv zeta in H. binv H as b w6 (_ & ->)%lift_result_done_inv.
    binv H as u w7 (w8 & E8 & ->)%timeout_or_done_inv. injection H as <-.
    pose proof (keeps_in_write_encrypt b key (on_conn (set_limit (tighten WRITE_TIMEOUT (time_limit (conn w5)))) w5)) as Hk.
    rewrite E8 in Hk. cbn [conn on_conn rd set_limit snd] in *.
    rewrite Hk, H5. rewrite <- H1, Hrd. unfold frame. rewrite !length_app.
    change (length (to_be_bytes _)) with 4%nat. lia.
  - injection E2 as <- <-. by destruct (matches_any _ e).
  - done.
  - by destruct (fires_first _ _ _); simplify_eq.
Qed.

Lemma echo_loop_fuel (key : bytes) (w : World) (fuel : nat) :
  (length (rd (conn w)) < fuel)%nat -> echo_loop fuel key w = handle_echo_perf key w.
Proof.
  unfold handle_echo_perf. remember (length (rd (conn w))) as n eqn:Hn.
  assert (length (rd (conn w)) <= n)%nat as Hle by lia. clear Hn.
  assert (forall a b w, (length (rd (conn w)) < a)%nat -> (length (rd (conn w)) < b)%nat ->
    echo_loop a key w = echo_loop b key w) as Hirr.
  { clear dependent w fuel. induction a as [|a IH]; intros [|b] w Ha Hb; try lia. simpl. unfold bind at 1 2.
    destruct (echo_turn key w) as [[[]|e| |] w'] eqn:E; try done.
    pose proof (echo_turn_consumes _ _ _ E). apply IH; lia. }
  intros Hf. apply Hirr; lia.
Qed.

(** The fuel is enough: a session never needs more turns than bytes were
    sent, so more fuel changes nothing. *)
Theorem echo_fuel_enough (key : bytes) (w : World) (fuel : nat) :
  (length (rd (conn w)) < fuel)%nat -> echo_loop fuel key w = handle_echo_perf key w.
Proof. apply echo_loop_fuel. Qed.

(** * What the peer gets back *)

(** The answer to payload [p] when [d] ns passed since the turn began. *)
Definition echo_header_for (p : bytes) (d : Z) (e : EchoDebugHeader) : Prop :=
  payload_len e = as_u32 (zlen p) /\ arr (payload_hash e) = sha256_digest p /\
  process_ms e = Z.quot (Z.max 0 d) 1000000.

(** The frames that answer a list of payloads. *)
Inductive echo_replies (key : bytes) : list bytes -> bytes -> Prop :=
| replies_nil : echo_replies key [] []
| replies_cons p d e b pkt ps out :
    echo_header_for p d e -> serialize e = Ok b -> sealed key b pkt ->
    echo_replies key ps out -> echo_replies key (p :: ps) (frame pkt ++ out).

(** Payloads and the packets they came in. *)
Definition came_in (key p pkt : bytes) : Prop :=
  sealed key p pkt /\ zlen pkt <= MAX_FRAME_LENGTH.

(** The answers to [ps] fit in a frame, whatever time passes. *)
Definition answers_fit (ps : list bytes) (ticks : list Z) : Prop :=
  forall p d e, p ∈ ps -> d ∈ 0 :: ticks -> echo_header_for p d e -> fits e.

Lemma tick_ticks h : h_ticks (tick h) = tail (h_ticks h).
Proof. unfold tick. by destruct (h_ticks h) eqn:E. Qed.

Lemma tick_elapsed h : exists d, d ∈ 0 :: h_ticks h /\ h_now (tick h) - h_now h = d.
Proof.
  unfold tick. destruct (h_ticks h) as [|d ds]; [exists 0|exists d]; simpl; split; try lia; set_solver.
Qed.

Lemma exec_echo_stop key p pkt rest v : came_in key p pkt -> is_stop_word p = true ->
  v_in v = frame pkt ++ rest ->
  exec (echo_turn key) v (Done false) (v_set_in rest (v_set_host (tick (v_host v)) v)).
Proof.
  intros [Hs Hl] Hstop Hin. unfold echo_turn. estep exec_instant_now.
  estep exec_timeout; [eapply exec_read_encrypt; [exact Hin|done|done]|].
  cbv beta iota. rewrite Hstop. apply exec_ret.
Qed.

Context {SHL : Sha2Laws} {PEL : PostcardLaws EchoDebugHeader}.

Lemma exec_echo_answer key p pkt rest v : zlen key = 32 -> v_shut v = false -> came_in key p pkt ->
  is_stop_word p = false -> v_in v = frame pkt ++ rest -> answers_fit [p] (h_ticks (v_host v)) ->
  exists d e b pkt' v', exec (echo_turn key) v (Done true) v' /\
    echo_header_for p d e /\ serialize e = Ok b /\ sealed key b pkt' /\
    v_in v' = rest /\ v_out v' = v_out v ++ v_pend v ++ frame pkt' /\ v_pend v' = [] /\
    v_shut v' = false /\ v_host v' = tick (tick (v_host v)).
Proof.
  intros Hk Hsh [Hs Hl] Hstop Hin Hfit.
  set (h1 := tick (v_host v)). destruct (tick_elapsed h1) as (d & Hd & Hel).
  destruct (to_array_ok 32 (sha256_digest p)) as (a & Ha & Harr).
  { rewrite sha256_digest_streaming. apply sha256_len. }
  set (e := {| payload_len := as_u32 (zlen p); payload_hash := a;
    process_ms := Z.quot (duration_since (h_now (tick h1)) (h_now h1)) 1000000 |}).
  assert (echo_header_for p d e) as He.
  { split_and!; [done|done|]. simpl. unfold duration_since. by rewrite Hel. }
  assert (fits e) as (b & Hb & Hbl).
  { eapply (Hfit p d); [set_solver| |done]. unfold h1 in Hd. rewrite tick_ticks in Hd.
    destruct (h_ticks (v_host v)); set_solver. }
  eexists d, e, b, _, _. split; [|split; [done|split; [done|]]].
  - unfold echo_turn. estep exec_instant_now.
    estep exec_timeout; [eapply exec_read_encrypt; [exact Hin|done|done]|].
  cbv beta iota. rewrite Hstop.
    estep exec_lift_result; [exact Ha|]. estep exec_instant_now. cbv zeta.
    estep exec_lift_result; [exact Hb|].
    estep exec_timeout_or; [apply exec_reply; [done|lia|done]|]. apply exec_ret.
  - split; [apply packet_sealed; [done|unfold P_MAX, U32_MAX in *; lia]|].
    simpl. by rewrite Hsh.
Qed.

(** (C37) An echo session: every payload that is not a stop word is answered, in
    order, by a frame with its length and its SHA-256, and the stop word ends
    the session with nothing read after it. *)
Theorem echo_session (key : bytes) (ps pkts : list bytes) (stop stop_pkt rest : bytes) (v : View) :
  zlen key = 32 -> v_shut v = false ->
  Forall2 (came_in key) ps pkts -> Forall (fun p => is_stop_word p = false) ps ->
  came_in key stop stop_pkt -> is_stop_word stop = true ->
  answers_fit ps (h_ticks (v_host v)) ->
  v_in v = concat (map frame pkts) ++ frame stop_pkt ++ rest ->
  exists out v', exec (handle_echo_perf key) v (Done tt) v' /\ echo_replies key ps out /\
    v_in v' = rest /\ v_out v' ++ v_pend v' = v_out v ++ v_pend v ++ out.
Proof.
  intros Hk Hsh Hall Hns Hstop Hst Hfit Hin.
  assert (exists fuel out v', (forall w, looks w v -> (length (rd (conn w)) < fuel)%nat) /\
    exec (echo_loop fuel key) v (Done tt) v' /\ echo_replies key ps out /\
    v_in v' = rest /\ v_out v' ++ v_pend v' = v_out v ++ v_pend v ++ out)
    as (fuel & out & v' & Hlen & He & H).
  { exists (S (length (v_in v))). cut (exists out v',
      (forall n, (length (v_in v) <= n)%nat -> exec (echo_loop (S n) key) v (Done tt) v') /\
      echo_replies key ps out /\ v_in v' = rest /\ v_out v' ++ v_pend v' = v_out v ++ v_pend v ++ out).
    { intros (out & v' & He & H). exists out, v'. split; [|by split; [apply He|]].
      intros w Hw. rewrite (lk_in _ _ Hw). lia. }
    revert v Hsh Hfit Hin. induction Hall as [|p pkt ps pkts Hp Hall IH]; intros v Hsh Hfit Hin.
    - eexists [], _. split; [intros n _; simpl; estep exec_echo_stop; [done|done|exact Hin|apply exec_ret]|].
      split; [constructor|]. simpl. by rewrite app_nil_r.
    - inversion Hns as [|? ? Hp1 Hns']; subst.
      destruct (exec_echo_answer key p pkt (concat (map frame pkts) ++ frame stop_pkt ++ rest) v)
        as (d & e & b & pkt' & v1 & He & Hh & Hb & Hs & Hi & Ho & Hpd & Hsh1 & Hho); try done.
      { rewrite Hin. exact (eq_sym (app_assoc _ _ _)). }
      { intros q d e Hq. apply Hfit. set_solver. }
      destruct (IH Hns' v1 Hsh1) as (out & v' & Hrun & Hr & Hi' & Ho'); [|done|].
      { intros q d' e' Hq Hd'. apply Hfit; [set_solver|]. rewrite Hho, !tick_ticks in Hd'.
        destruct (h_ticks (v_host v)) as [|? [|? ?]]; set_solver. }
      exists (frame pkt' ++ out), v'. split; [|split; [by econstructor|split; [done|]]].
      + assert (length (v_in v) = length (frame pkt) + length (v_in v1))%nat as Hlen.
        { rewrite Hin, Hi, <- length_app. f_equal. exact (eq_sym (app_assoc _ _ _)). }
        assert (4 <= length (frame pkt))%nat.
        { unfold frame. rewrite length_app. change (length (to_be_bytes _)) with 4%nat. lia. }
        intros [|n] Hn; [lia|]. change (echo_loop (S (S n)) key) with
          (let* go_on := echo_turn key in if go_on then echo_loop (S n) key else ret tt).
        eapply exec_bind; [exact He|]. apply Hrun. lia.
      + rewrite Ho', Ho, Hpd. by rewrite <- !app_assoc. }
  exists out, v'. split; [|done]. eapply exec_ext; [|exact He].
  intros w Hw. by apply echo_loop_fuel, Hlen.
Qed.
End Laws.
End Echo.

(** * A concrete session *)
Module EchoWitness.
Import Toy.

Definition ping : bytes := as_bytes "ping".
Definition quit : bytes := as_bytes "q".
Definition ping_pkt : bytes := packet demo_key ping (demo_view []).
Definition quit_pkt : bytes := packet demo_key quit (demo_view []).
Definition session : View := demo_view (frame ping_pkt ++ frame quit_pkt ++ ping).

Lemma came_in_packet p : zlen p <= 1000 -> came_in demo_key p (packet demo_key p (demo_view [])).
Proof.
  intros Hp. assert (sealed demo_key p (packet demo_key p (demo_view []))) as Hs.
  { apply packet_sealed; [reflexivity|unfold P_MAX; lia]. }
  split; [done|]. rewrite (sealed_len _ _ _ Hs). unfold NONCE_LEN, TAG_LEN, MAX_FRAME_LENGTH. lia.
Qed.

Lemma ping_answer_fits : answers_fit [ping] [].
Proof.
  intros p d [l h ms] ->%list_elem_of_singleton ->%list_elem_of_singleton (Hl & Hh & Hms).
  simpl in *. subst l ms.
  assert (h = key_array ping) as -> by (by apply arr_inj).
  eexists. split; [reflexivity|]. vm_compute. reflexivity.
Qed.

Lemma echo_session_witness : exists out v',
  exec (handle_echo_perf demo_key) session (Done tt) v' /\ echo_replies demo_key [ping] out /\
  v_in v' = ping /\ v_out v' ++ v_pend v' = v_out session ++ v_pend session ++ out.
Proof.
  apply (echo_session demo_key [ping] [ping_pkt] quit quit_pkt ping session).
  1, 2: reflexivity. 1: repeat constructor; by apply came_in_packet.
  1: repeat constructor. 1: by apply came_in_packet. 1: reflexivity.
  1: apply ping_answer_fits. vm_refl.
Defined.

Lemma echo_fuel_enough_witness :
  echo_loop 100000 demo_key (world_of session) = handle_echo_perf demo_key (world_of session).
Proof. apply echo_fuel_enough. apply Nat.ltb_lt. vm_compute. reflexivity. Defined.
End EchoWitness.
