(* ===== verification/Auth.v ===== *)
(** src/protocol_v1.rs, [handle_auth_keys] and [auth_client]: registration of a
    client's key and rotation to a new one. *)
From S2P Require Import Prelude F64 External RateLimit FileSys Locks Lib Users World Exec Crypto Header Sample Stores Net Handshake.

Definition error_header (code : Z) (message : string) : ErrorHeader :=
  {| e_code := code; e_message := message |}.
Definition warn_header (code : Z) (message : string) : WarnHeader :=
  {| w_code := code; w_message := message |}.

Definition ACK : bytes := [byte_of_Z 1].

Definition NOT_AUTHORIZED : ErrorHeader := error_header 403
  "Client not authorized, please contact the admin, provider or ssh into the server".
Definition NOT_A_DIRECTORY : ErrorHeader := error_header 500
  "Auth key path exists but is not a directory, skipping user storage dir creation".
Definition ALREADY_REGISTERED : WarnHeader := warn_header 409
  "Client Auth & Storage directory already exists, not required".
Definition CREATE_FAILED : ErrorHeader := error_header 500
  "Failed to create auth key or user storage directory, try again later".
Definition ROTATE_FAILED : ErrorHeader := error_header 500 "Failed to rotate keys, try again later".
Definition invalid_signature (e : string) : ErrorHeader :=
  error_header 401 ("Invalid signature: " +:+ e).
Definition INVALID_FLAG : ErrorHeader := error_header 400 "Invalid flag value".
Definition NOT_REGISTERED : string := "User not registered, not found".

(** [.map_err(|e| anyhow!("<pre>{}", e))?] and [.context("<msg>")?] on an
    awaited call; [to_string] of a context error prints the context. *)
Definition map_throw {A} (pre : string) (m : M A) : M A :=
  let* r := try_ m in lift_result (map_err pre r).
Definition context {A} (msg : string) (m : M A) : M A :=
  let* r := try_ m in
  match r with Ok a => ret a | Err _ => throw msg end.

(** [buf[0]]. *)
Definition first_byte (b : bytes) : outcome Z :=
  match b with x :: _ => Done (byte_to_Z x) | [] => Panic end.

Section Auth.
Context {AG : AesGcm} {HX : Hex} {SH : Sha2} {ED : Ed25519} {XD : X25519}
  {PEH : Postcard ErrorHeader} {PWH : Postcard WarnHeader} {PCM : Postcard Command}
  {PCH : Postcard ClientHello} {PSH : Postcard ServerHello} {JS : Json AuthServerMap}.

(** The [Ok] branch of [flag == 1]. *)
Definition register_key (cfg : Config) (pub_key : VerifyingKey) (session_key : bytes) : M unit :=
  let pub_key_hex := encode (vk_to_bytes pub_key) in
  let pub_key_hash256 := encode (sha256_digest (as_bytes pub_key_hex)) in
  let* home := gets (fun w => h_home (host w)) in
  let* auth_dir := lift_result (get_authorized_client_dir home) in
  let user_key_path := join auth_dir pub_key_hash256 in
  let* _ := lift (str_prefix pub_key_hash256 16) in
  let* key_exists := gets_fs (fun f => exists_ f user_key_path) in
  let* key_is_dir := gets_fs (fun f => is_dir f user_key_path) in
  match enable_client_whitelist cfg, key_exists, key_is_dir with
  | false, false, _ => send_failed NOT_AUTHORIZED session_key
  | _, true, false => send_failed NOT_A_DIRECTORY session_key
  | _, _, _ =>
    let pub_key_hash512 := encode (sha512_digest (vk_to_bytes pub_key)) in
    let* storage := lift_result (get_storage_dir home) in
    let user_storage_dir := join storage pub_key_hash512 in
    let* storage_exists := gets_fs (fun f => exists_ f user_storage_dir) in
    let* key_exists := gets_fs (fun f => exists_ f user_key_path) in
    if storage_exists && key_exists then send_warn ALREADY_REGISTERED session_key
    else
      let* r1 := try_ (fs_op (fun f => create_dir_all f user_key_path)) in
      let* r2 := try_ (fs_op (fun f => create_dir_all f user_storage_dir)) in
      match r1, r2 with
      | Ok _, Ok _ => timeout_qq WRITE_TIMEOUT (write_encrypt_frame_into ACK session_key)
      | _, _ => let* _ := lift (str_prefix pub_key_hash256 32) in
                send_failed CREATE_FAILED session_key
      end
  end.

(** The [Ok] branch of [flag == 2]. *)
Definition rotate_key (old_pub_key : VerifyingKey) (new_key session_key : bytes) : M unit :=
  let* new_pub_key := lift_result
    (map_err "Failed to construct new public key from bytes: " (vk_try_from new_key)) in
  let new_pub_key_hex := encode (vk_to_bytes new_pub_key) in
  let old_pub_key_hex := encode (vk_to_bytes old_pub_key) in
  let new_pub_key_hash_hex := encode (sha256_digest (as_bytes new_pub_key_hex)) in
  let old_pub_key_hash_hex := encode (sha256_digest (as_bytes old_pub_key_hex)) in
  let* home := gets (fun w => h_home (host w)) in
  let* auth_keys_path := lift_result (get_authorized_client_dir home) in
  let old_pub_key_hash := encode (sha512_digest (vk_to_bytes old_pub_key)) in
  let new_pub_key_hash := encode (sha512_digest (vk_to_bytes new_pub_key)) in
  let* storage := lift_result (get_storage_dir home) in
  let new_user_path := join storage new_pub_key_hash in
  let old_user_path := join storage old_pub_key_hash in
  let* registered := gets_fs (fun f => exists_ f old_user_path) in
  if negb registered then throw NOT_REGISTERED
  else
    let* r1 := try_ (fs_op (fun f => rename f (join auth_keys_path old_pub_key_hash_hex)
                                              (join auth_keys_path new_pub_key_hash_hex))) in
    let* r2 := try_ (fs_op (fun f => rename f old_user_path new_user_path)) in
    match r1, r2 with
    | Ok _, Ok _ => timeout_qq WRITE_TIMEOUT (write_encrypt_frame_into ACK session_key)
    | _, _ => send_failed ROTATE_FAILED session_key
    end.

(** What follows the challenge: the client's packet, cut at its offsets. *)
Definition handle_auth_packet (cfg : Config) (flag : Z) (session_key : bytes) : M unit :=
  if flag =? 1 then
    let* header_bytes := read_encrypt_data_into session_key in
    let* (nonce, signature_new_key) := lift (split_at header_bytes 64) in
    let* (signature, new_key) := lift (split_at signature_new_key 64) in
    match validate_signature new_key signature nonce with
    | Ok pub_key => register_key cfg pub_key session_key
    | Err e => send_failed (invalid_signature e) session_key
    end
  else if flag =? 2 then
    let* header_bytes := read_encrypt_data_into session_key in
    let* (nonce, signature_new_key_old_key) := lift (split_at header_bytes 64) in
    let* (signature, new_key_old_key) := lift (split_at signature_new_key_old_key 64) in
    let* (old_key, new_key) := lift (split_at new_key_old_key 32) in
    match validate_signature old_key signature nonce with
    | Ok old_pub_key => rotate_key old_pub_key new_key session_key
    | Err e => send_failed (invalid_signature e) session_key
    end
  else send_failed INVALID_FLAG session_key.

Definition handle_auth_keys (cfg : Config) (flag : Z) (session_key : bytes) : M unit :=
  let* nonce := fill_bytes 64 in
  let nonce := sha512_digest nonce in
  timeout_qq WRITE_TIMEOUT (write_encrypt_frame_into nonce session_key) ;;;
  handle_auth_packet cfg flag session_key.

(** * The client *)

Definition INVALID_RESPONSE : string := "Invalid response from server".
Definition failed_with (what : string) (e : ErrorHeader) : string :=
  (what +:+ " failed: " +:+ pretty (e_code e) +:+ " - " +:+ e_message e)%string.

(** [auth_client] after its handshake. *)
Definition auth_request (private_key : bytes) (public_key : VerifyingKey)
    (old_public_key : option VerifyingKey) (session_key : bytes) : M unit :=
  let* request := lift_result (serialize (Auth (match old_public_key with Some _ => 2 | None => 1 end))) in
  write_encrypt_frame_into request session_key ;;;
  let* nonce := read_encrypt_data_into session_key in
  let signature := ed_sign private_key nonce in
  match old_public_key with
  | Some old_verifying_key =>
    let* nonce := lift (copy_from_slice (zeros 64) nonce) in
    let* header := lift (write_at (zeros 192) 0 nonce) in
    let* header := lift (write_at header 64 signature) in
    let* header := lift (write_at header 128 (vk_to_bytes old_verifying_key)) in
    let* header := lift (write_at header 160 (vk_to_bytes public_key)) in
    write_encrypt_frame_into header session_key
  | None =>
    let* nonce := lift (copy_from_slice (zeros 64) nonce) in
    let* header := lift (write_at (zeros 160) 0 nonce) in
    let* header := lift (write_at header 64 signature) in
    let* header := lift (write_at header 128 (vk_to_bytes public_key)) in
    write_encrypt_frame_into header session_key
  end ;;;
  let* rsp := read_encrypt_data_into session_key in
  let* flag := lift (first_byte rsp) in
  if flag =? 1 then ret tt
  else if flag =? 2 then
    let* warn := lift_result (deserialize (T := WarnHeader) (tail rsp)) in ret tt
  else if flag =? 3 then
    let* err := lift_result (deserialize (tail rsp)) in throw (failed_with "Auth" err)
  else throw INVALID_RESPONSE.

Definition auth_client (server_ip : SocketAddr) (private_key : bytes) (public_key : VerifyingKey)
    (old_public_key : option VerifyingKey) : M unit :=
  let* session_key := map_throw "Handshake failed: " (client_handshake_helper server_ip private_key false) in
  auth_request private_key public_key old_public_key session_key.

(** * What the server does with an authentication packet *)

Section Laws.
Context {AGL : AesGcmLaws} {HXL : HexLaws} {SHL : Sha2Laws} {EDL : Ed25519Laws}.

(** The view once the challenge is sent. *)
Definition v_challenged (key : bytes) (v : View) : View :=
  v_reply key (sha512_digest (v_random 64 v)) (v_later 64 v).

Lemma v_challenged_out key v : v_shut v = false ->
  v_out (v_challenged key v) =
    v_out v ++ v_pend v ++ frame (packet key (sha512_digest (v_random 64 v)) (v_later 64 v)) /\
  v_pend (v_challenged key v) = [] /\ v_shut (v_challenged key v) = false /\
  v_host (v_challenged key v) = v_host v /\ v_in (v_challenged key v) = v_in v.
Proof. by intros Hs. Qed.

(** A packet [nonce || signature || keys] of the client. *)
Definition auth_packet (nonce signature keys : bytes) : bytes := nonce ++ signature ++ keys.

Section Packet.
Context (cfg : Config) (key : bytes) (v : View).
Hypothesis Hkey : zlen key = 32.
Hypothesis Hshut : v_shut v = false.

Lemma exec_challenge flag o v' :
  exec (handle_auth_packet cfg flag key) (v_challenged key v) o v' -> exec (handle_auth_keys cfg flag key) v o v'.
Proof.
  intros H. unfold handle_auth_keys. estep exec_fill_bytes. cbv zeta.
  assert (zlen (sha512_digest (v_random 64 v)) <= U32_MAX) as Hl by (rewrite sha512_len; unfold U32_MAX; lia).
  pose proof (exec_reply key (sha512_digest (v_random 64 v)) (v_later 64 v) Hkey Hl Hshut) as Hr.
  eapply exec_bind; [apply exec_timeout_or; exact Hr|exact H].
Qed.

Context (nonce signature keys pkt rest : bytes).
Hypothesis Hnonce : zlen nonce = 64.
Hypothesis Hsig : zlen signature = 64.
Hypothesis Hsealed : sealed key (auth_packet nonce signature keys) pkt.
Hypothesis Hpkt : zlen pkt <= MAX_FRAME_LENGTH.
Hypothesis Hin : v_in v = frame pkt ++ rest.

Lemma exec_new_packet o v' :
  exec match validate_signature keys signature nonce with
       | Ok pub_key => register_key cfg pub_key key
       | Err e => send_failed (invalid_signature e) key
       end (v_set_in rest (v_challenged key v)) o v' ->
  exec (handle_auth_keys cfg 1 key) v o v'.
Proof.
  intros H. apply exec_challenge. unfold handle_auth_packet. cbn [Z.eqb Pos.eqb].
  estep exec_read_encrypt; [exact Hin|done|done|].
  estep exec_lift; [by apply split_at_app|]. cbn match.
  estep exec_lift; [by apply split_at_app|]. exact H.
Qed.

Lemma exec_rotate_packet old new o v' : keys = old ++ new -> zlen old = 32 ->
  exec match validate_signature old signature nonce with
       | Ok old_pub_key => rotate_key old_pub_key new key
       | Err e => send_failed (invalid_signature e) key
       end (v_set_in rest (v_challenged key v)) o v' ->
  exec (handle_auth_keys cfg 2 key) v o v'.
Proof.
  intros Hk Ho H. apply exec_challenge. unfold handle_auth_packet. cbn [Z.eqb Pos.eqb].
  estep exec_read_encrypt; [exact Hin|done|done|].
  estep exec_lift; [by apply split_at_app|]. cbn match.
  estep exec_lift; [by apply split_at_app|]. cbn match. rewrite Hk.
  estep exec_lift; [by apply split_at_app|]. exact H.
Qed.
End Packet.

Lemma validate_signature_ok vk signature nonce : zlen signature = 64 ->
  ed_verify_strict vk nonce signature = Ok tt ->
  validate_signature (vk_to_bytes vk) signature nonce = Ok vk.
Proof.
  intros Hs Hv. unfold validate_signature, array_try_from. rewrite Hs. cbn.
  rewrite vk_from_to. cbn. by rewrite Hv.
Qed.

(** The server's directories are in place. *)
Record server_files (home : path) (h : Host) : Prop := {
  sf_home : h_home h = Some home;
  sf_wf : fs_wf (h_fs h);
  sf_auth : lookup_node (h_fs h) (auth_root home) = Some Dir;
  sf_storage : lookup_node (h_fs h) (storage_root home) = Some Dir;
}.

Lemma exec_register_new cfg home vk key v : zlen key = 32 -> v_shut v = false ->
  server_files home (v_host v) -> enable_client_whitelist cfg = true ->
  h_fs (v_host v) !! auth_entry home (vk_to_bytes vk) = None ->
  h_fs (v_host v) !! user_dir (storage_root home) (vk_to_bytes vk) = None ->
  exec (register_key cfg vk key) v (Done tt)
    (v_reply key ACK (v_set_fs (<[user_dir (storage_root home) (vk_to_bytes vk) := Dir]>
      (<[auth_entry home (vk_to_bytes vk) := Dir]> (h_fs (v_host v)))) v)).
Proof.
  intros Hk Hs [Hhome Hwf Ha Hst] Hwl Hna Hns. unfold register_key.
  set (pk := vk_to_bytes vk) in *. set (f := h_fs (v_host v)) in *.
  destruct (str_prefix_encode (sha256_digest (as_bytes (encode pk))) 16) as [s16 Hs16];
    [rewrite sha256_digest_len; lia|].
  cbv zeta. estep (exec_gets h_home). rewrite Hhome.
  estep exec_lift_result; [apply get_authorized_client_dir_eq|].
  rewrite join_encode by apply sha256_nonempty. fold (auth_name pk). fold (auth_entry home pk).
  estep exec_lift; [exact Hs16|].
  assert (exists_ f (auth_entry home pk) = false /\ is_dir f (auth_entry home pk) = false) as [He Hd].
  { unfold exists_, is_dir. rewrite lookup_node_nonempty by (by destruct home).
    rewrite Hna. split; apply bool_decide_eq_false_2; [by intros []|done]. }
  estep exec_gets_fs. estep exec_gets_fs. fold f. rewrite Hwl, He.
  estep exec_lift_result; [apply get_storage_dir_eq|].
  rewrite join_encode by apply sha512_nonempty. fold (storage_name pk).
  fold (user_dir (storage_root home) pk).
  estep exec_gets_fs. estep exec_gets_fs. fold f. rewrite He, andb_false_r.
  estep exec_try; [apply exec_fs_op; by apply create_dir_all_child|].
  estep exec_try.
  { apply exec_fs_op. simpl (h_fs _). apply create_dir_all_child.
    - apply fs_wf_insert; [done|by destruct home|by unfold auth_entry; rewrite parent_snoc|by left].
    - rewrite lookup_node_insert by (by destruct home). rewrite decide_False; [done|].
      intros E. symmetry in E. pose proof (f_equal length E) as El.
      unfold auth_entry, auth_root, storage_root in E, El. rewrite !length_app in El. simpl in El. lia.
    - rewrite lookup_insert_ne; [done|]. intros E.
      eapply (auth_not_storage home pk pk [] []). by rewrite !app_nil_r. }
  eapply exec_to; [apply exec_timeout_or, exec_reply; [done|vm_compute; discriminate|done]|].
  reflexivity.
Qed.

(** Registration of a new client, with new registrations allowed: a packet
    signed with the key creates the client's two directories, changes nothing
    else on the disk, and is acknowledged. The signature is checked on the
    nonce the packet itself carries: the theorem holds for every nonce, whatever
    challenge the server sent, so a packet seen once registers its key again in
    any later session. *)
Theorem registration_creates_user (cfg : Config) (home : path) (vk : VerifyingKey)
    (key nonce signature pkt rest : bytes) (v : View) :
  zlen key = 32 -> v_shut v = false -> server_files home (v_host v) ->
  enable_client_whitelist cfg = true ->
  h_fs (v_host v) !! auth_entry home (vk_to_bytes vk) = None ->
  h_fs (v_host v) !! user_dir (storage_root home) (vk_to_bytes vk) = None ->
  zlen nonce = 64 -> zlen signature = 64 -> ed_verify_strict vk nonce signature = Ok tt ->
  sealed key (auth_packet nonce signature (vk_to_bytes vk)) pkt -> zlen pkt <= MAX_FRAME_LENGTH ->
  v_in v = frame pkt ++ rest ->
  exists challenge ack v', exec (handle_auth_keys cfg 1 key) v (Done tt) v' /\
    sealed key (sha512_digest (v_random 64 v)) challenge /\ sealed key ACK ack /\
    v_out v' = v_out v ++ v_pend v ++ frame challenge ++ frame ack /\ v_in v' = rest /\
    h_fs (v_host v') = <[user_dir (storage_root home) (vk_to_bytes vk) := Dir]>
      (<[auth_entry home (vk_to_bytes vk) := Dir]> (h_fs (v_host v))).
Proof.
  intros Hk Hs Hf Hwl Ha Hst Hn Hsg Hv Hp Hl Hin. eexists _, _, _. split.
  - eapply (exec_new_packet cfg key v Hk Hs nonce signature _ pkt rest Hn Hsg Hp Hl Hin).
    rewrite validate_signature_ok by done. by apply (exec_register_new cfg home).
  - assert (zlen (sha512_digest (v_random 64 v)) <= P_MAX) by (rewrite sha512_len; unfold P_MAX; lia).
    split; [by apply packet_sealed|]. split; [apply packet_sealed; [done|vm_compute; discriminate]|].
    split; [|by split]. simpl. by rewrite <- !app_assoc.
Qed.

(** With [ENABLE_CLIENT_WHITELIST] off, a client whose key is not in the
    authorised directory is refused with 403, correctly signed or not, and
    nothing changes on the server: the switch that is meant to open the server
    to new clients closes it. *)
Theorem whitelist_off_refuses_new_clients (cfg : Config) (home : path) (vk : VerifyingKey)
    (key nonce signature pkt rest : bytes) (v : View) :
  zlen key = 32 -> v_shut v = false -> h_home (v_host v) = Some home ->
  enable_client_whitelist cfg = false ->
  h_fs (v_host v) !! auth_entry home (vk_to_bytes vk) = None ->
  zlen nonce = 64 -> zlen signature = 64 -> ed_verify_strict vk nonce signature = Ok tt ->
  sealed key (auth_packet nonce signature (vk_to_bytes vk)) pkt -> zlen pkt <= MAX_FRAME_LENGTH ->
  v_in v = frame pkt ++ rest -> fits NOT_AUTHORIZED ->
  exec (handle_auth_keys cfg 1 key) v (Done tt)
    (v_failed key NOT_AUTHORIZED (v_set_in rest (v_challenged key v))).
Proof.
  intros Hk Hs Hhome Hwl Ha Hn Hsg Hv Hp Hl Hin Hfit.
  apply (exec_new_packet cfg key v Hk Hs nonce signature _ pkt rest Hn Hsg Hp Hl Hin).
  rewrite validate_signature_ok by done.
  unfold register_key. set (pk := vk_to_bytes vk) in *.
  destruct (str_prefix_encode (sha256_digest (as_bytes (encode pk))) 16) as [s16 Hs16];
    [rewrite sha256_digest_len; lia|].
  cbv zeta. estep (exec_gets h_home). simpl (h_home _). rewrite Hhome.
  estep exec_lift_result; [apply get_authorized_client_dir_eq|].
  rewrite join_encode by apply sha256_nonempty. fold (auth_name pk). fold (auth_entry home pk).
  estep exec_lift; [exact Hs16|]. estep exec_gets_fs. estep exec_gets_fs. rewrite Hwl.
  assert (exists_ (h_fs (v_host v)) (auth_entry home pk) = false) as He.
  { unfold exists_. rewrite lookup_node_nonempty by (by destruct home).
    rewrite Ha. apply bool_decide_eq_false_2. by intros []. }
  simpl (h_fs _). rewrite He. by apply exec_send_failed.
Qed.

(** (C27) A packet whose signature does not validate under the key it names (the
    new key when registering, the old one when rotating) is answered with 401
    and changes nothing on the server. *)
Theorem unsigned_auth_changes_nothing (cfg : Config) (flag : Z)
    (key nonce signature signer new pkt rest : bytes) (e : string) (v : View) :
  zlen key = 32 -> v_shut v = false ->
  (flag = 1 /\ new = [] \/ flag = 2 /\ zlen signer = 32) ->
  zlen nonce = 64 -> zlen signature = 64 -> validate_signature signer signature nonce = Err e ->
  sealed key (auth_packet nonce signature (signer ++ new)) pkt -> zlen pkt <= MAX_FRAME_LENGTH ->
  v_in v = frame pkt ++ rest -> fits (invalid_signature e) ->
  exists v', exec (handle_auth_keys cfg flag key) v (Done tt) v' /\
    v' = v_failed key (invalid_signature e) (v_set_in rest (v_challenged key v)) /\
    v_host v' = v_host v.
Proof.
  intros Hk Hs Hflag Hn Hsg He Hp Hl Hin Hfit. eexists. split; [|split; [reflexivity|]].
  - destruct Hflag as [[-> ->]|[-> Hsl]].
    + rewrite app_nil_r in Hp. apply (exec_new_packet cfg key v Hk Hs nonce signature _ pkt rest Hn Hsg Hp Hl Hin).
      rewrite He. by apply exec_send_failed.
    + eapply (exec_rotate_packet cfg key v Hk Hs nonce signature _ pkt rest Hn Hsg Hp Hl Hin); [done|done|].
      rewrite He. by apply exec_send_failed.
  - destruct Hfit as (b & Hb & _). unfold v_failed. by rewrite Hb.
Qed.

(** The packet is split at fixed offsets before its length is looked at: an
    authentication packet of fewer than 64 bytes panics the connection's
    task. *)
Theorem short_auth_packet_panics (cfg : Config) (flag : Z) (key short pkt rest : bytes) (v : View) :
  zlen key = 32 -> v_shut v = false -> (flag = 1 \/ flag = 2) -> zlen short < 64 ->
  sealed key short pkt -> zlen pkt <= MAX_FRAME_LENGTH -> v_in v = frame pkt ++ rest ->
  exists v', exec (handle_auth_keys cfg flag key) v Panic v'.
Proof.
  intros Hk Hs Hflag Hsh Hp Hl Hin. eexists. apply exec_challenge; [done|done|]. unfold handle_auth_packet.
  destruct Hflag as [->| ->]; cbn [Z.eqb Pos.eqb];
    (estep exec_read_encrypt; [exact Hin|done|done|]);
    eapply exec_bind_panic, exec_lift, split_at_panic; done.
Qed.

(** * Rotation *)

Lemma auth_name_inj_entry home a b : auth_entry home a = auth_entry home b -> auth_name a = auth_name b.
Proof. intros H%app_inv_head. by injection H. Qed.

(** Both renames are tried; the answer depends on whether both succeeded. *)
Lemma exec_rotate home old new key v f1 r1 o v' :
  let f := h_fs (v_host v) in
  h_home (v_host v) = Some home ->
  is_Some (f !! user_dir (storage_root home) (vk_to_bytes old)) ->
  r1 = rename f (auth_entry home (vk_to_bytes old)) (auth_entry home (vk_to_bytes new)) ->
  f1 = match r1 with Ok g => g | Err _ => f end ->
  (forall r2, r2 = rename f1 (user_dir (storage_root home) (vk_to_bytes old))
                             (user_dir (storage_root home) (vk_to_bytes new)) ->
   let f2 := match r2 with Ok g => g | Err _ => f1 end in
   exec match r1, r2 with
        | Ok _, Ok _ => timeout_qq WRITE_TIMEOUT (write_encrypt_frame_into ACK key)
        | _, _ => send_failed ROTATE_FAILED key
        end (v_set_fs f2 v) o v') ->
  exec (rotate_key old (vk_to_bytes new) key) v o v'.
Proof.
  intros f Hhome [n Hold] Hr1 Hf1 H. unfold rotate_key.
  estep exec_lift_result; [by rewrite vk_from_to|]. cbv zeta.
  estep (exec_gets h_home). rewrite Hhome.
  estep exec_lift_result; [apply get_authorized_client_dir_eq|].
  estep exec_lift_result; [apply get_storage_dir_eq|].
  rewrite !join_encode by (apply sha512_nonempty || apply sha256_nonempty).
  change (auth_root home ++ [encode (sha256_digest (as_bytes (encode (vk_to_bytes ?k))))])
    with (auth_entry home (vk_to_bytes k)).
  change (storage_root home ++ [encode (sha512_digest (vk_to_bytes ?k))])
    with (user_dir (storage_root home) (vk_to_bytes k)).
  estep exec_gets_fs.
  assert (exists_ f (user_dir (storage_root home) (vk_to_bytes old)) = true) as He.
  { unfold exists_. rewrite lookup_node_nonempty by (by destruct home).
    rewrite Hold. by apply bool_decide_eq_true_2. }
  fold f. rewrite He. cbn [negb].
  eapply (exec_bind _ _ _ (match r1 with Ok _ => Ok tt | Err e => Err e end) (v_set_fs f1 v)).
  { destruct r1 as [g|e]; subst f1.
    - apply exec_try, exec_fs_op. by symmetry.
    - eapply exec_to; [apply exec_try_throw, exec_fs_op_err; by symmetry|].
      unfold v_set_fs, v_set_host, set_fs. by destruct v as [? ? ? ? ? ? ? []]. }
  specialize (H _ eq_refl). destruct (rename f1 _ _) as [g|e] eqn:Er.
  - eapply exec_bind; [apply exec_try, exec_fs_op; exact Er|]. by destruct r1.
  - eapply exec_bind; [apply exec_try_throw, exec_fs_op_err; exact Er|]. by destruct r1.
Qed.

(** The user of [old] is registered and [new] is not in use. *)
Record can_rotate (home : path) (old new : bytes) (f : fs) : Prop := {
  cr_stored : is_Some (f !! user_dir (storage_root home) old);
  cr_fresh : f !! user_dir (storage_root home) new = None;
  cr_authorised : is_Some (f !! auth_entry home old);
  cr_unused : f !! auth_entry home new = None;
}.

(** What a rotation makes of the disk [f]. *)
Record rotated (home : path) (old new : bytes) (f f' : fs) : Prop := {
  ro_files : forall r, f' !! (user_dir (storage_root home) new ++ r) = f !! (user_dir (storage_root home) old ++ r);
  ro_gone : forall r, f' !! (user_dir (storage_root home) old ++ r) = None;
  ro_auth : forall r, f' !! (auth_entry home new ++ r) = f !! (auth_entry home old ++ r);
  ro_auth_gone : forall r, f' !! (auth_entry home old ++ r) = None;
  ro_rest : forall k, ~ under (user_dir (storage_root home) old) k -> ~ under (user_dir (storage_root home) new) k ->
    ~ under (auth_entry home old) k -> ~ under (auth_entry home new) k -> f' !! k = f !! k;
}.

(** The files a rotation leaves do not depend on the packet that asked for it. *)
Lemma exec_rotation cfg home old new h :
  server_files home h -> can_rotate home (vk_to_bytes old) (vk_to_bytes new) (h_fs h) ->
  exists f', rotated home (vk_to_bytes old) (vk_to_bytes new) (h_fs h) f' /\ fs_wf f' /\
    forall key nonce signature pkt rest v,
      zlen key = 32 -> v_shut v = false -> v_host v = h ->
      zlen nonce = 64 -> zlen signature = 64 -> ed_verify_strict old nonce signature = Ok tt ->
      sealed key (auth_packet nonce signature (vk_to_bytes old ++ vk_to_bytes new)) pkt ->
      zlen pkt <= MAX_FRAME_LENGTH ->
      exec (handle_auth_keys cfg 2 key) (v_set_in (frame pkt ++ rest) v) (Done tt)
        (v_reply key ACK (v_set_fs f' (v_set_in rest (v_challenged key v)))).
Proof.
  intros [Hhome Hwf Hra Hrs] [Hod Hnd Hoa Hna].
  destruct (rename_two (h_fs h) (auth_root home) (storage_root home) _ _ _ _ Hwf Hra Hrs
    (fun x r y r' => auth_not_storage_root home x r y r') (fun x r => auth_not_root home x r)
    Hoa Hna Hod Hnd) as (f1 & f2 & Hr1 & Hr2 & Hwf2 & H1 & H2 & H3 & H4 & H5).
  exists f2. split; [|split; [exact Hwf2|]].
  - split; unfold user_dir, auth_entry; intros; rewrite <- ?app_assoc;
      [apply H1|apply H2|apply H3|apply H4|by apply H5].
  - intros key nonce signature pkt rest v Hk Hs <- Hn Hsg Hv Hp Hl.
    eapply (exec_rotate_packet cfg key (v_set_in (frame pkt ++ rest) v) Hk Hs nonce signature _ pkt rest Hn Hsg Hp Hl eq_refl);
      [done|by rewrite vk_len|].
    rewrite validate_signature_ok by done.
    eapply (exec_rotate home); [done|done|by symmetry; exact Hr1|reflexivity|].
    intros r2 ->. cbv beta iota zeta. unfold user_dir. rewrite Hr2.
    apply exec_timeout_or, exec_reply; [done|vm_compute; discriminate|done].
Qed.

(** A rotation signed by the registered old key, to a key that is not in
    use, moves everything: each file of the user is found under the new key's
    directory with its content, nothing is left under the old key's, the
    authorisation moves too, and the rest of the disk is untouched. *)
Theorem rotation_moves_user (cfg : Config) (home : path) (old new : VerifyingKey)
    (key nonce signature pkt rest : bytes) (v : View) :
  let f := h_fs (v_host v) in
  let oldd := user_dir (storage_root home) (vk_to_bytes old) in
  let newd := user_dir (storage_root home) (vk_to_bytes new) in
  let olda := auth_entry home (vk_to_bytes old) in
  let newa := auth_entry home (vk_to_bytes new) in
  zlen key = 32 -> v_shut v = false -> server_files home (v_host v) ->
  is_Some (f !! oldd) -> f !! newd = None -> is_Some (f !! olda) -> f !! newa = None ->
  zlen nonce = 64 -> zlen signature = 64 -> ed_verify_strict old nonce signature = Ok tt ->
  sealed key (auth_packet nonce signature (vk_to_bytes old ++ vk_to_bytes new)) pkt ->
  zlen pkt <= MAX_FRAME_LENGTH -> v_in v = frame pkt ++ rest ->
  exists v', exec (handle_auth_keys cfg 2 key) v (Done tt) v' /\
    let f' := h_fs (v_host v') in
    (forall r, f' !! (newd ++ r) = f !! (oldd ++ r)) /\ (forall r, f' !! (oldd ++ r) = None) /\
    (forall r, f' !! (newa ++ r) = f !! (olda ++ r)) /\ (forall r, f' !! (olda ++ r) = None) /\
    (forall k, ~ under oldd k -> ~ under newd k -> ~ under olda k -> ~ under newa k -> f' !! k = f !! k).
Proof.
  intros f oldd newd olda newa Hk Hs Hf Hod Hnd Hoa Hna Hn Hsg Hv Hp Hl Hin.
  destruct (exec_rotation cfg home old new (v_host v)) as (f' & [] & _ & He); [done..|].
  exists (v_reply key ACK (v_set_fs f' (v_set_in rest (v_challenged key v)))). split; [|by split_and!].
  rewrite <- (v_set_in_same _ _ Hin) at 1. by apply (He key nonce signature pkt rest v).
Qed.

(** (C28) The two renames are not undone together: when the new key already has
    stored files, the client is told that the rotation failed, but its
    authorisation was moved to the new key while its files stay under the old
    one. *)
Theorem failed_rotation_moves_authorisation (cfg : Config) (home : path) (old new : VerifyingKey)
    (key nonce signature pkt rest : bytes) (v : View) (name : string) (n : node) :
  let f := h_fs (v_host v) in
  let oldd := user_dir (storage_root home) (vk_to_bytes old) in
  let newd := user_dir (storage_root home) (vk_to_bytes new) in
  let olda := auth_entry home (vk_to_bytes old) in
  let newa := auth_entry home (vk_to_bytes new) in
  zlen key = 32 -> v_shut v = false -> server_files home (v_host v) -> oldd <> newd ->
  f !! oldd = Some Dir -> f !! newd = Some Dir -> f !! (newd ++ [name]) = Some n ->
  is_Some (f !! olda) -> f !! newa = None ->
  zlen nonce = 64 -> zlen signature = 64 -> ed_verify_strict old nonce signature = Ok tt ->
  sealed key (auth_packet nonce signature (vk_to_bytes old ++ vk_to_bytes new)) pkt ->
  zlen pkt <= MAX_FRAME_LENGTH -> v_in v = frame pkt ++ rest -> fits ROTATE_FAILED ->
  exists f', exec (handle_auth_keys cfg 2 key) v (Done tt)
      (v_failed key ROTATE_FAILED (v_set_fs f' (v_set_in rest (v_challenged key v)))) /\
    f' !! olda = None /\ f' !! newa = f !! olda /\ (forall r, f' !! (oldd ++ r) = f !! (oldd ++ r)).
Proof.
  intros f oldd newd olda newa Hk Hs [Hhome Hwf Hra Hrs] Hne Hod Hnd Hnn Hoa Hna Hn Hsg Hv Hp Hl Hin Hfit.
  pose proof (rename_fresh f (auth_root home) _ _ Hwf Hra Hoa Hna) as Hr1.
  change (auth_root home ++ [auth_name (vk_to_bytes old)]) with olda in Hr1.
  change (auth_root home ++ [auth_name (vk_to_bytes new)]) with newa in Hr1.
  set (f1 := move_subtree f olda newa) in *.
  assert (Hsto : forall k r, f1 !! (user_dir (storage_root home) k ++ r) = f !! (user_dir (storage_root home) k ++ r)).
  { intros k r. unfold user_dir. rewrite <- app_assoc. apply move_other.
    intros. apply auth_not_storage_root. }
  assert (exists e, rename f1 oldd newd = Err e) as [e Hr2].
  { unfold rename. pose proof (Hsto (vk_to_bytes old) []) as H1. pose proof (Hsto (vk_to_bytes new) []) as H2.
    rewrite !app_nil_r in H1, H2. fold oldd in H1. fold newd in H2.
    rewrite (lookup_node_nonempty f1 oldd), (lookup_node_nonempty f1 newd) by (by destruct home).
    rewrite H1, Hod, H2, Hnd.
    rewrite decide_False by done. case_decide; [eauto|]. case_match; [|eauto]. case_match; [eauto|].
    destruct (is_empty_dir f1 newd) eqn:Ee; [|eauto]. exfalso.
    pose proof (is_empty_dir_lookup f1 newd (newd ++ [name]) Ee) as Hlast.
    pose proof (Hsto (vk_to_bytes new) [name]) as Hs3. fold newd in Hs3.
    rewrite Hs3, Hnn in Hlast. discriminate Hlast; [apply under_app|].
    intros E%(f_equal length). rewrite length_app in E. simpl in E. lia. }
  exists f1. split_and!.
  - eapply (exec_rotate_packet cfg key v Hk Hs nonce signature _ pkt rest Hn Hsg Hp Hl Hin); [done|by rewrite vk_len|].
    rewrite validate_signature_ok by done.
    eapply (exec_rotate home); [done|exact (mk_is_Some _ _ Hod)|by symmetry; exact Hr1|reflexivity|].
    intros r2 ->. cbv beta iota zeta. fold oldd newd. rewrite Hr2.
    by apply exec_send_failed.
  - unfold f1. rewrite lookup_move_subtree.
    assert (strip_path newa olda = None) as ->.
    { apply strip_snoc_None. intros E. unfold newa, olda, auth_entry in Hna, Hoa. rewrite E in Hna.
      rewrite Hna in Hoa. by destruct Hoa. }
    rewrite decide_True; [done|apply under_refl].
  - unfold f1. rewrite lookup_move_subtree.
    replace (strip_path newa newa) with (Some (@nil string)).
    + by rewrite app_nil_r.
    + symmetry. apply strip_path_Some. by rewrite app_nil_r.
  - intros r. apply Hsto.
Qed.

(** * Both sides of a registration *)

Context {PCML : PostcardLaws Command}.

(** The packet in which the client at [v] answers [challenge]. *)
Definition registration_packet (csk challenge : bytes) : bytes :=
  auth_packet challenge (ed_sign csk challenge) (vk_to_bytes (verifying_key csk)).

Lemma exec_register_packet cfg home csk challenge key hdr rest v :
  let pk := vk_to_bytes (verifying_key csk) in
  zlen key = 32 -> v_shut v = false -> server_files home (v_host v) -> enable_client_whitelist cfg = true ->
  h_fs (v_host v) !! auth_entry home pk = None ->
  h_fs (v_host v) !! user_dir (storage_root home) pk = None ->
  zlen challenge = 64 -> sealed key (registration_packet csk challenge) hdr -> zlen hdr <= MAX_FRAME_LENGTH ->
  exec (handle_auth_keys cfg 1 key) (v_set_in (frame hdr ++ rest) v) (Done tt)
    (v_reply key ACK (v_set_fs (<[user_dir (storage_root home) pk := Dir]> (<[auth_entry home pk := Dir]> (h_fs (v_host v))))
      (v_set_in rest (v_challenged key v)))).
Proof.
  intros pk Hk Hs Hf Hwl Ha Hst Hch Hh Hhl.
  apply (exec_new_packet cfg key (v_set_in (frame hdr ++ rest) v) Hk Hs _ _ _ hdr rest Hch (ed_sign_len _ _) Hh Hhl eq_refl).
  rewrite (validate_signature_ok (verifying_key csk)) by (apply ed_sign_len || apply ed_verify_strict_sign).
  by apply (exec_register_new cfg home _ key (v_set_in rest (v_challenged key v))).
Qed.

Lemma exec_auth_request csk challenge key reqb c1 c2 rest v :
  zlen key = 32 -> v_shut v = false -> zlen challenge = 64 ->
  serialize (Auth 1) = Ok reqb -> zlen reqb <= U32_MAX ->
  sealed key challenge c1 -> zlen c1 <= MAX_FRAME_LENGTH ->
  sealed key ACK c2 -> zlen c2 <= MAX_FRAME_LENGTH ->
  exec (auth_request csk (verifying_key csk) None key) (v_set_in (frame c1 ++ frame c2 ++ rest) v) (Done tt)
    (v_set_in rest (v_reply key (registration_packet csk challenge)
       (v_set_in (frame c2 ++ rest) (v_reply key reqb v)))).
Proof.
  intros Hk Hs Hch Hreq Hrl Hc1 Hl1 Hc2 Hl2. unfold auth_request.
  estep exec_lift_result; [exact Hreq|]. estep exec_reply; [done|done|done|].
  estep exec_read_encrypt; [reflexivity|done|done|]. cbv zeta.
  eapply exec_bind.
  { change (zeros 160) with (zeros 64 ++ zeros 64 ++ zeros 32).
    estep exec_lift; [apply copy_from_slice_ok; rewrite Hch; reflexivity|].
    estep exec_lift; [apply write_at_front; rewrite Hch; reflexivity|].
    estep exec_lift; [apply write_at_app; [by rewrite Hch|rewrite ed_sign_len; reflexivity]|].
    rewrite app_assoc.
    estep exec_lift; [apply write_at_back; [by rewrite zlen_app, Hch, ed_sign_len|rewrite vk_len; reflexivity]|].
    rewrite <- app_assoc. apply exec_reply; [done| |done].
    rewrite !zlen_app, Hch, ed_sign_len, vk_len. unfold U32_MAX. lia. }
  estep exec_read_encrypt; [reflexivity|done|done|].
  estep exec_lift; [reflexivity|]. cbn match. apply exec_ret.
Qed.

(** The packet in which a client that rotates from [csk] to [new] answers
    [challenge]. *)
Definition rotation_packet (csk new challenge : bytes) : bytes :=
  auth_packet challenge (ed_sign csk challenge) (vk_to_bytes (verifying_key csk) ++ new).

Lemma exec_auth_rotation csk new challenge key reqb c1 c2 rest v :
  zlen key = 32 -> v_shut v = false -> zlen challenge = 64 ->
  serialize (Auth 2) = Ok reqb -> zlen reqb <= U32_MAX ->
  sealed key challenge c1 -> zlen c1 <= MAX_FRAME_LENGTH ->
  sealed key ACK c2 -> zlen c2 <= MAX_FRAME_LENGTH ->
  exec (auth_request csk new (Some (verifying_key csk)) key) (v_set_in (frame c1 ++ frame c2 ++ rest) v) (Done tt)
    (v_set_in rest (v_reply key (rotation_packet csk (vk_to_bytes new) challenge)
       (v_set_in (frame c2 ++ rest) (v_reply key reqb v)))).
Proof.
  intros Hk Hs Hch Hreq Hrl Hc1 Hl1 Hc2 Hl2. unfold auth_request.
  estep exec_lift_result; [exact Hreq|]. estep exec_reply; [done|done|done|].
  estep exec_read_encrypt; [reflexivity|done|done|]. cbv zeta.
  eapply exec_bind.
  { change (zeros 192) with (zeros 64 ++ zeros 64 ++ zeros 32 ++ zeros 32).
    estep exec_lift; [apply copy_from_slice_ok; rewrite Hch; reflexivity|].
    estep exec_lift; [apply write_at_front; rewrite Hch; reflexivity|].
    estep exec_lift; [apply write_at_app; [by rewrite Hch|rewrite ed_sign_len; reflexivity]|].
    rewrite app_assoc.
    estep exec_lift; [apply write_at_app; [by rewrite zlen_app, Hch, ed_sign_len|rewrite vk_len; reflexivity]|].
    rewrite app_assoc.
    estep exec_lift; [apply write_at_back; [by rewrite !zlen_app, Hch, ed_sign_len, vk_len|rewrite vk_len; reflexivity]|].
    rewrite <- !app_assoc. apply exec_reply; [done| |done].
    rewrite !zlen_app, Hch, ed_sign_len, !vk_len. unfold U32_MAX. lia. }
  estep exec_read_encrypt; [reflexivity|done|done|].
  estep exec_lift; [reflexivity|]. cbn match. apply exec_ret.
Qed.

Lemma small_packet key p v : zlen key = 32 -> zlen p <= 1000 ->
  sealed key p (packet key p v) /\ zlen (packet key p v) <= MAX_FRAME_LENGTH.
Proof.
  intros Hk Hp. assert (sealed key p (packet key p v)) as H by (apply packet_sealed; [done|unfold P_MAX; lia]).
  split; [done|]. rewrite (sealed_len _ _ _ H). unfold NONCE_LEN, TAG_LEN, MAX_FRAME_LENGTH. lia.
Qed.

(** The two sides of a registration or of a rotation: the server sends its
    challenge, the client [plain], and the server, which then has the files
    [f2], acknowledges. *)
Lemma exec_auth_pair server client key plain reqb f2 rest_c rest_s vc vs :
  let challenge := sha512_digest (v_random 64 vs) in
  zlen key = 32 -> v_shut vs = false -> zlen plain <= 1000 -> zlen reqb <= U32_MAX ->
  (forall hdr, sealed key plain hdr -> zlen hdr <= MAX_FRAME_LENGTH ->
    exec server (v_set_in (frame hdr ++ rest_s) vs) (Done tt)
      (v_reply key ACK (v_set_fs f2 (v_set_in rest_s (v_challenged key vs))))) ->
  (forall c1 c2, sealed key challenge c1 -> zlen c1 <= MAX_FRAME_LENGTH ->
    sealed key ACK c2 -> zlen c2 <= MAX_FRAME_LENGTH ->
    exec client (v_set_in (frame c1 ++ frame c2 ++ rest_c) vc) (Done tt)
      (v_set_in rest_c (v_reply key plain (v_set_in (frame c2 ++ rest_c) (v_reply key reqb vc))))) ->
  exists req hdr c1 c2 vs' vc',
    exec server (v_set_in (frame hdr ++ rest_s) vs) (Done tt) vs' /\
    exec client (v_set_in (frame c1 ++ frame c2 ++ rest_c) vc) (Done tt) vc' /\
    v_out vs' = v_out vs ++ v_pend vs ++ frame c1 ++ frame c2 /\
    v_out vc' = v_out vc ++ v_pend vc ++ frame req ++ frame hdr /\ sealed key reqb req /\
    v_pend vs' = [] /\ v_shut vs' = false /\ h_fs (v_host vs') = f2 /\ v_host vc' = v_host vc.
Proof.
  intros challenge Hk Hss Hpl Hrl Hserver Hclient.
  set (hdr := packet key plain (v_nonce vc)).
  set (c1 := packet key challenge (v_later 64 vs)).
  set (c2 := packet key ACK (v_set_fs f2 (v_set_in rest_s (v_challenged key vs)))).
  destruct (small_packet key _ (v_nonce vc) Hk Hpl) as [Hh Hhl].
  destruct (small_packet key challenge (v_later 64 vs)) as [Hc1 Hc1l];
    [done|unfold challenge; rewrite sha512_len; lia|].
  destruct (small_packet key ACK (v_set_fs f2 (v_set_in rest_s (v_challenged key vs)))) as [Hc2 Hc2l];
    [done|vm_compute; discriminate|].
  exists (packet key reqb vc), hdr, c1, c2. eexists _, _.
  split; [by apply Hserver|]. split; [by apply Hclient|].
  split_and!; try done; [simpl; by rewrite <- !app_assoc..|].
  apply packet_sealed; [done|]. unfold U32_MAX, P_MAX in *. lia.
Qed.

(** A client that registers through [auth_client] and the server's handler
    run to the end against each other: with the frames of each delivered to the
    other, the client's packet is accepted, its directories are created, and
    the client sees the acknowledgement. *)
Theorem registration_agreement (cfg : Config) (home : path) (csk key reqb rest_c rest_s : bytes) (vc vs : View) :
  let pk := vk_to_bytes (verifying_key csk) in
  zlen key = 32 -> v_shut vs = false -> v_shut vc = false -> server_files home (v_host vs) ->
  enable_client_whitelist cfg = true ->
  h_fs (v_host vs) !! auth_entry home pk = None ->
  h_fs (v_host vs) !! user_dir (storage_root home) pk = None ->
  serialize (Auth 1) = Ok reqb -> zlen reqb <= U32_MAX ->
  exists req hdr c1 c2 vs' vc',
    exec (handle_auth_keys cfg 1 key) (v_set_in (frame hdr ++ rest_s) vs) (Done tt) vs' /\
    exec (auth_request csk (verifying_key csk) None key) (v_set_in (frame c1 ++ frame c2 ++ rest_c) vc) (Done tt) vc' /\
    v_out vs' = v_out vs ++ v_pend vs ++ frame c1 ++ frame c2 /\
    v_out vc' = v_out vc ++ v_pend vc ++ frame req ++ frame hdr /\ sealed key reqb req /\
    is_Some (h_fs (v_host vs') !! user_dir (storage_root home) pk).
Proof.
  intros pk Hk Hss Hsc Hf Hwl Ha Hst Hreq Hrl.
  assert (forall v, zlen (sha512_digest (v_random 64 v)) = 64) as Hch by (intros; apply sha512_len).
  edestruct (exec_auth_pair (handle_auth_keys cfg 1 key) (auth_request csk (verifying_key csk) None key) key
    (registration_packet csk (sha512_digest (v_random 64 vs))) reqb
    (<[user_dir (storage_root home) pk := Dir]> (<[auth_entry home pk := Dir]> (h_fs (v_host vs)))) rest_c rest_s vc vs)
    as (req & hdr & c1 & c2 & vs' & vc' & H1 & H2 & H3 & H4 & H5 & _ & _ & H6 & _); [done|done| |exact Hrl|..].
  - unfold registration_packet, auth_packet. rewrite !zlen_app, Hch, ed_sign_len, vk_len. lia.
  - intros hdr Hh Hhl. by apply (exec_register_packet cfg home csk (sha512_digest (v_random 64 vs))).
  - intros c1 c2 ????. by apply (exec_auth_request csk (sha512_digest (v_random 64 vs)) key reqb c1 c2 rest_c vc).
  - exists req, hdr, c1, c2, vs', vc'. split_and!; try done. rewrite H6, lookup_insert_eq. eauto.
Qed.
End Laws.
End Auth.

(** * A concrete server and client *)
Module AuthWitness.
Import Toy.

Definition home : path := ["home"]%string.
Definition csk : bytes := pad 32 (as_bytes "client").
Definition csk2 : bytes := pad 32 (as_bytes "next client key").
Definition vk : VerifyingKey := verifying_key csk.
Definition vk2 : VerifyingKey := verifying_key csk2.
Definition nonce : bytes := zeros 64.

Lemma fs_wf_ok_or (r : result fs) : (forall f, r = Ok f -> fs_wf f) -> fs_wf (ok_or ∅ r).
Proof.
  intros H. destruct r as [f|e]; [by apply H|]. intros p n Hp. simpl in Hp.
  by apply lookup_empty_Some in Hp.
Qed.

Lemma demo_fs_wf : fs_wf demo_fs.
Proof. intros p n H. unfold demo_fs in H. apply lookup_singleton_Some in H as [<- <-]. done. Qed.

(** What [serve_tcp] creates. *)
Definition server_fs : fs :=
  ok_or ∅ (create_dir_all (ok_or ∅ (create_dir_all demo_fs (auth_root home))) (storage_root home)).
Definition server_view (f : fs) (inp : bytes) : View := v_set_fs f (demo_view inp).

Lemma server_fs_wf : fs_wf server_fs.
Proof.
  apply fs_wf_ok_or. intros f H. eapply create_dir_all_wf; [|exact H].
  apply fs_wf_ok_or. intros f' H'. eapply create_dir_all_wf; [|exact H']. apply demo_fs_wf.
Qed.

(** The same with a registered user who stored a file. *)
Definition user_fs (k : bytes) : fs :=
  ok_or ∅ (write_file (ok_or ∅ (create_dir_all (ok_or ∅ (create_dir_all server_fs (auth_entry home k)))
    (user_dir (storage_root home) k))) (user_dir (storage_root home) k ++ ["x"%string]) [Byte.x07]).

Lemma user_fs_wf k : fs_wf (user_fs k).
Proof.
  apply fs_wf_ok_or. intros f H. eapply write_file_wf; [|exact H].
  apply fs_wf_ok_or. intros f' H'. eapply create_dir_all_wf; [|exact H'].
  apply fs_wf_ok_or. intros f'' H''. eapply create_dir_all_wf; [apply server_fs_wf|exact H''].
Qed.

(** And with files under the second key too. *)
Definition both_fs : fs :=
  ok_or ∅ (write_file (ok_or ∅ (create_dir_all (user_fs (vk_to_bytes vk)) (user_dir (storage_root home) (vk_to_bytes vk2))))
    (user_dir (storage_root home) (vk_to_bytes vk2) ++ ["y"%string]) [Byte.x08]).

Lemma both_fs_wf : fs_wf both_fs.
Proof.
  apply fs_wf_ok_or. intros f H. eapply write_file_wf; [|exact H].
  apply fs_wf_ok_or. intros f' H'. eapply create_dir_all_wf; [apply user_fs_wf|exact H'].
Qed.

Definition packet_of (p : bytes) : bytes := packet demo_key p (demo_view []).

Lemma packet_of_ok p : zlen p <= 1000000 ->
  sealed demo_key p (packet_of p) /\ zlen (packet_of p) <= MAX_FRAME_LENGTH.
Proof.
  intros Hp. assert (sealed demo_key p (packet_of p)) as Hs
    by (apply packet_sealed; [reflexivity|unfold P_MAX; lia]).
  split; [done|]. rewrite (sealed_len _ _ _ Hs). unfold NONCE_LEN, TAG_LEN, MAX_FRAME_LENGTH. lia.
Qed.

Definition reg_packet : bytes := auth_packet nonce (ed_sign csk nonce) (vk_to_bytes vk).
Definition reg_view (f : fs) : View := server_view f (frame (packet_of reg_packet)).

Lemma reg_packet_ok : sealed demo_key reg_packet (packet_of reg_packet) /\
  zlen (packet_of reg_packet) <= MAX_FRAME_LENGTH.
Proof. apply packet_of_ok. vm_compute. discriminate. Qed.

Lemma reg_files inp : server_files home (v_host (server_view server_fs inp)).
Proof. split; [reflexivity|apply server_fs_wf|vm_refl..]. Qed.

Lemma registration_creates_user_witness : exists challenge ack v',
  exec (handle_auth_keys demo_config 1 demo_key) (reg_view server_fs) (Done tt) v' /\
  sealed demo_key (sha512_digest (v_random 64 (reg_view server_fs))) challenge /\ sealed demo_key ACK ack /\
  v_out v' = [] ++ [] ++ frame challenge ++ frame ack /\ v_in v' = [] /\
  h_fs (v_host v') = <[user_dir (storage_root home) (vk_to_bytes vk) := Dir]>
    (<[auth_entry home (vk_to_bytes vk) := Dir]> server_fs).
Proof.
  apply (registration_creates_user demo_config home vk demo_key nonce (ed_sign csk nonce)
    (packet_of reg_packet) [] (reg_view server_fs)).
  1, 2: reflexivity. 1: apply reg_files. 1: reflexivity. 1, 2: vm_refl. 1: reflexivity.
  1: apply ed_sign_len. 1: apply ed_verify_strict_sign. 1, 2: apply reg_packet_ok.
  symmetry. apply app_nil_r.
Defined.

Definition closed_config : Config := {|
  enable_echo := false; enable_client_whitelist := false; max_connections := 256;
  max_file_size := 8589934592; connection_lifetime := 3600;
  server_pri_key_bytes := pad 32 (as_bytes "server");
  server_pub_key_bytes := pad 32 (as_bytes "server") |}.

Lemma whitelist_off_refuses_new_clients_witness :
  exec (handle_auth_keys closed_config 1 demo_key) (reg_view server_fs) (Done tt)
    (v_failed demo_key NOT_AUTHORIZED (v_set_in [] (v_challenged demo_key (reg_view server_fs)))).
Proof.
  apply (whitelist_off_refuses_new_clients closed_config home vk demo_key nonce (ed_sign csk nonce)
    (packet_of reg_packet) [] (reg_view server_fs)).
  1, 2, 3, 4: reflexivity. 1: vm_refl. 1: reflexivity. 1: apply ed_sign_len.
  1: apply ed_verify_strict_sign. 1, 2: apply reg_packet_ok. 1: symmetry; apply app_nil_r.
  eexists. split; [reflexivity|vm_compute; reflexivity].
Defined.

Definition forged_packet : bytes := auth_packet nonce (zeros 64) (vk_to_bytes vk ++ vk_to_bytes vk2).
Definition forged_view : View := server_view (user_fs (vk_to_bytes vk)) (frame (packet_of forged_packet)).
Definition BAD_SIGNATURE : string := "Signature verification failed: signature error".

Lemma forged_packet_ok : sealed demo_key forged_packet (packet_of forged_packet) /\
  zlen (packet_of forged_packet) <= MAX_FRAME_LENGTH.
Proof. apply packet_of_ok. vm_compute. discriminate. Qed.

Lemma unsigned_auth_changes_nothing_witness : exists v',
  exec (handle_auth_keys demo_config 2 demo_key) forged_view (Done tt) v' /\
  v' = v_failed demo_key (invalid_signature BAD_SIGNATURE)
         (v_set_in [] (v_challenged demo_key forged_view)) /\
  v_host v' = v_host forged_view.
Proof.
  apply (unsigned_auth_changes_nothing demo_config 2 demo_key nonce (zeros 64) (vk_to_bytes vk)
    (vk_to_bytes vk2) (packet_of forged_packet) [] BAD_SIGNATURE forged_view).
  1, 2: reflexivity. 1: right; split; reflexivity. 1, 2: reflexivity. 1: vm_refl.
  1, 2: apply forged_packet_ok. 1: symmetry; apply app_nil_r.
  eexists. split; [reflexivity|vm_compute; reflexivity].
Defined.

Lemma short_auth_packet_panics_witness : exists v',
  exec (handle_auth_keys demo_config 1 demo_key) (server_view server_fs (frame (packet_of [Byte.x00]))) Panic v'.
Proof.
  apply (short_auth_packet_panics demo_config 1 demo_key [Byte.x00] (packet_of [Byte.x00]) []).
  1, 2: reflexivity. 1: by left. 1: reflexivity. 1, 2: apply packet_of_ok; vm_compute; discriminate.
  symmetry; apply app_nil_r.
Defined.

Definition rot_packet : bytes := auth_packet nonce (ed_sign csk nonce) (vk_to_bytes vk ++ vk_to_bytes vk2).
Lemma rot_packet_ok : sealed demo_key rot_packet (packet_of rot_packet) /\
  zlen (packet_of rot_packet) <= MAX_FRAME_LENGTH.
Proof. apply packet_of_ok. vm_compute. discriminate. Qed.
Definition rot_view (f : fs) : View := server_view f (frame (packet_of rot_packet)).

Lemma rotation_moves_user_witness : exists v',
  exec (handle_auth_keys demo_config 2 demo_key) (rot_view (user_fs (vk_to_bytes vk))) (Done tt) v' /\
  h_fs (v_host v') !! (user_dir (storage_root home) (vk_to_bytes vk2) ++ ["x"%string]) = Some (File [Byte.x07]).
Proof.
  destruct (rotation_moves_user demo_config home vk vk2 demo_key nonce (ed_sign csk nonce)
    (packet_of rot_packet) [] (rot_view (user_fs (vk_to_bytes vk)))) as (v' & He & H1 & _).
  1, 2: reflexivity. 1: split; [reflexivity|apply user_fs_wf|vm_refl..].
  1: exists Dir; vm_refl. 1: vm_refl. 1: exists Dir; vm_refl. 1: vm_refl. 1: reflexivity.
  1: apply ed_sign_len. 1: apply ed_verify_strict_sign. 1, 2: apply rot_packet_ok.
  1: symmetry; apply app_nil_r.
  exists v'. split; [exact He|]. rewrite (H1 ["x"%string]). vm_refl.
Defined.

Lemma failed_rotation_moves_authorisation_witness : exists f',
  exec (handle_auth_keys demo_config 2 demo_key) (rot_view both_fs) (Done tt)
    (v_failed demo_key ROTATE_FAILED (v_set_fs f' (v_set_in [] (v_challenged demo_key (rot_view both_fs))))) /\
  f' !! auth_entry home (vk_to_bytes vk) = None /\
  f' !! auth_entry home (vk_to_bytes vk2) = both_fs !! auth_entry home (vk_to_bytes vk) /\
  forall r, f' !! (user_dir (storage_root home) (vk_to_bytes vk) ++ r) =
            both_fs !! (user_dir (storage_root home) (vk_to_bytes vk) ++ r).
Proof.
  apply (failed_rotation_moves_authorisation demo_config home vk vk2 demo_key nonce (ed_sign csk nonce)
    (packet_of rot_packet) [] (rot_view both_fs) "y" (File [Byte.x08])).
  1, 2: reflexivity. 1: split; [reflexivity|apply both_fs_wf|vm_refl..].
  1: vm_compute; discriminate. 1, 2, 3: vm_refl. 1: exists Dir; vm_refl. 1: vm_refl. 1: reflexivity.
  1: apply ed_sign_len. 1: apply ed_verify_strict_sign. 1, 2: apply rot_packet_ok.
  1: symmetry; apply app_nil_r. eexists. split; [reflexivity|vm_compute; reflexivity].
Defined.

Definition auth_request_bytes : bytes := ok_or [] (serialize (Auth 1)).

Lemma registration_agreement_witness : exists req hdr c1 c2 vs' vc',
  exec (handle_auth_keys demo_config 1 demo_key) (server_view server_fs (frame hdr ++ [])) (Done tt) vs' /\
  exec (auth_request csk vk None demo_key) (demo_view (frame c1 ++ frame c2 ++ [])) (Done tt) vc' /\
  v_out vs' = [] ++ [] ++ frame c1 ++ frame c2 /\
  v_out vc' = [] ++ [] ++ frame req ++ frame hdr /\ sealed demo_key auth_request_bytes req /\
  is_Some (h_fs (v_host vs') !! user_dir (storage_root home) (vk_to_bytes vk)).
Proof.
  apply (registration_agreement demo_config home csk demo_key auth_request_bytes [] []
    (demo_view []) (server_view server_fs [])).
  1, 2, 3: reflexivity. 1: apply reg_files. 1: reflexivity. 1, 2: vm_refl. 1: reflexivity.
  vm_compute. discriminate.
Defined.
End AuthWitness.
