(* ===== verification/Transfer.v ===== *)
(** src/protocol_v1.rs, [handle_upload] and [handle_download]: the server's
    side of a transfer, with its lock, its files, its hash check and its
    answers. *)
From S2P Require Import Prelude F64 External RateLimit FileSys Locks Lib Users World Exec Crypto Header Sample Stores Net Handshake Auth.

Definition LOCKED_UPLOAD : ErrorHeader := error_header 409 "File is currently locked by another operation".
Definition LOCKED_DOWNLOAD : ErrorHeader := error_header 409 "File is currently being uploaded or modified".
Definition HASH_MISMATCH : ErrorHeader := error_header 406 "File hash mismatch".
Definition FILE_NOT_FOUND : ErrorHeader := error_header 404 "File not found".
Definition META_NOT_FOUND : ErrorHeader := error_header 404 "Metadata File not found".
Definition META_UNREADABLE : ErrorHeader := error_header 500 "Failed to read metadata".

(** * The file lock, from a connection *)

Definition hold_lock (file_id : string) : M nat := fun w =>
  let '(l, t) := hold_file_lock file_id (h_locks (host w)) in (Done l, on_host (set_locks t) w).

(** [try_write] and [try_read]: is the guard taken? *)
Definition lock_write (l : nat) : M bool := fun w =>
  match try_write l (h_locks (host w)) with
  | Some t => (Done true, on_host (set_locks t) w)
  | None => (Done false, w)
  end.
Definition lock_read (l : nat) : M bool := fun w =>
  match try_read l (h_locks (host w)) with
  | Some t => (Done true, on_host (set_locks t) w)
  | None => (Done false, w)
  end.

(** What dropping the guard does. *)
Definition unlock_write (l : nat) (h : Host) : Host := set_locks (drop_write l (h_locks h)) h.
Definition unlock_read (l : nat) (h : Host) : Host := set_locks (drop_read l (h_locks h)) h.
Definition release_lock (file_id : string) (h : Host) : Host :=
  set_locks (release_file_lock file_id (h_locks h)) h.

Definition v_set_locks (t : LockTable) (v : View) : View := v_set_host (set_locks t (v_host v)) v.

#[local] Transparent exec.
Lemma looks_on_host f w v : looks w v -> looks (on_host f w) (v_set_host (f (v_host v)) v).
Proof. intros H. pose proof (lk_host _ _ H) as Hh. destruct H. split; simpl; try done. by rewrite Hh. Qed.

Lemma exec_hold_lock id l t v : hold_file_lock id (h_locks (v_host v)) = (l, t) ->
  exec (hold_lock id) v (Done l) (v_set_locks t v).
Proof.
  intros E w H. pose proof (lk_host _ _ H) as Hh. unfold hold_lock. rewrite Hh, E. eexists. split; [done|].
  by apply looks_on_host.
Qed.

Lemma exec_lock_write l t v : try_write l (h_locks (v_host v)) = Some t ->
  exec (lock_write l) v (Done true) (v_set_locks t v).
Proof.
  intros E w H. pose proof (lk_host _ _ H) as Hh. unfold lock_write. rewrite Hh, E. eexists. split; [done|].
  by apply looks_on_host.
Qed.

Lemma exec_lock_write_busy l v : try_write l (h_locks (v_host v)) = None ->
  exec (lock_write l) v (Done false) v.
Proof. intros E w H. unfold lock_write. rewrite (lk_host _ _ H), E. eauto. Qed.

Lemma exec_lock_read l t v : try_read l (h_locks (v_host v)) = Some t ->
  exec (lock_read l) v (Done true) (v_set_locks t v).
Proof.
  intros E w H. pose proof (lk_host _ _ H) as Hh. unfold lock_read. rewrite Hh, E. eexists. split; [done|].
  by apply looks_on_host.
Qed.
#[local] Opaque exec.

(** Nobody holds a guard on the file [id]: no entry, or an unlocked one. *)
Definition lock_free (id : string) (t : LockTable) : Prop :=
  forall l, lt_map t !! id = Some l -> lock_state t l = unlocked.
(** Somebody holds one. *)
Definition lock_busy (id : string) (t : LockTable) : Prop :=
  exists l, lt_map t !! id = Some l /\ (writer (lock_state t l) = true \/ readers (lock_state t l) <> 0%nat).

(** Taking the lock of a free file, and what dropping it gives back. *)
Lemma hold_free id t : lock_free id t -> exists l t1,
  hold_file_lock id t = (l, t1) /\ lock_state t1 l = unlocked /\
  lt_map t1 = <[id := l]> (lt_map t).
Proof.
  intros Hf. unfold hold_file_lock. destruct (lt_map t !! id) as [l|] eqn:E.
  - exists l, t. split_and!; [done|by apply Hf|by rewrite insert_id].
  - eexists _, _. split_and!; [done| |done]. unfold lock_state. simpl. by rewrite lookup_insert_eq.
Qed.

Lemma try_write_unlocked l t : lock_state t l = unlocked ->
  try_write l t = Some (set_lock l {| readers := 0; writer := true |} t).
Proof. intros H. unfold try_write. by rewrite H. Qed.
Lemma try_read_unlocked l t : lock_state t l = unlocked ->
  try_read l t = Some (set_lock l {| readers := 1; writer := false |} t).
Proof. intros H. unfold try_read. by rewrite H. Qed.

Lemma try_write_busy id t : lock_busy id t -> exists l, hold_file_lock id t = (l, t) /\ try_write l t = None.
Proof.
  intros (l & Hl & Hb). exists l. unfold hold_file_lock, try_write. rewrite Hl. split; [done|].
  destruct (writer _); [done|]. destruct Hb as [|Hb]; [done|].
  by rewrite (proj2 (Nat.eqb_neq _ _) Hb).
Qed.

Lemma unlock_write_free id l t : lt_map t !! id = Some l ->
  lock_free id (drop_write l (set_lock l {| readers := 0; writer := true |} t)).
Proof.
  intros Hl l' Hl'. unfold drop_write in *. simpl in Hl'. assert (l' = l) as -> by congruence.
  unfold lock_state, set_lock. simpl. by rewrite !lookup_insert_eq.
Qed.

Lemma unlock_read_free id l t : lt_map t !! id = Some l ->
  lock_free id (drop_read l (set_lock l {| readers := 1; writer := false |} t)).
Proof.
  intros Hl l' Hl'. unfold drop_read in *. simpl in Hl'. assert (l' = l) as -> by congruence.
  unfold lock_state, set_lock. simpl. by rewrite !lookup_insert_eq.
Qed.

Lemma release_map id t : lt_map (release_file_lock id t) = delete id (lt_map t).
Proof. done. Qed.

(** * Buffered writing of a file: [BufWriter::with_capacity(cap, file)] *)

Definition append (p : path) (bs : bytes) : M unit :=
  modify_host (fun h => set_fs (append_file (h_fs h) p bs) h).

(** [write_all]: returns the new contents of the buffer. *)
Definition buf_write (cap : Z) (p : path) (buf data : bytes) : M bytes :=
  let* buf := (if cap <? zlen buf + zlen data then append p buf ;;; ret [] else ret buf) in
  if cap <=? zlen data then append p data ;;; ret buf
  else ret (buf ++ data).

(** * The names of a stored file *)

Section Names.
Context {HX : Hex} {SH : Sha2}.

Definition user_dir_path (storage_path : path) (client_key : bytes) (file_key : string) : path :=
  join (join storage_path (encode (sha512_digest client_key)))
       (encode (sha256_digest (as_bytes file_key))).
Definition stored_file (dir : path) (file_id ext : string) : path :=
  join dir (encode (sha256_digest (as_bytes file_id)) +:+ ext).
End Names.

Section Transfer.
Context {AG : AesGcm} {HX : Hex} {SH : Sha2}
  {PEH : Postcard ErrorHeader} {PM : Postcard MetadataFile}
  {PUR : Postcard UploadResponse} {PDR : Postcard DownloadResponse}.
(** How many bytes a file read returns at a position: the system's choice. *)
Variable short : Z -> Z.

(** * Receiving chunks: the loop of [handle_upload] and of [download_client] *)

(** Returns the hasher and what is left in the file's buffer. *)
Fixpoint receive_chunks (fuel : nat) (fetch : Z -> M bytes) (session_key : bytes) (file_path : path)
    (file_size received : Z) (hasher : sha256_state) (buf dec_buf : bytes) : M (sha256_state * bytes) :=
  if received <? file_size then
    match fuel with
    | O => hang
    | S fuel =>
      let plain_text := Z.min READ_CHUNK_SIZE (file_size - received) in
      let cipher_text := NONCE_LEN + plain_text + TAG_LEN in
      let* enc_buf := fetch cipher_text in
      let* (dec_buf, dec_len) := lift (decrypt_into enc_buf dec_buf session_key) in
      let* chunk := lift (slice dec_buf 0 dec_len) in
      let hasher := sha256_update hasher chunk in
      let* buf := buf_write (READ_CHUNK_SIZE * 2) file_path buf chunk in
      receive_chunks fuel fetch session_key file_path file_size (received + dec_len) hasher buf dec_buf
    end
  else ret (hasher, buf).

(** How the server reads the [n] bytes of a packet. *)
Definition upload_fetch (n : Z) : M bytes :=
  timeout_or "Upload timed out reading chunk" CHUNK_TIMEOUT (read_exact n).

(** One turn per chunk and one more: see [receive_fuel_enough]. *)
Definition chunk_fuel (file_size : Z) : nat := S (Z.to_nat (file_size / READ_CHUNK_SIZE)).

(** * [handle_upload] *)

(** The end of the body, once the file is received: the hash check. *)
Definition upload_finish (headers : UploadHeader) (file_path metadata_path : path)
    (file_key_hash computed_hash : string) (network_elapsed : f32) (session_key : bytes) : M bool :=
  if negb (String.eqb computed_hash (u_file_hash headers)) then
    let* _ := try_ (fs_op (fun f => remove_file f file_path)) in
    send_failed HASH_MISMATCH session_key ;;;
    ret false
  else
    let metadata := {| m_filename := u_file_name headers; m_file_size := u_file_size headers;
                       m_file_hash := u_file_hash headers; m_file_key_hash := file_key_hash |} in
    fs_op (fun f => save_to_disk f metadata_path metadata) ;;;
    send_success {| ur_file_id := u_file_id headers; ur_file_hash := computed_hash;
                    ur_network_time := network_elapsed |} session_key ;;;
    ret true.

(** What runs while the guard is held; [true] when the guard is dropped by the
    explicit [drop(guard)], [false] on the early return. *)
Definition upload_locked (headers : UploadHeader) (time_start : Z) (storage_path : path)
    (session_key client_key : bytes) : M bool :=
  let file_key_hash := encode (sha256_digest (as_bytes (u_file_key headers))) in
  let dir := user_dir_path storage_path client_key (u_file_key headers) in
  let file_path := stored_file dir (u_file_id headers) ".file" in
  let metadata_path := stored_file dir (u_file_id headers) ".meta" in
  fs_op (fun f => create_dir_all f dir) ;;;
  let* _ := lift (str_prefix (u_file_hash headers) 8) in
  timeout_qq WRITE_TIMEOUT (write_encrypt_frame_into ACK session_key) ;;;
  let* now := instant_now in
  let network_elapsed := as_secs_f32 (duration_since now time_start) in
  fs_op (fun f => create_file f file_path) ;;;
  let* (hasher, buf) := receive_chunks (chunk_fuel (u_file_size headers)) upload_fetch
    session_key file_path (u_file_size headers) 0 sha256_new [] (zeros READ_CHUNK_SIZE) in
  append file_path buf ;;;
  upload_finish headers file_path metadata_path file_key_hash (encode (sha256_finalize hasher))
    network_elapsed session_key.

Definition handle_upload (headers : UploadHeader) (time_start : Z) (storage_path : path)
    (session_key client_key : bytes) : M unit :=
  let file_id := u_file_id headers in
  let* file_lock := hold_lock file_id in
  let* guard := lock_write file_lock in
  if negb guard then send_failed LOCKED_UPLOAD session_key
  else
    let* complete := finally (upload_locked headers time_start storage_path session_key client_key)
                             (on_host (unlock_write file_lock)) in
    if complete then
      modify_host (release_lock file_id) ;;;
      modify_host (fun h => set_tracker (log_upload (u_file_size headers) (h_tracker h)) h)
    else ret tt.

(** * [handle_download] *)

(** The loop that encrypts and writes what each read of the file returned. *)
Fixpoint send_chunks (chunks : list bytes) (send : bytes -> M unit) (session_key enc_buf : bytes) : M unit :=
  match chunks with
  | [] => ret tt
  | chunk :: chunks =>
    let* (enc_buf, enc_len) := encrypt_into chunk enc_buf session_key in
    let* packet := lift (slice enc_buf 0 enc_len) in
    send packet ;;;
    send_chunks chunks send session_key enc_buf
  end.

(** How the server writes a packet. *)
Definition download_send (packet : bytes) : M unit :=
  timeout_or "Download timed out writing chunk" CHUNK_TIMEOUT (write_all packet).

Definition ENC_BUF_LEN : Z := READ_CHUNK_SIZE + NONCE_LEN + TAG_LEN.

(** Returns the file's size when the whole body ran. *)
Definition download_locked (headers : DownloadHeader) (time_start : Z) (storage_path : path)
    (session_key client_key : bytes) : M (option Z) :=
  let dir := user_dir_path storage_path client_key (d_file_key headers) in
  let* dir_exists := gets_fs (fun f => exists_ f dir) in
  if negb dir_exists then send_failed FILE_NOT_FOUND session_key ;;; ret None
  else
    let file_path := stored_file dir (d_file_id headers) ".file" in
    let meta_path := stored_file dir (d_file_id headers) ".meta" in
    let* meta_exists := gets_fs (fun f => exists_ f meta_path) in
    if negb meta_exists then send_failed META_NOT_FOUND session_key ;;; ret None
    else
      let* metadata := gets_fs (fun f => read_from_disk f meta_path) in
      match metadata with
      | Err _ => send_failed META_UNREADABLE session_key ;;; ret None
      | Ok metadata =>
        let* _ := lift (str_prefix (m_file_hash metadata) 8) in
        let* now := instant_now in
        let network_elapsed := as_secs_f32 (duration_since now time_start) in
        let* header := lift_result (serialize
          {| dr_file_name := m_filename metadata; dr_file_size := m_file_size metadata;
             dr_file_hash := m_file_hash metadata; dr_network_time := network_elapsed |}) in
        timeout_qq WRITE_TIMEOUT (write_encrypt_frame_into (byte_of_Z 1 :: header) session_key) ;;;
        let* opened := gets_fs (fun f => read_file f file_path) in
        let* data := lift_result opened in
        send_chunks (reads short READ_CHUNK_SIZE data) download_send
          session_key (zeros ENC_BUF_LEN) ;;;
        flush ;;;
        shutdown ;;;
        ret (Some (m_file_size metadata))
      end.

Definition handle_download (headers : DownloadHeader) (time_start : Z) (storage_path : path)
    (session_key client_key : bytes) : M unit :=
  let file_id := d_file_id headers in
  let* file_lock := hold_lock file_id in
  let* guard := lock_read file_lock in
  if negb guard then send_failed LOCKED_DOWNLOAD session_key
  else
    let* complete := finally (download_locked headers time_start storage_path session_key client_key)
                             (on_host (unlock_read file_lock)) in
    match complete with
    | Some file_size =>
      modify_host (release_lock file_id) ;;;
      modify_host (fun h => set_tracker (log_download file_size (h_tracker h)) h)
    | None => ret tt
    end.

(** * Chunks *)

(** [cs] cuts [rem] bytes the way both loops do: 64 KiB each but the last. *)
Fixpoint chunked (rem : Z) (cs : list bytes) : Prop :=
  match cs with
  | [] => rem = 0
  | c :: cs => 0 < rem /\ zlen c = Z.min READ_CHUNK_SIZE rem /\ chunked (rem - zlen c) cs
  end.

Lemma chunked_concat rem cs : chunked rem cs -> zlen (concat cs) = rem.
Proof.
  revert rem. induction cs as [|c cs IH]; intros rem; simpl; [by intros ->|].
  intros (_ & Hc & H). rewrite zlen_app, (IH _ H). lia.
Qed.

Lemma chunked_length rem cs : chunked rem cs -> (length cs <= chunk_fuel rem)%nat.
Proof.
  unfold chunk_fuel. revert rem. induction cs as [|c cs IH]; intros rem; simpl; [lia|].
  intros (Hr & Hc & H). specialize (IH _ H). unfold READ_CHUNK_SIZE in *.
  destruct (decide (rem < 65536)).
  - assert (rem - zlen c = 0) as E by lia. rewrite E in H. destruct cs as [|d cs]; [simpl; lia|].
    destruct H as [? _]. lia.
  - rewrite Hc, Z.min_l in IH by lia.
    replace (rem / (64 * 1024)) with ((rem - 64 * 1024) / (64 * 1024) + 1).
    + pose proof (Z.div_pos (rem - 64 * 1024) (64 * 1024) ltac:(lia) ltac:(lia)). lia.
    + rewrite <- (Z.div_add _ 1) by lia. f_equal. lia.
Qed.

(** All chunks are full when the size is a multiple. *)
Lemma chunked_full k : forall cs, chunked (Z.of_nat k * READ_CHUNK_SIZE) cs ->
  Forall (fun c => zlen c = READ_CHUNK_SIZE) cs.
Proof.
  unfold READ_CHUNK_SIZE. induction k as [|k IH]; intros [|c cs]; cbn [chunked]; try done; [lia|].
  intros (Hr & Hc & H). unfold READ_CHUNK_SIZE in Hc. rewrite Z.min_l in Hc by lia. constructor; [done|].
  apply IH. rewrite Hc in H.
  replace (Z.of_nat k * (64 * 1024)) with (Z.of_nat (S k) * (64 * 1024) - 64 * 1024) by lia. exact H.
Qed.

Lemma full_chunked (cs : list bytes) : Forall (fun c => zlen c = READ_CHUNK_SIZE) cs -> chunked (zlen (concat cs)) cs.
Proof.
  induction 1 as [|c cs Hc _ IH]; [done|]. cbn [chunked concat]. rewrite zlen_app, Hc.
  pose proof (zlen_nonneg (concat cs)). unfold READ_CHUNK_SIZE. split_and!; [lia|lia|].
  by replace (64 * 1024 + zlen (concat cs) - 64 * 1024) with (zlen (concat cs)) by lia.
Qed.

(** Reads that fill the buffer cut a file that way. *)
Lemma full_read_loop_chunked fuel pos data : (length data <= fuel)%nat -> zlen data < 2 ^ 62 ->
  chunked (zlen data) (read_loop fuel full_reads READ_CHUNK_SIZE pos data).
Proof.
  revert pos data. induction fuel as [|fuel IH]; intros pos data Hf Hb.
  { destruct data; [done|]. simpl in Hf. lia. }
  destruct data as [|b data]; [done|]. cbn [read_loop chunked]. set (d := b :: data) in *.
  assert (1 <= zlen d) as Hd by (unfold d; rewrite zlen_cons; pose proof (zlen_nonneg data); lia).
  assert (read_len full_reads READ_CHUNK_SIZE pos (zlen d) = Z.min READ_CHUNK_SIZE (zlen d)) as ->.
  { unfold read_len, full_reads, READ_CHUNK_SIZE. lia. }
  assert (0 <= Z.min READ_CHUNK_SIZE (zlen d) <= zlen d) as Hm by (unfold READ_CHUNK_SIZE; lia).
  rewrite zlen_ztake by done. split; [lia|]. split; [done|].
  rewrite <- (zlen_zdrop (Z.min READ_CHUNK_SIZE (zlen d)) d) by done. apply IH.
  - assert (zlen (zdrop (Z.min READ_CHUNK_SIZE (zlen d)) d) < zlen d)
      by (rewrite zlen_zdrop by done; unfold READ_CHUNK_SIZE; lia).
    unfold zlen in *. lia.
  - rewrite zlen_zdrop by done. lia.
Qed.

Lemma full_reads_chunked data : zlen data < 2 ^ 62 ->
  chunked (zlen data) (reads full_reads READ_CHUNK_SIZE data).
Proof. intros. by apply full_read_loop_chunked. Qed.

Section Laws.
Context {AGL : AesGcmLaws} {HXL : HexLaws} {SHL : Sha2Laws}.

(** * Writing through the buffer *)

Lemma append_file_eq f p old bs : f !! p = Some (File old) ->
  append_file f p bs = <[p := File (old ++ bs)]> f.
Proof. unfold append_file. by intros ->. Qed.

Lemma exec_append p old bs v : h_fs (v_host v) !! p = Some (File old) ->
  exec (append p bs) v (Done tt) (v_set_fs (<[p := File (old ++ bs)]> (h_fs (v_host v))) v).
Proof.
  intros H. unfold append. eapply exec_to; [apply exec_modify_host|]. cbv beta. by rewrite (append_file_eq _ _ old).
Qed.

Lemma exec_buf_write cap p buf data old v : h_fs (v_host v) !! p = Some (File old) ->
  exists buf' new, exec (buf_write cap p buf data) v (Done buf')
    (v_set_fs (<[p := File new]> (h_fs (v_host v))) v) /\ new ++ buf' = old ++ buf ++ data.
Proof.
  intros Hp. unfold buf_write. destruct (cap <? zlen buf + zlen data) eqn:E1; zbool.
  - set (v1 := v_set_fs (<[p := File (old ++ buf)]> (h_fs (v_host v))) v).
    assert (exec (append p buf ;;; ret (@nil byte)) v (Done []) v1) as H1
      by (estep exec_append; [exact Hp|apply exec_ret]).
    destruct (cap <=? zlen data).
    + exists [], ((old ++ buf) ++ data). split; [|by rewrite app_nil_r, app_assoc].
      eapply exec_bind; [exact H1|]. estep exec_append; [apply lookup_insert_eq|].
      eapply exec_to; [apply exec_ret|]. unfold v_set_fs. simpl. by rewrite insert_insert_eq.
    + exists data, (old ++ buf). split; [|by rewrite app_assoc].
      eapply exec_bind; [exact H1|apply exec_ret].
  - destruct (cap <=? zlen data) eqn:E2; zbool.
    + assert (buf = []) as -> by (apply zlen_0_inv; pose proof (zlen_nonneg buf); lia).
      exists [], (old ++ data). split; [|by rewrite app_nil_r].
      estep exec_ret. estep exec_append; [exact Hp|]. apply exec_ret.
    + exists (buf ++ data), old. split; [|done]. estep exec_ret.
      rewrite insert_id, v_set_fs_same by done. apply exec_ret.
Qed.

(** * The receiving loop *)

(** A way to read a packet: it gets the next bytes when they are there, and
    never returns other bytes than the next ones, as many as asked. *)
Definition fetches (fetch : Z -> M bytes) : Prop :=
  (forall n a b v, v_in v = a ++ b -> zlen a = n -> exec (fetch n) v (Done a) (v_set_in b v)) /\
  (forall n a w w', 0 <= n -> fetch n w = (Done a, w') -> zlen a = n /\ rd (conn w) = a ++ rd (conn w')) /\
  (forall n, keeps same_host (fetch n)).

Lemma upload_fetches : fetches upload_fetch.
Proof.
  split.
  - intros. apply exec_timeout_or. by apply exec_read_exact.
  - split.
    + intros n a w w' Hn (w0 & (b & Hb & -> & Hl)%read_exact_done_inv & ->)%timeout_or_done_inv.
      split; [by apply Hl|exact Hb].
    + intros n. unfold upload_fetch. keeps_auto.
Qed.

Lemma exec_receive fetch (Hfetch : fetches fetch) key p size cs : forall fuel received hasher buf dec_buf old pkts rest v,
  chunked (size - received) cs -> (length cs <= fuel)%nat -> READ_CHUNK_SIZE <= zlen dec_buf ->
  Forall2 (sealed key) cs pkts -> v_in v = concat pkts ++ rest ->
  h_fs (v_host v) !! p = Some (File old) ->
  exists buf' new, exec (receive_chunks fuel fetch key p size received hasher buf dec_buf) v
      (Done (sha256_update hasher (concat cs), buf'))
      (v_set_fs (<[p := File new]> (h_fs (v_host v))) (v_set_in rest v)) /\
    new ++ buf' = old ++ buf ++ concat cs.
Proof.
  induction cs as [|c cs IH]; intros fuel received hasher buf dec_buf old pkts rest v Hc Hf Hd Hall Hin Hp.
  - exists buf, old. inversion Hall; subst. simpl in Hc, Hin. split; [|by rewrite app_nil_r].
    assert ((received <? size) = false) as Hr by (apply Z.ltb_ge; lia).
    replace (v_set_fs _ _) with v.
    + destruct fuel; simpl; rewrite Hr, sha256_update_nil; apply exec_ret.
    + rewrite insert_id by done. rewrite <- Hin. by destruct v as [? ? ? ? ? ? ? []].
  - destruct Hc as (Hr & Hlen & Hc). inversion Hall as [|? pkt ? pkts' Hs Hall']; subst.
    simpl in Hf. destruct fuel as [|fuel]; [lia|].
    pose proof (sealed_len _ _ _ Hs) as Hsl. rewrite Hlen in Hsl. cbn [concat] in Hin.
    rewrite <- app_assoc in Hin.
    destruct (exec_buf_write (READ_CHUNK_SIZE * 2) p buf c old (v_set_in (concat pkts' ++ rest) v) Hp)
      as (buf1 & new1 & Hw & Hcat1).
    set (v1 := v_set_fs (<[p := File new1]> (h_fs (v_host v))) (v_set_in (concat pkts' ++ rest) v)).
    destruct (IH fuel (received + zlen c) (sha256_update hasher c) buf1 (c ++ zdrop (zlen c) dec_buf) new1
      pkts' rest v1) as (buf2 & new2 & He & Hcat2); [| | |done|done|apply lookup_insert_eq|].
    + replace (size - (received + zlen c)) with (size - received - zlen c) by lia. done.
    + lia.
    + rewrite zlen_app, zlen_zdrop; [lia|]. pose proof (zlen_nonneg c). lia.
    + exists buf2, new2. split; [|by rewrite Hcat2, (app_assoc new1), Hcat1, <- !app_assoc].
      cbn [receive_chunks]. rewrite (proj2 (Z.ltb_lt _ _)) by lia. cbv zeta.
      eapply exec_bind; [apply Hfetch; [exact Hin|lia]|].
      estep exec_lift; [eapply decrypt_into_sealed; [exact Hs|lia]|]. cbn match.
      estep exec_lift.
      { exact (slice_at [] c _ 0 (zlen c) eq_refl eq_refl). }
      eapply exec_bind; [exact Hw|]. cbn [concat]. rewrite <- sha256_update_app.
      eapply exec_to; [exact He|]. unfold v1, v_set_fs. simpl. by rewrite insert_insert_eq.
Qed.

Lemma receive_fuel fetch (Hfetch : fetches fetch) key p size f1 : forall f2 received hasher buf dec_buf w,
  size - received <= Z.of_nat f1 * READ_CHUNK_SIZE -> size - received <= Z.of_nat f2 * READ_CHUNK_SIZE ->
  receive_chunks f1 fetch key p size received hasher buf dec_buf w =
  receive_chunks f2 fetch key p size received hasher buf dec_buf w.
Proof.
  induction f1 as [|f1 IH]; intros f2 received hasher buf dec_buf w H1 H2.
  { destruct f2; simpl; rewrite (proj2 (Z.ltb_ge _ _)) by lia; done. }
  destruct f2 as [|f2]; [simpl; rewrite (proj2 (Z.ltb_ge received size)) by lia; done|].
  cbn [receive_chunks]. destruct (received <? size) eqn:Er; [|done]. zbool. cbv zeta. unfold bind at 1 5.
  destruct (fetch _ w) as [[enc|e| |] w1] eqn:E1; try done.
  unfold NONCE_LEN, TAG_LEN, READ_CHUNK_SIZE in *. apply Hfetch in E1 as [Hl _]; [|lia].
  unfold bind at 1 4. unfold lift at 1 3.
  destruct (decrypt_into enc dec_buf key) as [[out n]|e| |] eqn:E2; try done.
  apply decrypt_into_done_inv in E2 as (q & Hq & -> & _). apply sealed_len in Hq.
  unfold NONCE_LEN, TAG_LEN in Hq. unfold bind at 1 3.
  destruct (lift (slice out 0 (zlen q)) w1) as [[c|e| |] w2]; try done.
  unfold bind. destruct (buf_write _ _ _ _ w2) as [[b|e| |] w3]; try done.
  apply IH; lia.
Qed.

(** What the loop has done when it ends, on any input: the data it hashed is
    what is in the file and its buffer, all of the announced size, and nothing
    else on the host has changed. *)
Definition wrote (p : path) (new : bytes) (w w' : World) : Prop :=
  host w' = set_fs (<[p := File new]> (h_fs (host w))) (host w).

Lemma append_inv p old bs w u w' : h_fs (host w) !! p = Some (File old) ->
  append p bs w = (Done u, w') -> wrote p (old ++ bs) w w'.
Proof. intros Hp [= <- <-]. unfold wrote. simpl. by rewrite (append_file_eq _ _ old). Qed.

Lemma wrote_lookup p new w w' : wrote p new w w' -> h_fs (host w') !! p = Some (File new).
Proof. intros ->. apply lookup_insert_eq. Qed.

Lemma wrote_again p new new' w w1 w' : wrote p new w w1 -> wrote p new' w1 w' -> wrote p new' w w'.
Proof. unfold wrote. intros -> ->. simpl. by rewrite insert_insert_eq. Qed.

Lemma wrote_same p old w w' : h_fs (host w) !! p = Some (File old) -> host w' = host w -> wrote p old w w'.
Proof. intros Hp H. unfold wrote. rewrite insert_id by done. rewrite H. by destruct (host w). Qed.

Lemma buf_write_inv cap p buf data old w buf' w' : h_fs (host w) !! p = Some (File old) ->
  buf_write cap p buf data w = (Done buf', w') ->
  exists new, wrote p new w w' /\ new ++ buf' = old ++ buf ++ data.
Proof.
  intros Hp H. unfold buf_write in H. binv H as b1 w1 E1.
  assert (exists new1, wrote p new1 w w1 /\ new1 ++ b1 = old ++ buf) as (new1 & Hw1 & Hc1).
  { destruct (cap <? _).
    - binv E1 as [] w0 E0. apply (append_inv _ old) in E0; [|done]. injection E1 as <- <-.
      exists (old ++ buf). by rewrite app_nil_r.
    - injection E1 as <- <-. exists old. split; [by apply wrote_same|done]. }
  destruct (cap <=? zlen data) eqn:Ed.
  - binv H as [] w2 E2. apply (append_inv _ new1) in E2; [|by eapply wrote_lookup]. injection H as <- <-.
    destruct (cap <? zlen buf + zlen data) eqn:Eb.
    + binv E1 as [] w0 E0. injection E1 as <- <-. exists (new1 ++ data). split; [exact (wrote_again _ _ _ _ _ _ Hw1 E2)|].
      rewrite app_nil_r in *. by rewrite Hc1, <- app_assoc.
    + injection E1 as <- <-. exists (new1 ++ data). split; [exact (wrote_again _ _ _ _ _ _ Hw1 E2)|].
      zbool. assert (buf = []) as -> by (apply zlen_0_inv; pose proof (zlen_nonneg buf); lia).
      rewrite !app_nil_r in *. by rewrite Hc1.
  - injection H as <- <-. exists new1. split; [done|]. by rewrite app_assoc, Hc1, <- app_assoc.
Qed.

Lemma keeps_in_append p bs : keeps same_in (append p bs).
Proof. apply keeps_in_modify_host. Qed.
#[local] Hint Resolve keeps_in_append : rd_keeps.
Lemma keeps_in_buf_write cap p buf data : keeps same_in (buf_write cap p buf data).
Proof. unfold buf_write, append. keeps_auto. Qed.

Lemma receive_inv fetch (Hfetch : fetches fetch) key p size fuel : forall received hasher buf dec_buf old w hasher' buf' w',
  h_fs (host w) !! p = Some (File old) ->
  receive_chunks fuel fetch key p size received hasher buf dec_buf w = (Done (hasher', buf'), w') ->
  exists cs pkts new, Forall2 (sealed key) cs pkts /\ rd (conn w) = concat pkts ++ rd (conn w') /\
    hasher' = sha256_update hasher (concat cs) /\ wrote p new w w' /\
    new ++ buf' = old ++ buf ++ concat cs /\ (received <= size -> zlen (concat cs) = size - received).
Proof.
  induction fuel as [|fuel IH]; intros received hasher buf dec_buf old w hasher' buf' w' Hp H;
    cbn [receive_chunks] in H; destruct (received <? size) eqn:Er; zbool; try done.
  1, 3: injection H as <- <- <-; exists [], [], old; cbn [concat]; rewrite sha256_update_nil, app_nil_r;
    split_and!; [done|done|done|by apply wrote_same|done|intros; rewrite zlen_nil; lia].
  cbv zeta in H. binv H as enc w1 E1. pose proof (keeps_done _ _ _ _ _ (proj2 (proj2 Hfetch) _) E1) as Hh1.
  apply Hfetch in E1 as [Hl Hrd]; [|unfold NONCE_LEN, TAG_LEN, READ_CHUNK_SIZE; lia].
  binv H as [out n] w2 E2. apply lift_done_inv in E2 as [E2 ->].
  apply decrypt_into_done_inv in E2 as (q & Hseal & -> & Hqo & ->). apply sealed_len in Hseal as Hq.
  binv H as c w3 E3. apply lift_done_inv in E3 as [E3 ->].
  pose proof (slice_at [] q (zdrop (zlen q) dec_buf) 0 (zlen q) eq_refl eq_refl) as Hsl.
  simpl app in Hsl. rewrite Hsl in E3. injection E3 as <-.
  binv H as b w4 E4. unfold same_host in Hh1. rewrite <- Hh1 in Hp.
  destruct (buf_write_inv _ _ _ _ _ _ _ _ Hp E4) as (new1 & Hw1 & Hc1).
  pose proof (keeps_done _ _ _ _ _ (keeps_in_buf_write _ _ _ _) E4) as [_ Hrd4].
  destruct (IH _ _ _ _ _ _ _ _ _ (wrote_lookup _ _ _ _ Hw1) H) as (cs & pkts & new & Hcs & Hrd' & -> & Hw & Hc & Hsz).
  exists (q :: cs), (enc :: pkts), new. cbn [concat]. rewrite <- sha256_update_app. split_and!; [by constructor| |done| | |].
  - by rewrite Hrd, <- Hrd4, Hrd', <- app_assoc.
  - eapply wrote_again; [|exact Hw]. unfold wrote in *. by rewrite Hw1, Hh1.
  - rewrite Hc, (app_assoc new1), Hc1, <- !app_assoc. done.
  - rewrite zlen_app. unfold NONCE_LEN, TAG_LEN, READ_CHUNK_SIZE in *. lia.
Qed.

(** (C38) The receiving loop never runs out of turns: [chunk_fuel] turns are
    enough for every file size and every input, because each turn that goes on
    has received a full chunk or the rest of the file. *)
Theorem receive_fuel_enough (key : bytes) (p : path) (size : Z) (hasher : sha256_state)
    (buf dec_buf : bytes) (w : World) (fuel : nat) :
  0 <= size -> (chunk_fuel size <= fuel)%nat ->
  receive_chunks fuel upload_fetch key p size 0 hasher buf dec_buf w =
  receive_chunks (chunk_fuel size) upload_fetch key p size 0 hasher buf dec_buf w.
Proof.
  intros Hs Hf. assert (size <= Z.of_nat (chunk_fuel size) * READ_CHUNK_SIZE).
  { unfold chunk_fuel, READ_CHUNK_SIZE. pose proof (Z.div_pos size (64 * 1024) Hs ltac:(lia)).
    pose proof (Z.mul_succ_div_gt size (64 * 1024) ltac:(lia)). lia. }
  apply receive_fuel; [apply upload_fetches| |lia]. unfold READ_CHUNK_SIZE in *. lia.
Qed.

(** * Paths of a stored file *)

Lemma no_slash_file : no_slash ".file".
Proof. unfold no_slash. simpl. intuition discriminate. Qed.
Lemma no_slash_meta : no_slash ".meta".
Proof. unfold no_slash. simpl. intuition discriminate. Qed.

Definition key_name (file_key : string) : string := encode (sha256_digest (as_bytes file_key)).
Definition id_name (file_id ext : string) : string := encode (sha256_digest (as_bytes file_id)) +:+ ext.

Lemma user_dir_path_eq root ck fk : user_dir_path root ck fk = user_dir root ck ++ [key_name fk].
Proof.
  unfold user_dir_path. by rewrite !join_encode by (apply sha512_nonempty || apply sha256_nonempty).
Qed.

Lemma stored_file_eq dir id ext : no_slash ext -> stored_file dir id ext = dir ++ [id_name id ext].
Proof. intros. unfold stored_file. by rewrite join_encode_ext by (done || apply sha256_nonempty). Qed.

Lemma file_meta_ne dir id : dir ++ [id_name id ".file"] <> dir ++ [id_name id ".meta"].
Proof.
  intros [_ [= H]]%app_inj_tail. unfold id_name in H. induction (encode _) as [|c s IH]; [done|].
  simpl in H. injection H as H. by apply IH.
Qed.

(** * A complete upload *)

Section Upload.
Context (headers : UploadHeader) (time_start : Z) (root : path) (key ck : bytes).
Context (data : bytes) (pkts : list bytes) (cs : list bytes) (rest : bytes) (v : View) (f1 : fs).
Definition up_dir : path := user_dir root ck ++ [key_name (u_file_key headers)].
Definition up_file : path := up_dir ++ [id_name (u_file_id headers) ".file"].
Definition up_meta : path := up_dir ++ [id_name (u_file_id headers) ".meta"].

(** The chunks of [data] came sealed, one after the other, and the directory
    of the file can be used. *)
Record upload_arrives : Prop := {
  ua_key : zlen key = 32;
  ua_shut : v_shut v = false;
  ua_data : concat cs = data;
  ua_chunks : chunked (u_file_size headers) cs;
  ua_sealed : Forall2 (sealed key) cs pkts;
  ua_in : v_in v = concat pkts ++ rest;
  ua_prefix : exists s, str_prefix (u_file_hash headers) 8 = Done s;
  ua_dir : create_dir_all (h_fs (v_host v)) up_dir = Ok f1;
  ua_file : f1 !! up_file <> Some Dir;
}.
Hypothesis Harr : upload_arrives.

(** The view when the file is received. *)
Definition v_received : View :=
  v_set_fs (<[up_file := File data]> f1) (v_set_in rest (v_set_host (tick (v_host v)) (v_reply key ACK v))).
Definition up_elapsed : f32 := as_secs_f32 (duration_since (h_now (tick (v_host v))) time_start).

Lemma up_dir_exists : lookup_node f1 up_dir = Some Dir.
Proof.
  destruct Harr. apply create_dir_all_ok in ua_dir0 as [_ H]. by apply bool_decide_eq_true in H.
Qed.

Lemma tick_host_fs h : h_fs (tick h) = h_fs h /\ h_home (tick h) = h_home h /\ h_locks (tick h) = h_locks h.
Proof. unfold tick. by destruct (h_ticks h). Qed.

Lemma set_fs_tick f h : tick (set_fs f h) = set_fs f (tick h).
Proof. unfold tick. simpl. by destruct (h_ticks h). Qed.

Lemma exec_upload_locked o v' :
  exec (upload_finish headers up_file up_meta (key_name (u_file_key headers))
         (encode (sha256_digest data)) up_elapsed key) v_received o v' ->
  exec (upload_locked headers time_start root key ck) v o v'.
Proof.
  intros H. pose proof up_dir_exists as Hde. destruct Harr as [Hk Hs Hdat Hch Hsl Hin [s8 Hp] Hd Hf].
  unfold upload_locked. cbv zeta.
  rewrite user_dir_path_eq, (stored_file_eq _ _ ".file" no_slash_file), (stored_file_eq _ _ ".meta" no_slash_meta).
  fold up_dir. fold up_file. fold up_meta. fold (key_name (u_file_key headers)).
  estep exec_fs_op; [exact Hd|]. estep exec_lift; [exact Hp|].
  estep exec_timeout_or; [apply exec_reply; [done|vm_compute; discriminate|done]|].
  estep exec_instant_now.
  set (v1 := v_set_host _ (v_reply key ACK _)).
  assert (v1 = v_set_fs f1 (v_set_host (tick (v_host v)) (v_reply key ACK v))) as ->.
  { unfold v1, v_set_fs. simpl. by rewrite set_fs_tick. }
  estep exec_fs_op; [apply create_file_total; [unfold up_file; by destruct up_dir|unfold up_file; by rewrite parent_snoc|exact Hf]|].
  destruct (exec_receive upload_fetch upload_fetches key up_file (u_file_size headers) cs
    (chunk_fuel (u_file_size headers)) 0 sha256_new [] (zeros READ_CHUNK_SIZE) [] pkts rest
    (v_set_fs (<[up_file := File []]> f1) (v_set_host (tick (v_host v)) (v_reply key ACK v))))
    as (buf' & new & Hrun & Hcat); [by rewrite Z.sub_0_r|by apply chunked_length| |done|done|apply lookup_insert_eq|].
  { rewrite zlen_zeros; unfold READ_CHUNK_SIZE; lia. }
  eapply exec_bind; [exact Hrun|]. cbn match. estep exec_append; [apply lookup_insert_eq|].
  rewrite Hcat. simpl app. rewrite Hdat, <- sha256_digest_streaming.
  match goal with |- exec ?m ?va _ _ => replace va with v_received; [|symmetry] end.
  - replace (as_secs_f32 _) with up_elapsed; [exact H|].
    unfold up_elapsed. cbn. by rewrite set_fs_tick.
  - unfold v_received, v_set_fs. simpl. by rewrite !insert_insert_eq.
Qed.

(** Both ends of the body, from the view in which the file is received. *)
Definition up_metadata : MetadataFile :=
  {| m_filename := u_file_name headers; m_file_size := u_file_size headers;
     m_file_hash := u_file_hash headers; m_file_key_hash := key_name (u_file_key headers) |}.
Definition up_response : UploadResponse :=
  {| ur_file_id := u_file_id headers; ur_file_hash := u_file_hash headers; ur_network_time := up_elapsed |}.

Lemma exec_finish_ok b : encode (sha256_digest data) = u_file_hash headers -> f1 !! up_meta <> Some Dir ->
  to_io up_response = Ok b -> zlen b < U32_MAX -> forall `{!PostcardLaws MetadataFile},
  exists mb, to_allocvec up_metadata = Ok mb /\
    exec (upload_finish headers up_file up_meta (key_name (u_file_key headers))
      (encode (sha256_digest data)) up_elapsed key) v_received (Done true)
      (v_success key up_response (v_set_fs (<[up_meta := File mb]> (<[up_file := File data]> f1)) v_received)).
Proof.
  intros Hh Hm Hb Hbl PML. pose proof up_dir_exists as Hde. destruct Harr as [Hk Hs _ _ _ _ _ _ _].
  assert (up_meta <> up_file) as Hne by (intros E; by eapply eq_sym, file_meta_ne in E).
  destruct (save_to_disk_total (<[up_file := File data]> f1) up_meta up_metadata) as (mb & Hmb & Hsave).
  { unfold up_meta. by destruct up_dir. }
  { unfold up_meta. rewrite parent_snoc, lookup_node_insert by (unfold up_file; by destruct up_dir).
    rewrite decide_False; [done|]. unfold up_file. intros E%(f_equal length). rewrite length_app in E. simpl in E. lia. }
  { by rewrite lookup_insert_ne. }
  exists mb. split; [done|]. unfold upload_finish. rewrite Hh, String.eqb_refl. simpl negb. cbv zeta iota.
  estep exec_fs_op; [exact Hsave|].
  eapply exec_bind; [by eapply exec_send_success|]. apply exec_ret.
Qed.

Lemma exec_finish_mismatch : encode (sha256_digest data) <> u_file_hash headers -> fits HASH_MISMATCH ->
  exec (upload_finish headers up_file up_meta (key_name (u_file_key headers))
    (encode (sha256_digest data)) up_elapsed key) v_received (Done false)
    (v_failed key HASH_MISMATCH (v_set_fs (delete up_file f1) v_received)).
Proof.
  intros Hh Hfit. destruct Harr as [Hk Hs _ _ _ _ _ _ _].
  unfold upload_finish. rewrite (proj2 (String.eqb_neq _ _) Hh). simpl negb. cbv iota.
  estep exec_try.
  { apply exec_fs_op. unfold remove_file. rewrite lookup_node_nonempty by (unfold up_file; by destruct up_dir).
    simpl. by rewrite lookup_insert_eq. }
  rewrite delete_insert_eq. eapply exec_bind; [by apply exec_send_failed|]. apply exec_ret.
Qed.
End Upload.

(** * The whole handler *)

(** What [handle_upload] does to the host once the guarded part is over. *)
Definition upload_end (headers : UploadHeader) (complete : bool) (l : nat) (h : Host) : Host :=
  let h := unlock_write l h in
  if complete then
    let h := release_lock (u_file_id headers) h in
    set_tracker (log_upload (u_file_size headers) (h_tracker h)) h
  else h.

Lemma exec_handle_upload headers time_start root key ck v :
  lock_free (u_file_id headers) (h_locks (v_host v)) ->
  exists l t, lt_map t = <[u_file_id headers := l]> (lt_map (h_locks (v_host v))) /\
    lock_free (u_file_id headers) (drop_write l t) /\
    forall complete v', exec (upload_locked headers time_start root key ck) (v_set_locks t v) (Done complete) v' ->
      exec (handle_upload headers time_start root key ck) v (Done tt)
        (v_set_host (upload_end headers complete l (v_host v')) v').
Proof.
  intros (l & t1 & Hhold & Hun & Hmap)%hold_free.
  exists l, (set_lock l {| readers := 0; writer := true |} t1). split_and!; [done| |].
  { apply unlock_write_free. rewrite Hmap. apply lookup_insert_eq. }
  intros complete v' H. unfold handle_upload. cbv zeta.
  estep exec_hold_lock; [exact Hhold|]. estep exec_lock_write; [by apply try_write_unlocked|].
  simpl negb. cbv iota. estep exec_finally; [exact H|]. unfold upload_end. destruct complete.
  - estep exec_modify_host. eapply exec_to; [apply exec_modify_host|done].
  - apply exec_ret.
Qed.

Lemma upload_arrives_locks headers root key ck data pkts cs rest v f1 t :
  upload_arrives headers root key ck data pkts cs rest v f1 ->
  upload_arrives headers root key ck data pkts cs rest (v_set_locks t v) f1.
Proof. by intros []. Qed.

Lemma tick_clock h : exists now ticks, tick h = set_clock now ticks h.
Proof. unfold tick. destruct (h_ticks h) eqn:E; [|eauto]. exists (h_now h), []. rewrite <- E. by destruct h. Qed.

Lemma up_elapsed_locks time_start t v : up_elapsed time_start (v_set_locks t v) = up_elapsed time_start v.
Proof. unfold up_elapsed, tick. simpl. by destruct (h_ticks (v_host v)). Qed.

(** What a reply that closes the connection leaves on the wire. *)
Lemma v_close_reply_out key d v : v_out (v_close (v_reply key d v)) = v_out v ++ v_pend v ++ frame (packet key d v).
Proof. unfold v_close, v_reply, v_sent. simpl. by rewrite app_nil_r. Qed.

(** What a complete upload leaves: [f1] is the tree with the file's directory. *)
Record upload_stored (headers : UploadHeader) (root : path) (ck data : bytes) (f1 : fs) (h h' : Host) : Prop := {
  us_file : h_fs h' !! up_file headers root ck = Some (File data);
  us_meta : read_from_disk (h_fs h') (up_meta headers root ck) = Ok (up_metadata headers);
  us_rest : forall p, p <> up_file headers root ck -> p <> up_meta headers root ck -> h_fs h' !! p = f1 !! p;
  us_lock : lt_map (h_locks h') = delete (u_file_id headers) (lt_map (h_locks h));
  us_tracker : h_tracker h' = log_upload (u_file_size headers) (h_tracker h);
}.

Lemma exec_upload_stores `{!PostcardLaws MetadataFile} headers time_start root key ck data pkts cs rest b v f1 :
  upload_arrives headers root key ck data pkts cs rest v f1 ->
  lock_free (u_file_id headers) (h_locks (v_host v)) ->
  encode (sha256_digest data) = u_file_hash headers ->
  f1 !! up_meta headers root ck <> Some Dir ->
  to_io (up_response headers time_start v) = Ok b -> zlen b < U32_MAX ->
  exists v', exec (handle_upload headers time_start root key ck) v (Done tt) v' /\
    v_out v' = v_out v ++ v_pend v ++ frame (packet key ACK v) ++ frame (packet key (byte_of_Z 1 :: b) (v_nonce v)) /\
    v_pend v' = [] /\ v_shut v' = true /\ v_in v' = rest /\ upload_stored headers root ck data f1 (v_host v) (v_host v').
Proof.
  intros Harr Hfree Hh Hm Hb Hbl. pose proof (ua_key _ _ _ _ _ _ _ _ _ _ Harr) as Hk.
  destruct (exec_handle_upload headers time_start root key ck v Hfree) as (l & t & Hmap & _ & Hrun).
  apply (upload_arrives_locks _ _ _ _ _ _ _ _ _ _ t) in Harr.
  assert (to_io (up_response headers time_start (v_set_locks t v)) = Ok b) as Hb'
    by (unfold up_response; by rewrite up_elapsed_locks).
  destruct (exec_finish_ok _ time_start _ _ _ _ _ _ _ _ _ Harr b Hh Hm Hb' Hbl) as (mb & Hmb & Hfin).
  apply (exec_upload_locked _ time_start _ _ _ _ _ _ _ _ _ Harr), Hrun in Hfin.
  destruct (tick_clock (set_locks t (v_host v))) as (now & ticks & Ht).
  unfold v_success, v_received in Hfin. rewrite Hb' in Hfin. cbn [v_set_locks v_host v_set_host] in Hfin.
  rewrite Ht in Hfin. eexists. split; [exact Hfin|]. split; [|split_and!; try done; split].
  - cbn [v_out v_set_host]. rewrite v_close_reply_out. unfold v_reply at 1 2, v_sent. simpl. by rewrite <- !app_assoc.
  - simpl. rewrite lookup_insert_ne by (intros E; by eapply eq_sym, file_meta_ne in E). by rewrite lookup_insert_eq.
  - unfold read_from_disk, read_file. simpl.
    rewrite lookup_node_nonempty, lookup_insert_eq by (unfold up_meta; by destruct up_dir).
    by apply from_to_allocvec.
  - intros p Hp1 Hp2. simpl. by rewrite !lookup_insert_ne.
  - simpl. by rewrite Hmap, delete_insert_eq.
  - done.
Qed.

(** (C6) A complete upload. Nobody holds the file's
    lock, the chunks of the announced size arrive sealed, and their hash is
    the announced one. Then the handler stores exactly the data and its
    metadata, touches no other path than those two and the directories above
    them, answers with an acknowledgement and the success response, closes,
    drops the lock with its table entry, and counts the bytes. *)
Theorem upload_stores_file `{!PostcardLaws MetadataFile} (headers : UploadHeader) (time_start : Z)
    (root : path) (key ck data : bytes) (pkts cs : list bytes) (rest b : bytes) (v : View) (f1 : fs) :
  upload_arrives headers root key ck data pkts cs rest v f1 ->
  lock_free (u_file_id headers) (h_locks (v_host v)) ->
  encode (sha256_digest data) = u_file_hash headers ->
  f1 !! up_meta headers root ck <> Some Dir ->
  to_io (up_response headers time_start v) = Ok b -> zlen b < U32_MAX ->
  exists ack answer v', exec (handle_upload headers time_start root key ck) v (Done tt) v' /\
    sealed key ACK ack /\ sealed key (byte_of_Z 1 :: b) answer /\
    v_out v' = v_out v ++ v_pend v ++ frame ack ++ frame answer /\ v_shut v' = true /\ v_in v' = rest /\
    upload_stored headers root ck data f1 (v_host v) (v_host v').
Proof.
  intros Harr Hfree Hh Hm Hb Hbl. pose proof (ua_key _ _ _ _ _ _ _ _ _ _ Harr) as Hk.
  edestruct exec_upload_stores as (v' & H & Ho & _ & Hs & Hi & Hst); [exact Harr|done|done|done|exact Hb|done|].
  eexists _, _, v'. split; [exact H|]. split; [by apply (packet_sealed key ACK)|].
  split; [|by rewrite Ho]. apply packet_sealed; [done|]. rewrite zlen_cons. unfold U32_MAX, P_MAX in *. lia.
Qed.

(** (C40) The hash the client announced is wrong: the received file is removed,
    and with it the file of that name stored before, if any; a metadata file
    of an earlier upload stays, so that it now describes a file that is not
    there. The answer is the 406 error, nothing is counted and the lock is
    free again, its table entry left in place. *)
Theorem wrong_hash_removes_file (headers : UploadHeader) (time_start : Z)
    (root : path) (key ck data : bytes) (pkts cs : list bytes) (rest b : bytes) (v : View) (f1 : fs) :
  upload_arrives headers root key ck data pkts cs rest v f1 ->
  lock_free (u_file_id headers) (h_locks (v_host v)) ->
  encode (sha256_digest data) <> u_file_hash headers ->
  serialize HASH_MISMATCH = Ok b -> zlen b < U32_MAX ->
  exists ack answer v', exec (handle_upload headers time_start root key ck) v (Done tt) v' /\
    sealed key ACK ack /\ sealed key (byte_of_Z 3 :: b) answer /\
    v_out v' = v_out v ++ v_pend v ++ frame ack ++ frame answer /\ v_shut v' = true /\
    h_fs (v_host v') = delete (up_file headers root ck) f1 /\
    lock_free (u_file_id headers) (h_locks (v_host v')) /\
    is_Some (lt_map (h_locks (v_host v')) !! u_file_id headers) /\
    h_tracker (v_host v') = h_tracker (v_host v).
Proof.
  intros Harr Hfree Hh Hb Hbl. pose proof (ua_key _ _ _ _ _ _ _ _ _ _ Harr) as Hk.
  destruct (exec_handle_upload headers time_start root key ck v Hfree) as (l & t & Hmap & Hdrop & Hrun).
  apply (upload_arrives_locks _ _ _ _ _ _ _ _ _ _ t) in Harr.
  pose proof (exec_finish_mismatch _ time_start _ _ _ _ _ _ _ _ _ Harr Hh (ex_intro _ b (conj Hb Hbl))) as Hfin.
  apply (exec_upload_locked _ time_start _ _ _ _ _ _ _ _ _ Harr), Hrun in Hfin.
  destruct (tick_clock (set_locks t (v_host v))) as (now & ticks & Ht).
  unfold v_failed, v_received in Hfin. rewrite Hb in Hfin. cbn [v_set_locks v_host v_set_host] in Hfin.
  rewrite Ht in Hfin. eexists _, _, _. split; [exact Hfin|].
  split; [by apply (packet_sealed key ACK)|]. split; [apply packet_sealed; [done|]|].
  { rewrite zlen_cons. unfold U32_MAX, P_MAX in *. lia. }
  split; [|split_and!]; try done.
  - cbn [v_out v_set_host]. rewrite v_close_reply_out. unfold v_reply at 1 2, v_sent. simpl. by rewrite <- !app_assoc.
  - simpl. rewrite Hmap, lookup_insert_eq. eauto.
Qed.

(** A busy file: the client is told so with a 409 at once, and the only
    trace on the server is that answer: the file system, the lock table and the
    counters are left as they were. *)
Theorem busy_upload_refused (headers : UploadHeader) (time_start : Z) (root : path) (key ck b : bytes) (v : View) :
  zlen key = 32 -> v_shut v = false -> lock_busy (u_file_id headers) (h_locks (v_host v)) ->
  serialize LOCKED_UPLOAD = Ok b -> zlen b < U32_MAX ->
  exists answer v', exec (handle_upload headers time_start root key ck) v (Done tt) v' /\
    sealed key (byte_of_Z 3 :: b) answer /\ v_out v' = v_out v ++ v_pend v ++ frame answer /\
    v_shut v' = true /\ v_in v' = v_in v /\ v_host v' = v_host v.
Proof.
  intros Hk Hs (l & Hhold & Htry)%try_write_busy Hb Hbl. eexists _, _. split; [|split; [|split]].
  - unfold handle_upload. cbv zeta. estep exec_hold_lock; [exact Hhold|].
    replace (v_set_locks _ v) with v by (by destruct v as [? ? ? ? ? ? ? []]).
    estep exec_lock_write_busy; [exact Htry|]. simpl negb. cbv iota.
    eapply exec_to; [apply exec_send_failed; [done|done|by exists b]|]. unfold v_failed. by rewrite Hb.
  - apply packet_sealed; [done|]. rewrite zlen_cons. unfold U32_MAX, P_MAX in *. lia.
  - apply v_close_reply_out.
  - done.
Qed.

(** * Sending chunks *)

(** A way to write a packet, when nothing is in the way. *)
Definition sends (send : bytes -> M unit) : Prop := forall p v, v_shut v = false ->
  exec (send p) v (Done tt) (v_set_wr (v_pend v ++ p) (v_out v) false v).

Lemma download_sends : sends download_send.
Proof. intros p v Hs. apply exec_timeout_or. by apply exec_write_all. Qed.

(** The packets of successive encryptions. *)
Fixpoint packets (key : bytes) (cs : list bytes) (v : View) : list bytes :=
  match cs with [] => [] | c :: cs => packet key c v :: packets key cs (v_nonce v) end.

Lemma packets_ext key cs : forall v v', v_tape v = v_tape v' -> v_pos v = v_pos v' ->
  packets key cs v = packets key cs v'.
Proof.
  induction cs as [|c cs IH]; intros v v' Ht Hp; [done|]. cbn [packets]. f_equal.
  - unfold packet, v_random. by rewrite Ht, Hp.
  - apply IH; [done|]. simpl. by rewrite Hp.
Qed.

Lemma packets_sealed key cs : forall v, zlen key = 32 -> Forall (fun c => zlen c = READ_CHUNK_SIZE) cs ->
  Forall2 (sealed key) cs (packets key cs v).
Proof.
  induction cs as [|c cs IH]; intros v Hk Hall; [constructor|].
  inversion Hall as [|? ? Hc Hall']; subst. constructor; [|by apply IH].
  apply packet_sealed; [done|]. rewrite Hc. vm_compute. discriminate.
Qed.

(** The packets of the chunks are in the writer's buffer and nothing else
    changed but the position in the generator. *)
Lemma exec_send_chunks send key (Hsend : sends send) chunks : forall enc_buf v,
  zlen key = 32 -> v_shut v = false -> Forall (fun c => zlen c = READ_CHUNK_SIZE) chunks ->
  zlen enc_buf = ENC_BUF_LEN ->
  exists pos, exec (send_chunks chunks send key enc_buf) v (Done tt)
      (v_set_wr (v_pend v ++ concat (packets key chunks v)) (v_out v) false (v_set_pos pos v)).
Proof.
  induction chunks as [|c chunks IH]; intros enc_buf v Hk Hs Hall Hb.
  - exists (v_pos v). simpl. rewrite app_nil_r. eapply exec_to; [apply exec_ret|].
    destruct v; simpl in *; by subst.
  - inversion Hall as [|? ? Hc Hall']; subst.
    assert (zlen c <= P_MAX) as Hcp by (rewrite Hc; vm_compute; discriminate).
    pose proof (packet_sealed key c v Hk Hcp) as Hsl. pose proof (sealed_len _ _ _ Hsl) as Hpl.
    set (v1 := v_set_wr (v_pend v ++ packet key c v) (v_out v) false (v_nonce v)).
    destruct (IH (packet key c v) v1 Hk eq_refl Hall') as (pos & He).
    { rewrite Hpl, Hc. unfold ENC_BUF_LEN. lia. }
    exists pos. cbn [send_chunks packets concat]. eapply exec_bind.
    { apply exec_encrypt_into; [rewrite Hb, Hc; unfold ENC_BUF_LEN; lia|by apply seal_packet]. }
    cbn match. estep exec_lift.
    { pose proof (slice_at [] (packet key c v) [] 0 (zlen (packet key c v)) eq_refl eq_refl) as E.
      rewrite app_nil_r in E. exact E. }
    estep Hsend; [done|].
    eapply exec_to; [exact He|]. rewrite (packets_ext key chunks v1 (v_nonce v)) by done.
    unfold v1, v_set_wr, v_set_pos. simpl. by rewrite <- app_assoc.
Qed.

(** A read that did not fill the buffer: the packet's buffer is too long. *)
Lemma exec_send_chunks_panic send key (Hsend : sends send) chunks : forall enc_buf v,
  zlen key = 32 -> v_shut v = false -> Forall (fun c => 1 <= zlen c <= READ_CHUNK_SIZE) chunks ->
  ~ Forall (fun c => zlen c = READ_CHUNK_SIZE) chunks -> zlen enc_buf = ENC_BUF_LEN ->
  exists v', exec (send_chunks chunks send key enc_buf) v Panic v'.
Proof.
  induction chunks as [|c chunks IH]; intros enc_buf v Hk Hs Hall Hn Hb; [by destruct Hn|].
  inversion Hall as [|? ? Hc Hall']; subst. unfold READ_CHUNK_SIZE in Hc.
  assert (zlen c <= P_MAX) as Hcp by (unfold P_MAX; lia). cbn [send_chunks].
  destruct (decide (zlen c = READ_CHUNK_SIZE)) as [E|E].
  - pose proof (packet_sealed key c v Hk Hcp) as Hsl. pose proof (sealed_len _ _ _ Hsl) as Hpl.
    edestruct (IH (packet key c v) (v_set_wr (v_pend v ++ packet key c v) (v_out v) false (v_nonce v)))
      as [v' He]; [done|done|done|by intros H; apply Hn; constructor| |].
    { rewrite Hpl, E. unfold ENC_BUF_LEN. lia. }
    exists v'. eapply exec_bind.
    { apply exec_encrypt_into; [rewrite Hb, E; unfold ENC_BUF_LEN; lia|by apply seal_packet]. }
    cbn match. estep exec_lift.
    { pose proof (slice_at [] (packet key c v) [] 0 (zlen (packet key c v)) eq_refl eq_refl) as E'.
      rewrite app_nil_r in E'. exact E'. }
    estep Hsend; [done|]. exact He.
  - eexists. apply exec_bind_panic. eapply exec_encrypt_into_long; [|by apply seal_packet].
    rewrite Hb. unfold ENC_BUF_LEN, READ_CHUNK_SIZE, NONCE_LEN, TAG_LEN in *. lia.
Qed.

(** * Downloads *)

Definition down_file (headers : DownloadHeader) (root : path) (ck : bytes) : path :=
  user_dir root ck ++ [key_name (d_file_key headers)] ++ [id_name (d_file_id headers) ".file"].
Definition down_meta (headers : DownloadHeader) (root : path) (ck : bytes) : path :=
  user_dir root ck ++ [key_name (d_file_key headers)] ++ [id_name (d_file_id headers) ".meta"].
Definition down_response (m : MetadataFile) (time_start : Z) (v : View) : DownloadResponse :=
  {| dr_file_name := m_filename m; dr_file_size := m_file_size m; dr_file_hash := m_file_hash m;
     dr_network_time := up_elapsed time_start v |}.

(** What a download needs of the client's directory: the data and its metadata. *)
Record stored_at (f : fs) (headers : DownloadHeader) (root : path) (ck : bytes)
    (m : MetadataFile) (data : bytes) : Prop := {
  sa_wf : fs_wf f;
  sa_meta : read_from_disk f (down_meta headers root ck) = Ok m;
  sa_file : f !! down_file headers root ck = Some (File data);
  sa_hash : exists s, str_prefix (m_file_hash m) 8 = Done s;
}.

Lemma stored_at_exists f headers root ck m data : stored_at f headers root ck m data ->
  exists_ f (user_dir root ck ++ [key_name (d_file_key headers)]) = true /\
  exists_ f (down_meta headers root ck) = true.
Proof.
  intros [Hwf Hm Hf _]. unfold exists_. split; apply bool_decide_eq_true_2.
  - apply Hwf in Hf as [_ Hp]. unfold down_file in Hp. rewrite app_assoc, parent_snoc in Hp. eauto.
  - unfold read_from_disk, read_file in Hm. destruct (lookup_node _ _); [eauto|done].
Qed.

(** What [handle_download] does to the host once the guarded part is over. *)
Definition download_end (headers : DownloadHeader) (complete : option Z) (l : nat) (h : Host) : Host :=
  let h := unlock_read l h in
  match complete with
  | Some file_size =>
    let h := release_lock (d_file_id headers) h in
    set_tracker (log_download file_size (h_tracker h)) h
  | None => h
  end.

Lemma exec_handle_download headers time_start root key ck v :
  lock_free (d_file_id headers) (h_locks (v_host v)) ->
  exists l t, lt_map t = <[d_file_id headers := l]> (lt_map (h_locks (v_host v))) /\
    lock_free (d_file_id headers) (drop_read l t) /\
    (forall complete v', exec (download_locked headers time_start root key ck) (v_set_locks t v) (Done complete) v' ->
      exec (handle_download headers time_start root key ck) v (Done tt)
        (v_set_host (download_end headers complete l (v_host v')) v')) /\
    (forall v', exec (download_locked headers time_start root key ck) (v_set_locks t v) Panic v' ->
      exec (handle_download headers time_start root key ck) v Panic (v_set_host (unlock_read l (v_host v')) v')).
Proof.
  intros (l & t1 & Hhold & Hun & Hmap)%hold_free.
  exists l, (set_lock l {| readers := 1; writer := false |} t1). split_and!; [done| | |].
  { apply unlock_read_free. rewrite Hmap. apply lookup_insert_eq. }
  - intros complete v' H. unfold handle_download. cbv zeta.
    estep exec_hold_lock; [exact Hhold|]. estep exec_lock_read; [by apply try_read_unlocked|].
    simpl negb. cbv iota. estep exec_finally; [exact H|]. unfold download_end. destruct complete.
    + estep exec_modify_host. eapply exec_to; [apply exec_modify_host|done].
    + apply exec_ret.
  - intros v' H. unfold handle_download. cbv zeta.
    estep exec_hold_lock; [exact Hhold|]. estep exec_lock_read; [by apply try_read_unlocked|].
    simpl negb. cbv iota. apply exec_bind_panic. by apply exec_finally.
Qed.

(** The body up to the file itself. *)
Lemma exec_download_header headers time_start root key ck m data b o v v' :
  zlen key = 32 -> v_shut v = false -> stored_at (h_fs (v_host v)) headers root ck m data ->
  serialize (down_response m time_start v) = Ok b -> zlen b < U32_MAX ->
  exec (send_chunks (reads short READ_CHUNK_SIZE data) download_send key (zeros ENC_BUF_LEN) ;;;
        flush ;;; shutdown ;;; ret (Some (m_file_size m)))
    (v_reply key (byte_of_Z 1 :: b) (v_set_host (tick (v_host v)) v)) o v' ->
  exec (download_locked headers time_start root key ck) v o v'.
Proof.
  intros Hk Hs Hst Hb Hbl H. destruct (stored_at_exists _ _ _ _ _ _ Hst) as [Hd Hme].
  destruct Hst as [_ Hm Hf [s8 Hs8]]. unfold download_locked. cbv zeta.
  rewrite user_dir_path_eq, (stored_file_eq _ _ ".file" no_slash_file), (stored_file_eq _ _ ".meta" no_slash_meta).
  rewrite <- !app_assoc. fold (down_file headers root ck). fold (down_meta headers root ck).
  estep exec_gets_fs. rewrite Hd. simpl negb. cbv iota.
  estep exec_gets_fs. rewrite Hme. simpl negb. cbv iota.
  estep exec_gets_fs. rewrite Hm. cbv iota beta.
  estep exec_lift; [exact Hs8|]. estep exec_instant_now.
  estep exec_lift_result; [exact Hb|].
  estep exec_timeout_or; [apply exec_reply; [done|solve_len|done]|].
  estep exec_gets_fs. unfold read_file.
  replace (h_fs _) with (h_fs (v_host v)) by (destruct (tick_clock (v_host v)) as (? & ? & E); by rewrite E).
  rewrite lookup_node_nonempty, Hf by (unfold down_file; by destruct (user_dir root ck)).
  estep exec_lift_result; [done|]. exact H.
Qed.

Lemma down_response_locks m time_start t v : down_response m time_start (v_set_locks t v) = down_response m time_start v.
Proof. unfold down_response. by rewrite up_elapsed_locks. Qed.

Lemma zlen_full_chunks (cs : list bytes) : Forall (fun c => zlen c = READ_CHUNK_SIZE) cs ->
  zlen (concat cs) = Z.of_nat (length cs) * READ_CHUNK_SIZE.
Proof.
  induction 1 as [|c cs Hc _ IH]; [done|]. cbn [concat length]. rewrite zlen_app, IH, Hc. lia.
Qed.

(** The file is made of whole chunks: every read of it fills the chunk buffer.
    Its size is then a multiple of 64 KiB ([reads_unaligned]); when no read is
    short that is enough ([full_reads_chunked]). *)
Definition whole_chunks (data : bytes) : Prop :=
  Forall (fun c => zlen c = READ_CHUNK_SIZE) (reads short READ_CHUNK_SIZE data).

Lemma reads_unaligned data : zlen data mod READ_CHUNK_SIZE <> 0 ->
  ~ Forall (fun c => zlen c = READ_CHUNK_SIZE) (reads short READ_CHUNK_SIZE data).
Proof.
  intros Hmod Hall%zlen_full_chunks. apply Hmod. rewrite reads_concat in Hall by done.
  rewrite Hall. apply Z.mod_mul. unfold READ_CHUNK_SIZE. lia.
Qed.

Lemma exec_download_streams headers time_start root key ck data b m v :
  zlen key = 32 -> v_shut v = false -> stored_at (h_fs (v_host v)) headers root ck m data ->
  lock_free (d_file_id headers) (h_locks (v_host v)) ->
  serialize (down_response m time_start v) = Ok b -> zlen b < U32_MAX ->
  Forall (fun c => zlen c = READ_CHUNK_SIZE) (reads short READ_CHUNK_SIZE data) ->
  exists v', exec (handle_download headers time_start root key ck) v (Done tt) v' /\
    v_out v' = v_out v ++ v_pend v ++ frame (packet key (byte_of_Z 1 :: b) v) ++
      concat (packets key (reads short READ_CHUNK_SIZE data) (v_nonce v)) /\ v_pend v' = [] /\ v_shut v' = true /\
    h_fs (v_host v') = h_fs (v_host v) /\
    lt_map (h_locks (v_host v')) = delete (d_file_id headers) (lt_map (h_locks (v_host v))) /\
    h_tracker (v_host v') = log_download (m_file_size m) (h_tracker (v_host v)).
Proof.
  intros Hk Hs Hst Hfree Hb Hbl Hfull.
  destruct (exec_handle_download headers time_start root key ck v Hfree) as (l & t & Hmap & _ & Hrun & _).
  set (v1 := v_set_locks t v) in *. set (v2 := v_reply key (byte_of_Z 1 :: b) (v_set_host (tick (v_host v1)) v1)).
  destruct (exec_send_chunks download_send key download_sends _ (zeros ENC_BUF_LEN) v2 Hk Hs Hfull)
    as (pos & Hsend); [by rewrite zlen_zeros|].
  assert (serialize (down_response m time_start v1) = Ok b) as Hb' by (unfold v1; by rewrite down_response_locks).
  eexists. split.
  { eapply Hrun, exec_download_header; [done|done|exact Hst|exact Hb'|done|]. fold v1 v2.
    eapply exec_bind; [exact Hsend|]. estep exec_flush. estep exec_shutdown. apply exec_ret. }
  destruct (tick_clock (v_host v1)) as (now & ticks & Ht). rewrite (packets_ext key _ v2 (v_nonce v)) by done.
  unfold v2, v_reply. rewrite Ht. split_and!; try done.
  - simpl. by rewrite !app_nil_r, <- !app_assoc.
  - simpl. by rewrite Hmap, delete_insert_eq.
Qed.

(** A download of a stored file whose reads fill the chunk buffer: the
    client gets the metadata in a success frame and then one packet per chunk
    of the file, and nothing else; the packets carry exactly the stored data.
    No file changes, the lock goes with its table entry, and the size is
    counted. With [upload_stores_file], what comes back is what was sent. *)
Theorem download_streams_file (headers : DownloadHeader) (time_start : Z) (root : path)
    (key ck data b : bytes) (m : MetadataFile) (v : View) :
  zlen key = 32 -> v_shut v = false -> stored_at (h_fs (v_host v)) headers root ck m data ->
  lock_free (d_file_id headers) (h_locks (v_host v)) ->
  serialize (down_response m time_start v) = Ok b -> zlen b < U32_MAX ->
  Forall (fun c => zlen c = READ_CHUNK_SIZE) (reads short READ_CHUNK_SIZE data) ->
  exists header cs pkts v', exec (handle_download headers time_start root key ck) v (Done tt) v' /\
    sealed key (byte_of_Z 1 :: b) header /\ Forall2 (sealed key) cs pkts /\
    concat cs = data /\ Forall (fun c => zlen c = READ_CHUNK_SIZE) cs /\
    v_out v' = v_out v ++ v_pend v ++ frame header ++ concat pkts /\ v_shut v' = true /\
    h_fs (v_host v') = h_fs (v_host v) /\
    lt_map (h_locks (v_host v')) = delete (d_file_id headers) (lt_map (h_locks (v_host v))) /\
    h_tracker (v_host v') = log_download (m_file_size m) (h_tracker (v_host v)).
Proof.
  intros Hk Hs Hst Hfree Hb Hbl Hfull.
  destruct (exec_download_streams headers time_start root key ck data b m v) as (v' & H & Ho & _ & Hr); [done..|].
  eexists _, (reads short READ_CHUNK_SIZE data), _, v'. split; [exact H|].
  split; [|split; [|split; [by apply reads_concat|split; [done|split; [exact Ho|exact Hr]]]]].
  - apply packet_sealed; [done|]. rewrite zlen_cons. unfold U32_MAX, P_MAX in *. lia.
  - by apply packets_sealed.
Qed.

(** A stored file whose size is not a multiple of the chunk size cannot be
    downloaded: whatever the sizes of the reads, the handler panics on the
    first chunk that does not fill its buffer, because [encrypt_into] is given
    the whole packet buffer and copies the tag into what is left of it. The
    guard is dropped on the way; nothing is counted. *)
Theorem unaligned_download_panics (headers : DownloadHeader) (time_start : Z) (root : path)
    (key ck data b : bytes) (m : MetadataFile) (v : View) :
  zlen key = 32 -> v_shut v = false -> stored_at (h_fs (v_host v)) headers root ck m data ->
  lock_free (d_file_id headers) (h_locks (v_host v)) ->
  serialize (down_response m time_start v) = Ok b -> zlen b < U32_MAX ->
  zlen data mod READ_CHUNK_SIZE <> 0 ->
  exists v', exec (handle_download headers time_start root key ck) v Panic v'.
Proof.
  intros Hk Hs Hst Hfree Hb Hbl Hmod.
  destruct (exec_handle_download headers time_start root key ck v Hfree) as (l & t & Hmap & _ & _ & Hrun).
  edestruct (exec_send_chunks_panic download_send key download_sends _ (zeros ENC_BUF_LEN)
    (v_reply key (byte_of_Z 1 :: b) (v_set_host (tick (v_host (v_set_locks t v))) (v_set_locks t v))) Hk Hs
    (reads_bounds short READ_CHUNK_SIZE data ltac:(done)) (reads_unaligned data Hmod)) as [v' Hp]; [by rewrite zlen_zeros|].
  eexists. apply Hrun. eapply exec_download_header; [done|done|exact Hst|by rewrite down_response_locks|done|].
  apply exec_bind_panic. exact Hp.
Qed.

(** A file the client never stored: when the directory of the file key is
    missing, or the metadata file is, the answer is the 404 error of that case
    and nothing else changes: no file, no counter, and the lock is free again. *)
Theorem missing_file_not_found (headers : DownloadHeader) (time_start : Z) (root : path)
    (key ck b : bytes) (v : View) :
  zlen key = 32 -> v_shut v = false -> lock_free (d_file_id headers) (h_locks (v_host v)) ->
  let dir_there := exists_ (h_fs (v_host v)) (user_dir root ck ++ [key_name (d_file_key headers)]) in
  (dir_there = true -> exists_ (h_fs (v_host v)) (down_meta headers root ck) = false) ->
  serialize (if dir_there then META_NOT_FOUND else FILE_NOT_FOUND) = Ok b -> zlen b < U32_MAX ->
  exists answer v', exec (handle_download headers time_start root key ck) v (Done tt) v' /\
    sealed key (byte_of_Z 3 :: b) answer /\ v_out v' = v_out v ++ v_pend v ++ frame answer /\
    v_shut v' = true /\ h_fs (v_host v') = h_fs (v_host v) /\
    h_tracker (v_host v') = h_tracker (v_host v) /\ lock_free (d_file_id headers) (h_locks (v_host v')).
Proof.
  intros Hk Hs Hfree dir_there Hmeta Hb Hbl.
  destruct (exec_handle_download headers time_start root key ck v Hfree) as (l & t & Hmap & Hdrop & Hrun & _).
  eexists _, _. split.
  { apply (Hrun None). instantiate (1 := v_close (v_reply key (byte_of_Z 3 :: b) (v_set_locks t v))).
    assert (forall e, serialize e = Ok b -> exec (send_failed e key ;;; ret (@None Z)) (v_set_locks t v) (Done None)
      (v_close (v_reply key (byte_of_Z 3 :: b) (v_set_locks t v)))) as Hsend.
    { intros e He. eapply exec_bind; [|apply exec_ret].
      eapply exec_to; [apply exec_send_failed; [done|done|by exists b]|]. unfold v_failed. by rewrite He. }
    unfold download_locked. cbv zeta.
    rewrite user_dir_path_eq, (stored_file_eq _ _ ".meta" no_slash_meta), <- !app_assoc.
    fold (down_meta headers root ck).
    estep exec_gets_fs. change (h_fs (v_host (v_set_locks t v))) with (h_fs (v_host v)). fold dir_there.
    destruct dir_there; simpl negb; cbv iota; [|by apply Hsend].
    estep exec_gets_fs. change (h_fs (v_host (v_set_locks t v))) with (h_fs (v_host v)).
    rewrite Hmeta by done. simpl negb. cbv iota. by apply Hsend. }
  split. { apply packet_sealed; [done|]. rewrite zlen_cons. unfold U32_MAX, P_MAX in *. lia. }
  split; [exact (v_close_reply_out key _ (v_set_locks t v))|]. done.
Qed.

(** * Every run *)

Lemma same_host_done {A} (m : M A) w o w' : keeps same_host m -> m w = (o, w') -> host w' = host w.
Proof. apply keeps_done. Qed.

Lemma fs_op_done_inv op w u w' : fs_op op w = (Done u, w') ->
  exists f, op (h_fs (host w)) = Ok f /\ host w' = set_fs f (host w).
Proof. unfold fs_op. destruct (op _) as [f|e]; [|done]. intros [= _ <-]. eauto. Qed.

Lemma instant_now_fs w t w' : instant_now w = (Done t, w') -> h_fs (host w') = h_fs (host w).
Proof. unfold instant_now. case_match; by intros [= _ <-]. Qed.

(** (C9) The files are what they claim to be, and what the client sent. In
    whatever state the server is and whatever the client sends, an upload that
    the handler counts as complete has read a sequence of packets sealed under
    the session key, and nothing else; the file it leaves is exactly their
    plaintexts in order, of the announced size and the announced hash, next to
    metadata that says so. *)
Theorem upload_integrity `{!PostcardLaws MetadataFile} (headers : UploadHeader) (time_start : Z)
    (root : path) (key ck : bytes) (w w' : World) :
  0 <= u_file_size headers ->
  upload_locked headers time_start root key ck w = (Done true, w') ->
  exists cs pkts, Forall2 (sealed key) cs pkts /\ rd (conn w) = concat pkts ++ rd (conn w') /\
    h_fs (host w') !! up_file headers root ck = Some (File (concat cs)) /\
    zlen (concat cs) = u_file_size headers /\ encode (sha256_digest (concat cs)) = u_file_hash headers /\
    read_from_disk (h_fs (host w')) (up_meta headers root ck) = Ok (up_metadata headers).
Proof.
  intros Hsize H. unfold upload_locked in H. cbv zeta in H.
  rewrite user_dir_path_eq, (stored_file_eq _ _ ".file" no_slash_file), (stored_file_eq _ _ ".meta" no_slash_meta) in H.
  fold (up_dir headers root ck) in H. fold (up_file headers root ck) in H. fold (up_meta headers root ck) in H.
  fold (key_name (u_file_key headers)) in H.
  binv H as u1 w1 E1. binv H as s8 w2 E2. binv H as u3 w3 E3. binv H as now w4 E4. binv H as u5 w5 E5.
  assert (rd (conn w5) = rd (conn w)) as Hrd5.
  { read_nothing E5. read_nothing E4. read_nothing E3. read_nothing E2. by read_nothing E1. }
  apply fs_op_done_inv in E5 as (f5 & (-> & _)%create_file_ok & E5).
  binv H as [hasher buf] w6 E6.
  destruct (receive_inv _ upload_fetches _ _ _ _ _ _ _ _ [] _ _ _ _
    ltac:(rewrite E5; apply lookup_insert_eq) E6) as (cs & pkts & new & Hcs & Hrd6 & -> & Hw6 & Hcat & Hlen).
  rewrite Hrd5 in Hrd6. binv H as u7 w7 E7. assert (rd (conn w7) = rd (conn w6)) as Hrd7 by (by read_nothing E7).
  apply (append_inv _ new) in E7; [|by eapply wrote_lookup].
  rewrite Hcat, <- sha256_digest_streaming in *. simpl app in E7.
  pose proof (wrote_lookup _ _ _ _ E7) as Hf7. unfold upload_finish in H.
  destruct (negb _) eqn:Eh.
  { binv H as r w8 E8. binv H as u9 w9 E9. done. }
  cbv zeta in H. apply negb_false_iff, String.eqb_eq in Eh.
  binv H as u8 w8 E8. assert (rd (conn w8) = rd (conn w6)) as Hrd8 by (by read_nothing E8).
  apply fs_op_done_inv in E8 as (f8 & E8 & Hh8).
  binv H as u9 w9 E9. injection H as <-. assert (rd (conn w9) = rd (conn w6)) as Hrd9 by (by read_nothing E9).
  apply same_host_done in E9; [|auto with rd_keeps]. rewrite E9, Hh8. simpl.
  exists cs, pkts. split_and!; [done|by rewrite Hrd9| | | |].
  - apply save_to_disk_ok in E8 as (bs & _ & -> & _).
    rewrite lookup_insert_ne; [exact Hf7|]. intros E. by eapply eq_sym, file_meta_ne in E.
  - rewrite Hlen by done. lia.
  - exact Eh.
  - by eapply save_then_read.
Qed.
End Laws.
End Transfer.

(** * A concrete transfer *)
Module TransferWitness.
Import Toy AuthWitness.

Definition abc : bytes := as_bytes "abc".
Definition up_headers (hash : string) : UploadHeader :=
  {| u_file_id := "id"; u_file_name := "a.txt"; u_file_size := 3; u_file_hash := hash; u_file_key := "key" |}.
Definition abc_hash : string := encode (sha256_digest abc).
Definition up_view : View := server_view server_fs (packet_of abc).
Definition up_fs : fs := ok_or ∅ (create_dir_all server_fs (up_dir (up_headers abc_hash) (storage_root home) csk)).

Lemma up_arrives hash : (exists s, str_prefix hash 8 = Done s) ->
  upload_arrives (up_headers hash) (storage_root home) demo_key csk abc [packet_of abc] [abc] [] up_view up_fs.
Proof.
  intros Hp. split.
  - reflexivity.
  - reflexivity.
  - reflexivity.
  - split; [done|]. split; [vm_refl|reflexivity].
  - constructor; [|constructor]. apply packet_of_ok. vm_compute. discriminate.
  - symmetry. apply app_nil_r.
  - exact Hp.
  - vm_refl.
  - intros H. assert (up_fs !! up_file (up_headers hash) (storage_root home) csk = None) as E by vm_refl. congruence.
Qed.

Lemma upload_stores_file_witness : exists v',
  exec (handle_upload (up_headers abc_hash) 0 (storage_root home) demo_key csk) up_view (Done tt) v' /\
  h_fs (v_host v') !! up_file (up_headers abc_hash) (storage_root home) csk = Some (File abc).
Proof.
  destruct (upload_stores_file (up_headers abc_hash) 0 (storage_root home) demo_key csk abc [packet_of abc] [abc] []
    (ok_or [] (to_io (up_response (up_headers abc_hash) 0 up_view))) up_view up_fs)
    as (ack & answer & v' & H & _ & _ & _ & _ & _ & [Hf _ _ _ _]).
  - apply up_arrives. apply str_prefix_encode. vm_compute. split; discriminate.
  - intros l Hl. discriminate Hl.
  - reflexivity.
  - assert (up_fs !! up_meta (up_headers abc_hash) (storage_root home) csk = None) as E by vm_refl. congruence.
  - reflexivity.
  - vm_compute. reflexivity.
  - eauto.
Defined.

Lemma wrong_hash_removes_file_witness : exists v',
  exec (handle_upload (up_headers "not the hash") 0 (storage_root home) demo_key csk) up_view (Done tt) v' /\
  h_fs (v_host v') = delete (up_file (up_headers "not the hash") (storage_root home) csk) up_fs.
Proof.
  destruct (wrong_hash_removes_file (up_headers "not the hash") 0 (storage_root home) demo_key csk abc
    [packet_of abc] [abc] [] (ok_or [] (serialize HASH_MISMATCH)) up_view up_fs)
    as (ack & answer & v' & H & _ & _ & _ & _ & Hf & _).
  - apply up_arrives. exists "not the "%string. reflexivity.
  - intros l Hl. discriminate Hl.
  - intros H. apply (f_equal str_len) in H. vm_compute in H. discriminate H.
  - reflexivity.
  - vm_compute. reflexivity.
  - eauto.
Defined.

(** Another connection is writing the file. *)
Definition busy_table : LockTable :=
  {| lt_map := {[ "id"%string := 0%nat ]}; lt_heap := {[ 0%nat := {| readers := 0; writer := true |} ]}; lt_next := 1 |}.

Lemma busy_upload_refused_witness : exists v',
  exec (handle_upload (up_headers abc_hash) 0 (storage_root home) demo_key csk)
    (v_set_locks busy_table up_view) (Done tt) v' /\ v_host v' = v_host (v_set_locks busy_table up_view).
Proof.
  destruct (busy_upload_refused (up_headers abc_hash) 0 (storage_root home) demo_key csk
    (ok_or [] (serialize LOCKED_UPLOAD)) (v_set_locks busy_table up_view))
    as (answer & v' & H & _ & _ & _ & _ & Hh).
  - reflexivity.
  - reflexivity.
  - exists 0%nat. split; [vm_refl|left; vm_refl].
  - reflexivity.
  - vm_compute. reflexivity.
  - eauto.
Defined.

Definition down_id : string := "0123456789abcdef0123456789abcdef".
Definition down_headers : DownloadHeader := {| d_file_id := down_id; d_file_key := "key" |}.
Definition down_metadata : MetadataFile :=
  {| m_filename := "a.bin"; m_file_size := 65536; m_file_hash := abc_hash; m_file_key_hash := "h" |}.

(** A directory with the metadata and [data]. *)
Definition down_dir : path := user_dir (storage_root home) csk ++ [key_name "key"].
Definition dir_fs : fs := ok_or ∅ (create_dir_all server_fs down_dir).
Definition stored_with (m : MetadataFile) (data : bytes) : fs :=
  <[down_file down_headers (storage_root home) csk := File data]>
    (ok_or ∅ (save_to_disk dir_fs (down_meta down_headers (storage_root home) csk) m)).
Definition stored_fs : bytes -> fs := stored_with down_metadata.
Definition down_view (data : bytes) : View := server_view (stored_fs data) [].

Lemma stored_with_ok m data : (exists s, str_prefix (m_file_hash m) 8 = Done s) ->
  stored_at (stored_with m data) down_headers (storage_root home) csk m data.
Proof.
  intros Hs. set (meta := down_meta down_headers (storage_root home) csk).
  set (file := down_file down_headers (storage_root home) csk).
  assert (fs_wf dir_fs) as Hdir.
  { apply fs_wf_ok_or. intros f H. eapply create_dir_all_wf; [apply server_fs_wf|exact H]. }
  assert (dir_fs !! meta = None) as Em by vm_refl. assert (dir_fs !! file = None) as Ef by vm_refl.
  assert (meta <> file) as Hne by (vm_compute; discriminate).
  destruct (save_to_disk_total dir_fs meta m) as (bs & Hbs & Hsave);
    [done|vm_refl|intros H; discriminate (eq_trans (eq_sym Em) H)|].
  assert (stored_with m data = <[file := File data]> (<[meta := File bs]> dir_fs)) as ->.
  { unfold stored_with. fold meta file. by rewrite Hsave. }
  split; [| |apply lookup_insert_eq|exact Hs].
  - apply save_to_disk_ok in Hsave as (? & _ & _ & Hw). apply fs_wf_insert; [by eapply write_file_wf|done| |right].
    + rewrite lookup_node_insert by done. assert (lookup_node dir_fs (parent file) = Some Dir) as -> by vm_refl.
      rewrite decide_False; [done|]. vm_compute. discriminate.
    + rewrite lookup_insert_ne by done. intros H. discriminate (eq_trans (eq_sym Ef) H).
  - fold meta. unfold read_from_disk, read_file. rewrite lookup_node_nonempty by done.
    rewrite lookup_insert_ne by (intros E; by apply Hne). rewrite lookup_insert_eq. by apply from_to_allocvec.
Qed.

Lemma demo_stored data : stored_at (stored_fs data) down_headers (storage_root home) csk down_metadata data.
Proof. apply stored_with_ok, str_prefix_encode. vm_compute. split; discriminate. Qed.

Definition one_chunk : bytes := zeros READ_CHUNK_SIZE.
Lemma one_chunk_full : Forall (fun c => zlen c = READ_CHUNK_SIZE) (reads full_reads READ_CHUNK_SIZE one_chunk).
Proof.
  apply (chunked_full 1). assert (zlen one_chunk = READ_CHUNK_SIZE) as E by (apply zlen_zeros; done).
  change (Z.of_nat 1 * READ_CHUNK_SIZE) with READ_CHUNK_SIZE. rewrite <- E at 1. apply full_reads_chunked.
  rewrite E. reflexivity.
Qed.

Lemma download_streams_file_witness : exists cs pkts v',
  exec (handle_download full_reads down_headers 0 (storage_root home) demo_key csk) (down_view one_chunk) (Done tt) v' /\
  Forall2 (sealed demo_key) cs pkts /\ concat cs = one_chunk.
Proof.
  destruct (download_streams_file full_reads down_headers 0 (storage_root home) demo_key csk one_chunk
    (ok_or [] (serialize (down_response down_metadata 0 (down_view one_chunk)))) down_metadata (down_view one_chunk))
    as (header & cs & pkts & v' & H & _ & Hs & Hc & _).
  - reflexivity.
  - reflexivity.
  - apply demo_stored.
  - intros l Hl. discriminate Hl.
  - reflexivity.
  - vm_compute. reflexivity.
  - apply one_chunk_full.
  - exists cs, pkts, v'. auto.
Defined.

Lemma unaligned_download_panics_witness : exists v',
  exec (handle_download full_reads down_headers 0 (storage_root home) demo_key csk) (down_view abc) Panic v'.
Proof.
  apply (unaligned_download_panics full_reads down_headers 0 (storage_root home) demo_key csk abc
    (ok_or [] (serialize (down_response down_metadata 0 (down_view abc)))) down_metadata (down_view abc)).
  - reflexivity.
  - reflexivity.
  - apply demo_stored.
  - intros l Hl. discriminate Hl.
  - reflexivity.
  - vm_compute. reflexivity.
  - vm_compute. discriminate.
Defined.

Lemma missing_file_not_found_witness : exists v',
  exec (handle_download full_reads down_headers 0 (storage_root home) demo_key csk) up_view (Done tt) v' /\
  h_fs (v_host v') = h_fs (v_host up_view).
Proof.
  destruct (missing_file_not_found full_reads down_headers 0 (storage_root home) demo_key csk
    (ok_or [] (serialize FILE_NOT_FOUND)) up_view) as (answer & v' & H & _ & _ & _ & Hf & _).
  - reflexivity.
  - reflexivity.
  - intros l Hl. discriminate Hl.
  - assert (exists_ (h_fs (v_host up_view)) (user_dir (storage_root home) csk ++ [key_name (d_file_key down_headers)]) = false) as E
      by vm_refl. rewrite E. discriminate.
  - vm_refl.
  - vm_compute. reflexivity.
  - eauto.
Defined.

Lemma upload_integrity_witness : exists cs pkts v',
  upload_locked (up_headers abc_hash) 0 (storage_root home) demo_key csk (world_of up_view) = (Done true, v') /\
  Forall2 (sealed demo_key) cs pkts /\ packet_of abc = concat pkts ++ rd (conn v') /\
  encode (sha256_digest (concat cs)) = abc_hash.
Proof.
  assert (upload_arrives (up_headers abc_hash) (storage_root home) demo_key csk abc [packet_of abc] [abc] []
    up_view up_fs) as Harr by (apply up_arrives, str_prefix_encode; vm_compute; split; discriminate).
  destruct (exec_finish_ok _ 0 _ _ _ _ _ _ _ _ _ Harr
    (ok_or [] (to_io (up_response (up_headers abc_hash) 0 up_view)))) as (mb & _ & Hfin).
  - reflexivity.
  - assert (up_fs !! up_meta (up_headers abc_hash) (storage_root home) csk = None) as E by vm_refl. congruence.
  - reflexivity.
  - vm_compute. reflexivity.
  - apply _.
  - pose proof (exec_run _ _ _ _ (exec_upload_locked _ 0 _ _ _ _ _ _ _ _ _ Harr _ _ Hfin)) as Hrun.
    destruct (upload_integrity (up_headers abc_hash) 0 (storage_root home) demo_key csk (world_of up_view) _
      (Z.lt_le_incl 0 3 eq_refl) Hrun) as (cs & pkts & Hcs & Hrd & _ & _ & Hh & _).
    eexists cs, pkts, _. split; [exact Hrun|split; [exact Hcs|split; [exact Hrd|exact Hh]]].
Defined.

Lemma receive_fuel_enough_witness :
  receive_chunks 5 upload_fetch demo_key [] 70000 0 sha256_new [] [] (world_of up_view) =
  receive_chunks (chunk_fuel 70000) upload_fetch demo_key [] 70000 0 sha256_new [] [] (world_of up_view).
Proof. apply receive_fuel_enough; [lia|]. vm_compute. lia. Defined.
End TransferWitness.
