(* ===== verification/Interleave.v ===== *)
(** Transfers at once: the uploads and downloads of Transfer.v cut at their
    file operations, with every interleaving of any number of them. A task takes
    its lock as in Locks.v and works on the inodes of Disk.v while it holds the
    guard, one [tokio::fs] call at a time; it can fail at any of them. *)
From S2P Require Import Prelude External FileSys Disk Locks Lib Users World Header Transfer.

Section Interleave.
Context {HX : Hex} {SH : Sha2} {PM : Postcard MetadataFile}.
Variable root : path.

(** * One transfer *)

Inductive request :=
| RUpload (client_key : bytes) (headers : UploadHeader)
| RDownload (client_key : bytes) (headers : DownloadHeader).

Definition req_role (r : request) : role := match r with RUpload _ _ => Uploader | RDownload _ _ => Downloader end.
Definition req_id (r : request) : string :=
  match r with RUpload _ h => u_file_id h | RDownload _ h => d_file_id h end.
Definition req_dir (r : request) : path :=
  match r with
  | RUpload ck h => user_dir root ck ++ [key_name (u_file_key h)]
  | RDownload ck h => user_dir root ck ++ [key_name (d_file_key h)]
  end.
Definition req_file (r : request) : path := req_dir r ++ [id_name (req_id r) ".file"].
Definition req_meta (r : request) : path := req_dir r ++ [id_name (req_id r) ".meta"].

(** Where a transfer is, between two file operations. *)
Inductive work :=
| UReady                                        (* before [File::create] *)
| UReceive (i : nat) (written buf : bytes)      (* in the loop: [buf] is in the [BufWriter] *)
| UReceived (data : bytes)                      (* flushed, the hash is known *)
| URemoved                                      (* wrong hash, the file is removed *)
| UMeta                                         (* before [tokio::fs::write] of the metadata *)
| UMetaWrite (j : nat) (bs : bytes)             (* which has created the file *)
| UWritten
| DReady                                        (* before the metadata is opened *)
| DMeta (j : nat)
| DOpen (m : MetadataFile)                      (* the answer is sent *)
| DRead (m : MetadataFile) (i : nat) (sent buf : bytes)   (* [buf] is in the [BufReader] *)
| DSent (m : MetadataFile) (sent : bytes)
| DRefused.

(** [BufWriter::write_all]: what goes to the file, and the new buffer. *)
Definition buffered (cap : Z) (buf data : bytes) : bytes * bytes :=
  let '(out, buf) := if cap <? zlen buf + zlen data then (buf, []) else ([], buf) in
  if cap <=? zlen data then (out ++ data, buf) else (out, buf ++ data).

(** The next file operation of [handle_upload]; [chunk] is the plaintext of the
    packet that arrives. *)
Definition upload_step (r : request) (headers : UploadHeader) (chunk : bytes) (w : work) (d : disk)
    : option (work * disk) :=
  match w with
  | UReady => let '(i, d) := open_create (req_file r) d in Some (UReceive i [] [], d)
  | UReceive i written buf =>
    let received := zlen (written ++ buf) in
    if received <? u_file_size headers then
      if zlen chunk =? Z.min READ_CHUNK_SIZE (u_file_size headers - received) then
        let '(out, buf) := buffered (READ_CHUNK_SIZE * 2) buf chunk in
        Some (UReceive i (written ++ out) buf, write_handle i (zlen written) out d)
      else None
    else Some (UReceived (written ++ buf), write_handle i (zlen written) buf d)
  | UReceived data =>
    if String.eqb (encode (sha256_digest data)) (u_file_hash headers) then Some (UMeta, d)
    else Some (URemoved, unlink (req_file r) d)
  | UMeta =>
    match to_allocvec (up_metadata headers) with
    | Ok bs => let '(j, d) := open_create (req_meta r) d in Some (UMetaWrite j bs, d)
    | Err _ => None
    end
  | UMetaWrite j bs => Some (UWritten, write_handle j 0 bs d)
  | _ => None
  end.

(** The next one of [handle_download]; [n] is how much a read of the file
    returns at most. A chunk that does not fill its buffer panics. *)
Definition download_step (r : request) (n : Z) (w : work) (d : disk) : option (work * disk) :=
  match w with
  | DReady =>
    match open_read (req_meta r) d with
    | Some j => Some (DMeta j, d)
    | None => Some (DRefused, d)
    end
  | DMeta j =>
    match from_bytes (inode d j) with
    | Ok m => Some (match str_prefix (m_file_hash m) 8 with Done _ => DOpen m | _ => DRefused end, d)
    | Err _ => Some (DRefused, d)
    end
  | DOpen m =>
    match open_read (req_file r) d with
    | Some i => Some (DRead m i [] [], d)
    | None => Some (DRefused, d)
    end
  | DRead m i sent buf =>
    if n <? 1 then None
    else
      let buf := match buf with [] => read_handle i (zlen sent) (Z.min n (READ_CHUNK_SIZE * 2)) d | _ => buf end in
      match buf with
      | [] => Some (DSent m sent, d)
      | _ =>
        let chunk := ztake READ_CHUNK_SIZE buf in
        Some (if zlen chunk =? READ_CHUNK_SIZE then DRead m i (sent ++ chunk) (zdrop READ_CHUNK_SIZE buf)
              else DRefused, d)
      end
  | _ => None
  end.

Definition work_step (r : request) (chunk : bytes) (n : Z) (w : work) (d : disk) : option (work * disk) :=
  match r with
  | RUpload _ headers => upload_step r headers chunk w d
  | RDownload _ _ => download_step r n w d
  end.

Definition first_work (r : request) : work := match r with RUpload _ _ => UReady | RDownload _ _ => DReady end.

(** The body ran to its end: [drop(guard)] and [release_file_lock] follow. *)
Definition complete (w : work) : bool := match w with UWritten | DSent _ _ => true | _ => false end.

(** * Many transfers *)

Record xsys := { x_locks : sys; x_work : gmap nat (request * work); x_disk : disk }.

Inductive xact :=
| XSpawn (i : nat) (r : request)                (* a connection's command is a transfer *)
| XLock (i : nat)                               (* its next action on the lock table *)
| XFile (i : nat) (chunk : bytes) (n : Z)       (* its next file operation *)
| XFail (i : nat).                              (* an error, a panic or an early return while the guard is held *)

Definition do_x (a : xact) (s : xsys) : option xsys :=
  match a with
  | XSpawn i r =>
    match do_act (Spawn i (req_role r) (req_id r)) (x_locks s) with
    | Some l => Some {| x_locks := l; x_work := <[i := (r, first_work r)]> (x_work s); x_disk := x_disk s |}
    | None => None
    end
  | XLock i =>
    match s_tasks (x_locks s) !! i, x_work s !! i with
    | Some k, Some (_, w) =>
      if match t_pc k with Locked _ => complete w | _ => true end then
        match do_act (Step i false) (x_locks s) with
        | Some l => Some {| x_locks := l; x_work := x_work s; x_disk := x_disk s |}
        | None => None
        end
      else None
    | _, _ => None
    end
  | XFile i chunk n =>
    match s_tasks (x_locks s) !! i, x_work s !! i with
    | Some k, Some (r, w) =>
      match t_pc k with
      | Locked _ =>
        match work_step r chunk n w (x_disk s) with
        | Some (w, d) => Some {| x_locks := x_locks s; x_work := <[i := (r, w)]> (x_work s); x_disk := d |}
        | None => None
        end
      | _ => None
      end
    | _, _ => None
    end
  | XFail i =>
    match s_tasks (x_locks s) !! i with
    | Some k =>
      match t_pc k with
      | Locked _ =>
        match do_act (Step i true) (x_locks s) with
        | Some l => Some {| x_locks := l; x_work := x_work s; x_disk := x_disk s |}
        | None => None
        end
      | _ => None
      end
    | None => None
    end
  end.

(** A server with the files of [d] and no connection. *)
Definition idle (d : disk) : xsys := {| x_locks := init_sys; x_work := ∅; x_disk := d |}.

(** Task [i] holds its guard, at [w]. *)
Definition working (s : xsys) (i : nat) (r : request) (w : work) : Prop :=
  x_work s !! i = Some (r, w) /\ exists k l, s_tasks (x_locks s) !! i = Some k /\ t_pc k = Locked l.

(** * One step of one transfer *)

(** The two files of a request. *)
Definition mine (r : request) (q : path) : Prop := q = req_file r \/ q = req_meta r.

Definition meta_is (r : request) (m : MetadataFile) (d : disk) : Prop :=
  exists bs, content d (req_meta r) = Some bs /\ from_bytes bs = Ok m.
Definition file_good (r : request) (h : UploadHeader) (d : disk) : Prop :=
  exists data, content d (req_file r) = Some data /\
    zlen data = u_file_size h /\ encode (sha256_digest data) = u_file_hash h.

(** What a transfer knows of the disk while it holds its guard. *)
Definition local_ok (r : request) (w : work) (d : disk) : Prop :=
  match r with
  | RUpload _ h =>
    match w with
    | UReady | URemoved => True
    | UReceive i written buf =>
      d_names d !! req_file r = Some i /\ inode d i = written /\ zlen (written ++ buf) <= u_file_size h
    | UReceived data => content d (req_file r) = Some data /\ zlen data = u_file_size h
    | UMeta => file_good r h d
    | UMetaWrite j bs =>
      file_good r h d /\ d_names d !! req_meta r = Some j /\ inode d j = [] /\ to_allocvec (up_metadata h) = Ok bs
    | UWritten => file_good r h d /\ meta_is r (up_metadata h) d
    | _ => False
    end
  | RDownload _ _ =>
    match w with
    | DReady | DRefused => True
    | DMeta j => d_names d !! req_meta r = Some j
    | DOpen m => meta_is r m d
    | DRead m i sent buf =>
      meta_is r m d /\ d_names d !! req_file r = Some i /\ exists rest, inode d i = sent ++ buf ++ rest
    | DSent m sent => meta_is r m d /\ content d (req_file r) = Some sent
    | _ => False
    end
  end.

(** A size is a [u64]. *)
Definition sized (r : request) : Prop := match r with RUpload _ h => 0 <= u_file_size h | RDownload _ _ => True end.

Lemma inode_same d d' p i : d_names d' !! p = d_names d !! p -> content d' p = content d p ->
  d_names d !! p = Some i -> inode d' i = inode d i.
Proof. intros Hn Hc Hi. unfold content in Hc. rewrite Hn, Hi in Hc. by injection Hc. Qed.

Lemma local_ok_frame r w d d' :
  (forall q, mine r q -> d_names d' !! q = d_names d !! q /\ content d' q = content d q) ->
  local_ok r w d -> local_ok r w d'.
Proof.
  intros Hs. destruct (Hs (req_file r) ltac:(by left)) as [Hnf Hcf], (Hs (req_meta r) ltac:(by right)) as [Hnm Hcm].
  unfold local_ok, file_good, meta_is. rewrite Hnf, Hcf, Hcm, Hnm.
  destruct r, w; try done; intros H.
  - destruct H as (Hi & Hd & Hl). by rewrite (inode_same _ _ _ _ Hnf Hcf Hi).
  - destruct H as (Hg & Hi & Hd & Hb). by rewrite (inode_same _ _ _ _ Hnm Hcm Hi).
  - destruct H as (Hm & Hi & Hd). by rewrite (inode_same _ _ _ _ Hnf Hcf Hi).
Qed.

Lemma file_meta_apart r : req_file r <> req_meta r.
Proof. apply file_meta_ne. Qed.

Lemma buffered_spec cap buf data out buf' : buffered cap buf data = (out, buf') -> out ++ buf' = buf ++ data.
Proof.
  unfold buffered. destruct (Z.ltb_spec cap (zlen buf + zlen data)), (Z.leb_spec cap (zlen data));
    intros [= <- <-]; rewrite ?app_nil_r; try done.
  assert (buf = []) as -> by (destruct buf; [done|]; rewrite zlen_cons in *; pose proof (zlen_nonneg buf); lia).
  by rewrite app_nil_r.
Qed.

Lemma file_good_same r h d d' : same_but (eq (req_meta r)) d d' -> file_good r h d -> file_good r h d'.
Proof.
  intros Hs (data & Hc & Hl & Hh). exists data. split; [|done].
  destruct (Hs (req_file r) (not_eq_sym (file_meta_apart r))) as [_ ->]. done.
Qed.

Definition stepped (r : request) (w' : work) (d d' : disk) : Prop :=
  disk_wf d' /\ same_but (mine r) d d' /\ local_ok r w' d'.

Lemma stepped_in r q w' d d' : mine r q -> disk_wf d' -> same_but (eq q) d d' -> local_ok r w' d' -> stepped r w' d d'.
Proof. intros Hq Hwf Hs Hl. split_and!; [done| |done]. eapply same_but_mono; [|exact Hs]. by intros ? <-. Qed.

Lemma upload_step_ok {PML : PostcardLaws MetadataFile} ck h chunk w d w' d' :
  upload_step (RUpload ck h) h chunk w d = Some (w', d') -> disk_wf d -> 0 <= u_file_size h ->
  local_ok (RUpload ck h) w d -> stepped (RUpload ck h) w' d d'.
Proof.
  set (r := RUpload ck h). intros Hst Hwf Hsz Hl. destruct w; simpl in Hst, Hl; try done.
  - destruct (open_create _ d) as [i d1] eqn:Eo. injection Hst as <- <-.
    destruct (open_create_spec _ _ _ _ Hwf Eo) as (Hwf1 & Hs & Hn & Hi).
    eapply stepped_in; [by left|done|exact Hs|by split_and!].
  - destruct Hl as (Hn & Hi & Hlen). destruct (_ <? _) eqn:Elt.
    + destruct (_ =? _) eqn:Ech; [|done]. destruct (buffered _ _ _) as [out buf'] eqn:Eb. injection Hst as <- <-.
      apply buffered_spec in Eb.
      destruct (write_handle_spec _ _ (zlen written) out d Hwf Hn) as (Hwf1 & Hs & Hn1 & Hi1).
      eapply stepped_in; [by left|done|exact Hs|]. split_and!; [done|by rewrite Hi1, Hi, pwrite_end|].
      rewrite <- app_assoc, Eb, app_assoc, zlen_app. apply Z.eqb_eq in Ech. lia.
    + injection Hst as <- <-.
      destruct (write_handle_spec _ _ (zlen written) buf d Hwf Hn) as (Hwf1 & Hs & Hn1 & Hi1).
      eapply stepped_in; [by left|done|exact Hs|]. split.
      * by rewrite (content_at _ _ _ Hn1), Hi1, Hi, pwrite_end.
      * apply Z.ltb_ge in Elt. lia.
  - destruct Hl as [Hc Hlen]. destruct (String.eqb _ _) eqn:Eh; injection Hst as <- <-.
    + split_and!; [done|apply same_but_refl|]. exists data. apply String.eqb_eq in Eh. done.
    + destruct (unlink_spec (req_file r) d Hwf) as (Hwf1 & Hs & _). eapply stepped_in; [by left|done|exact Hs|done].
  - destruct (to_allocvec _) as [bs|] eqn:Eb; [|done]. destruct (open_create _ d) as [j d1] eqn:Eo.
    injection Hst as <- <-. destruct (open_create_spec _ _ _ _ Hwf Eo) as (Hwf1 & Hs & Hn & Hi).
    eapply stepped_in; [by right|done|exact Hs|]. split_and!; [|done..]. by eapply file_good_same.
  - injection Hst as <- <-. destruct Hl as (Hg & Hn & Hi & Hb).
    destruct (write_handle_spec _ _ 0 bs d Hwf Hn) as (Hwf1 & Hs & Hn1 & Hi1).
    eapply stepped_in; [by right|done|exact Hs|]. split; [by eapply file_good_same|].
    exists bs. split; [|by apply from_to_allocvec].
    rewrite (content_at _ _ _ Hn1), Hi1, Hi. change 0 with (zlen (@nil byte)). by rewrite pwrite_end.
Qed.

Lemma read_handle_spec i off n d : 1 <= n ->
  exists rest, zdrop off (inode d i) = read_handle i off n d ++ rest /\ (read_handle i off n d = [] -> rest = []).
Proof.
  intros Hn. exists (zdrop n (zdrop off (inode d i))). unfold read_handle. rewrite ztake_zdrop. split; [done|].
  destruct (zdrop off (inode d i)) as [|x l]; [unfold zdrop; by rewrite drop_nil|].
  intros H%(f_equal zlen). rewrite zlen_ztake_le, zlen_cons in H by lia. pose proof (zlen_nonneg l).
  change (zlen (@nil byte)) with 0 in H. lia.
Qed.

Lemma download_step_ok ck h n w d w' d' :
  download_step (RDownload ck h) n w d = Some (w', d') ->
  local_ok (RDownload ck h) w d -> d' = d /\ local_ok (RDownload ck h) w' d.
Proof.
  set (r := RDownload ck h). intros Hst Hl. destruct w; cbn [download_step local_ok] in Hst, Hl; try done.
  - unfold open_read in Hst. destruct (d_names d !! _) eqn:En; by injection Hst as <- <-.
  - destruct (from_bytes _) as [m|] eqn:Em; injection Hst as <- <-; [|done].
    destruct (str_prefix _ _); split; try done. exists (inode d j). by rewrite (content_at _ _ _ Hl).
  - unfold open_read in Hst. destruct (d_names d !! _) eqn:En; injection Hst as <- <-; [|done].
    do 3 (split; [done|]). by exists (inode d n0).
  - destruct (n <? 1) eqn:En; [done|]. apply Z.ltb_ge in En. destruct Hl as (Hm & Hn & rest & Hr).
    set (b := match buf with [] => _ | _ => buf end) in Hst.
    assert (exists rest', inode d i = sent ++ b ++ rest' /\ (b = [] -> rest' = [])) as (rest' & Hb & Hnil).
    { unfold b. destruct buf; [|exists rest; split; [exact Hr|done]].
      destruct (read_handle_spec i (zlen sent) (Z.min n (READ_CHUNK_SIZE * 2)) d) as (rest' & E & Hnil).
      { unfold READ_CHUNK_SIZE. lia. }
      exists rest'. rewrite <- E, Hr. split; [by rewrite zdrop_app|exact Hnil]. }
    destruct b as [|x b'] eqn:Eb.
    + injection Hst as <- <-. do 2 (split; [done|]). rewrite (content_at _ _ _ Hn), Hb, Hnil by done.
      by rewrite !app_nil_r.
    + pose proof (ztake_zdrop READ_CHUNK_SIZE (x :: b')) as Hc. rewrite <- Hc in Hb. clear Hc. revert Hst Hb.
      generalize (ztake READ_CHUNK_SIZE (x :: b')) (zdrop READ_CHUNK_SIZE (x :: b')). intros c b2 Hst Hb.
      injection Hst as <- <-. split; [done|]. destruct (_ =? _); [|done]. do 2 (split; [done|]).
      exists rest'. by rewrite Hb, <- !app_assoc.
Qed.

(** * The files of different requests *)

Section Apart.
Context {HXL : HexLaws}.

Lemma list_ascii_app a b :
  String.list_ascii_of_string (a +:+ b) = String.list_ascii_of_string a ++ String.list_ascii_of_string b.
Proof. induction a as [|c a IH]; [done|]. simpl. by rewrite IH. Qed.

Lemma list_ascii_inj a b : String.list_ascii_of_string a = String.list_ascii_of_string b -> a = b.
Proof. intros H%(f_equal String.string_of_list_ascii). by rewrite !String.string_of_list_ascii_of_string in H. Qed.

Lemma str_app_inj a b x y : String.list_ascii_of_string x = String.list_ascii_of_string y ->
  a +:+ x = b +:+ y -> a = b.
Proof.
  intros Hxy H. apply (f_equal String.list_ascii_of_string) in H.
  rewrite !list_ascii_app, Hxy in H. apply app_inv_tail in H. by apply list_ascii_inj.
Qed.

Lemma id_name_inj a b ext : id_name a ext = id_name b ext -> sha256_digest (as_bytes a) = sha256_digest (as_bytes b).
Proof.
  intros H. apply str_app_inj in H; [|done]. apply (f_equal decode) in H. rewrite !decode_encode in H. by injection H.
Qed.

Lemma file_name_not_meta a b : id_name a ".file" <> id_name b ".meta".
Proof.
  unfold id_name. intros H%(f_equal String.list_ascii_of_string). rewrite !list_ascii_app in H.
  apply (f_equal (@rev _)) in H. by rewrite !rev_app_distr in H.
Qed.

(** Two requests that share one file share both, and their ids have one digest. *)
Lemma mine_same r r' q : mine r q -> mine r' q ->
  req_file r = req_file r' /\ req_meta r = req_meta r' /\
  sha256_digest (as_bytes (req_id r)) = sha256_digest (as_bytes (req_id r')).
Proof.
  unfold mine, req_file, req_meta. intros [->| ->] [H|H]; apply app_inj_tail in H as [Hd Hn].
  - pose proof (id_name_inj _ _ _ Hn) as Hs. unfold id_name. by rewrite Hd, Hs.
  - by apply file_name_not_meta in Hn.
  - by apply eq_sym, file_name_not_meta in Hn.
  - pose proof (id_name_inj _ _ _ Hn) as Hs. unfold id_name. by rewrite Hd, Hs.
Qed.
End Apart.

(** * Every interleaving *)

Section Runs.
Context {HXL : HexLaws} {PML : PostcardLaws MetadataFile}.
(** The file ids in play; SHA-256 does not collide on them. *)
Variable ids : string -> Prop.
Hypothesis ids_apart : forall a b, ids a -> ids b ->
  sha256_digest (as_bytes a) = sha256_digest (as_bytes b) -> a = b.

(** The actions in which [release_file_lock] is taken only by the last
    connection that holds a clone of that file's lock. *)
Definition calm (a : xact) (s : xsys) : Prop :=
  match a with
  | XSpawn _ r => ids (req_id r) /\ sized r
  | XLock i => forall k, s_tasks (x_locks s) !! i = Some k -> t_pc k = Unlocked -> alone (x_locks s) i (t_file k)
  | _ => True
  end.
Definition calm_step (s s' : xsys) : Prop := exists a, do_x a s = Some s' /\ calm a s.

(** A task of the lock table and the transfer it runs. *)
Record runs (k : task) (r : request) (w : work) : Prop := {
  ru_role : t_role k = req_role r;
  ru_file : t_file k = req_id r;
  ru_ids : ids (req_id r);
  ru_sized : sized r;
  ru_first : t_pc k = Start \/ (exists l, t_pc k = Cloned l) -> w = first_work r;
}.

Record x_ok (s : xsys) : Prop := {
  xo_guards : guards_counted (x_locks s);
  xo_current : clones_current (x_locks s);
  xo_disk : disk_wf (x_disk s);
  xo_task : forall i k, s_tasks (x_locks s) !! i = Some k -> exists r w, x_work s !! i = Some (r, w) /\ runs k r w;
  xo_local : forall i r w, working s i r w -> local_ok r w (x_disk s);
}.

Lemma first_work_ok r d : local_ok r (first_work r) d.
Proof. by destruct r. Qed.

Lemma do_act_step i fail l l' : do_act (Step i fail) l = Some l' -> exists k p,
  s_tasks l !! i = Some k /\ s_tasks l' = <[i := at_pc p k]> (s_tasks l) /\
  (p = Start \/ (exists m, p = Cloned m) \/ (exists m, p = Locked m) ->
   t_pc k = Start \/ exists m, t_pc k = Cloned m).
Proof.
  simpl. destruct (s_tasks l !! i) as [k|] eqn:Ek; [|done]. unfold step_task. intros H. exists k.
  destruct (t_pc k) eqn:Epc; [destruct (hold_file_lock _ _)|destruct (try_lock _ _ _)| | |done];
    injection H as <-; eexists; (split; [done|]; split; [done|]); try (intros _; by eauto).
  - by destruct fail; intros [?|[[]|[]]].
  - by intros [?|[[]|[]]].
Qed.

(** An action on the lock table. *)
Lemma x_ok_lock i fail s l' : x_ok s -> do_act (Step i fail) (x_locks s) = Some l' ->
  quiet_step (x_locks s) l' -> x_ok {| x_locks := l'; x_work := x_work s; x_disk := x_disk s |}.
Proof.
  intros [Hg Hc Hd Ht Hl] Ha Hq. destruct (do_act_step _ _ _ _ Ha) as (k & p & Hk & Htk & Hp).
  destruct (Ht i k Hk) as (r & w & Hw & [Hr Hf Hi Hs Hfirst]). split; simpl.
  - eapply guards_counted_step; [by apply quiet_is_lock_step|done].
  - by eapply clones_current_step.
  - done.
  - intros j k'. rewrite Htk, lookup_insert. case_decide as E; [|apply Ht]. subst j. intros [= <-].
    exists r, w. split; [done|]. split; simpl; try done. intros H. apply Hfirst, Hp.
    destruct H as [->|[m ->]]; eauto.
  - intros j r' w' (Hj & k' & m & Hk' & Hpc). simpl in *. rewrite Htk, lookup_insert in Hk'.
    case_decide as E; [|apply (Hl j); by split; [|exists k', m]]. subst j. injection Hk' as <-. simpl in Hpc. subst p.
    rewrite Hw in Hj. injection Hj as <- <-. rewrite Hfirst; [apply first_work_ok|]. apply Hp. eauto.
Qed.

Lemma x_ok_spawn i r s l' : x_ok s -> ids (req_id r) -> sized r ->
  do_act (Spawn i (req_role r) (req_id r)) (x_locks s) = Some l' ->
  x_ok {| x_locks := l'; x_work := <[i := (r, first_work r)]> (x_work s); x_disk := x_disk s |}.
Proof.
  intros [Hg Hc Hd Ht Hl] Hi Hs Ha. assert (quiet_step (x_locks s) l') as Hq by by eexists.
  simpl in Ha. destruct (s_tasks (x_locks s) !! i) eqn:Hn; [done|]. injection Ha as <-. split; simpl.
  - eapply guards_counted_step; [by apply quiet_is_lock_step|done].
  - by eapply clones_current_step.
  - done.
  - intros j k. rewrite !lookup_insert. case_decide as E; [|apply Ht]. intros [= <-].
    exists r, (first_work r). by split.
  - intros j r' w' (Hj & k & m & Hk & Hpc). simpl in *.
    rewrite lookup_insert in Hj. rewrite lookup_insert in Hk. destruct (decide (i = j)); [by injection Hk as <-|]. apply (Hl j). by split; [|exists k, m].
Qed.

(** A file operation: of the other tasks that hold a guard, none has a file of
    its own that changes. *)
Lemma x_ok_file i r w chunk n w' d' s : x_ok s -> working s i r w -> work_step r chunk n w (x_disk s) = Some (w', d') ->
  x_ok {| x_locks := x_locks s; x_work := <[i := (r, w')]> (x_work s); x_disk := d' |} /\
  disk_wf d' /\ same_but (mine r) (x_disk s) d' /\ (req_role r = Downloader -> d' = x_disk s).
Proof.
  intros [Hg Hc Hd Ht Hl] Hwk Hst. pose proof (Hl i r w Hwk) as Hlo. destruct Hwk as (Hw & k & l & Hk & Hpc).
  destruct (Ht i k Hk) as (r0 & w0 & E & [Hr Hf Hi Hs _]). rewrite Hw in E. injection E as <- <-.
  assert (stepped r w' (x_disk s) d' /\ (req_role r = Downloader -> d' = x_disk s)) as [[Hd' [Hsame Hlo']] Hdown].
  { destruct r as [ck h|ck h].
    - split; [by eapply upload_step_ok|done].
    - destruct (download_step_ok _ _ _ _ _ _ _ Hst Hlo) as [-> H]. split; [|done]. split; [done|].
      split; [apply same_but_refl|done]. }
  split; [|done]. split; simpl; try done.
  - intros j k'. rewrite lookup_insert. case_decide as E; [|apply Ht]. subst j. rewrite Hk. intros [= <-].
    exists r, w'. split; [done|]. split; try done. rewrite Hpc. by intros [?|[]].
  - intros j r' wj (Hj & k' & m & Hk' & Hpc'). simpl in *. rewrite lookup_insert in Hj.
    case_decide as E; [by injection Hj as <- <-|].
    destruct (Ht j k' Hk') as (r0 & w0 & E' & [Hr' Hf' Hi' _ _]). rewrite Hj in E'. injection E' as <- <-.
    assert (local_ok r' wj (x_disk s)) as Hlj by (apply (Hl j); by split; [|exists k', m]).
    destruct (decide (req_role r = Downloader)) as [Hrd|Hru]; [by rewrite Hdown|].
    eapply local_ok_frame; [|exact Hlj]. intros q Hq. apply Hsame. intros Hq'.
    destruct (mine_same _ _ _ Hq' Hq) as (_ & _ & Hsha). apply ids_apart in Hsha; [|done..]. apply Hru.
    rewrite <- Hr. eapply (file_exclusive (x_locks s) i j k k'); try done; congruence.
Qed.

Lemma x_ok_step s s' : calm_step s s' -> x_ok s -> x_ok s'.
Proof.
  intros (a & Ha & Hcalm) Hok. destruct a as [i r|i|i chunk n|i]; cbn [do_x] in Ha.
  - destruct (do_act _ _) as [l|] eqn:El; [|done]. injection Ha as <-. destruct Hcalm. by apply x_ok_spawn.
  - destruct (s_tasks _ !! i) as [k|] eqn:Hk; [|done]. destruct (x_work s !! i) as [[r w]|]; [|done].
    destruct (match t_pc k with Locked _ => _ | _ => _ end); [|done].
    destruct (do_act _ _) as [l|] eqn:El; [|done]. injection Ha as <-. eapply x_ok_lock; [done|exact El|].
    exists (Step i false). split; [exact El|]. exact Hcalm.
  - destruct (s_tasks _ !! i) as [k|] eqn:Hk; [|done]. destruct (x_work s !! i) as [[r w]|] eqn:Hw; [|done].
    destruct (t_pc k) as [|m|m| |] eqn:Hpc; try done.
    destruct (work_step _ _ _ _ _) as [[w' d']|] eqn:Est; [|done]. injection Ha as <-.
    eapply x_ok_file; [done| |exact Est]. split; [done|]. by exists k, m.
  - destruct (s_tasks _ !! i) as [k|] eqn:Hk; [|done]. destruct (t_pc k) as [|m|m| |] eqn:Hpc; try done.
    destruct (do_act _ _) as [l|] eqn:El; [|done]. injection Ha as <-. eapply x_ok_lock; [done|exact El|].
    exists (Step i true). split; [exact El|]. intros k' Hk' Hu. congruence.
Qed.

Lemma x_ok_idle d : disk_wf d -> x_ok (idle d).
Proof.
  intros Hd. split.
  - apply guards_counted_init.
  - done.
  - done.
  - by intros i k H.
  - by intros i r w (? & k & l & ? & _).
Qed.

Lemma x_ok_reachable d s : disk_wf d -> rtc calm_step (idle d) s -> x_ok s.
Proof.
  intros Hd. revert s. apply (rtc_ind_r x_ok); [by apply x_ok_idle|]. intros s s' _ Hstep IH. by eapply x_ok_step.
Qed.

(** (C19) A download that has sent everything has sent exactly what is stored, data
    and metadata, however its reads were interleaved with any number of other
    transfers: it could have happened at one instant. *)
Theorem download_snapshot (d : disk) (s : xsys) (i : nat) (ck : bytes) (h : DownloadHeader) (m : MetadataFile) (sent : bytes) :
  disk_wf d -> rtc calm_step (idle d) s -> working s i (RDownload ck h) (DSent m sent) ->
  content (x_disk s) (req_file (RDownload ck h)) = Some sent /\ meta_is (RDownload ck h) m (x_disk s).
Proof. intros Hd Hs Hw. by destruct (xo_local _ (x_ok_reachable d s Hd Hs) _ _ _ Hw). Qed.

(** * When uploads end well *)

(** The metadata stored under [M], if there is any, describes the file under [F]. *)
Definition whole (F M : path) (d : disk) : Prop := forall bs m, content d M = Some bs -> from_bytes bs = Ok m ->
  exists data, content d F = Some data /\ zlen data = m_file_size m /\ encode (sha256_digest data) = m_file_hash m.

(** The actions but for the failure of an upload that has opened its file, and
    for a wrong hash. *)
Definition steady (a : xact) (s : xsys) : Prop :=
  calm a s /\
  match a with
  | XFail i => forall ck h w, x_work s !! i = Some (RUpload ck h, w) -> w = UReady \/ w = UWritten
  | XFile i _ _ => forall ck h data, x_work s !! i = Some (RUpload ck h, UReceived data) ->
      encode (sha256_digest data) = u_file_hash h
  | _ => True
  end.
Definition steady_step (s s' : xsys) : Prop := exists a, do_x a s = Some s' /\ steady a s.

Lemma steady_is_calm s s' : steady_step s s' -> calm_step s s'.
Proof. intros (a & Ha & Hc & _). by exists a. Qed.

(** An upload of the file [F] is in the middle of its work. *)
Definition being_written (s : xsys) (F : path) : Prop := exists i ck h w,
  working s i (RUpload ck h) w /\ req_file (RUpload ck h) = F /\ w <> UReady /\ w <> UWritten.

Definition whole_or_written (s : xsys) : Prop :=
  forall r, whole (req_file r) (req_meta r) (x_disk s) \/ being_written s (req_file r).

Lemma being_written_keep s s' F :
  (forall i ck h w, working s i (RUpload ck h) w -> req_file (RUpload ck h) = F -> w <> UReady -> w <> UWritten ->
     working s' i (RUpload ck h) w) -> being_written s F -> being_written s' F.
Proof. intros H (i & ck & h & w & Hw & HF & H1 & H2). exists i, ck, h, w. eauto. Qed.

Lemma whole_or_written_keep s s' : x_disk s' = x_disk s ->
  (forall i ck h w, working s i (RUpload ck h) w -> w <> UReady -> w <> UWritten -> working s' i (RUpload ck h) w) ->
  whole_or_written s -> whole_or_written s'.
Proof.
  intros Hd Hk H r. destruct (H r) as [Hw|Hb]; [left; by rewrite Hd|right].
  eapply being_written_keep; [|exact Hb]. eauto.
Qed.

(** An action of another task, on the lock table, leaves a task at its work. *)
Lemma working_other i fail l' s j r w : do_act (Step i fail) (x_locks s) = Some l' -> j <> i ->
  working s j r w -> working {| x_locks := l'; x_work := x_work s; x_disk := x_disk s |} j r w.
Proof.
  intros Ha Hj (Hw & k & l & Hk & Hpc). destruct (do_act_step _ _ _ _ Ha) as (k0 & p & _ & Ht & _).
  split; [done|]. exists k, l. simpl. by rewrite Ht, lookup_insert_ne.
Qed.

Lemma whole_written r h d : m_file_size (up_metadata h) = u_file_size h -> file_good r h d -> meta_is r (up_metadata h) d ->
  whole (req_file r) (req_meta r) d.
Proof.
  intros Hs (data & Hc & Hl & Hh) (bs & Hb & Hm) bs' m' Hb' Hm'. rewrite Hb in Hb'. injection Hb' as <-.
  rewrite Hm in Hm'. injection Hm' as <-. by exists data.
Qed.

(** The file operations of an upload: on its own file, which is whole at the
    end and being written before. *)
Lemma whole_file i ck h w chunk n w' d' s : x_ok s -> working s i (RUpload ck h) w ->
  work_step (RUpload ck h) chunk n w (x_disk s) = Some (w', d') -> whole_or_written s ->
  whole_or_written {| x_locks := x_locks s; x_work := <[i := (RUpload ck h, w')]> (x_work s); x_disk := d' |}.
Proof.
  set (r := RUpload ck h). intros Hok Hwk Hst Hall r0.
  destruct (x_ok_file i r w chunk n w' d' s Hok Hwk Hst) as (Hok' & _ & Hsame & _).
  assert (working {| x_locks := x_locks s; x_work := <[i := (r, w')]> (x_work s); x_disk := d' |} i r w') as Hwk'.
  { destruct Hwk as [_ Hk]. split; [apply lookup_insert_eq|exact Hk]. }
  destruct (decide (req_file r0 = req_file r)) as [HF|HF].
  - destruct (mine_same r r0 (req_file r)) as (_ & HM & _); [by left|left; by rewrite HF|].
    assert (w' <> UReady) as Hnr by (intros ->; destruct w; simpl in Hst; repeat case_match; by simplify_eq).
    assert (w' = UWritten \/ w' <> UWritten) as [->|Hne] by (destruct w'; (by left) || (by right)).
    + left. destruct (xo_local _ Hok' i r UWritten Hwk') as [Hg Hm]. rewrite HF, <- HM. by eapply whole_written.
    + right. by exists i, ck, h, w'.
  - assert (forall q, mine r0 q -> content d' q = content (x_disk s) q) as Hc.
    { intros q Hq. apply Hsame. intros Hq'. destruct (mine_same _ _ _ Hq Hq') as (E & _). done. }
    destruct (Hall r0) as [Hw|Hb].
    + left. unfold whole. rewrite !Hc by (unfold mine; auto). exact Hw.
    + right. eapply being_written_keep; [|exact Hb]. intros j ck' h' wj (Hj & Hk) HFj _ _. split; [|exact Hk].
      simpl. rewrite lookup_insert_ne; [done|]. intros <-. destruct Hwk as [E _]. rewrite E in Hj.
      injection Hj as -> -> ->. by apply HF.
Qed.

Lemma whole_step s s' : steady_step s s' -> x_ok s -> whole_or_written s -> whole_or_written s'.
Proof.
  intros (a & Ha & Hcalm & Hst) Hok Hall. destruct a as [i r|i|i chunk n|i]; cbn [do_x] in Ha.
  - destruct (do_act _ _) as [l|] eqn:El; [|done]. injection Ha as <-. apply (whole_or_written_keep s); [done| |done].
    intros j ck h w (Hj & k & m & Hk & Hpc) _ _. simpl in El. destruct (s_tasks _ !! i) eqn:Hi; [done|].
    injection El as <-. assert (i <> j) as Hij by congruence.
    split; [|exists k, m]; simpl; by rewrite lookup_insert_ne.
  - destruct (s_tasks _ !! i) as [k|] eqn:Hk; [|done]. destruct (x_work s !! i) as [[r w]|] eqn:Hw; [|done].
    destruct (match t_pc k with Locked _ => _ | _ => _ end) eqn:Eok; [|done].
    destruct (do_act _ _) as [l|] eqn:El; [|done]. injection Ha as <-. apply (whole_or_written_keep s); [done| |done].
    intros j ck h w' Hwk Hnr Hnw. eapply working_other; [exact El| |exact Hwk]. intros ->.
    destruct Hwk as (Hj & k' & m & Hk' & Hpc). rewrite Hk in Hk'. injection Hk' as <-. rewrite Hpc in Eok.
    rewrite Hw in Hj. injection Hj as -> ->. destruct w'; try done.
    apply (xo_local _ Hok i (RUpload ck h) (DSent m0 sent)). split; [done|]. by exists k, m.
  - destruct (s_tasks _ !! i) as [k|] eqn:Hk; [|done]. destruct (x_work s !! i) as [[r w]|] eqn:Hw; [|done].
    destruct (t_pc k) as [|m|m| |] eqn:Hpc; try done.
    destruct (work_step _ _ _ _ _) as [[w' d']|] eqn:Est; [|done]. injection Ha as <-.
    assert (working s i r w) as Hwk by (split; [done|by exists k, m]).
    destruct r as [ck h|ck h]; [by eapply whole_file|].
    destruct (x_ok_file _ _ _ _ _ _ _ _ Hok Hwk Est) as (_ & _ & _ & Hsame). rewrite Hsame by done.
    apply (whole_or_written_keep s); [done| |done]. intros j ck' h' wj (Hj & Hkj) _ _. split; [|exact Hkj].
    simpl. rewrite lookup_insert_ne by congruence. done.
  - destruct (s_tasks _ !! i) as [k|] eqn:Hk; [|done]. destruct (t_pc k) as [|m|m| |] eqn:Hpc; try done.
    destruct (do_act _ _) as [l|] eqn:El; [|done]. injection Ha as <-. apply (whole_or_written_keep s); [done| |done].
    intros j ck h w' Hwk Hnr Hnw. eapply working_other; [exact El| |exact Hwk]. intros ->.
    destruct Hwk as (Hj & _). by destruct (Hst _ _ _ Hj).
Qed.

Lemma steady_reachable d s : disk_wf d -> (forall r, whole (req_file r) (req_meta r) d) -> rtc steady_step (idle d) s ->
  x_ok s /\ whole_or_written s.
Proof.
  intros Hd Hw. revert s. apply (rtc_ind_r (fun s => x_ok s /\ whole_or_written s)).
  - split; [by apply x_ok_idle|]. intros r. left. apply Hw.
  - intros s s' _ Hstep [Hok Hall]. split; [|by eapply whole_step].
    eapply x_ok_step; [by apply steady_is_calm|done].
Qed.

(** (C7) When every upload that opens its file ends well, every download sends a
    file that its metadata describes: of the announced size, with the announced
    hash. *)
Theorem download_whole (d : disk) (s : xsys) (i : nat) (ck : bytes) (h : DownloadHeader) (m : MetadataFile) (sent : bytes) :
  disk_wf d -> (forall r, whole (req_file r) (req_meta r) d) -> rtc steady_step (idle d) s ->
  working s i (RDownload ck h) (DSent m sent) ->
  zlen sent = m_file_size m /\ encode (sha256_digest sent) = m_file_hash m.
Proof.
  intros Hd Hw Hs Hwk. destruct (steady_reachable d s Hd Hw Hs) as [[Hg Hc _ Ht Hl] Hall].
  destruct (Hl _ _ _ Hwk) as [(bs & Hb & Hm) Hf]. destruct Hwk as (Hi & k & l & Hk & Hpc).
  destruct (Hall (RDownload ck h)) as [Hwhole|(j & ck' & h' & w' & (Hj & k' & l' & Hk' & Hpc') & HF & _)].
  - destruct (Hwhole bs m Hb Hm) as (data & E & Hlen & Hh). rewrite Hf in E. by injection E as <-.
  - exfalso. destruct (Ht _ _ Hk) as (r1 & w1 & E1 & R1). rewrite Hi in E1. injection E1 as <- <-.
    destruct (Ht _ _ Hk') as (r2 & w2 & E2 & R2). rewrite Hj in E2. injection E2 as <- <-.
    destruct (mine_same (RDownload ck h) (RUpload ck' h') (req_file (RDownload ck h))) as (_ & _ & Hsha);
      [by left|left; by rewrite HF|].
    apply ids_apart in Hsha; [|apply R1|apply R2].
    destruct (file_exclusive (x_locks s) i j k k' l l' Hg Hc) as [_ E]; try done; [congruence| |].
    + by rewrite (ru_file _ _ _ R1), (ru_file _ _ _ R2).
    + by rewrite (ru_role _ _ _ R2) in E.
Qed.
End Runs.
End Interleave.
