(* ===== verification/Solo.v ===== *)
(** Transfers of Interleave.v followed to their end: what one does when nothing
    else moves, that it leaves the files the handler of Transfer.v leaves, and a
    run of three transfers in which the table entry of a lock goes too early. *)
From S2P Require Import Prelude F64 External FileSys Disk Locks Lib Users World Exec Crypto Header Sample Stores Net Handshake Auth Transfer Interleave.

Section Solo.
Context {HX : Hex} {SH : Sha2} {PM : Postcard MetadataFile}.
Context {HXL : HexLaws} {PML : PostcardLaws MetadataFile}.
Variable root : path.

(** The file operations of one transfer, whatever arrives and however much a
    read returns. *)
Definition work_next (r : request) (wd wd' : work * disk) : Prop :=
  exists chunk n, work_step root r chunk n wd.1 wd.2 = Some wd'.

Lemma work_next_l r chunk n w d w1 d1 wd' : work_step root r chunk n w d = Some (w1, d1) ->
  rtc (work_next r) (w1, d1) wd' -> rtc (work_next r) (w, d) wd'.
Proof. intros H. apply rtc_l. by exists chunk, n. Qed.

(** * An upload alone *)

Section Upload.
Variables (ck : bytes) (h : UploadHeader).
Let r := RUpload ck h.
Let F := req_file root r.
Let M := req_meta root r.

Lemma solo_receive i cs : forall written buf d, disk_wf d -> d_names d !! F = Some i -> inode d i = written ->
  chunked (u_file_size h - zlen (written ++ buf)) cs -> exists d',
  rtc (work_next r) (UReceive i written buf, d) (UReceived (written ++ buf ++ concat cs), d') /\
  disk_wf d' /\ same_but (eq F) d d' /\ d_names d' !! F = Some i /\ inode d' i = written ++ buf ++ concat cs.
Proof.
  induction cs as [|c cs IH]; intros written buf d Hwf Hn Hi Hc; cbn [chunked concat] in *.
  - destruct (write_handle_spec _ _ (zlen written) buf d Hwf Hn) as (Hwf' & Hs & Hn' & Hi').
    eexists. rewrite app_nil_r. split; [|split_and!; [exact Hwf'|exact Hs|exact Hn'|]].
    + apply rtc_once. exists [], 0. cbn [work_step upload_step fst snd r].
      destruct (Z.ltb_spec (zlen (written ++ buf)) (u_file_size h)); [lia|]. done.
    + by rewrite Hi', Hi, pwrite_end.
  - destruct Hc as (Hpos & Hlen & Hc). destruct (buffered (READ_CHUNK_SIZE * 2) buf c) as [out buf'] eqn:Eb.
    pose proof (buffered_spec _ _ _ _ _ Eb) as Hb.
    destruct (write_handle_spec _ _ (zlen written) out d Hwf Hn) as (Hwf' & Hs & Hn' & Hi').
    rewrite Hi, pwrite_end in Hi'.
    destruct (IH (written ++ out) buf' _ Hwf' Hn' Hi') as (d' & Hrun & Hwf2 & Hs2 & Hn2 & Hi2).
    { rewrite <- app_assoc, Hb, app_assoc, zlen_app. by rewrite Z.sub_add_distr. }
    rewrite <- !app_assoc, (app_assoc out), Hb, <- app_assoc in *. exists d'. split; [|split_and!; [done| |done|done]].
    + eapply (work_next_l r c 0); [|exact Hrun]. cbn [work_step upload_step r].
      destruct (Z.ltb_spec (zlen (written ++ buf)) (u_file_size h)); [|lia].
      by rewrite (proj2 (Z.eqb_eq _ _) Hlen), Eb.
    + by eapply same_but_trans.
Qed.

Lemma solo_upload cs data bs d : disk_wf d -> chunked (u_file_size h) cs -> concat cs = data ->
  encode (sha256_digest data) = u_file_hash h -> to_allocvec (up_metadata h) = Ok bs -> exists d',
  rtc (work_next r) (UReady, d) (UWritten, d') /\ disk_wf d' /\
  same_but (mine root r) d d' /\ content d' F = Some data /\ content d' M = Some bs /\
  (forall i, d_names d !! F = Some i -> d_names d' !! F = Some i).
Proof.
  intros Hwf Hc Hd Hh Hb.
  destruct (open_create F d) as [i d1] eqn:E1. destruct (open_create_spec _ _ _ _ Hwf E1) as (W1 & S1 & N1 & I1).
  destruct (solo_receive i cs [] [] d1 W1 N1 I1) as (d2 & R2 & W2 & S2 & N2 & I2).
  { change (zlen ([] ++ [])) with 0. by rewrite Z.sub_0_r. }
  cbn [app] in R2, I2. rewrite Hd in R2, I2.
  destruct (open_create M d2) as [j d3] eqn:E3. destruct (open_create_spec _ _ _ _ W2 E3) as (W3 & S3 & N3 & I3).
  destruct (write_handle_spec _ _ 0 bs d3 W3 N3) as (W4 & S4 & N4 & I4).
  assert (M <> F) as Hne by apply not_eq_sym, file_meta_apart.
  exists (write_handle j 0 bs d3). split; [|split_and!; [exact W4| | | |]].
  - eapply (work_next_l r [] 0); [cbn [work_step upload_step r]; fold r F; by rewrite E1|].
    etrans; [exact R2|].
    eapply (work_next_l r [] 0); [cbn [work_step upload_step r]; by rewrite (proj2 (String.eqb_eq _ _) Hh)|].
    eapply (work_next_l r [] 0); [cbn [work_step upload_step r]; fold r M; by rewrite Hb, E3|].
    by eapply (work_next_l r [] 0), rtc_refl.
  - eapply same_but_trans; [|eapply same_but_trans; [|eapply same_but_trans]];
      eapply same_but_mono; [|exact S1| |exact S2| |exact S3| |exact S4]; intros q <-; unfold mine; auto.
  - by rewrite (proj2 (S4 F Hne)), (proj2 (S3 F Hne)), (content_at _ _ _ N2), I2.
  - rewrite (content_at _ _ _ N4), I4, I3. change 0 with (zlen (@nil byte)). by rewrite pwrite_end.
  - intros i' Hi'. rewrite (proj1 (S4 F Hne)), (proj1 (S3 F Hne)), N2. rewrite <- Hi'.
    unfold open_create in E1. rewrite Hi' in E1. by injection E1 as <- _.
Qed.
End Upload.

(** * A download alone *)

Section Download.
Variables (ck : bytes) (h : DownloadHeader).
Let r := RDownload ck h.
Let F := req_file root r.
Let M := req_meta root r.

Lemma solo_open m mb data d : content d M = Some mb -> from_bytes mb = Ok m ->
  (exists s, str_prefix (m_file_hash m) 8 = Done s) -> content d F = Some data -> exists i,
  rtc (work_next r) (DReady, d) (DRead m i [] [], d) /\ d_names d !! F = Some i /\ inode d i = data.
Proof.
  intros (j & Nj & Ij)%content_Some Hm [s Hs] (i & Ni & Ii)%content_Some. exists i. split; [|by split].
  eapply (work_next_l r [] 0); [cbn [work_step download_step r]; fold r M; unfold open_read; by rewrite Nj|].
  eapply (work_next_l r [] 0); [cbn [work_step download_step r]; by rewrite Ij, Hm, Hs|].
  eapply (work_next_l r [] 0); [cbn [work_step download_step r]; fold r F; unfold open_read; by rewrite Ni|].
  apply rtc_refl.
Qed.

(** One turn of the loop, with [b] in the reader's buffer. *)
Lemma read_turn m i sent buf d n b : 1 <= n ->
  match buf with [] => read_handle i (zlen sent) (Z.min n (READ_CHUNK_SIZE * 2)) d | _ => buf end = b ->
  READ_CHUNK_SIZE <= zlen b ->
  work_step root r [] n (DRead m i sent buf) d =
    Some (DRead m i (sent ++ ztake READ_CHUNK_SIZE b) (zdrop READ_CHUNK_SIZE b), d).
Proof.
  intros Hn Hb Hl. cbn [work_step download_step r]. destruct (Z.ltb_spec n 1); [lia|]. rewrite Hb.
  rewrite zlen_ztake, Z.eqb_refl by (unfold READ_CHUNK_SIZE in *; lia).
  destruct b; [by vm_compute in Hl|]. done.
Qed.

Lemma read_end_turn m i sent d : zlen (inode d i) <= zlen sent ->
  work_step root r [] 1 (DRead m i sent []) d = Some (DSent m sent, d).
Proof.
  intros H. cbn [work_step download_step r]. unfold read_handle. rewrite zdrop_ge by done.
  unfold ztake. by rewrite take_nil.
Qed.

(** What the reader's buffer holds at a turn that finds a whole chunk left. *)
Lemma next_buffer k i (sent buf : bytes) d : let X := inode d i in
  zlen buf + zlen (zdrop (zlen sent + zlen buf) X) = Z.of_nat (S k) * READ_CHUNK_SIZE ->
  zlen buf mod READ_CHUNK_SIZE = 0 -> exists b,
  match buf with [] => read_handle i (zlen sent) (Z.min READ_CHUNK_SIZE (READ_CHUNK_SIZE * 2)) d | _ => buf end = b /\
  READ_CHUNK_SIZE <= zlen b /\ zlen b mod READ_CHUNK_SIZE = 0 /\
  b ++ zdrop (zlen sent + zlen b) X = buf ++ zdrop (zlen sent + zlen buf) X.
Proof.
  intros X Hlen Hmod. pose proof (zlen_nonneg sent). destruct buf as [|x l].
  - rewrite zlen_nil, Z.add_0_r in *. eexists. split; [done|]. unfold read_handle. fold X.
    assert (zlen (ztake (Z.min READ_CHUNK_SIZE (READ_CHUNK_SIZE * 2)) (zdrop (zlen sent) X)) = READ_CHUNK_SIZE) as E.
    { rewrite zlen_ztake_le; unfold READ_CHUNK_SIZE in *; lia. }
    rewrite E. split_and!; [done|by rewrite Z_mod_same_full|].
    rewrite <- zdrop_zdrop by (unfold READ_CHUNK_SIZE; lia). apply ztake_zdrop.
  - exists (x :: l). split_and!; [done| |done|done]. rewrite zlen_cons in *. pose proof (zlen_nonneg l).
    destruct (Z.le_gt_cases READ_CHUNK_SIZE (1 + zlen l)); [done|]. rewrite Z.mod_small in Hmod; lia.
Qed.

(** From anywhere in the loop to the end, when whole chunks are left. *)
Lemma solo_reads m i d k : forall sent buf,
  zlen buf + zlen (zdrop (zlen sent + zlen buf) (inode d i)) = Z.of_nat k * READ_CHUNK_SIZE ->
  zlen buf mod READ_CHUNK_SIZE = 0 ->
  rtc (work_next r) (DRead m i sent buf, d) (DSent m (sent ++ buf ++ zdrop (zlen sent + zlen buf) (inode d i)), d).
Proof.
  induction k as [|k IH]; intros sent buf Hlen Hmod.
  - pose proof (zlen_nonneg buf). pose proof (zlen_nonneg (zdrop (zlen sent + zlen buf) (inode d i))) as H0.
    assert (buf = []) as -> by (apply zlen_0_inv; lia). rewrite zlen_nil, Z.add_0_r in *.
    rewrite (zlen_0_inv (zdrop _ _)), !app_nil_r by lia.
    eapply work_next_l; [apply read_end_turn|apply rtc_refl]. rewrite zlen_zdrop_le in Hlen by apply zlen_nonneg. lia.
  - set (X := inode d i) in *.
    assert (exists b, match buf with [] => read_handle i (zlen sent) (Z.min READ_CHUNK_SIZE (READ_CHUNK_SIZE * 2)) d
        | _ => buf end = b /\ READ_CHUNK_SIZE <= zlen b /\ zlen b mod READ_CHUNK_SIZE = 0 /\
        b ++ zdrop (zlen sent + zlen b) X = buf ++ zdrop (zlen sent + zlen buf) X) as (b & Hb & Hbl & Hbm & Hcat).
    { by apply (next_buffer k). }
    eapply work_next_l; [by apply (read_turn _ _ _ _ _ READ_CHUNK_SIZE b)|].
    assert (zlen sent + zlen b = zlen (sent ++ ztake READ_CHUNK_SIZE b) + zlen (zdrop READ_CHUNK_SIZE b)) as E.
    { rewrite zlen_app. pose proof (zlen_app (ztake READ_CHUNK_SIZE b) (zdrop READ_CHUNK_SIZE b)) as E.
      rewrite ztake_zdrop in E. lia. }
    specialize (IH (sent ++ ztake READ_CHUNK_SIZE b) (zdrop READ_CHUNK_SIZE b)). rewrite <- E in IH.
    rewrite <- app_assoc, (app_assoc (ztake _ b)), ztake_zdrop, Hcat in IH. apply IH.
    + apply (f_equal zlen) in Hcat. rewrite !zlen_app in Hcat. rewrite zlen_zdrop by (unfold READ_CHUNK_SIZE in *; lia). lia.
    + rewrite zlen_zdrop by (unfold READ_CHUNK_SIZE in *; lia).
      rewrite Zminus_mod, Hbm, Z_mod_same_full. done.
Qed.

Lemma solo_download m mb data d : content d M = Some mb -> from_bytes mb = Ok m ->
  (exists s, str_prefix (m_file_hash m) 8 = Done s) -> content d F = Some data -> zlen data mod READ_CHUNK_SIZE = 0 ->
  rtc (work_next r) (DReady, d) (DSent m data, d).
Proof.
  intros Hmb Hm Hs Hd Hmod. destruct (solo_open m mb data d Hmb Hm Hs Hd) as (i & Hrun & _ & Hi).
  etrans; [exact Hrun|]. apply Z_div_exact_full_2 in Hmod; [|done]. pose proof (zlen_nonneg data).
  assert (0 <= zlen data / READ_CHUNK_SIZE) by (apply Z.div_pos; unfold READ_CHUNK_SIZE; lia).
  pose proof (solo_reads m i d (Z.to_nat (zlen data / READ_CHUNK_SIZE)) [] []) as Hr. rewrite Hi in Hr.
  apply Hr; [|done]. rewrite Z2Nat.id by done. change (zdrop _ data) with data. rewrite zlen_nil. lia.
Qed.
End Download.

(** * Whole transfers among others *)

(** An action that is not a failure. *)
Definition clean_step (s s' : xsys) : Prop := exists a, do_x root a s = Some s' /\ forall i, a <> XFail i.

Definition mk (t : LockTable) (ts : tasks) (ws : gmap nat (request * work)) (d : disk) : xsys :=
  {| x_locks := {| s_table := t; s_tasks := ts |}; x_work := ws; x_disk := d |}.
Definition task_at (p : pc) (r : request) : task := {| t_role := req_role r; t_file := req_id r; t_pc := p |}.

Lemma clean_l a s s1 s' : do_x root a s = Some s1 -> (forall i, a <> XFail i) -> rtc clean_step s1 s' -> rtc clean_step s s'.
Proof. intros H Ha. apply rtc_l. by exists a. Qed.

Lemma start_transfer i r l t t1 t2 ts ws d : ts !! i = None -> hold_file_lock (req_id r) t = (l, t1) ->
  try_lock (task_at Start r) l t1 = Some t2 ->
  rtc clean_step (mk t ts ws d) (mk t2 (<[i := task_at (Locked l) r]> ts) (<[i := (r, first_work r)]> ws) d).
Proof.
  intros Hi Hh Hl. eapply (clean_l (XSpawn i r)); [|done|].
  { unfold do_x, do_act. cbn [mk x_locks s_tasks s_table]. by rewrite Hi. }
  eapply (clean_l (XLock i)); [|done|].
  { unfold do_x, do_act. cbn [x_locks s_tasks s_table x_work]. rewrite !lookup_insert_eq. cbn [step_task t_pc t_file].
    by rewrite Hh. }
  eapply (clean_l (XLock i)); [|done|].
  { unfold do_x, do_act. cbn [x_locks s_tasks s_table x_work]. rewrite !lookup_insert_eq. cbn [step_task t_pc at_pc].
    change (try_lock _ l t1) with (try_lock (task_at Start r) l t1). by rewrite Hl. }
  cbn [x_locks s_tasks s_table x_work x_disk]. rewrite !insert_insert_eq. apply rtc_refl.
Qed.

Lemma end_transfer i r w l t ts ws d : ts !! i = Some (task_at (Locked l) r) -> ws !! i = Some (r, w) -> complete w = true ->
  rtc clean_step (mk t ts ws d)
    (mk (release_file_lock (req_id r) (drop_guard (task_at Start r) l t)) (<[i := task_at Finished r]> ts) ws d).
Proof.
  intros Hi Hw Hc. eapply (clean_l (XLock i)); [|done|].
  { unfold do_x, do_act. cbn [mk x_locks s_tasks s_table x_work]. rewrite Hi, Hw. cbn [task_at t_pc]. by rewrite Hc. }
  eapply (clean_l (XLock i)); [|done|].
  { unfold do_x, do_act. cbn [x_locks s_tasks s_table x_work]. rewrite !lookup_insert_eq, Hw. done. }
  cbn [x_locks s_tasks s_table x_work x_disk]. rewrite !insert_insert_eq. apply rtc_refl.
Qed.

Lemma do_work i r l t ts d wd' : forall w ws, rtc (work_next r) (w, d) wd' ->
  ts !! i = Some (task_at (Locked l) r) -> ws !! i = Some (r, w) ->
  rtc clean_step (mk t ts ws d) (mk t ts (<[i := (r, wd'.1)]> ws) wd'.2).
Proof.
  intros w ws Hrun Hi. remember (w, d) as wd eqn:E. revert w d ws E.
  induction Hrun as [wd|wd wd1 wd' (chunk & n & Hst) _ IH]; intros w d ws -> Hw.
  - cbn [fst snd]. rewrite insert_id by done. apply rtc_refl.
  - destruct wd1 as [w1 d1]. cbn [fst snd] in Hst. eapply (clean_l (XFile i chunk n)); [|done|].
    { unfold do_x. cbn [mk x_locks s_tasks x_work x_disk]. rewrite Hi, Hw. cbn [task_at t_pc]. by rewrite Hst. }
    rewrite <- (insert_insert_eq ws i (r, wd'.1) (r, w1)). apply (IH w1 d1); [done|apply lookup_insert_eq].
Qed.

(** * A table entry that goes too early *)

(** A download that has the first 128 KiB in its buffer, and what it sends
    after that from whatever the file holds then. *)
Lemma half_read ck dh m i old d : inode d i = old -> 2 * READ_CHUNK_SIZE <= zlen old ->
  let b := ztake (2 * READ_CHUNK_SIZE) old in
  let half := DRead m i (ztake READ_CHUNK_SIZE b) (zdrop READ_CHUNK_SIZE b) in
  rtc (work_next (RDownload ck dh)) (DRead m i [] [], d) (half, d) /\
  forall d' new, inode d' i = new -> zlen new mod READ_CHUNK_SIZE = 0 ->
    rtc (work_next (RDownload ck dh)) (half, d') (DSent m (b ++ zdrop (2 * READ_CHUNK_SIZE) new), d').
Proof.
  intros Hi Hl b half. assert (zlen b = 2 * READ_CHUNK_SIZE) as Hb by (apply zlen_ztake; unfold READ_CHUNK_SIZE in *; lia).
  split.
  - eapply work_next_l; [apply (read_turn ck dh m i [] [] d (2 * READ_CHUNK_SIZE) b);
      [done| |unfold READ_CHUNK_SIZE in *; lia]|cbn [app]; apply rtc_refl].
    unfold read_handle. rewrite Hi, Z.min_l by (unfold READ_CHUNK_SIZE; lia). by rewrite zlen_nil.
  - intros d' new Hi' Hn.
    assert (zlen (ztake READ_CHUNK_SIZE b) = READ_CHUNK_SIZE) as E1 by (apply zlen_ztake; unfold READ_CHUNK_SIZE in *; lia).
    assert (zlen (zdrop READ_CHUNK_SIZE b) = READ_CHUNK_SIZE) as E2 by (rewrite zlen_zdrop; unfold READ_CHUNK_SIZE in *; lia).
    pose proof (zlen_nonneg (zdrop (2 * READ_CHUNK_SIZE) new)) as H0.
    assert (zlen (zdrop (2 * READ_CHUNK_SIZE) new) mod READ_CHUNK_SIZE = 0) as Hmod.
    { rewrite zlen_zdrop_le by (unfold READ_CHUNK_SIZE; lia). apply Z_div_exact_full_2 in Hn; [|done].
      destruct (Z.max_spec 0 (zlen new - 2 * READ_CHUNK_SIZE)) as [[_ ->]|[_ ->]]; [|done].
      rewrite Zminus_mod, Hn, Z.mul_comm, Z_mod_mult. done. }
    apply Z_div_exact_full_2 in Hmod; [|done].
    pose proof (solo_reads ck dh m i d' (Z.to_nat (1 + zlen (zdrop (2 * READ_CHUNK_SIZE) new) / READ_CHUNK_SIZE))
      (ztake READ_CHUNK_SIZE b) (zdrop READ_CHUNK_SIZE b)) as Hr.
    rewrite E1, E2, Hi', app_assoc, ztake_zdrop in Hr. apply Hr; [|done].
    assert (0 <= zlen (zdrop (2 * READ_CHUNK_SIZE) new) / READ_CHUNK_SIZE) by (apply Z.div_pos; [done|unfold READ_CHUNK_SIZE; lia]).
    replace (READ_CHUNK_SIZE + READ_CHUNK_SIZE) with (2 * READ_CHUNK_SIZE) by lia. rewrite Z2Nat.id by lia. lia.
Qed.

(** The table with one lock, [n] read guards on it. *)
Definition read_table (id : string) (n : nat) : LockTable :=
  {| lt_map := {[ id := 0%nat ]}; lt_heap := {[ 0%nat := {| readers := n; writer := false |} ]}; lt_next := 1 |}.

Lemma read_table_hold id n : hold_file_lock id (read_table id n) = (0%nat, read_table id n).
Proof. unfold hold_file_lock. cbn [read_table lt_map]. by rewrite lookup_singleton_eq. Qed.

Lemma read_table_release id n : release_file_lock id (drop_read 0 (read_table id n)) =
  {| lt_map := ∅; lt_heap := {[ 0%nat := {| readers := pred n; writer := false |} ]}; lt_next := 1 |}.
Proof.
  unfold release_file_lock. f_equal. cbn [drop_read set_lock read_table lt_map]. apply delete_singleton_eq.
Qed.

(** (C8) Two downloads of one file are under way; one of them ends, and removes the
    table entry of the lock the other still holds. An upload of the file gets a
    new lock, and runs to its end, next to the other download, which then sends
    the rest. Nothing fails, and what that download sends, under the metadata of
    the old file, begins with 128 KiB of the old file and goes on with the new
    one. *)
Theorem released_lock_mixes_versions (ck : bytes) (h : UploadHeader) (cs : list bytes) (m : MetadataFile)
    (mb bs old new : bytes) (d : disk) :
  let download := RDownload ck {| d_file_id := u_file_id h; d_file_key := u_file_key h |} in
  let upload := RUpload ck h in
  disk_wf d -> content d (req_meta root upload) = Some mb -> from_bytes mb = Ok m ->
  (exists s, str_prefix (m_file_hash m) 8 = Done s) -> content d (req_file root upload) = Some old ->
  zlen old mod READ_CHUNK_SIZE = 0 -> 2 * READ_CHUNK_SIZE <= zlen old ->
  chunked (u_file_size h) cs -> concat cs = new -> encode (sha256_digest new) = u_file_hash h ->
  to_allocvec (up_metadata h) = Ok bs -> zlen new mod READ_CHUNK_SIZE = 0 ->
  exists s, rtc clean_step (idle d) s /\
    working s 1 download (DSent m (ztake (2 * READ_CHUNK_SIZE) old ++ zdrop (2 * READ_CHUNK_SIZE) new)) /\
    working s 2 upload UWritten.
Proof.
  intros download upload Hwf Hmb Hm Hs Hold Ho Hol Hcs Hnew Hh Hbs Hn.
  set (dh := {| d_file_id := u_file_id h; d_file_key := u_file_key h |}) in *.
  destruct (solo_open ck dh m mb old d Hmb Hm Hs Hold) as (i & Hopen & Hname & Hi).
  destruct (half_read ck dh m i old d Hi Hol) as [Hhalf Hrest].
  pose proof (solo_download ck dh m mb old d Hmb Hm Hs Hold Ho) as Hall.
  destruct (solo_upload ck h cs new bs d Hwf Hcs Hnew Hh Hbs) as (d' & Hup & _ & _ & Hc' & _ & Hkeep).
  assert (inode d' i = new) as Hi'.
  { pose proof (content_at _ _ _ (Hkeep i Hname)) as E'. rewrite Hc' in E'. by injection E'. }
  specialize (Hrest d' new Hi' Hn). set (b := ztake (2 * READ_CHUNK_SIZE) old) in *.
  set (id := u_file_id h) in *. eexists. split.
  - change (idle d) with (mk empty_locks ∅ ∅ d).
    etrans; [by apply (start_transfer 0 download 0 _ (read_table id 0) (read_table id 1))|].
    etrans; [apply (start_transfer 1 download 0 _ (read_table id 1) (read_table id 2)); [done|apply read_table_hold|done]|].
    etrans; [by eapply (do_work 1 download 0 _ _ d (DRead m i (ztake READ_CHUNK_SIZE b) (zdrop READ_CHUNK_SIZE b), d) DReady);
      [etrans; [exact Hopen|exact Hhalf]|..]|].
    etrans; [by eapply (do_work 0 download 0 _ _ d (DSent m old, d) DReady)|].
    etrans; [by apply (end_transfer 0 download (DSent m old) 0)|].
    cbn [fst snd]. change (drop_guard (task_at Start download) 0 (read_table id 2)) with (drop_read 0 (read_table id 2)).
    change (req_id download) with id. rewrite read_table_release.
    etrans; [by eapply (start_transfer 2 upload 1)|].
    etrans; [by eapply (do_work 2 upload 1 _ _ d (UWritten, d') UReady)|].
    by eapply (do_work 1 download 0 _ _ d' (DSent m (b ++ zdrop (2 * READ_CHUNK_SIZE) new), d')).
  - split; (split; [done|]); eexists _, _; split; done.
Qed.

(** * The steps are the handlers' *)

Section Handlers.
Context {AG : AesGcm} {PEH : Postcard ErrorHeader} {PUR : Postcard UploadResponse} {PDR : Postcard DownloadResponse}.
Context {SHL : Sha2Laws} {AGL : AesGcmLaws}.
Variable short : Z -> Z.

(** (C20) An upload of Transfer.v and one by steps leave the same files. Where
    [handle_upload] stores the file in the tree [f1] (the server's, with the
    directory of the file), the steps end on any disk that shows [f1], and then
    show what the handler left: the same data under every name, the same
    metadata. *)
Theorem upload_takes_its_steps (headers : UploadHeader) (time_start : Z) (key ck data : bytes)
    (pkts cs : list bytes) (rest b : bytes) (v : View) (f1 : fs) (d : disk) :
  upload_arrives headers root key ck data pkts cs rest v f1 ->
  lock_free (u_file_id headers) (h_locks (v_host v)) ->
  encode (sha256_digest data) = u_file_hash headers ->
  f1 !! up_meta headers root ck <> Some Dir ->
  to_io (up_response headers time_start v) = Ok b -> zlen b < U32_MAX ->
  disk_wf d -> shows f1 d ->
  exists v' d', exec (handle_upload headers time_start root key ck) v (Done tt) v' /\
    rtc (work_next (RUpload ck headers)) (UReady, d) (UWritten, d') /\ disk_wf d' /\
    (forall p bs, p <> up_meta headers root ck ->
      h_fs (v_host v') !! p = Some (File bs) <-> content d' p = Some bs) /\
    read_from_disk (h_fs (v_host v')) (up_meta headers root ck) = Ok (up_metadata headers) /\
    meta_is root (RUpload ck headers) (up_metadata headers) d'.
Proof.
  intros Harr Hfree Hh Hm Hb Hbl Hwf Hs.
  destruct (exec_upload_stores headers time_start root key ck data pkts cs rest b v f1 Harr Hfree Hh Hm Hb Hbl)
    as (v' & H & _ & _ & _ & _ & [Hf Hme Hr _ _]).
  destruct (to_allocvec_total (up_metadata headers)) as [mb Hmb].
  destruct (solo_upload ck headers cs data mb d Hwf) as (d' & Hrun & Hwf' & Hsame & Hcf & Hcm & _);
    [apply Harr|apply Harr|done|done|].
  exists v', d'. split; [exact H|]. split; [exact Hrun|]. split; [exact Hwf'|]. split; [|split; [exact Hme|]].
  - intros p bs Hp. destruct (decide (p = up_file headers root ck)) as [->|Hne].
    + rewrite Hf. change (up_file headers root ck) with (req_file root (RUpload ck headers)). rewrite Hcf.
      split; by intros [= ->].
    + rewrite (Hr p Hne Hp). destruct (Hsame p) as [_ ->]; [|apply Hs]. by intros [->| ->].
  - exists mb. split; [exact Hcm|by apply from_to_allocvec].
Qed.

(** A download of Transfer.v and one by steps send the same bytes. *)
Theorem download_takes_its_steps (headers : DownloadHeader) (time_start : Z) (key ck data b : bytes)
    (m : MetadataFile) (v : View) (d : disk) :
  zlen key = 32 -> v_shut v = false -> stored_at (h_fs (v_host v)) headers root ck m data ->
  lock_free (d_file_id headers) (h_locks (v_host v)) ->
  serialize (down_response m time_start v) = Ok b -> zlen b < U32_MAX ->
  Forall (fun c => zlen c = READ_CHUNK_SIZE) (reads short READ_CHUNK_SIZE data) ->
  shows (h_fs (v_host v)) d ->
  exists v' hdr cs pkts, exec (handle_download short headers time_start root key ck) v (Done tt) v' /\
    v_out v' = v_out v ++ v_pend v ++ frame hdr ++ concat pkts /\ Forall2 (sealed key) cs pkts /\
    rtc (work_next (RDownload ck headers)) (DReady, d) (DSent m (concat cs), d).
Proof.
  intros Hk Hsh Hst Hfree Hb Hbl Hfull Hs.
  destruct (exec_download_streams short headers time_start root key ck data b m v) as (v' & H & Ho & _ & Hr); [done..|].
  eexists v', _, (reads short READ_CHUNK_SIZE data), _. split; [exact H|]. split; [exact Ho|].
  split; [by apply packets_sealed|]. rewrite reads_concat by done. destruct Hst as [Hwf Hm Hf Hpre].
  unfold read_from_disk in Hm. destruct (read_file _ _) as [mb|] eqn:Er; [|done].
  apply (shows_read _ d) in Er; [|done|unfold down_meta; by destruct (user_dir root ck)].
  apply (solo_download ck headers m mb).
  - unfold req_meta, req_dir. rewrite <- app_assoc. exact Er.
  - exact Hm.
  - exact Hpre.
  - unfold req_file, req_dir. rewrite <- app_assoc. by apply Hs.
  - apply zlen_full_chunks in Hfull. rewrite reads_concat in Hfull by done. rewrite Hfull.
    by apply Z_mod_mult.
Qed.
End Handlers.
End Solo.

(** * Concrete interleavings *)
Module SoloWitness.
Import Toy AuthWitness TransferWitness.

Definition root : path := storage_root home.
Definition rd : request := RDownload csk down_headers.

(** A disk with one file of the user and its metadata. *)
Definition meta_of (data : bytes) : MetadataFile :=
  {| m_filename := "a.bin"; m_file_size := zlen data; m_file_hash := encode (sha256_digest data); m_file_key_hash := "h" |}.
Definition meta_bytes (data : bytes) : bytes := ok_or [] (to_allocvec (meta_of data)).
Definition disk_of (data : bytes) : disk :=
  {| d_names := <[req_file root rd := 0%nat]> {[req_meta root rd := 1%nat]};
     d_inodes := <[0%nat := data]> {[1%nat := meta_bytes data]}; d_next := 2 |}.

Lemma disk_of_names data p i : d_names (disk_of data) !! p = Some i <->
  (p = req_file root rd /\ i = 0%nat) \/ (p = req_meta root rd /\ i = 1%nat).
Proof.
  simpl. rewrite lookup_insert_Some, lookup_singleton_Some. pose proof (file_meta_apart root rd).
  split; [intros [[<- <-]|(? & <- & <-)]|intros [[-> ->]|[-> ->]]]; eauto.
Qed.

Lemma disk_of_wf data : disk_wf (disk_of data).
Proof.
  split.
  - by intros p q i [[-> ->]|[-> ->]]%disk_of_names [[-> ?]|[-> ?]]%disk_of_names.
  - intros p i [[-> ->]|[-> ->]]%disk_of_names; simpl; lia.
Qed.

Lemma disk_of_file data : content (disk_of data) (req_file root rd) = Some data.
Proof. rewrite (content_at _ _ 0%nat); [done|]. apply disk_of_names. by left. Qed.
Lemma disk_of_meta data : content (disk_of data) (req_meta root rd) = Some (meta_bytes data).
Proof. rewrite (content_at _ _ 1%nat); [done|]. apply disk_of_names. by right. Qed.

Lemma meta_of_bytes data : from_bytes (meta_bytes data) = Ok (meta_of data).
Proof.
  unfold meta_bytes. destruct (to_allocvec_total (meta_of data)) as [bs Hb]. rewrite Hb. by apply from_to_allocvec.
Qed.

Lemma disk_of_whole data r : whole (req_file root r) (req_meta root r) (disk_of data).
Proof.
  intros bs m Hb Hm. pose proof Hb as (i & Hi%disk_of_names & _)%content_Some. destruct Hi as [[E _]|[E _]].
  - destruct (mine_same root r rd (req_meta root r)) as (_ & E' & _); [by right|by left|].
    exfalso. apply (file_meta_apart root rd). by rewrite <- E, E'.
  - destruct (mine_same root r rd (req_meta root r)) as (-> & _); [by right|by right|].
    exists data. split; [apply disk_of_file|]. rewrite E, disk_of_meta in Hb. injection Hb as <-.
    rewrite meta_of_bytes in Hm. by injection Hm as <-.
Qed.

(** Sequences of steady actions, evaluated. *)
Definition steady_ok (a : xact) (s : xsys) : bool :=
  match a with
  | XSpawn _ _ => true
  | XLock i =>
    match s_tasks (x_locks s) !! i with Some k => negb (bool_decide (t_pc k = Unlocked)) | None => true end
  | XFile i _ _ =>
    match x_work s !! i with
    | Some (RUpload _ h, UReceived data) => String.eqb (encode (sha256_digest data)) (u_file_hash h)
    | _ => true
    end
  | XFail _ => false
  end.
Fixpoint run_steady (acts : list xact) (s : xsys) : option xsys :=
  match acts with
  | [] => Some s
  | a :: acts => if steady_ok a s then match do_x root a s with Some s => run_steady acts s | None => None end else None
  end.

Definition ids (x : string) : Prop := x = down_id \/ x = "g"%string.
Definition spawns_ids (a : xact) : Prop := match a with XSpawn _ r => ids (req_id r) /\ sized r | _ => True end.

Lemma run_steady_sound acts : forall s s', Forall spawns_ids acts -> run_steady acts s = Some s' ->
  rtc (steady_step root ids) s s'.
Proof.
  induction acts as [|a acts IH]; intros s s' Hf; cbn [run_steady]; [intros [= ->]; apply rtc_refl|].
  apply Forall_cons in Hf as [Ha Hf]. destruct (steady_ok a s) eqn:Eok; [|done].
  destruct (do_x root a s) as [s1|] eqn:E1; [|done]. intros H. eapply rtc_l; [|by apply IH]. exists a.
  split; [exact E1|]. destruct a as [i r|i|i chunk n|i]; cbn [steady_ok] in Eok; split; try done.
  - intros k Hk Hu. rewrite Hk in Eok. by rewrite bool_decide_eq_true_2 in Eok.
  - intros ck h data Hw. rewrite Hw in Eok. by apply String.eqb_eq.
Qed.

Lemma ids_apart a b : ids a -> ids b -> sha256_digest (as_bytes a) = sha256_digest (as_bytes b) -> a = b.
Proof. intros [->| ->] [->| ->] H; try done; by vm_compute in H. Qed.

(** A download of one file, an upload of another, and a second download that
    gives up, step by step in turn. *)
Definition g_headers : UploadHeader :=
  {| u_file_id := "g"; u_file_name := "g.txt"; u_file_size := 3; u_file_hash := encode (sha256_digest abc); u_file_key := "key" |}.
Definition ug : request := RUpload csk g_headers.
Definition in_turn : list xact :=
  [XSpawn 0 rd; XLock 0; XLock 0; XFile 0 [] 1; XSpawn 1 ug; XLock 1; XLock 1; XFile 1 [] 1; XFile 0 [] 1;
   XSpawn 2 rd; XLock 2; XFile 1 abc 1; XLock 2; XFile 0 [] 1; XFile 2 [] 1; XFile 1 [] 1; XFile 0 [] 70000;
   XFile 1 [] 1; XFile 1 [] 1; XFile 0 [] 1].
Definition turned : xsys := default (idle (disk_of one_chunk)) (run_steady in_turn (idle (disk_of one_chunk))).

Lemma turned_steady : rtc (steady_step root ids) (idle (disk_of one_chunk)) turned.
Proof.
  apply (run_steady_sound in_turn).
  - unfold in_turn. repeat constructor; (by left) || (by right) || (vm_compute; discriminate).
  - unfold turned. assert (match run_steady in_turn (idle (disk_of one_chunk)) with Some _ => true | None => false end = true) as H
      by vm_refl.
    destruct (run_steady _ _); done.
Qed.

Lemma turned_sent : working turned 0 rd (DSent (meta_of one_chunk) one_chunk).
Proof. split; [vm_refl|]. exists {| t_role := Downloader; t_file := down_id; t_pc := Locked 0 |}, 0%nat. split; vm_refl. Qed.

Lemma download_snapshot_witness :
  content (x_disk turned) (req_file root rd) = Some one_chunk /\
  meta_is root rd (meta_of one_chunk) (x_disk turned).
Proof.
  apply (download_snapshot root ids ids_apart (disk_of one_chunk) turned 0 csk down_headers).
  - apply disk_of_wf.
  - apply (rtc_subrel (steady_step root ids)); [apply steady_is_calm|apply turned_steady].
  - apply turned_sent.
Defined.

Lemma download_whole_witness :
  zlen one_chunk = m_file_size (meta_of one_chunk) /\
  encode (sha256_digest one_chunk) = m_file_hash (meta_of one_chunk).
Proof.
  apply (download_whole root ids ids_apart (disk_of one_chunk) turned 0 csk down_headers).
  - apply disk_of_wf.
  - apply disk_of_whole.
  - apply turned_steady.
  - apply turned_sent.
Defined.

Lemma upload_takes_its_steps_witness : exists d v' d',
  exec (handle_upload (up_headers abc_hash) 0 root demo_key csk) up_view (Done tt) v' /\
  rtc (work_next root (RUpload csk (up_headers abc_hash))) (UReady, d) (UWritten, d').
Proof.
  destruct (disk_for up_fs) as (d & Hwf & Hs). exists d.
  destruct (upload_takes_its_steps root (up_headers abc_hash) 0 demo_key csk abc [packet_of abc] [abc] []
    (ok_or [] (to_io (up_response (up_headers abc_hash) 0 up_view))) up_view up_fs d)
    as (v' & d' & H & Hrun & _ & _ & _ & _).
  - apply up_arrives. apply str_prefix_encode. vm_compute. split; discriminate.
  - intros l Hl. discriminate Hl.
  - reflexivity.
  - assert (up_fs !! up_meta (up_headers abc_hash) (storage_root home) csk = None) as E by vm_refl.
    intros H. discriminate (eq_trans (eq_sym E) H).
  - reflexivity.
  - vm_compute. reflexivity.
  - exact Hwf.
  - exact Hs.
  - exists v', d'. split; [exact H|]. exact Hrun.
Defined.

Lemma download_takes_its_steps_witness : exists d v' cs,
  exec (handle_download full_reads down_headers 0 root demo_key csk) (down_view one_chunk) (Done tt) v' /\
  rtc (work_next root rd) (DReady, d) (DSent down_metadata (concat cs), d).
Proof.
  destruct (disk_for (stored_fs one_chunk)) as (d & Hwf & Hs). exists d.
  destruct (download_takes_its_steps root full_reads down_headers 0 demo_key csk one_chunk
    (ok_or [] (serialize (down_response down_metadata 0 (down_view one_chunk)))) down_metadata (down_view one_chunk) d)
    as (v' & hdr & cs & pkts & H & _ & _ & Hrun).
  - reflexivity.
  - reflexivity.
  - apply demo_stored.
  - intros l Hl. discriminate Hl.
  - reflexivity.
  - vm_compute. reflexivity.
  - apply one_chunk_full.
  - exact Hs.
  - exists v', cs. split; [exact H|exact Hrun].
Defined.

(** Two versions of one file: three chunks of zeros, three of ones. *)
Definition one : bytes := replicate (Z.to_nat READ_CHUNK_SIZE) Byte.x01.
Definition old_version : bytes := concat (replicate 3 one_chunk).
Definition new_version : bytes := concat (replicate 3 one).
Definition new_headers : UploadHeader :=
  {| u_file_id := down_id; u_file_name := "a.bin"; u_file_size := 3 * READ_CHUNK_SIZE;
     u_file_hash := encode (sha256_digest new_version); u_file_key := "key" |}.

Lemma three_chunks (c : bytes) : zlen c = READ_CHUNK_SIZE -> zlen (concat (replicate 3 c)) = 3 * READ_CHUNK_SIZE.
Proof. intros H. apply (zlen_full_chunks (replicate 3 c)). by apply Forall_replicate. Qed.
Lemma zlen_one : zlen one = READ_CHUNK_SIZE.
Proof. apply zlen_replicate. by vm_compute. Qed.
Lemma zlen_zero : zlen one_chunk = READ_CHUNK_SIZE.
Proof. by apply zlen_zeros. Qed.

Lemma released_lock_mixes_versions_witness : exists s, rtc (clean_step root) (idle (disk_of old_version)) s /\
  working s 1 rd (DSent (meta_of old_version)
    (ztake (2 * READ_CHUNK_SIZE) old_version ++ zdrop (2 * READ_CHUNK_SIZE) new_version)) /\
  working s 2 (RUpload csk new_headers) UWritten.
Proof.
  apply (released_lock_mixes_versions root csk new_headers (replicate 3 one) (meta_of old_version)
    (meta_bytes old_version) (ok_or [] (to_allocvec (up_metadata new_headers))) old_version new_version
    (disk_of old_version)).
  - apply disk_of_wf.
  - apply disk_of_meta.
  - apply meta_of_bytes.
  - apply str_prefix_encode. rewrite sha256_digest_len. split; discriminate.
  - apply disk_of_file.
  - unfold old_version. by rewrite three_chunks by apply zlen_zero.
  - unfold old_version. rewrite three_chunks by apply zlen_zero. discriminate.
  - cbn [u_file_size new_headers]. rewrite <- (three_chunks one) by apply zlen_one.
    apply full_chunked, Forall_replicate, zlen_one.
  - reflexivity.
  - reflexivity.
  - reflexivity.
  - unfold new_version. by rewrite three_chunks by apply zlen_one.
Defined.
End SoloWitness.
