(* ===== verification/Client.v ===== *)
(** src/protocol_v1.rs, [upload_client], [download_client] and
    [get_server_status]: the client's side of a transfer. *)
From Stdlib Require Import Ascii.
From S2P Require Import Prelude F64 External RateLimit FileSys Locks Lib Users World Exec Crypto Header Sample Stores Net Handshake Auth Transfer.

(** [Path::file_name] and [tokio::fs::metadata(p)?.len()]; the length a
    directory reports does not matter, hashing it fails. *)
Definition file_name (p : path) : option string :=
  match last p with
  | Some c => if String.eqb c ".." then None else Some c
  | None => None
  end.
Definition metadata_len (f : fs) (p : path) : result Z :=
  match lookup_node f p with
  | Some (File bs) => Ok (zlen bs)
  | Some Dir => Ok 4096
  | None => Err ENOENT
  end.

Definition unknown_byte (b : Z) : string := ("Unknown header byte: " +:+ pretty b)%string.
Definition hash_mismatch (expected computed : string) : string :=
  ("✗ Hash mismatch: expected " +:+ expected +:+ " but computed " +:+ computed)%string.

Section Client.
Context {AG : AesGcm} {HX : Hex} {SH : Sha2} {ED : Ed25519} {XD : X25519}
  {PEH : Postcard ErrorHeader} {PWH : Postcard WarnHeader} {PCM : Postcard Command}
  {PUR : Postcard UploadResponse} {PDR : Postcard DownloadResponse} {PST : Postcard StatusHeader}
  {PCH : Postcard ClientHello} {PSH : Postcard ServerHello} {JS : Json AuthServerMap}.
Variable short : Z -> Z.

(** The chunks the upload loop reads, from [File::open] on. *)
Definition open_reads (p : path) : M (list bytes) :=
  let* node := gets_fs (fun f => lookup_node f p) in
  match node with
  | None => throw ENOENT
  | Some Dir => throw "Failed to read file data"
  | Some (File data) => ret (reads short READ_CHUNK_SIZE data)
  end.

(** How the client writes a packet and reads one. *)
Definition client_send (packet : bytes) : M unit :=
  timeout_or "Client upload timed out sending chunk" CHUNK_TIMEOUT
    (context "Failed to send file data" (write_all packet)).
Definition client_fetch (n : Z) : M bytes :=
  timeout_or "Client download timed out reading chunk" CHUNK_TIMEOUT
    (context "Failed to read file data" (read_exact n)).

(** The flag of an answer: an error ends the client, a warning is printed. *)
Definition check_flag (what : string) (flag : Z) (body : bytes) : M unit :=
  if flag =? 3 then
    let* err := lift_result (deserialize body) in throw (failed_with what err)
  else if flag =? 2 then
    let* warn := lift_result (deserialize (T := WarnHeader) body) in ret tt
  else ret tt.

(** [upload_client], from the opening of the file on. *)
Definition upload_stream (file_path : path) (session_key : bytes) : M string :=
  let* chunks := open_reads file_path in
  send_chunks chunks client_send session_key (zeros ENC_BUF_LEN) ;;;
  context "Failed to flush" flush ;;;
  let* response := read_encrypt_data_into session_key in
  let* flag := lift (first_byte response) in
  (if (flag =? 3) || (flag =? 2) then check_flag "Upload" flag (tail response)
   else if negb (flag =? 1) then throw (unknown_byte flag) else ret tt) ;;;
  let* rsp := lift_result (deserialize (T := UploadResponse) (tail response)) in
  shutdown ;;;
  ret (ur_file_id rsp).

(** [upload_client] after its handshake. *)
Definition upload_request (file_path : path) (name : string) (file_size : Z) (file_key file_id : string)
    (session_key : bytes) : M string :=
  let* hash := gets_fs (fun f => file_hasher short f file_path) in
  let* file_hash := context "Failed to compute file hash" (lift_result hash) in
  let* request := lift_result (serialize (Upload
    {| u_file_id := file_id; u_file_name := name; u_file_size := file_size;
       u_file_hash := file_hash; u_file_key := file_key |})) in
  context "Failed to send upload header request" (write_encrypt_frame_into request session_key) ;;;
  let* response := context "Failed to read upload header response" (read_encrypt_data_into session_key) in
  let* flag := lift (first_byte response) in
  check_flag "Upload" flag (tail response) ;;;
  upload_stream file_path session_key.

Definition upload_client (file_path : path) (file_key file_id : string) (server_ip : SocketAddr)
    (signing_key : bytes) : M string :=
  let* name := lift_result (match file_name file_path with
                            | Some n => Ok n | None => Err "Invalid file path" end) in
  let* len := gets_fs (fun f => metadata_len f file_path) in
  let* file_size := lift_result len in
  let* session_key := map_throw "Handshake failed: " (client_handshake_helper server_ip signing_key false) in
  upload_request file_path name file_size file_key file_id session_key.

(** [download_client] after its handshake; [cwd] is what ["."] names. *)
Definition download_request (cwd : path) (output : option path) (file_id file_key : string)
    (session_key : bytes) : M path :=
  let* request := lift_result (serialize (Download {| d_file_id := file_id; d_file_key := file_key |})) in
  context "Failed to send download header request" (write_encrypt_frame_into request session_key) ;;;
  let* header_bytes := context "Failed to read download header response" (read_encrypt_data_into session_key) in
  let* flag := lift (first_byte header_bytes) in
  (if (flag =? 3) || (flag =? 2) then check_flag "Download" flag (tail header_bytes)
   else if negb (flag =? 1) then throw (unknown_byte flag) else ret tt) ;;;
  let* response := lift_result (deserialize (T := DownloadResponse) (tail header_bytes)) in
  let output_path := join (default cwd output) (dr_file_name response) in
  fs_op (fun f => create_file f output_path) ;;;
  let* (hasher, buf) := receive_chunks (chunk_fuel (dr_file_size response)) client_fetch session_key
    output_path (dr_file_size response) 0 sha256_new [] (zeros READ_CHUNK_SIZE) in
  append output_path buf ;;;
  let computed_hash := encode (sha256_finalize hasher) in
  if negb (String.eqb computed_hash (dr_file_hash response)) then
    let* _ := try_ (fs_op (fun f => remove_file f output_path)) in
    throw (hash_mismatch (dr_file_hash response) computed_hash)
  else
    let* _ := try_ shutdown in
    ret output_path.

Definition download_client (cwd : path) (output : option path) (file_id file_key : string)
    (server_ip : SocketAddr) (signing_key : bytes) : M path :=
  let* session_key := map_throw "Handshake failed: " (client_handshake_helper server_ip signing_key false) in
  download_request cwd output file_id file_key session_key.

(** [get_server_status] after its handshake, and whole. *)
Definition status_request (session_key : bytes) : M StatusHeader :=
  let* request := lift_result (serialize Status) in
  write_encrypt_frame_into request session_key ;;;
  let* response := context "Failed to read status response" (read_encrypt_data_into session_key) in
  let* response := lift_result (deserialize response) in
  let* _ := try_ shutdown in
  ret response.

Definition get_server_status (server_ip : SocketAddr) (signing_key : bytes) : M StatusHeader :=
  let* session_key := map_throw "Handshake failed: " (client_handshake_helper server_ip signing_key false) in
  status_request session_key.

(** * Running the client *)

Section Laws.
Context {PM : Postcard MetadataFile} {AGL : AesGcmLaws} {HXL : HexLaws} {SHL : Sha2Laws}.

Lemma exec_context {A} msg (m : M A) v a v1 : exec m v (Done a) v1 -> exec (context msg m) v (Done a) v1.
Proof. intros H. unfold context. eapply exec_bind; [by apply exec_try|apply exec_ret]. Qed.

Lemma client_sends : sends client_send.
Proof. intros p v Hs. apply exec_timeout_or, exec_context. by apply exec_write_all. Qed.

Lemma keeps_context {A} P `{!Tracks P} msg (m : M A) : keeps P m -> keeps P (context msg m).
Proof. intros H. unfold context. keeps_auto. Qed.
#[local] Hint Extern 5 (keeps _ (context _ _)) => apply keeps_context; [apply _|solve [keeps_auto]] : rd_keeps.

Lemma context_done_inv {A} msg (m : M A) w a w' : context msg m w = (Done a, w') -> m w = (Done a, w').
Proof. unfold context, bind, try_. destruct (m w) as [[b|e| |] w1]; try done. Qed.

Lemma client_fetches : fetches client_fetch.
Proof.
  split; [|split].
  - intros. apply exec_timeout_or, exec_context. by apply exec_read_exact.
  - intros n a w w' Hn (w0 & H%context_done_inv & ->)%timeout_or_done_inv.
    apply read_exact_done_inv in H as (b & Hb & -> & Hl). split; [by apply Hl|exact Hb].
  - intros n. unfold client_fetch. keeps_auto.
Qed.

Lemma exec_open_reads p data v : lookup_node (h_fs (v_host v)) p = Some (File data) ->
  exec (open_reads p) v (Done (reads short READ_CHUNK_SIZE data)) v.
Proof. intros H. unfold open_reads. estep exec_gets_fs. rewrite H. apply exec_ret. Qed.

(** The header the client announces for a file. *)
Definition announce (name file_key file_id : string) (data : bytes) : UploadHeader :=
  {| u_file_id := file_id; u_file_name := name; u_file_size := zlen data;
     u_file_hash := encode (sha256_digest data); u_file_key := file_key |}.

(** The upload up to its first chunk, against a server that acknowledges. *)
Lemma exec_upload_header p name file_key file_id key data reqb c1 rest o v v' :
  zlen key = 32 -> v_shut v = false -> lookup_node (h_fs (v_host v)) p = Some (File data) ->
  serialize (Upload (announce name file_key file_id data)) = Ok reqb -> zlen reqb <= U32_MAX ->
  sealed key ACK c1 -> v_in v = frame c1 ++ rest ->
  exec (upload_stream p key) (v_set_in rest (v_reply key reqb v)) o v' ->
  exec (upload_request p name (zlen data) file_key file_id key) v o v'.
Proof.
  intros Hk Hs Hp Hreq Hrl Hc1 Hin H. unfold upload_request.
  pose proof (sealed_len _ _ _ Hc1) as Hl1. change (zlen ACK) with 1 in Hl1.
  estep exec_gets_fs. eapply exec_bind; [apply exec_context, exec_lift_result|].
  { apply file_hasher_eq. unfold read_file. by rewrite Hp. }
  estep exec_lift_result; [exact Hreq|].
  eapply exec_bind; [apply exec_context; by apply exec_reply|].
  eapply exec_bind; [apply exec_context; eapply exec_read_encrypt; [exact Hin|exact Hc1|]|].
  { rewrite Hl1. unfold NONCE_LEN, TAG_LEN, MAX_FRAME_LENGTH. lia. }
  estep exec_lift; [reflexivity|]. cbn [check_flag]. estep exec_ret. exact H.
Qed.

Lemma exec_upload_stream `{!PostcardLaws UploadResponse} p key data (resp : UploadResponse) b c2 rest v :
  zlen key = 32 -> v_shut v = false -> lookup_node (h_fs (v_host v)) p = Some (File data) ->
  Forall (fun c => zlen c = READ_CHUNK_SIZE) (reads short READ_CHUNK_SIZE data) ->
  to_io resp = Ok b -> sealed key (byte_of_Z 1 :: b) c2 -> zlen c2 <= MAX_FRAME_LENGTH ->
  v_in v = frame c2 ++ rest ->
  exists v', exec (upload_stream p key) v (Done (ur_file_id resp)) v' /\
    v_out v' = v_out v ++ v_pend v ++ concat (packets key (reads short READ_CHUNK_SIZE data) v) /\
    v_in v' = rest /\ v_host v' = v_host v.
Proof.
  intros Hk Hs Hp Hfull Hb Hc2 Hl2 Hin.
  destruct (exec_send_chunks client_send key client_sends _ (zeros ENC_BUF_LEN) v Hk Hs Hfull) as (pos & Hsend);
    [by rewrite zlen_zeros|].
  eexists. split.
  { unfold upload_stream. eapply exec_bind; [by apply exec_open_reads|].
    eapply exec_bind; [exact Hsend|]. eapply exec_bind; [apply exec_context, exec_flush|].
    estep exec_read_encrypt; [exact Hin|exact Hc2|done|].
    estep exec_lift; [reflexivity|]. cbn match. estep exec_ret.
    estep exec_lift_result; [exact (f_equal (map_err "Failed to deserialize: ") (from_to_io _ _ Hb))|].
    estep exec_shutdown. apply exec_ret. }
  split; [|done]. simpl. by rewrite app_nil_r.
Qed.

(** Both sides of an upload, from the announced header on: the packets are
    those of the two generators, the server's data that of the client's file. *)
Section UploadPair.
Context `{!PostcardLaws MetadataFile} `{!PostcardLaws UploadResponse}.
Context (p root : path) (name file_key file_id : string) (time_start : Z) (key ck data reqb b rest_c rest_s : bytes)
  (vc vs : View) (f1 : fs).
Let headers := announce name file_key file_id data.

(** What the two sides of an upload need: the client's file, short
    messages, and room for the file on the server. *)
Record upload_ready : Prop := {
  ur_key_len : zlen key = 32;
  ur_client_open : v_shut vc = false;
  ur_server_open : v_shut vs = false;
  ur_source : lookup_node (h_fs (v_host vc)) p = Some (File data);
  ur_request : serialize (Upload headers) = Ok reqb;
  ur_request_len : zlen reqb <= MAX_FRAME_LENGTH - 28;
  ur_dirs : create_dir_all (h_fs (v_host vs)) (up_dir headers root ck) = Ok f1;
  ur_no_dir_file : f1 !! up_file headers root ck <> Some Dir;
  ur_no_dir_meta : f1 !! up_meta headers root ck <> Some Dir;
  ur_free : lock_free file_id (h_locks (v_host vs));
  ur_response : to_io (up_response headers time_start vs) = Ok b;
  ur_response_len : zlen b < MAX_FRAME_LENGTH - 28;
}.

Definition ack_packet : bytes := packet key ACK vs.
Definition answer_packet : bytes := packet key (byte_of_Z 1 :: b) (v_nonce vs).
Definition chunk_packets : list bytes := packets key (reads short READ_CHUNK_SIZE data) (v_nonce vc).

Hypothesis Hr : upload_ready.
Hypothesis Hfull : whole_chunks short data.

Lemma upload_packets_sealed : sealed key ACK ack_packet /\ sealed key (byte_of_Z 1 :: b) answer_packet /\
  sealed key reqb (packet key reqb vc) /\ Forall2 (sealed key) (reads short READ_CHUNK_SIZE data) chunk_packets.
Proof.
  destruct Hr. split; [by apply packet_sealed|].
  split; [|split; [|by apply packets_sealed]]; (apply packet_sealed; [done|]);
    rewrite ?zlen_cons; unfold MAX_FRAME_LENGTH, P_MAX in *; lia.
Qed.

Lemma exec_upload_pair : exists vs' vc',
  exec (handle_upload headers time_start root key ck) (v_set_in (concat chunk_packets ++ rest_s) vs) (Done tt) vs' /\
  exec (upload_request p name (zlen data) file_key file_id key)
    (v_set_in (frame ack_packet ++ frame answer_packet ++ rest_c) vc) (Done file_id) vc' /\
  v_out vs' = v_out vs ++ v_pend vs ++ frame ack_packet ++ frame answer_packet /\
  v_pend vs' = [] /\ v_in vs' = rest_s /\
  v_out vc' = v_out vc ++ v_pend vc ++ frame (packet key reqb vc) ++ concat chunk_packets /\ v_in vc' = rest_c /\
  upload_stored headers root ck data f1 (v_host vs) (v_host vs').
Proof.
  destruct upload_packets_sealed as (Hack & Hans & _ & Hpkts).
  destruct Hr as [Hk Hsc Hss Hp Hreq Hrl Hdir Hnf Hnm Hfree Hb Hbl].
  assert (concat (reads short READ_CHUNK_SIZE data) = data) as Hcat by by apply reads_concat.
  destruct (exec_upload_stores headers time_start root key ck data chunk_packets (reads short READ_CHUNK_SIZE data)
    rest_s b (v_set_in (concat chunk_packets ++ rest_s) vs) f1) as (vs' & Hs & Ho & Hpe & _ & Hi & Hst); try done.
  { split; try done; [change (u_file_size headers) with (zlen data); rewrite <- Hcat at 1; by apply full_chunked|].
    apply str_prefix_encode. rewrite sha256_digest_len. lia. }
  { unfold MAX_FRAME_LENGTH, U32_MAX in *. lia. }
  destruct (exec_upload_stream p key data (up_response headers time_start vs) b answer_packet rest_c
    (v_set_in (frame answer_packet ++ rest_c) (v_reply key reqb
      (v_set_in (frame ack_packet ++ frame answer_packet ++ rest_c) vc)))) as (vc' & Hc & Hco & Hci & _); try done.
  { rewrite (sealed_len _ _ _ Hans), zlen_cons. unfold NONCE_LEN, TAG_LEN. lia. }
  exists vs', vc'. split; [exact Hs|]. split.
  { eapply exec_upload_header; [done|done|exact Hp|exact Hreq| |exact Hack|reflexivity|exact Hc].
    unfold MAX_FRAME_LENGTH, U32_MAX in *. lia. }
  split_and!; try done. rewrite Hco. unfold chunk_packets.
  rewrite (packets_ext key _ _ (v_nonce vc)) by done. simpl. by rewrite <- !app_assoc.
Qed.
End UploadPair.

(** Both sides of an upload. The client runs [upload_client] on a file
    whose reads fill the chunk buffer, the server [handle_upload] on the header
    the client announced, each with the bytes the other wrote. Both finish; the
    client learns the file id it chose; the server has stored exactly the bytes
    of the client's file, under the client's own directory, with metadata that
    gives its name and hash. *)
Theorem upload_agreement `{!PostcardLaws MetadataFile} `{!PostcardLaws UploadResponse}
    (p root : path) (name file_key file_id : string) (time_start : Z) (key ck data reqb b rest_c rest_s : bytes)
    (vc vs : View) (f1 : fs) :
  let headers := announce name file_key file_id data in
  upload_ready p root name file_key file_id time_start key ck data reqb b vc vs f1 -> whole_chunks short data ->
  exists req pkts ack answer vs' vc',
    exec (handle_upload headers time_start root key ck) (v_set_in (concat pkts ++ rest_s) vs) (Done tt) vs' /\
    exec (upload_request p name (zlen data) file_key file_id key)
      (v_set_in (frame ack ++ frame answer ++ rest_c) vc) (Done file_id) vc' /\
    sealed key reqb req /\
    v_out vs' = v_out vs ++ v_pend vs ++ frame ack ++ frame answer /\ v_in vs' = rest_s /\
    v_out vc' = v_out vc ++ v_pend vc ++ frame req ++ concat pkts /\ v_in vc' = rest_c /\
    upload_stored headers root ck data f1 (v_host vs) (v_host vs').
Proof.
  intros headers Hr Hfull. edestruct upload_packets_sealed as (_ & _ & Hreq & _); [exact Hr|exact Hfull|].
  destruct (exec_upload_pair _ _ _ _ _ _ _ _ _ _ _ rest_c rest_s _ _ _ Hr Hfull) as (vs' & vc' & Hs & Hc & Hall).
  destruct Hall as (Ho & _ & Hi & Hco & Hci & Hst). eexists _, _, _, _, vs', vc'.
  split; [exact Hs|]. split; [exact Hc|]. by split_and!.
Qed.

(** The client cannot upload a file whose size is not a multiple of the
    chunk size: once the server has acknowledged, it panics on the first chunk
    that does not fill its buffer. *)
Theorem unaligned_upload_panics (p : path) (name file_key file_id : string) (key data reqb c1 rest : bytes) (v : View) :
  zlen key = 32 -> v_shut v = false -> lookup_node (h_fs (v_host v)) p = Some (File data) ->
  serialize (Upload (announce name file_key file_id data)) = Ok reqb -> zlen reqb <= U32_MAX ->
  sealed key ACK c1 -> v_in v = frame c1 ++ rest ->
  zlen data mod READ_CHUNK_SIZE <> 0 ->
  exists v', exec (upload_request p name (zlen data) file_key file_id key) v Panic v'.
Proof.
  intros Hk Hs Hp Hreq Hrl Hc1 Hin Hmod.
  edestruct (exec_send_chunks_panic client_send key client_sends _ (zeros ENC_BUF_LEN)
    (v_set_in rest (v_reply key reqb v)) Hk Hs (reads_bounds short READ_CHUNK_SIZE data ltac:(done))
    (reads_unaligned short data Hmod)) as [v' Hpan]; [by rewrite zlen_zeros|].
  exists v'. eapply exec_upload_header; [done|done|exact Hp|exact Hreq|done|exact Hc1|exact Hin|].
  unfold upload_stream. eapply exec_bind; [by apply exec_open_reads|]. by apply exec_bind_panic.
Qed.

(** * Running a download *)

(** The client's download once the server's header has arrived: the packets
    carry chunks of the announced size. *)
Section Download.
Context `{!PostcardLaws DownloadResponse}.
Context (cwd : path) (output : option path) (file_id file_key : string) (key : bytes).
Context (resp : DownloadResponse) (cs pkts : list bytes) (b hdr reqb rest : bytes) (v : View).
Definition out_path : path := join (default cwd output) (dr_file_name resp).

Record download_arrives : Prop := {
  da_key : zlen key = 32;
  da_shut : v_shut v = false;
  da_req : serialize (Download {| d_file_id := file_id; d_file_key := file_key |}) = Ok reqb;
  da_req_len : zlen reqb <= U32_MAX;
  da_resp : serialize resp = Ok b;
  da_hdr : sealed key (byte_of_Z 1 :: b) hdr;
  da_hdr_len : zlen hdr <= MAX_FRAME_LENGTH;
  da_chunks : chunked (dr_file_size resp) cs;
  da_sealed : Forall2 (sealed key) cs pkts;
  da_in : v_in v = frame hdr ++ concat pkts ++ rest;
  da_dir : lookup_node (h_fs (v_host v)) (parent out_path) = Some Dir;
  da_file : out_path <> [] /\ h_fs (v_host v) !! out_path <> Some Dir;
}.
Hypothesis Harr : download_arrives.

Lemma exec_download_request :
  let ok := String.eqb (encode (sha256_digest (concat cs))) (dr_file_hash resp) in
  exists v', exec (download_request cwd output file_id file_key key) v
      (if ok then Done out_path
       else Throw (hash_mismatch (dr_file_hash resp) (encode (sha256_digest (concat cs))))) v' /\
    h_fs (v_host v') = (if ok then <[out_path := File (concat cs)]> (h_fs (v_host v))
                        else delete out_path (h_fs (v_host v))) /\
    v_out v' = v_out v ++ v_pend v ++ frame (packet key reqb v).
Proof.
  intros ok. destruct Harr as [Hk Hs Hreq Hrl Hb Hh Hhl Hch Hsl Hin Hdir [Hne Hf]].
  set (f1 := <[out_path := File []]> (h_fs (v_host v))).
  set (v1 := v_set_fs f1 (v_set_in (concat pkts ++ rest) (v_reply key reqb v))).
  destruct (exec_receive client_fetch client_fetches key out_path (dr_file_size resp) cs
    (chunk_fuel (dr_file_size resp)) 0 sha256_new [] (zeros READ_CHUNK_SIZE) [] pkts rest v1)
    as (buf & new & Hrun & Hcat); [by rewrite Z.sub_0_r|by apply chunked_length| |done|done|apply lookup_insert_eq|].
  { rewrite zlen_zeros; unfold READ_CHUNK_SIZE; lia. }
  simpl app in Hcat.
  set (v2 := v_set_fs (<[out_path := File (concat cs)]> (h_fs (v_host v))) (v_set_in rest (v_reply key reqb v))).
  assert (forall o v', exec (
      if negb ok then
        let* _ := try_ (fs_op (fun f => remove_file f out_path)) in
        throw (hash_mismatch (dr_file_hash resp) (encode (sha256_digest (concat cs))))
      else let* _ := try_ shutdown in ret out_path) v2 o v' ->
    exec (download_request cwd output file_id file_key key) v o v') as Hgo.
  { intros o v' H. unfold download_request. estep exec_lift_result; [exact Hreq|].
    eapply exec_bind; [apply exec_context; by apply exec_reply|].
    eapply exec_bind; [apply exec_context; eapply exec_read_encrypt; [exact Hin|exact Hh|done]|].
    estep exec_lift; [reflexivity|]. cbn match. estep exec_ret.
    estep exec_lift_result; [exact (deserialize_serialize _ _ Hb)|]. cbv zeta. fold out_path.
    estep exec_fs_op; [by apply create_file_total|].
    eapply exec_bind; [exact Hrun|]. cbn match. estep exec_append; [apply lookup_insert_eq|].
    rewrite Hcat, <- sha256_digest_streaming. fold ok.
    replace (v_set_fs _ _) with v2; [exact H|].
    unfold v2, v1, v_set_fs, f1. simpl. by rewrite !insert_insert_eq. }
  destruct ok; simpl negb in Hgo; cbv iota in Hgo.
  - eexists. split; [apply Hgo; estep exec_try; [apply exec_shutdown|apply exec_ret]|].
    split; [done|]. simpl. by rewrite app_nil_r.
  - eexists. split; [apply Hgo; estep exec_try; [apply exec_fs_op|apply exec_throw]|].
    { unfold remove_file. rewrite lookup_node_nonempty by done. simpl. by rewrite lookup_insert_eq. }
    split; [|done]. simpl. by rewrite delete_insert_eq.
Qed.
End Download.

(** A stored file whose metadata is that of its data. *)
Record stored_whole (f : fs) (headers : DownloadHeader) (root : path) (ck : bytes)
    (m : MetadataFile) (data : bytes) : Prop := {
  sw_at : stored_at f headers root ck m data;
  sw_size : m_file_size m = zlen data;
  sw_hash : m_file_hash m = encode (sha256_digest data);
}.

(** Both sides of a download, from the request on. *)
Section DownloadPair.
Context `{!PostcardLaws DownloadResponse}.
Context (root cwd : path) (output : option path) (file_id file_key : string) (time_start : Z)
  (key ck data reqb b rest_c rest_s : bytes) (m : MetadataFile) (vc vs : View).
Let headers := {| d_file_id := file_id; d_file_key := file_key |}.
Let out := join (default cwd output) (m_filename m).

(** What the two sides of a download need beside the stored file: short
    messages, and room for it at the client's output path. *)
Record download_ready : Prop := {
  dw_key_len : zlen key = 32;
  dw_client_open : v_shut vc = false;
  dw_server_open : v_shut vs = false;
  dw_free : lock_free file_id (h_locks (v_host vs));
  dw_response : serialize (down_response m time_start vs) = Ok b;
  dw_response_len : zlen b < MAX_FRAME_LENGTH - 28;
  dw_request : serialize (Download headers) = Ok reqb;
  dw_request_len : zlen reqb <= MAX_FRAME_LENGTH - 28;
  dw_dir : lookup_node (h_fs (v_host vc)) (parent out) = Some Dir;
  dw_out : out <> [];
  dw_no_dir : h_fs (v_host vc) !! out <> Some Dir;
}.

Definition header_packet : bytes := packet key (byte_of_Z 1 :: b) vs.
Definition body_packets : list bytes := packets key (reads short READ_CHUNK_SIZE data) (v_nonce vs).

Hypothesis Hw : stored_whole (h_fs (v_host vs)) headers root ck m data.
Hypothesis Hr : download_ready.
Hypothesis Hfull : whole_chunks short data.

Lemma download_packets_sealed : sealed key (byte_of_Z 1 :: b) header_packet /\
  sealed key reqb (packet key reqb vc) /\ Forall2 (sealed key) (reads short READ_CHUNK_SIZE data) body_packets.
Proof.
  destruct Hr. split; [|split; [|by apply packets_sealed]]; (apply packet_sealed; [done|]);
    rewrite ?zlen_cons; unfold MAX_FRAME_LENGTH, P_MAX in *; lia.
Qed.

Lemma exec_download_pair : exists vs' vc',
  exec (handle_download short headers time_start root key ck) (v_set_in rest_s vs) (Done tt) vs' /\
  exec (download_request cwd output file_id file_key key)
    (v_set_in (frame header_packet ++ concat body_packets ++ rest_c) vc) (Done out) vc' /\
  v_out vs' = v_out vs ++ v_pend vs ++ frame header_packet ++ concat body_packets /\ v_pend vs' = [] /\
  v_out vc' = v_out vc ++ v_pend vc ++ frame (packet key reqb vc) /\
  h_fs (v_host vc') = <[out := File data]> (h_fs (v_host vc)) /\
  h_fs (v_host vs') = h_fs (v_host vs).
Proof.
  destruct download_packets_sealed as (Hh & _ & Hpkts).
  destruct Hw as [Hst Hsz Hhash], Hr as [Hk Hsc Hss Hfree Hb Hbl Hreq Hrl Hdir Hne Hf].
  assert (concat (reads short READ_CHUNK_SIZE data) = data) as Hcat by by apply reads_concat.
  destruct (exec_download_streams short headers time_start root key ck data b m (v_set_in rest_s vs))
    as (vs' & Hs & Ho & Hpe & _ & Hfs & _); try done.
  { unfold MAX_FRAME_LENGTH, U32_MAX in *. lia. }
  destruct (exec_download_request cwd output file_id file_key key (down_response m time_start vs)
    (reads short READ_CHUNK_SIZE data) body_packets b header_packet reqb rest_c
    (v_set_in (frame header_packet ++ concat body_packets ++ rest_c) vc)) as (vc' & Hc & Hcf & Hco).
  { split; try done.
    - unfold MAX_FRAME_LENGTH, U32_MAX in *. lia.
    - rewrite (sealed_len _ _ _ Hh), zlen_cons. unfold NONCE_LEN, TAG_LEN. lia.
    - change (dr_file_size _) with (m_file_size m). rewrite Hsz, <- Hcat at 1. by apply full_chunked. }
  change (dr_file_hash _) with (m_file_hash m) in Hc, Hcf. rewrite Hcat, Hhash, String.eqb_refl in Hc, Hcf.
  exists vs', vc'. split; [exact Hs|]. split; [exact Hc|]. split; [|split; [exact Hpe|split; [exact Hco|split; [exact Hcf|exact Hfs]]]].
  rewrite Ho. unfold body_packets. by rewrite (packets_ext key _ (v_nonce vs) (v_nonce (v_set_in rest_s vs))).
Qed.
End DownloadPair.

(** Both sides of a download. The server runs [handle_download] on a file
    it stores, whose reads fill the chunk buffer; the client runs
    [download_client]; each gets the bytes the other wrote. Both finish, and
    the client's output file holds exactly the stored data, provided the
    metadata gives its size and its hash, as [upload_integrity] says it does. *)
Theorem download_agreement `{!PostcardLaws DownloadResponse} (root cwd : path) (output : option path)
    (file_id file_key : string) (time_start : Z) (key ck data reqb b rest_c rest_s : bytes)
    (m : MetadataFile) (vc vs : View) :
  let headers := {| d_file_id := file_id; d_file_key := file_key |} in
  let out := join (default cwd output) (m_filename m) in
  stored_whole (h_fs (v_host vs)) headers root ck m data ->
  download_ready cwd output file_id file_key time_start key reqb b m vc vs -> whole_chunks short data ->
  exists req hdr pkts vs' vc',
    exec (handle_download short headers time_start root key ck) (v_set_in rest_s vs) (Done tt) vs' /\
    exec (download_request cwd output file_id file_key key)
      (v_set_in (frame hdr ++ concat pkts ++ rest_c) vc) (Done out) vc' /\
    sealed key reqb req /\
    v_out vs' = v_out vs ++ v_pend vs ++ frame hdr ++ concat pkts /\
    v_out vc' = v_out vc ++ v_pend vc ++ frame req /\
    h_fs (v_host vc') = <[out := File data]> (h_fs (v_host vc)) /\
    h_fs (v_host vs') = h_fs (v_host vs).
Proof.
  intros headers out Hw Hr Hfull. edestruct download_packets_sealed as (_ & Hreq & _); [exact Hr|exact Hfull|].
  destruct (exec_download_pair _ _ _ _ _ _ _ _ _ _ _ rest_c rest_s _ _ _ Hw Hr Hfull)
    as (vs' & vc' & Hs & Hc & Ho & _ & Hco & Hcf & Hsf). eexists _, _, _, vs', vc'.
  split; [exact Hs|]. split; [exact Hc|]. by split_and!.
Qed.

(** What follows the check of an answer's flag has seen a success or a warning,
    and left the state alone. *)
Lemma checked_flag what flag body u (w w' : World) :
  (if (flag =? 3) || (flag =? 2) then check_flag what flag body
   else if negb (flag =? 1) then throw (unknown_byte flag) else ret tt) w = (Done u, w') ->
  w' = w /\ (flag = 1 \/ flag = 2).
Proof.
  unfold check_flag. destruct (Z.eqb_spec flag 3) as [->|H3]; cbn [orb].
  { intros H. by binv H as e w1 E. }
  destruct (Z.eqb_spec flag 2) as [->|H2].
  - intros H. binv H as e w1 [_ ->]%lift_result_done_inv. injection H as _ <-. auto.
  - destruct (Z.eqb_spec flag 1) as [->|H1]; cbn [negb]; [intros [= _ <-]; auto|done].
Qed.

Lemma first_byte_inv b flag : first_byte b = Done flag -> byte_of_Z flag :: tail b = b.
Proof. destruct b as [|x b]; [done|]. simpl. intros [= <-]. by rewrite byte_of_to_Z. Qed.

(** (C10) Whatever the server sends, a download that returns has read from it a
    header (flagged a success, or a warning) and then packets, all sealed under
    the session key, and nothing else;
    at the path it returns, named by that header, is a file with exactly the
    plaintexts of the packets in order, and they have the hash and the size the
    header announced. *)
Theorem download_integrity (cwd : path) (output : option path) (file_id file_key : string) (key : bytes)
    (p : path) (w w' : World) :
  download_request cwd output file_id file_key key w = (Done p, w') ->
  exists flag hdr header resp cs pkts, (flag = 1 \/ flag = 2) /\
    rd (conn w) = frame hdr ++ concat pkts ++ rd (conn w') /\
    sealed key (byte_of_Z flag :: header) hdr /\ deserialize header = Ok resp /\ Forall2 (sealed key) cs pkts /\
    p = join (default cwd output) (dr_file_name resp) /\ h_fs (host w') !! p = Some (File (concat cs)) /\
    encode (sha256_digest (concat cs)) = dr_file_hash resp /\
    (0 <= dr_file_size resp -> zlen (concat cs) = dr_file_size resp).
Proof.
  unfold download_request. intros H. binv H as reqb w1 E1. binv H as u2 w2 E2. binv H as hb w3 E3.
  assert (rd (conn w2) = rd (conn w)) as Hrd2 by (read_nothing E2; by read_nothing E1).
  apply context_done_inv, read_encrypt_inv in E3 as (hdr & Hhdr & Hrd3 & _ & _).
  binv H as flag w4 [E4 ->]%lift_done_inv. binv H as u5 w5 E5.
  apply checked_flag in E5 as [-> Hflag].
  binv H as resp w6 [E6 ->]%lift_result_done_inv. cbv zeta in H.
  set (out := join (default cwd output) (dr_file_name resp)) in *.
  binv H as u7 w7 E7. assert (rd (conn w7) = rd (conn w3)) as Hrd7 by (by read_nothing E7).
  apply fs_op_done_inv in E7 as (f7 & (-> & _)%create_file_ok & E7).
  binv H as [hasher buf] w8 E8.
  destruct (receive_inv _ client_fetches _ _ _ _ _ _ _ _ [] _ _ _ _
    ltac:(rewrite E7; apply lookup_insert_eq) E8) as (cs & pkts & new & Hcs & Hrd8 & -> & Hw8 & Hcat & Hlen).
  binv H as u9 w9 E9. assert (rd (conn w9) = rd (conn w8)) as Hrd9 by (by read_nothing E9).
  apply (append_inv _ new) in E9; [|by eapply wrote_lookup].
  rewrite Hcat in E9. simpl app in E9. pose proof (wrote_lookup _ _ _ _ E9) as Hf9.
  rewrite <- sha256_digest_streaming in H.
  destruct (String.eqb_spec (encode (sha256_digest (concat cs))) (dr_file_hash resp)) as [Eh|Eh]; simpl negb in H; cbv iota in H;
    [|by binv H as r w10 E10]. binv H as r w10 E10. injection H as <- <-.
  assert (rd (conn w10) = rd (conn w8)) as Hrd10 by (by read_nothing E10).
  apply same_host_done in E10; [|keeps_auto].
  apply first_byte_inv in E4. exists flag, hdr, (tail hb), resp, cs, pkts. rewrite E10, E4.
  split_and!; [done| |done|done|done|done|done|done|intros Hsz; rewrite Hlen by done; lia].
  by rewrite <- Hrd2, Hrd3, <- Hrd7, Hrd8, Hrd10.
Qed.

(** The name of the output file is the server's choice: with an absolute
    name in its header, [join] drops the directory the user asked for, and the
    data is written at that absolute path, wherever it is. *)
Theorem server_picks_output_path `{!PostcardLaws DownloadResponse} (cwd : path) (output : option path)
    (file_id file_key name : string) (key : bytes)
    (resp : DownloadResponse) (cs pkts : list bytes) (b hdr reqb rest : bytes) (v : View) :
  dr_file_name resp = String "/"%char name -> dr_file_hash resp = encode (sha256_digest (concat cs)) ->
  download_arrives cwd output file_id file_key key resp cs pkts b hdr reqb rest v ->
  exists v', exec (download_request cwd output file_id file_key key) v (Done (components (String "/"%char name))) v' /\
    h_fs (v_host v') = <[components (String "/"%char name) := File (concat cs)]> (h_fs (v_host v)).
Proof.
  intros Hn Hh Harr. destruct (exec_download_request _ _ _ _ _ _ _ _ _ _ _ _ _ Harr) as (v' & H & Hf & _).
  rewrite Hh, String.eqb_refl in H, Hf. exists v'.
  assert (out_path cwd output resp = components (String "/"%char name)) as Hp by (unfold out_path; by rewrite Hn).
  by rewrite Hp in H, Hf.
Qed.
End Laws.
End Client.

(** * Concrete clients *)
Module ClientWitness.
Import Toy AuthWitness TransferWitness.

Definition src_path : path := home ++ ["up.bin"%string].
Definition client_view (data inp : bytes) : View := v_set_fs (<[src_path := File data]> demo_fs) (demo_view inp).
Definition bin_headers (data : bytes) : UploadHeader := announce "up.bin" "key" "id" data.
Definition bin_fs (data : bytes) : fs := ok_or ∅ (create_dir_all server_fs (up_dir (bin_headers data) (storage_root home) csk)).
Definition bin_request (data : bytes) : bytes := ok_or [] (serialize (Upload (bin_headers data))).

Lemma bin_ready : upload_ready src_path (storage_root home) "up.bin" "key" "id" 0 demo_key csk one_chunk
  (bin_request one_chunk) (ok_or [] (to_io (up_response (bin_headers one_chunk) 0 (server_view server_fs []))))
  (client_view one_chunk []) (server_view server_fs []) (bin_fs one_chunk).
Proof.
  split.
  - reflexivity.
  - reflexivity.
  - reflexivity.
  - exact (lookup_insert_eq _ _ _).
  - reflexivity.
  - vm_compute. discriminate.
  - vm_refl.
  - assert (bin_fs one_chunk !! up_file (bin_headers one_chunk) (storage_root home) csk = None) as E by vm_refl.
    intros H. discriminate (eq_trans (eq_sym E) H).
  - assert (bin_fs one_chunk !! up_meta (bin_headers one_chunk) (storage_root home) csk = None) as E by vm_refl.
    intros H. discriminate (eq_trans (eq_sym E) H).
  - intros l Hl. discriminate Hl.
  - reflexivity.
  - vm_compute. reflexivity.
Qed.

Lemma upload_agreement_witness : exists pkts ack answer vs' vc',
  exec (handle_upload (bin_headers one_chunk) 0 (storage_root home) demo_key csk)
    (v_set_in (concat pkts ++ []) (server_view server_fs [])) (Done tt) vs' /\
  exec (upload_request full_reads src_path "up.bin" (zlen one_chunk) "key" "id" demo_key)
    (v_set_in (frame ack ++ frame answer ++ []) (client_view one_chunk [])) (Done "id"%string) vc' /\
  h_fs (v_host vs') !! up_file (bin_headers one_chunk) (storage_root home) csk = Some (File one_chunk).
Proof.
  destruct (upload_agreement full_reads src_path (storage_root home) "up.bin" "key" "id" 0 demo_key csk one_chunk
    (bin_request one_chunk) (ok_or [] (to_io (up_response (bin_headers one_chunk) 0 (server_view server_fs []))))
    [] [] (client_view one_chunk []) (server_view server_fs []) (bin_fs one_chunk) bin_ready one_chunk_full)
    as (req & pkts & ack & answer & vs' & vc' & Hs & Hc & _ & _ & _ & _ & _ & [Hf _ _ _ _]).
  exists pkts, ack, answer, vs', vc'. auto.
Defined.

Lemma unaligned_upload_panics_witness : exists v',
  exec (upload_request full_reads src_path "up.bin" (zlen abc) "key" "id" demo_key)
    (client_view abc (frame (packet_of ACK))) Panic v'.
Proof.
  apply (unaligned_upload_panics full_reads src_path "up.bin" "key" "id" demo_key abc (bin_request abc)
    (packet_of ACK) []).
  - reflexivity.
  - reflexivity.
  - exact (lookup_insert_eq _ _ _).
  - reflexivity.
  - vm_compute. discriminate.
  - apply packet_of_ok. vm_compute. discriminate.
  - symmetry. apply app_nil_r.
  - vm_compute. discriminate.
Defined.

(** The metadata of a stored chunk. *)
Definition chunk_metadata : MetadataFile :=
  {| m_filename := "a.bin"; m_file_size := 65536; m_file_hash := encode (sha256_digest one_chunk);
     m_file_key_hash := "h" |}.
Definition chunk_fs : fs := stored_with chunk_metadata one_chunk.
Definition chunk_view : View := server_view chunk_fs [].
Definition pull_request : bytes := ok_or [] (serialize (Download down_headers)).
Definition down_client (inp : bytes) : View := demo_view inp.

Lemma chunk_stored : stored_at chunk_fs down_headers (storage_root home) csk chunk_metadata one_chunk.
Proof. apply stored_with_ok, str_prefix_encode. vm_compute. split; discriminate. Qed.

Lemma chunk_whole : stored_whole chunk_fs down_headers (storage_root home) csk chunk_metadata one_chunk.
Proof. split; [apply chunk_stored|symmetry; apply zlen_zeros; vm_compute; discriminate|reflexivity]. Qed.

Lemma chunk_ready : download_ready home None down_id "key" 0 demo_key
  pull_request (ok_or [] (serialize (down_response chunk_metadata 0 chunk_view))) chunk_metadata
  (down_client []) chunk_view.
Proof.
  split.
  - reflexivity.
  - reflexivity.
  - reflexivity.
  - intros l Hl. discriminate Hl.
  - reflexivity.
  - vm_compute. reflexivity.
  - reflexivity.
  - vm_compute. discriminate.
  - reflexivity.
  - discriminate.
  - assert (demo_fs !! join home (m_filename chunk_metadata) = None) as E by vm_refl.
    intros H. discriminate (eq_trans (eq_sym E) H).
Qed.

Lemma download_agreement_witness : exists hdr pkts vs' vc',
  exec (handle_download full_reads down_headers 0 (storage_root home) demo_key csk) (v_set_in [] chunk_view) (Done tt) vs' /\
  exec (download_request home None down_id "key" demo_key)
    (v_set_in (frame hdr ++ concat pkts ++ []) (down_client [])) (Done (home ++ ["a.bin"%string])) vc' /\
  h_fs (v_host vc') = <[home ++ ["a.bin"%string] := File one_chunk]> demo_fs.
Proof.
  destruct (download_agreement full_reads (storage_root home) home None down_id "key" 0 demo_key csk one_chunk
    pull_request (ok_or [] (serialize (down_response chunk_metadata 0 chunk_view))) [] []
    chunk_metadata (down_client []) chunk_view chunk_whole chunk_ready one_chunk_full)
    as (req & hdr & pkts & vs' & vc' & Hs & Hc & _ & _ & _ & Hf & _).
  exists hdr, pkts, vs', vc'. auto.
Defined.

(** A server that answers with an absolute name. *)
Definition evil_response : DownloadResponse :=
  {| dr_file_name := "/home/.profile"; dr_file_size := 3; dr_file_hash := encode (sha256_digest abc);
     dr_network_time := up_elapsed 0 (demo_view []) |}.
Definition evil_header : bytes := byte_of_Z 1 :: ok_or [] (serialize evil_response).
Definition evil_view : View := demo_view (frame (packet_of evil_header) ++ packet_of abc ++ []).

Lemma evil_arrives : download_arrives home (Some (home ++ ["dl"%string])) down_id "key" demo_key evil_response [abc]
  [packet_of abc] (ok_or [] (serialize evil_response)) (packet_of evil_header) pull_request [] evil_view.
Proof.
  split.
  - reflexivity.
  - reflexivity.
  - reflexivity.
  - vm_compute. discriminate.
  - reflexivity.
  - apply packet_of_ok. vm_compute. discriminate.
  - apply packet_of_ok. vm_compute. discriminate.
  - split; [done|]. split; [vm_refl|reflexivity].
  - constructor; [|constructor]. apply packet_of_ok. vm_compute. discriminate.
  - reflexivity.
  - vm_refl.
  - split; [vm_compute; discriminate|].
    assert (demo_fs !! out_path home (Some (home ++ ["dl"%string])) evil_response = None) as E by vm_refl.
    intros H. discriminate (eq_trans (eq_sym E) H).
Qed.

Lemma server_picks_output_path_witness : exists v',
  exec (download_request home (Some (home ++ ["dl"%string])) down_id "key" demo_key) evil_view
    (Done ["home"; ".profile"]%string) v' /\
  h_fs (v_host v') = <[["home"; ".profile"]%string := File abc]> demo_fs.
Proof.
  apply (server_picks_output_path home (Some (home ++ ["dl"%string])) down_id "key" "home/.profile" demo_key
    evil_response [abc] [packet_of abc] (ok_or [] (serialize evil_response)) (packet_of evil_header) pull_request []
    evil_view).
  - reflexivity.
  - reflexivity.
  - apply evil_arrives.
Defined.

Lemma download_integrity_witness : exists flag header hdr resp cs,
  (download_request home (Some (home ++ ["dl"%string])) down_id "key" demo_key (world_of evil_view)).1 =
    Done ["home"; ".profile"]%string /\
  sealed demo_key (byte_of_Z flag :: header) hdr /\ deserialize header = Ok resp /\
  encode (sha256_digest (concat cs)) = dr_file_hash resp.
Proof.
  destruct (exec_download_request _ _ _ _ _ _ _ _ _ _ _ _ _ evil_arrives) as (v' & H & _).
  assert (String.eqb (encode (sha256_digest (concat [abc]))) (dr_file_hash evil_response) = true) as E by vm_refl.
  rewrite E in H. pose proof (exec_run _ _ _ _ H) as Hrun.
  destruct (download_integrity home (Some (home ++ ["dl"%string])) down_id "key" demo_key _ _ _ Hrun)
    as (flag & hdr & header & resp & cs & pkts & _ & _ & Hs & Hd & _ & _ & _ & Hh & _).
  exists flag, header, hdr, resp, cs.
  split; [exact (f_equal fst Hrun)|split; [exact Hs|split; [exact Hd|exact Hh]]].
Defined.
End ClientWitness.
