(* ===== verification/Server.v ===== *)
(** src/protocol_v1.rs, [handle_connection] and [start_tcp_server]: one
    connection from its handshake to its answer, and the loop that accepts
    connections, counts them and spawns their tasks. *)
From Stdlib Require Import Floats.
From S2P Require Import Prelude F64 External RateLimit FileSys Locks Lib Users World Exec Crypto Header Sample Stores Net Handshake Echo Auth Transfer.

(** * One connection *)

Definition POOL_SIZE : Z := 14 * 1024 * 1024.

Definition REQUEST_TIMED_OUT : ErrorHeader := error_header 408 "Request timed out".
Definition RATE_LIMITED : ErrorHeader := error_header 429 "Rate limit exceeded, try again later".
Definition ECHO_DISABLED : ErrorHeader := error_header 403 "ECHO command is disabled on this server".
Definition invalid_header (what e : string) : ErrorHeader :=
  error_header 400 ("Invalid " +:+ what +:+ " header: " +:+ e).

(** An end of stream before the command ends the connection quietly. *)
Definition EOF_PATTERNS : list string := ["eof"; "early eof"; "unexpected eof"]%string.

Definition command_cost (c : Command) : f64 :=
  match c with
  | Status => 1%float
  | Auth _ => 2%float
  | Upload _ => 5%float
  | Download _ => 5%float
  | Echo => 1.5%float
  end.

(** [RATE_LIMITER.is_allowed_cost(ip, cost)]. *)
Definition rate_check (ip : IpAddr) (cost : f64) : M bool :=
  let* now := instant_now in
  fun w => let '(ok, l) := is_allowed_cost now ip cost (h_limiter (host w)) in
           (Done ok, on_host (set_limiter l) w).

Section Server.
Context {AG : AesGcm} {HX : Hex} {SH : Sha2} {ED : Ed25519} {XD : X25519} {CH : Chrono}
  {PEH : Postcard ErrorHeader} {PWH : Postcard WarnHeader} {PCM : Postcard Command}
  {PUR : Postcard UploadResponse} {PDR : Postcard DownloadResponse} {PST : Postcard StatusHeader}
  {PED : Postcard EchoDebugHeader} {PM : Postcard MetadataFile}
  {PCH : Postcard ClientHello} {PSH : Postcard ServerHello}.
Variable short : Z -> Z.
Variable cfg : Config.

(** The [match command] at the end. *)
Definition dispatch (command : Command) (network_time : Z) (storage_path : path)
    (session_key client_key : bytes) : M unit :=
  match command with
  | Echo =>
    if enable_echo cfg then handle_echo_perf session_key ;;; flush
    else send_failed ECHO_DISABLED session_key ;;; flush
  | Auth flags => handle_auth_keys cfg flags session_key ;;; flush
  | Upload header =>
    match upload_validate (max_file_size cfg) header with
    | Ok _ => handle_upload header network_time storage_path session_key client_key
    | Err e => send_failed (invalid_header "upload" e) session_key
    end ;;;
    flush
  | Download header =>
    match download_validate header with
    | Ok _ => handle_download short header network_time storage_path session_key client_key
    | Err e => send_failed (invalid_header "download" e) session_key
    end ;;;
    flush
  | Status => send_status session_key
  end.

(** From the command on: the limiter, then the handler. *)
Definition limited_dispatch (client_ip : option IpAddr) (command : Command) (network_time : Z)
    (storage_path : path) (session_key client_key : bytes) : M unit :=
  let* allowed := match client_ip with
                  | Some ip => rate_check ip (command_cost command)
                  | None => ret true
                  end in
  if allowed then dispatch command network_time storage_path session_key client_key
  else send_failed RATE_LIMITED session_key ;;; flush.

(** From the session key on. *)
Definition session (client_ip : option IpAddr) (network_time : Z) (storage_path : path)
    (session_key client_key : bytes) : M unit :=
  put_pool (zeros POOL_SIZE) ;;;
  let* command := try_ (read_headers session_key) in
  match command with
  | Ok command => limited_dispatch client_ip command network_time storage_path session_key client_key
  | Err e =>
    if str_contains e "Timeout" then
      let* _ := try_ (send_failed REQUEST_TIMED_OUT session_key) in ret tt
    else if matches_any EOF_PATTERNS e then ret tt
    else throw e
  end.

Definition handle_connection (client_ip : option IpAddr) (storage_path : path) : M unit :=
  let* network_time := instant_now in
  let* (shared_key, client_key) := map_throw "Handshake failed: " (server_handshake cfg) in
  let* session_key := lift (salt_session_key shared_key) in
  session client_ip network_time storage_path session_key client_key.

(** What the spawned task awaits; the result is only logged. *)
Definition connection_task (client_ip : option IpAddr) (storage_path : path) : M unit :=
  let* _ := timeout (connection_lifetime cfg) (handle_connection client_ip storage_path) in ret tt.

(** * Running a connection *)

Section Laws.
Context {AGL : AesGcmLaws} {HXL : HexLaws} {SHL : Sha2Laws} {PCML : PostcardLaws Command}.

(** What the limiter decides for a command, and the host after it. *)
Definition rated (ip : IpAddr) (c : Command) (h : Host) : bool * Host :=
  let h := tick h in
  let '(ok, l) := is_allowed_cost (h_now h) ip (command_cost c) (h_limiter h) in
  (ok, set_limiter l h).

#[local] Transparent exec.
Lemma exec_rate_check ip c v :
  exec (rate_check ip (command_cost c)) v (Done (rated ip c (v_host v)).1)
    (v_set_host (rated ip c (v_host v)).2 v).
Proof.
  unfold rate_check. eapply exec_bind; [apply exec_instant_now|]. intros w H.
  pose proof (lk_host _ _ H) as Hh. unfold rated. rewrite Hh. cbn [v_host v_set_host].
  destruct (is_allowed_cost _ _ _ _) as [ok l]. eexists. split; [done|].
  apply (looks_on_host (set_limiter l)) in H. by destruct v.
Qed.
#[local] Opaque exec.

Lemma exec_session ip nt root key ck cmd reqb req rest o v v' :
  serialize cmd = Ok reqb -> sealed key reqb req -> zlen req <= MAX_FRAME_LENGTH ->
  v_in v = frame req ++ rest ->
  exec (limited_dispatch ip cmd nt root key ck) (v_set_in rest v) o v' ->
  exec (session ip nt root key ck) v o v'.
Proof.
  intros Hreq Hs Hl Hin H. unfold session. estep exec_set_pool. eapply exec_bind.
  { apply exec_try. unfold read_headers. estep exec_read_encrypt; [exact Hin|exact Hs|done|].
    apply exec_lift_result. by apply deserialize_serialize. }
  exact H.
Qed.

Lemma exec_dispatched ip cmd nt root key ck o v v' :
  (rated ip cmd (v_host v)).1 = true ->
  exec (dispatch cmd nt root key ck) (v_set_host (rated ip cmd (v_host v)).2 v) o v' ->
  exec (limited_dispatch (Some ip) cmd nt root key ck) v o v'.
Proof.
  intros Hok H. unfold limited_dispatch. eapply exec_bind; [apply exec_rate_check|]. by rewrite Hok.
Qed.

(** The limiter only touches its own state and the clock. *)
Lemma rated_host ip c h : exists l now ticks, (rated ip c h).2 = set_limiter l (set_clock now ticks h).
Proof.
  unfold rated. destruct (tick_clock h) as (now & ticks & ->).
  destruct (is_allowed_cost _ _ _ _) as [ok l]. by exists l, now, ticks.
Qed.

(** A command whose cost the client's address cannot pay is not run: the
    client gets the 429 error and nothing else happens to the host than the
    limiter's own bookkeeping and the reading of the clock. *)
Theorem rate_limited_not_served (ip : IpAddr) (nt : Z) (root : path) (key ck : bytes) (cmd : Command)
    (reqb req rest b : bytes) (v : View) :
  zlen key = 32 -> v_shut v = false ->
  serialize cmd = Ok reqb -> sealed key reqb req -> zlen req <= MAX_FRAME_LENGTH ->
  v_in v = frame req ++ rest ->
  (rated ip cmd (v_host v)).1 = false -> serialize RATE_LIMITED = Ok b -> zlen b < U32_MAX ->
  exists answer v', exec (session (Some ip) nt root key ck) v (Done tt) v' /\
    sealed key (byte_of_Z 3 :: b) answer /\ v_out v' = v_out v ++ v_pend v ++ frame answer /\
    v_shut v' = true /\ v_in v' = rest /\ v_host v' = (rated ip cmd (v_host v)).2 /\
    h_fs (v_host v') = h_fs (v_host v) /\ h_locks (v_host v') = h_locks (v_host v) /\
    h_tracker (v_host v') = h_tracker (v_host v).
Proof.
  intros Hk Hs Hreq Hsl Hl Hin Hno Hb Hbl.
  set (v1 := v_set_host (rated ip cmd (v_host v)).2 (v_set_in rest v)).
  exists (packet key (byte_of_Z 3 :: b) v1), (v_close (v_reply key (byte_of_Z 3 :: b) v1)). split_and!.
  - eapply exec_session; [exact Hreq|exact Hsl|done|exact Hin|]. unfold limited_dispatch.
    eapply exec_bind; [apply exec_rate_check|]. cbn [v_set_in v_host]. rewrite Hno. eapply exec_bind.
    { eapply exec_to; [apply exec_send_failed; [done|done|by exists b]|]. unfold v_failed. by rewrite Hb. }
    apply exec_flush_nothing. done.
  - apply packet_sealed; [done|]. rewrite zlen_cons. unfold U32_MAX, P_MAX in *. lia.
  - exact (v_close_reply_out key _ v1).
  - done.
  - done.
  - done.
  - destruct (rated_host ip cmd (v_host v)) as (? & ? & ? & E). simpl. by rewrite E.
  - destruct (rated_host ip cmd (v_host v)) as (? & ? & ? & E). simpl. by rewrite E.
  - destruct (rated_host ip cmd (v_host v)) as (? & ? & ? & E). simpl. by rewrite E.
Qed.

(** A file header that fails its validation is answered with the 400
    error that says why; no handler runs: no file, lock or counter changes. *)
Theorem invalid_header_refused (ip : IpAddr) (nt : Z) (root : path) (key ck : bytes) (cmd : Command)
    (reqb req rest b : bytes) (v : View) :
  let refusal := match cmd with
                 | Upload h => match upload_validate (max_file_size cfg) h with
                               | Err e => Some (invalid_header "upload" e) | Ok _ => None end
                 | Download h => match download_validate h with
                                 | Err e => Some (invalid_header "download" e) | Ok _ => None end
                 | _ => None
                 end in
  forall err, refusal = Some err ->
  zlen key = 32 -> v_shut v = false ->
  serialize cmd = Ok reqb -> sealed key reqb req -> zlen req <= MAX_FRAME_LENGTH ->
  v_in v = frame req ++ rest ->
  (rated ip cmd (v_host v)).1 = true -> serialize err = Ok b -> zlen b < U32_MAX ->
  exists answer v', exec (session (Some ip) nt root key ck) v (Done tt) v' /\
    sealed key (byte_of_Z 3 :: b) answer /\ v_out v' = v_out v ++ v_pend v ++ frame answer /\
    v_shut v' = true /\ v_in v' = rest /\ v_host v' = (rated ip cmd (v_host v)).2.
Proof.
  intros refusal err Href Hk Hs Hreq Hsl Hl Hin Hok Hb Hbl.
  set (v1 := v_set_host (rated ip cmd (v_host v)).2 (v_set_in rest v)).
  exists (packet key (byte_of_Z 3 :: b) v1), (v_close (v_reply key (byte_of_Z 3 :: b) v1)). split_and!.
  - eapply exec_session; [exact Hreq|exact Hsl|done|exact Hin|].
    apply exec_dispatched; [exact Hok|]. fold v1.
    assert (exec (send_failed err key ;;; flush) v1 (Done tt) (v_close (v_reply key (byte_of_Z 3 :: b) v1))) as Hsend.
    { eapply exec_bind; [|by apply exec_flush_nothing].
      eapply exec_to; [apply exec_send_failed; [done|done|by exists b]|]. unfold v_failed. by rewrite Hb. }
    subst refusal. destruct cmd; simpl; try done.
    + destruct (upload_validate _ _) as [|e']; [done|]. injection Href as <-. exact Hsend.
    + destruct (download_validate _) as [|e']; [done|]. injection Href as <-. exact Hsend.
  - apply packet_sealed; [done|]. rewrite zlen_cons. unfold U32_MAX, P_MAX in *. lia.
  - exact (v_close_reply_out key _ v1).
  - done.
  - done.
  - done.
Qed.

(** (C36) Nothing between the handshake and the upload asks whether the client
    is registered: a client whose key has no entry under [authorized_keys],
    whatever the whitelist setting, has its file stored in full, and still has
    no entry afterwards. *)
Theorem unregistered_client_stores_files `{!PostcardLaws MetadataFile} (ip : IpAddr) (nt : Z) (home : path)
    (key ck data reqb req rest b : bytes) (headers : UploadHeader) (pkts cs : list bytes) (v : View) (f1 : fs) :
  let vd := v_set_host (rated ip (Upload headers) (v_host v)).2 (v_set_in (concat pkts ++ rest) v) in
  h_fs (v_host v) !! auth_entry home ck = None ->
  serialize (Upload headers) = Ok reqb -> sealed key reqb req -> zlen req <= MAX_FRAME_LENGTH ->
  v_in v = frame req ++ concat pkts ++ rest ->
  (rated ip (Upload headers) (v_host v)).1 = true -> upload_validate (max_file_size cfg) headers = Ok tt ->
  upload_arrives headers (storage_root home) key ck data pkts cs rest vd f1 ->
  lock_free (u_file_id headers) (h_locks (v_host v)) ->
  encode (sha256_digest data) = u_file_hash headers ->
  f1 !! up_meta headers (storage_root home) ck <> Some Dir ->
  to_io (up_response headers nt vd) = Ok b -> zlen b < U32_MAX ->
  exists v', exec (session (Some ip) nt (storage_root home) key ck) v (Done tt) v' /\
    upload_stored headers (storage_root home) ck data f1 (v_host vd) (v_host v') /\
    h_fs (v_host v') !! auth_entry home ck = None.
Proof.
  intros vd Hno Hreq Hsl Hl Hin Hok Hval Harr Hfree Hh Hm Hb Hbl.
  destruct (rated_host ip (Upload headers) (v_host v)) as (lim & now & ticks & Er).
  assert (lock_free (u_file_id headers) (h_locks (v_host vd))) as Hfree' by (unfold vd; simpl; by rewrite Er).
  destruct (exec_upload_stores headers nt (storage_root home) key ck data pkts cs rest b vd f1)
    as (v1 & Hrun & _ & _ & Hshut & _ & Hst); [done..|].
  eexists. split.
  { eapply exec_session; [exact Hreq|exact Hsl|done|exact Hin|].
    apply exec_dispatched; [exact Hok|]. fold vd. simpl. rewrite Hval.
    eapply exec_bind; [exact Hrun|apply exec_flush]. }
  split; [exact Hst|]. destruct Hst as [_ _ Hrest _ _].
  assert (forall r, auth_entry home ck <> user_dir (storage_root home) ck ++ r) as Hne.
  { intros r E. apply (auth_not_storage home ck ck [] r). by rewrite app_nil_r. }
  cbn [v_host v_set_wr]. rewrite Hrest.
  - destruct (f1 !! auth_entry home ck) as [n|] eqn:E; [|done].
    apply (ua_dir _ _ _ _ _ _ _ _ _ _) in Harr.
    apply create_dir_all_ok in Harr as [[_ Hnew] _]. destruct (Hnew _ _ E) as [H|[_ Hpre]].
    + unfold vd in H. simpl in H. rewrite Er in H. simpl in H. congruence.
    + apply elem_of_prefixes in Hpre as [_ [r Hr]]. exfalso. unfold up_dir in Hr.
      by apply (auth_not_storage home ck ck r [key_name (u_file_key headers)]).
  - unfold up_file, up_dir. rewrite <- app_assoc. apply Hne.
  - unfold up_meta, up_dir. rewrite <- app_assoc. apply Hne.
Qed.

(** A connection's task is over one way or another: whatever the peer does
    or does not send, under the lifetime timer the task either returns (the
    result is logged) or panics; it never waits for ever. *)
Theorem connection_task_ends (ip : option IpAddr) (root : path) (w : World) :
  time_limit (conn w) = None ->
  (connection_task ip root w).1 = Done tt \/ (connection_task ip root w).1 = Panic.
Proof.
  intros Hlim. unfold connection_task, bind, timeout. rewrite Hlim.
  destruct (handle_connection _ _ _) as [[[]|e| |] w1]; simpl; auto.
Qed.

(** A peer that answers the challenge with a short packet: the task panics. *)
Lemma exec_short_connection `{!Ed25519Laws} `{!X25519Laws} `{!PostcardLaws ClientHello} `{!PostcardLaws ServerHello} ip root v ch sh chb shb pkt rest :
  let v1 := v_set_host (tick (v_host v)) v in
  server_keys_match cfg -> server_hello_of cfg v1 ch sh ->
  serialize ch = Ok chb -> serialize sh = Ok shb ->
  0 < zlen chb <= MAX_FRAME_LENGTH -> zlen shb <= U32_MAX -> v_shut v = false ->
  0 < zlen pkt < 64 -> v_in v = frame chb ++ frame pkt ++ rest ->
  exists v', exec (connection_task ip root) v Panic v'.
Proof.
  intros v1 Hk Hsh Hchb Hshb Hcl Hsl Hs Hp Hin.
  destruct (exec_short_handshake cfg v1 ch sh chb shb pkt rest) as [v2 H2]; [done..|].
  exists v2. unfold connection_task. apply exec_bind_panic, exec_timeout_panic. unfold handle_connection.
  eapply exec_bind; [apply exec_instant_now|]. fold v1.
  apply exec_bind_panic. unfold map_throw. apply exec_bind_panic. by apply exec_try_panic.
Qed.
End Laws.
End Server.

Module ServerWitness.
Import Toy AuthWitness TransferWitness.

Definition ip1 : IpAddr := V4 167772161.
Definition command_bytes (c : Command) : bytes := ok_or [] (serialize c).
Definition command_view (h : Host) (c : Command) (tail : bytes) : View :=
  v_set_host h (demo_view (frame (packet_of (command_bytes c)) ++ tail)).

Lemma command_ok c : zlen (command_bytes c) <= 1000000 ->
  sealed demo_key (command_bytes c) (packet_of (command_bytes c)) /\
  zlen (packet_of (command_bytes c)) <= MAX_FRAME_LENGTH.
Proof. apply packet_of_ok. Qed.

(** A limiter that never has a token. *)
Definition dry_host : Host := set_limiter (init_limiter 0%float 0%float) demo_host.

Lemma rate_limited_not_served_witness : exists v',
  exec (session full_reads demo_config (Some ip1) 0 (storage_root home) demo_key csk)
    (command_view dry_host Status []) (Done tt) v' /\ h_fs (v_host v') = demo_fs.
Proof.
  destruct (command_ok Status ltac:(vm_compute; discriminate)) as [Hs Hl].
  destruct (rate_limited_not_served full_reads demo_config ip1 0 (storage_root home) demo_key csk Status
    (command_bytes Status) (packet_of (command_bytes Status)) [] (ok_or [] (serialize RATE_LIMITED))
    (command_view dry_host Status [])) as (answer & v' & H & _ & _ & _ & _ & _ & Hf & _).
  - reflexivity.
  - reflexivity.
  - reflexivity.
  - exact Hs.
  - exact Hl.
  - reflexivity.
  - vm_compute. reflexivity.
  - reflexivity.
  - vm_compute. reflexivity.
  - exists v'. split; [exact H|exact Hf].
Defined.

Definition no_id : DownloadHeader := {| d_file_id := ""; d_file_key := "key" |}.

Lemma invalid_header_refused_witness : exists answer v',
  exec (session full_reads demo_config (Some ip1) 0 (storage_root home) demo_key csk)
    (command_view demo_host (Download no_id) []) (Done tt) v' /\
  sealed demo_key (byte_of_Z 3 :: ok_or [] (serialize (invalid_header "download" BAD_ID))) answer.
Proof.
  destruct (command_ok (Download no_id) ltac:(vm_compute; discriminate)) as [Hs Hl].
  destruct (invalid_header_refused full_reads demo_config ip1 0 (storage_root home) demo_key csk (Download no_id)
    (command_bytes (Download no_id)) (packet_of (command_bytes (Download no_id))) []
    (ok_or [] (serialize (invalid_header "download" BAD_ID)))
    (command_view demo_host (Download no_id) []) (invalid_header "download" BAD_ID))
    as (answer & v' & H & Ha & _).
  - reflexivity.
  - reflexivity.
  - reflexivity.
  - reflexivity.
  - exact Hs.
  - exact Hl.
  - reflexivity.
  - vm_compute. reflexivity.
  - reflexivity.
  - vm_compute. reflexivity.
  - exists answer, v'. split; [exact H|exact Ha].
Defined.

Lemma connection_task_ends_witness :
  (connection_task full_reads demo_config None [] (world_of (demo_view []))).1 = Done tt \/
  (connection_task full_reads demo_config None [] (world_of (demo_view []))).1 = Panic.
Proof. apply connection_task_ends. reflexivity. Defined.

(** * A file of one MiB from a client nobody registered *)

Definition mib : bytes := concat (replicate 16 one_chunk).
Definition mib_hash : string := "0000000000000000000000000000000000000000000000000000000000000000".
Definition mib_headers : UploadHeader :=
  {| u_file_id := "0123456789abcdef0123456789abcdef"; u_file_name := "a.bin"; u_file_size := 1048576;
     u_file_hash := mib_hash; u_file_key := "key" |}.
Definition mib_packets : list bytes := replicate 16 (packet_of one_chunk).
Definition server_host : Host := v_host (server_view server_fs []).
Definition mib_view : View := command_view server_host (Upload mib_headers) (concat mib_packets ++ []).
Definition mib_fs : fs := ok_or ∅ (create_dir_all server_fs (up_dir mib_headers (storage_root home) csk)).

Lemma pad_prefix n a b : 0 <= n <= zlen a -> pad n (a ++ b) = ztake n a.
Proof. intros H. unfold pad. rewrite <- app_assoc. apply ztake_app_le. lia. Qed.

Lemma zlen_one_chunk : zlen one_chunk = READ_CHUNK_SIZE.
Proof. by apply zlen_zeros. Qed.

Lemma mib_digest : encode (sha256_digest mib) = mib_hash.
Proof.
  assert (sha256_digest mib = zeros 32) as ->; [|reflexivity].
  change (pad 32 (one_chunk ++ concat (replicate 15 one_chunk)) = zeros 32).
  rewrite pad_prefix by (rewrite zlen_one_chunk; done).
  unfold ztake, one_chunk, zeros. by rewrite take_replicate.
Qed.

Lemma chunked_replicate c n : zlen c = READ_CHUNK_SIZE -> chunked (Z.of_nat n * READ_CHUNK_SIZE) (replicate n c).
Proof.
  intros Hc. induction n as [|n IH]; [done|].
  assert (0 < READ_CHUNK_SIZE) by done. split; [nia|]. split; [rewrite Hc; nia|].
  replace (_ - _) with (Z.of_nat n * READ_CHUNK_SIZE) by (rewrite Hc; lia). exact IH.
Qed.

Lemma mib_arrives vd : v_shut vd = false -> v_in vd = concat mib_packets ++ [] ->
  h_fs (v_host vd) = server_fs ->
  upload_arrives mib_headers (storage_root home) demo_key csk mib mib_packets (replicate 16 one_chunk) [] vd mib_fs.
Proof.
  intros Hs Hi Hf. split.
  - reflexivity.
  - exact Hs.
  - reflexivity.
  - apply (chunked_replicate one_chunk 16), zlen_one_chunk.
  - apply Forall2_replicate, packet_of_ok. rewrite zlen_one_chunk. vm_compute. discriminate.
  - exact Hi.
  - exists "00000000"%string. reflexivity.
  - rewrite Hf. vm_refl.
  - assert (mib_fs !! up_file mib_headers (storage_root home) csk = None) as E by vm_refl.
    intros H. discriminate (eq_trans (eq_sym E) H).
Qed.

Definition mib_rated : View :=
  v_set_host (rated ip1 (Upload mib_headers) server_host).2 (v_set_in (concat mib_packets ++ []) mib_view).

Lemma unregistered_client_stores_files_witness : exists v',
  exec (session full_reads demo_config (Some ip1) 0 (storage_root home) demo_key csk) mib_view (Done tt) v' /\
  h_fs (v_host v') !! up_file mib_headers (storage_root home) csk = Some (File mib) /\
  h_fs (v_host v') !! auth_entry home csk = None.
Proof.
  destruct (command_ok (Upload mib_headers) ltac:(vm_compute; discriminate)) as [Hs Hl].
  destruct (unregistered_client_stores_files full_reads demo_config ip1 0 home demo_key csk mib
    (command_bytes (Upload mib_headers)) (packet_of (command_bytes (Upload mib_headers))) []
    (ok_or [] (to_io (up_response mib_headers 0 mib_rated)))
    mib_headers mib_packets (replicate 16 one_chunk) mib_view mib_fs) as (v' & H & [Hf _ _ _ _] & Hn).
  - vm_refl.
  - reflexivity.
  - exact Hs.
  - exact Hl.
  - reflexivity.
  - vm_compute. reflexivity.
  - reflexivity.
  - apply mib_arrives; reflexivity.
  - intros l Hl'. discriminate Hl'.
  - apply mib_digest.
  - assert (mib_fs !! up_meta mib_headers (storage_root home) csk = None) as E by vm_refl.
    intros H. discriminate (eq_trans (eq_sym E) H).
  - reflexivity.
  - vm_compute. reflexivity.
  - exists v'. split; [exact H|]. split; [exact Hf|exact Hn].
Defined.
End ServerWitness.
