(* ===== verification/EndToEnd.v ===== *)
(** Whole connections, both programs at once: [handle_connection] against
    [upload_client] and against [download_client], each from its handshake to
    its last byte with the bytes the other wrote, and an upload followed by a
    download of the same file. *)
From S2P Require Import Prelude F64 External RateLimit FileSys Locks Lib Users World Exec Crypto Header Sample Stores Net Handshake Auth Transfer Client Server.

(** A closed conversation: each side runs on exactly the bytes the other side
    sends, and both finish. *)
Definition converse {A} (server : M unit) (client : M A) (a : A) (vs vc vs' vc' : View) : Prop :=
  exists to_server to_client,
    exec server (v_set_in to_server vs) (Done tt) vs' /\
    exec client (v_set_in to_client vc) (Done a) vc' /\
    v_out vs' = v_out vs ++ v_pend vs ++ to_client /\
    v_out vc' = v_out vc ++ v_pend vc ++ to_server.

Lemma exec_map_throw {A} pre (m : M A) v a v1 : exec m v (Done a) v1 -> exec (map_throw pre m) v (Done a) v1.
Proof. intros H. unfold map_throw. eapply exec_bind; [by apply exec_try|]. by apply exec_lift_result. Qed.

Section EndToEnd.
Context {AG : AesGcm} {HX : Hex} {SH : Sha2} {ED : Ed25519} {XD : X25519} {CH : Chrono}
  {PEH : Postcard ErrorHeader} {PWH : Postcard WarnHeader} {PCM : Postcard Command}
  {PUR : Postcard UploadResponse} {PDR : Postcard DownloadResponse} {PST : Postcard StatusHeader}
  {PED : Postcard EchoDebugHeader} {PM : Postcard MetadataFile}
  {PCH : Postcard ClientHello} {PSH : Postcard ServerHello} {JS : Json AuthServerMap}.
Context {AGL : AesGcmLaws} {HXL : HexLaws} {SHL : Sha2Laws} {EDL : Ed25519Laws} {XDL : X25519Laws}
  {PCHL : PostcardLaws ClientHello} {PSHL : PostcardLaws ServerHello} {JSL : JsonLaws AuthServerMap}
  {PCML : PostcardLaws Command} {PML : PostcardLaws MetadataFile}
  {PURL : PostcardLaws UploadResponse} {PDRL : PostcardLaws DownloadResponse}.
Variable short : Z -> Z.
Variable cfg : Config.
Variables (ip : SocketAddr) (cip : IpAddr) (signing_key : bytes) (root : path).

(** * The start of a connection *)

(** The client knows the server's key; the two hellos are those of the two
    generators, and fit a frame. *)
Record greets (vc vs : View) (ch : ClientHello) (sh : ServerHello) (chb shb : bytes)
    (map_file : path) (m : AuthServerMap) (f : fs) : Prop := {
  gr_pair : server_keys_match cfg;
  gr_client : client_hello_of vc ch;
  gr_server : server_hello_of cfg vs ch sh;
  gr_chb : serialize ch = Ok chb;
  gr_shb : serialize sh = Ok shb;
  gr_ch_len : 0 < zlen chb <= MAX_FRAME_LENGTH;
  gr_sh_len : 0 < zlen shb <= MAX_FRAME_LENGTH;
  gr_client_open : v_shut vc = false;
  gr_server_open : v_shut vs = false;
  gr_map : opens_map (v_host vc) map_file m f;
  gr_known : server_map m !! ip = Some (encode (server_pub_key_bytes cfg));
}.

Definition client_id : bytes := vk_to_bytes (verifying_key signing_key).

(** The session key, the time the server starts, and the two views from which
    the command is sent and served. *)
Definition session_key_of (vc : View) (sh : ServerHello) : bytes :=
  sha256_digest (salted (diffie_hellman (v_random 32 vc) (arr (s_x22519_key sh)))).
Definition started (vs : View) : Z := h_now (tick (v_host vs)).
Definition server_at (shb : bytes) (vs : View) : View :=
  v_server_done shb [] (v_set_host (tick (v_host vs)) vs).
Definition client_at (chb : bytes) (f : fs) (vc vs : View) : View :=
  v_client_done chb (answer_to signing_key (challenge_of vs)) [] f vc.
(** The server once the limiter has charged the command. *)
Definition served_at (cmd : Command) (shb : bytes) (vs : View) : View :=
  v_set_host (rated cip cmd (v_host (server_at shb vs))).2 (server_at shb vs).

Section Greeted.
Context (vc vs : View) (ch : ClientHello) (sh : ServerHello) (chb shb : bytes)
  (map_file : path) (m : AuthServerMap) (f : fs).
Hypothesis Hg : greets vc vs ch sh chb shb map_file m f.
Let key := session_key_of vc sh.

Lemma exec_greeted_server rest o vs' :
  exec (session short cfg (Some cip) (started vs) root key client_id) (v_set_in rest (server_at shb vs)) o vs' ->
  exec (handle_connection short cfg (Some cip) root)
    (v_set_in (frame chb ++ frame (answer_to signing_key (challenge_of vs)) ++ rest) vs) o vs'.
Proof.
  intros H. destruct Hg as [Hk Hch Hsh Hchb Hshb Hcl Hsl _ Hss _ _].
  unfold handle_connection. estep exec_instant_now.
  eapply exec_bind.
  { apply exec_map_throw. eapply (exec_server_handshake cfg signing_key _ ch chb sh shb rest); try done.
    - by destruct Hsh.
    - unfold MAX_FRAME_LENGTH, U32_MAX in *. lia. }
  cbn match. estep exec_lift; [apply salt_session_key_eq, diffie_hellman_len|].
  replace (sha256_digest _) with key; [exact H|].
  unfold key, session_key_of. destruct Hch as [-> _], Hsh as [_ -> _ _]. by rewrite diffie_hellman_comm.
Qed.

Lemma exec_greeted_client {A} (k : bytes -> M A) rest o vc' :
  exec (k key) (v_set_in rest (client_at chb f vc vs)) o vc' ->
  exec (let* session_key := map_throw "Handshake failed: " (client_handshake_helper ip signing_key false) in
        k session_key)
    (v_set_in (frame shb ++ frame (challenge_of vs) ++ rest) vc) o vc'.
Proof.
  intros H. destruct Hg as [Hk Hch Hsh Hchb Hshb Hcl Hsl Hsc _ Hopen Hm].
  set (vc0 := v_set_in (frame shb ++ frame (challenge_of vs) ++ rest) vc).
  replace (v_set_in rest _) with (v_client_done chb (answer_to signing_key (challenge_of vs)) rest f vc0) in H by done.
  eapply exec_bind; [|exact H]. apply exec_map_throw.
  apply (exec_client_handshake ip signing_key vc0 ch chb sh shb (challenge_of vs) rest map_file m f cfg vs);
    try done; [unfold MAX_FRAME_LENGTH, U32_MAX in *; lia|].
  rewrite challenge_len. unfold MAX_FRAME_LENGTH. lia.
Qed.

(** A command sealed under the session key reaches its handler. *)
Lemma exec_command cmd reqb req rest o vs' :
  serialize cmd = Ok reqb -> sealed key reqb req -> zlen req <= MAX_FRAME_LENGTH ->
  (rated cip cmd (v_host (server_at shb vs))).1 = true ->
  exec (dispatch short cfg cmd (started vs) root key client_id) (v_set_in rest (served_at cmd shb vs)) o vs' ->
  exec (handle_connection short cfg (Some cip) root)
    (v_set_in (frame chb ++ frame (answer_to signing_key (challenge_of vs)) ++ frame req ++ rest) vs) o vs'.
Proof.
  intros Hreq Hs Hl Hok H. apply exec_greeted_server. eapply exec_session; try done. by apply exec_dispatched.
Qed.
End Greeted.

(** * An upload *)

Lemma source_before (vc : View) map_file (m : AuthServerMap) f p data : opens_map (v_host vc) map_file m f ->
  lookup_node f p = Some (File data) -> lookup_node (h_fs (v_host vc)) p = Some (File data).
Proof.
  intros [_ _ Hd _] H. apply create_dir_all_ok in Hd as [[_ Hnew] _].
  destruct p as [|c p]; [done|]. rewrite lookup_node_nonempty in * by done.
  by destruct (Hnew _ _ H) as [|[? _]].
Qed.

Section Upload.
Context (vc vs : View) (ch : ClientHello) (sh : ServerHello) (chb shb : bytes)
  (map_file : path) (m : AuthServerMap) (f : fs).
Context (p : path) (name file_key file_id : string) (data reqb b : bytes) (f1 : fs).
Let headers := announce name file_key file_id data.

(** A file the client can push on this connection. *)
Record can_push : Prop := {
  cp_greets : greets vc vs ch sh chb shb map_file m f;
  cp_name : file_name p = Some name;
  cp_rate : (rated cip (Upload headers) (v_host (server_at shb vs))).1 = true;
  cp_valid : upload_validate (max_file_size cfg) headers = Ok tt;
  cp_ready : upload_ready p root name file_key file_id (started vs) (session_key_of vc sh) client_id data
    reqb b (client_at chb f vc vs) (served_at (Upload headers) shb vs) f1;
}.

Lemma push_connection : can_push -> whole_chunks short data -> exists vs' vc',
  converse (handle_connection short cfg (Some cip) root) (upload_client short p file_key file_id ip signing_key)
    file_id vs vc vs' vc' /\
  upload_stored headers root client_id data f1 (v_host (served_at (Upload headers) shb vs)) (v_host vs').
Proof.
  intros [Hg Hn Hrate Hval Hr] Hfull.
  destruct (upload_packets_sealed _ _ _ _ _ _ _ _ _ _ _ _ _ _ _ Hr Hfull) as (_ & _ & Hreq & _).
  destruct (exec_upload_pair _ _ _ _ _ _ _ _ _ _ _ _ [] [] _ _ _ Hr Hfull) as (vs' & vc' & Hs & Hc & Ho & Hpe & _ & Hco & _ & Hst).
  eexists _, vc'. split; [|exact Hst]. do 2 eexists. split; [|split; [|split]].
  - eapply exec_command; [exact Hg|apply (ur_request _ _ _ _ _ _ _ _ _ _ _ _ _ _ Hr)|exact Hreq| |exact Hrate|].
    { rewrite (sealed_len _ _ _ Hreq). apply ur_request_len in Hr. unfold NONCE_LEN, TAG_LEN. lia. }
    cbn [dispatch]. fold headers. rewrite Hval. eapply exec_bind; [exact Hs|]. by apply exec_flush_nothing.
  - unfold upload_client. estep exec_lift_result; [by rewrite Hn|]. estep exec_gets_fs. unfold metadata_len.
    pose proof (ur_source _ _ _ _ _ _ _ _ _ _ _ _ _ _ Hr) as Hsrc.
    cbn [v_set_in v_host]. rewrite (source_before vc map_file m f p data (gr_map _ _ _ _ _ _ _ _ _ Hg) Hsrc).
    estep exec_lift_result; [done|]. eapply exec_greeted_client; [exact Hg|]. exact Hc.
  - rewrite Ho. cbn. by rewrite app_nil_r, <- !app_assoc.
  - rewrite Hco. cbn. by rewrite app_nil_r, <- !app_assoc.
Qed.
End Upload.

(** * A download *)

Lemma served_fs cmd shb vs : h_fs (v_host (served_at cmd shb vs)) = h_fs (v_host vs).
Proof.
  unfold served_at. destruct (rated_host cip cmd (v_host (server_at shb vs))) as (l & now & ticks & E).
  cbn [v_set_host v_host]. rewrite E. unfold server_at. cbn. by destruct (tick_clock (v_host vs)) as (? & ? & ->).
Qed.

Section Download.
Context (vc vs : View) (ch : ClientHello) (sh : ServerHello) (chb shb : bytes)
  (map_file : path) (m : AuthServerMap) (f : fs).
Context (cwd : path) (output : option path) (file_key file_id : string) (data reqb b : bytes) (meta : MetadataFile).
Let headers := {| d_file_id := file_id; d_file_key := file_key |}.
Let out := join (default cwd output) (m_filename meta).

(** The rest of what a client needs to pull a file on this connection. *)
Record can_pull : Prop := {
  cl_greets : greets vc vs ch sh chb shb map_file m f;
  cl_rate : (rated cip (Download headers) (v_host (server_at shb vs))).1 = true;
  cl_valid : download_validate headers = Ok tt;
  cl_ready : download_ready cwd output file_id file_key (started vs) (session_key_of vc sh)
    reqb b meta (client_at chb f vc vs) (served_at (Download headers) shb vs);
}.

Lemma pull_connection : can_pull -> whole_chunks short data -> stored_whole (h_fs (v_host vs)) headers root client_id meta data ->
  exists vs' vc',
    converse (handle_connection short cfg (Some cip) root) (download_client cwd output file_id file_key ip signing_key)
      out vs vc vs' vc' /\
    h_fs (v_host vc') = <[out := File data]> f /\ h_fs (v_host vs') = h_fs (v_host vs).
Proof.
  intros [Hg Hrate Hval Hr] Hfull Hw. rewrite <- (served_fs (Download headers) shb vs) in Hw.
  destruct (download_packets_sealed _ _ _ _ _ _ _ _ _ _ _ _ _ Hr Hfull) as (_ & Hreq & _).
  destruct (exec_download_pair _ _ _ _ _ _ _ _ _ _ _ _ [] [] _ _ _ Hw Hr Hfull)
    as (vs' & vc' & Hs & Hc & Ho & Hpe & Hco & Hcf & Hsf).
  exists vs', vc'. rewrite served_fs in Hsf. split; [|by split]. do 2 eexists. split; [|split; [|split]].
  - eapply exec_command; [exact Hg|apply (dw_request _ _ _ _ _ _ _ _ _ _ _ Hr)|exact Hreq| |exact Hrate|].
    { rewrite (sealed_len _ _ _ Hreq). apply dw_request_len in Hr. unfold NONCE_LEN, TAG_LEN. lia. }
    cbn [dispatch]. fold headers. rewrite Hval. eapply exec_bind; [exact Hs|]. by apply exec_flush_nothing.
  - eapply exec_greeted_client; [exact Hg|]. exact Hc.
  - rewrite Ho. cbn. by rewrite ?app_nil_r, <- !app_assoc.
  - rewrite Hco. cbn. by rewrite app_nil_r, <- !app_assoc.
Qed.
End Download.

(** * An upload, then a download *)

(** A complete upload has stored the file whole, and it stays so in any
    well-formed tree with the same client directory. *)
Lemma stored_upload_whole name file_key file_id data f1 h h' f2 :
  let headers := announce name file_key file_id data in
  upload_stored headers root client_id data f1 h h' ->
  fs_wf f2 -> (forall q, under (user_dir root client_id) q -> f2 !! q = h_fs h' !! q) ->
  stored_whole f2 {| d_file_id := file_id; d_file_key := file_key |} root client_id (up_metadata headers) data.
Proof.
  intros headers [Hf Hm _ _ _] Hwf Hsame. split; [split|done|done].
  - done.
  - unfold read_from_disk, read_file in *. unfold up_meta, up_dir in Hm. rewrite <- app_assoc in Hm.
    unfold down_meta. rewrite !lookup_node_nonempty in * by (by destruct (user_dir root client_id)).
    by rewrite Hsame by apply under_app.
  - unfold up_file, up_dir in Hf. rewrite <- app_assoc in Hf.
    unfold down_file. by rewrite Hsame by apply under_app.
  - apply str_prefix_encode. rewrite sha256_digest_len. lia.
Qed.

Lemma stored_upload_wf p name file_key file_id t key data reqb b (vc vs : View) f1 h h' :
  let headers := announce name file_key file_id data in
  fs_wf (h_fs (v_host vs)) ->
  upload_ready p root name file_key file_id t key client_id data reqb b vc vs f1 ->
  upload_stored headers root client_id data f1 h h' -> fs_wf (h_fs h').
Proof.
  intros headers Hwf Hr [Hf Hm Hrest _ _]. pose proof (ur_dirs _ _ _ _ _ _ _ _ _ _ _ _ _ _ Hr) as Hd.
  pose proof (create_dir_all_wf _ _ _ Hwf Hd) as Hwf1.
  apply create_dir_all_ok in Hd as [_ Hd]. apply bool_decide_eq_true in Hd.
  assert (forall q, lookup_node f1 q = Some Dir -> lookup_node (h_fs h') q = Some Dir) as Hdirs.
  { intros [|c q] Hq; [done|]. rewrite lookup_node_nonempty in * by done. rewrite Hrest; [done|..]; intros E; rewrite E in Hq;
      [by apply (ur_no_dir_file _ _ _ _ _ _ _ _ _ _ _ _ _ _ Hr)|by apply (ur_no_dir_meta _ _ _ _ _ _ _ _ _ _ _ _ _ _ Hr)]. }
  intros q n Hq.
  destruct (decide (q = up_file headers root client_id)) as [->|Hn1];
    [|destruct (decide (q = up_meta headers root client_id)) as [->|Hn2]].
  1, 2: split; unfold up_file, up_meta; [by destruct (up_dir headers root client_id)|]; rewrite parent_snoc; by apply Hdirs.
  rewrite Hrest in Hq by done. apply Hwf1 in Hq as [Hq0 Hp]. split; [done|by apply Hdirs].
Qed.

(** (C1) What is pushed comes back when it is pulled, if the file is made of
    whole chunks: every read of it fills the 64 KiB buffer, so its size is a
    multiple of 64 KiB. (On a file of any other size [upload_client] panics,
    [unaligned_upload_panics], and so does [handle_download],
    [unaligned_download_panics].) A client that can push such a file, its input
    valid and its address within its rate, uploads it in one connection, from
    its handshake on, each program running on exactly the bytes the other sends;
    both finish. At any later time at which the directory of
    that client is as the upload left it, whatever else the server has done
    meanwhile ([clients_isolated] says the other clients leave it alone), the
    client connects again, with new session keys, and downloads the file under
    the same id and key; both programs finish, the output file has the uploaded
    file's name and holds exactly its bytes, and the server's files are as
    before. *)
Theorem pushed_file_comes_back (vc1 vs1 : View) (ch1 : ClientHello) (sh1 : ServerHello) (chb1 shb1 : bytes)
    (map1 : path) (m1 : AuthServerMap) (fc1 : fs)
    (p : path) (name file_key file_id : string) (data reqb1 b1 : bytes) (f1 : fs) :
  whole_chunks short data ->
  can_push vc1 vs1 ch1 sh1 chb1 shb1 map1 m1 fc1 p name file_key file_id data reqb1 b1 f1 ->
  exists vs1' vc1',
    converse (handle_connection short cfg (Some cip) root) (upload_client short p file_key file_id ip signing_key)
      file_id vs1 vc1 vs1' vc1' /\
    (fs_wf (h_fs (v_host vs1)) -> fs_wf (h_fs (v_host vs1'))) /\
    forall vc2 vs2 ch2 sh2 chb2 shb2 map2 m2 fc2 cwd output reqb2 b2,
      let out := join (default cwd output) name in
      fs_wf (h_fs (v_host vs2)) ->
      (forall q, under (user_dir root client_id) q -> h_fs (v_host vs2) !! q = h_fs (v_host vs1') !! q) ->
      can_pull vc2 vs2 ch2 sh2 chb2 shb2 map2 m2 fc2 cwd output file_key file_id reqb2 b2
        (up_metadata (announce name file_key file_id data)) ->
      exists vs2' vc2',
        converse (handle_connection short cfg (Some cip) root) (download_client cwd output file_id file_key ip signing_key)
          out vs2 vc2 vs2' vc2' /\
        h_fs (v_host vc2') = <[out := File data]> fc2 /\ h_fs (v_host vs2') = h_fs (v_host vs2).
Proof.
  intros Hfull Hpush. destruct (push_connection _ _ _ _ _ _ _ _ _ _ _ _ _ _ _ _ _ Hpush Hfull) as (vs1' & vc1' & Hconv & Hst).
  exists vs1', vc1'. split; [exact Hconv|]. split.
  { rewrite <- (served_fs (Upload (announce name file_key file_id data)) shb1). intros Hwf.
    eapply stored_upload_wf; [exact Hwf|by destruct Hpush|exact Hst]. }
  intros vc2 vs2 ch2 sh2 chb2 shb2 map2 m2 fc2 cwd output reqb2 b2 out Hwf Hsame Hpull.
  eapply stored_upload_whole in Hst; [|exact Hwf|exact Hsame].
  exact (pull_connection _ _ _ _ _ _ _ _ _ _ _ _ _ _ _ _ _ Hpull Hfull Hst).
Qed.
End EndToEnd.

Module EndToEndWitness.
Import Toy HandshakeWitness AuthWitness TransferWitness ServerWitness.

Definition ID : string := "0123456789abcdef0123456789abcdef".
Definition src : path := home ++ ["a.bin"%string].
Definition client_fs : fs := <[src := File mib]> (files_with server_hex).
Definition push_client : View := v_set_fs client_fs (client_start server_hex [] []).
Definition push_server : View := server_view server_fs [].

Lemma announce_mib : announce "a.bin" "key" ID mib = mib_headers.
Proof.
  assert (zlen mib = 1048576) as E.
  { unfold mib. rewrite zlen_full_chunks by apply Forall_replicate, zlen_one_chunk.
    by rewrite length_replicate. }
  unfold announce. by rewrite E, mib_digest.
Qed.

Lemma client_id_eq : client_id csk = csk.
Proof. vm_refl. Qed.

Lemma files_wf : fs_wf (files_with server_hex).
Proof.
  unfold files_with. destruct (create_dir_all demo_fs (parent map_path)) as [f|] eqn:E; [|by vm_compute in E].
  apply fs_wf_ok_or. intros f' H. unfold server_map_write in H. destruct (to_string_pretty _); [|done].
  eapply write_file_wf; [|exact H]. eapply create_dir_all_wf; [apply demo_fs_wf|exact E].
Qed.

Lemma push_fs_wf : fs_wf client_fs.
Proof.
  apply fs_wf_insert; [apply files_wf|done|vm_refl|].
  assert (files_with server_hex !! src = None) as E by vm_refl. right. intros H. discriminate (eq_trans (eq_sym E) H).
Qed.

Lemma push_map : opens_map (v_host push_client) map_path (map_with server_hex) client_fs.
Proof.
  split; [reflexivity|discriminate| |].
  - apply create_dir_all_existing; [apply push_fs_wf|]. unfold client_fs.
    rewrite lookup_node_insert by done. rewrite decide_False by discriminate. vm_refl.
  - assert (lookup_node client_fs map_path = lookup_node (files_with server_hex) map_path) as E.
    { unfold client_fs. rewrite lookup_node_insert by done. by rewrite decide_False by discriminate. }
    unfold exists_, server_map_read, read_file. rewrite E. vm_refl.
Qed.

(** The hellos do not depend on the files. *)
Lemma client_hello_fs v f ch : client_hello_of v ch -> client_hello_of (v_set_fs f v) ch.
Proof. by intros []. Qed.
Lemma server_hello_fs cfg v f ch sh : server_hello_of cfg v ch sh -> server_hello_of cfg (v_set_fs f v) ch sh.
Proof. by intros []. Qed.

Lemma demo_greets fc fsv : opens_map (v_host (v_set_fs fc (client_start server_hex [] []))) map_path (map_with server_hex) fc ->
  greets demo_config demo_ip (v_set_fs fc (client_start server_hex [] [])) (server_view fsv [])
    the_client_hello the_server_hello chb shb map_path (map_with server_hex) fc.
Proof.
  intros Hmap. split.
  - reflexivity.
  - apply client_hello_fs. split; vm_refl.
  - apply server_hello_fs, hello_ok.
  - vm_refl.
  - vm_refl.
  - split; vm_compute; [reflexivity|discriminate].
  - split; vm_compute; [reflexivity|discriminate].
  - reflexivity.
  - reflexivity.
  - exact Hmap.
  - vm_refl.
Qed.

Definition mib_request : bytes := ok_or [] (serialize (Upload mib_headers)).
Definition mib_answer : bytes := ok_or [] (to_io (up_response mib_headers 0 (demo_view []))).

Lemma mib_full : whole_chunks full_reads mib.
Proof.
  apply (chunked_full 16). assert (zlen mib = 16 * READ_CHUNK_SIZE) as E.
  { unfold mib. rewrite zlen_full_chunks by apply Forall_replicate, zlen_one_chunk. by rewrite length_replicate. }
  change (Z.of_nat 16 * READ_CHUNK_SIZE) with (16 * READ_CHUNK_SIZE). rewrite <- E at 1. apply full_reads_chunked.
  rewrite E. reflexivity.
Qed.

Lemma mib_push : can_push demo_config demo_ip ip1 csk (storage_root home) push_client push_server
  the_client_hello the_server_hello chb shb map_path (map_with server_hex) client_fs
  src "a.bin" "key" ID mib mib_request mib_answer mib_fs.
Proof.
  split.
  - apply demo_greets, push_map.
  - reflexivity.
  - reflexivity.
  - rewrite announce_mib. reflexivity.
  - split; rewrite ?announce_mib, ?served_fs, ?client_id_eq.
    + apply sha256_digest_len.
    + reflexivity.
    + reflexivity.
    + exact (lookup_insert_eq _ _ _).
    + reflexivity.
    + vm_compute. discriminate.
    + vm_refl.
    + assert (mib_fs !! up_file mib_headers (storage_root home) csk = None) as E by vm_refl.
      intros H. discriminate (eq_trans (eq_sym E) H).
    + assert (mib_fs !! up_meta mib_headers (storage_root home) csk = None) as E by vm_refl.
      intros H. discriminate (eq_trans (eq_sym E) H).
    + intros l Hl. discriminate Hl.
    + reflexivity.
    + vm_compute. reflexivity.
Qed.

(** The later download: another machine of the same client, and whatever
    server state has the files the upload left. *)
Definition pull_client : View := v_set_fs (files_with server_hex) (client_start server_hex [] []).
Definition mib_pull : bytes := ok_or [] (serialize (Download {| d_file_id := ID; d_file_key := "key" |})).
Definition mib_header : bytes :=
  ok_or [] (serialize (down_response (up_metadata mib_headers) 0 (demo_view []))).

Lemma mib_can_pull sk fsv : can_pull demo_config demo_ip ip1 sk pull_client (server_view fsv [])
  the_client_hello the_server_hello chb shb map_path (map_with server_hex) (files_with server_hex)
  home None "key" ID mib_pull mib_header (up_metadata (announce "a.bin" "key" ID mib)).
Proof.
  rewrite announce_mib. split.
  - apply demo_greets, map_opens. by left.
  - reflexivity.
  - reflexivity.
  - split.
    + apply sha256_digest_len.
    + reflexivity.
    + reflexivity.
    + intros l Hl. discriminate Hl.
    + reflexivity.
    + vm_compute. reflexivity.
    + reflexivity.
    + vm_compute. discriminate.
    + vm_refl.
    + discriminate.
    + assert (files_with server_hex !! (home ++ ["a.bin"%string]) = None) as E by vm_refl.
      intros H. discriminate (eq_trans (eq_sym E) H).
Qed.

Lemma pushed_file_comes_back_witness : exists vs1' vc1',
  converse (handle_connection full_reads demo_config (Some ip1) (storage_root home))
    (upload_client full_reads src "key" ID demo_ip csk) ID push_server push_client vs1' vc1' /\
  exists vs2' vc2',
    converse (handle_connection full_reads demo_config (Some ip1) (storage_root home))
      (download_client home None ID "key" demo_ip csk) (home ++ ["a.bin"%string])
      (server_view (h_fs (v_host vs1')) []) pull_client vs2' vc2' /\
    h_fs (v_host vc2') !! (home ++ ["a.bin"%string]) = Some (File mib).
Proof.
  destruct (pushed_file_comes_back full_reads demo_config demo_ip ip1 csk (storage_root home) push_client push_server
    the_client_hello the_server_hello chb shb map_path (map_with server_hex) client_fs
    src "a.bin" "key" ID mib mib_request mib_answer mib_fs mib_full mib_push) as (vs1' & vc1' & H1 & Hwf & H2).
  exists vs1', vc1'. split; [exact H1|].
  destruct (H2 pull_client (server_view (h_fs (v_host vs1')) []) the_client_hello the_server_hello chb shb map_path
    (map_with server_hex) (files_with server_hex) home None mib_pull mib_header) as (vs2' & vc2' & H3 & H4 & _).
  - exact (Hwf server_fs_wf).
  - reflexivity.
  - apply mib_can_pull.
  - exists vs2', vc2'. split; [exact H3|].
    apply (eq_trans (f_equal (fun f : fs => f !! (home ++ ["a.bin"%string])) H4)). apply lookup_insert_eq.
Defined.
End EndToEndWitness.
