(* ===== verification/Account.v ===== *)
(** A user's account over several connections: registration, rotation of the
    key and the status request as whole connections, [handle_connection]
    against [auth_client] and [get_server_status]; a file pushed before a
    rotation and pulled after it; and what an observer of one handshake can do
    with what it saw. *)
From Stdlib Require Import Floats.
From S2P Require Import Prelude F64 External RateLimit FileSys Locks Lib Users World Exec Crypto Header Sample Stores Net Handshake Auth Transfer Client Server EndToEnd.

Section Account.
Context {AG : AesGcm} {HX : Hex} {SH : Sha2} {ED : Ed25519} {XD : X25519} {CH : Chrono}
  {PEH : Postcard ErrorHeader} {PWH : Postcard WarnHeader} {PCM : Postcard Command}
  {PUR : Postcard UploadResponse} {PDR : Postcard DownloadResponse} {PST : Postcard StatusHeader}
  {PED : Postcard EchoDebugHeader} {PM : Postcard MetadataFile}
  {PCH : Postcard ClientHello} {PSH : Postcard ServerHello} {JS : Json AuthServerMap}.
Context {AGL : AesGcmLaws} {HXL : HexLaws} {SHL : Sha2Laws} {EDL : Ed25519Laws} {XDL : X25519Laws}
  {PCHL : PostcardLaws ClientHello} {PSHL : PostcardLaws ServerHello} {JSL : JsonLaws AuthServerMap}
  {PCML : PostcardLaws Command} {PML : PostcardLaws MetadataFile}
  {PURL : PostcardLaws UploadResponse} {PDRL : PostcardLaws DownloadResponse} {PSTL : PostcardLaws StatusHeader}.

(** A client signs any challenge of 64 bytes that a server it trusts sends. *)
Lemma exec_signs_challenge cfg ip sk (vc vm : View) ch sh chb shb map_file m f challenge :
  greets cfg ip vc vm ch sh chb shb map_file m f -> zlen challenge = 64 ->
  exists k vc', exec (client_handshake_helper ip sk false) (v_set_in (frame shb ++ frame challenge) vc) (Done k) vc' /\
    v_out vc' = v_out vc ++ v_pend vc ++ frame chb ++ frame (answer_to sk challenge).
Proof.
  intros [Hk Hch Hso Hchb Hshb Hcl Hsl Hsc _ Hopen Hm] Hlen. eexists _, _. split.
  - apply (exec_client_handshake ip sk _ ch chb sh shb challenge [] map_file m f cfg vm);
      try done; [unfold MAX_FRAME_LENGTH, U32_MAX in *; lia|rewrite Hlen; unfold MAX_FRAME_LENGTH; lia|].
    cbn. by rewrite app_nil_r.
  - done.
Qed.

Variable short : Z -> Z.
Variable cfg : Config.
Variables (ip : SocketAddr) (cip : IpAddr) (root : path).

Lemma session_key_len vc sh : zlen (session_key_of vc sh) = 32.
Proof. apply sha256_digest_len. Qed.

(** The server's state keeps what an authentication needs while the limiter
    charges the command. *)
Lemma served_server_files home cmd shb vs : server_files home (v_host vs) ->
  server_files home (v_host (served_at cip cmd shb vs)).
Proof.
  intros [Hh Hw Ha Hs].
  assert (h_home (v_host (served_at cip cmd shb vs)) = h_home (v_host vs)) as E.
  { unfold served_at. destruct (rated_host cip cmd (v_host (server_at shb vs))) as (l & now & ticks & E).
    cbn [v_set_host v_host]. rewrite E. unfold server_at. cbn. by destruct (tick_clock (v_host vs)) as (? & ? & ->). }
  split; rewrite ?E, ?served_fs; done.
Qed.

(** * Authentication, as a whole connection *)

Section Connection.
Context (sk : bytes) (vc vs : View) (ch : ClientHello) (sh : ServerHello) (chb shb : bytes)
  (map_file : path) (m : AuthServerMap) (f : fs) (flag : Z) (reqb : bytes).
Let key := session_key_of vc sh.
Let vs0 := served_at cip (Auth flag) shb vs.
Let vc0 := client_at sk chb f vc vs.

(** A client with key [sk] that can ask for authentication on this connection. *)
Record can_auth : Prop := {
  ca_greets : greets cfg ip vc vs ch sh chb shb map_file m f;
  ca_request : serialize (Auth flag) = Ok reqb;
  ca_len : zlen reqb <= 1000;
  ca_rate : (rated cip (Auth flag) (v_host (server_at shb vs))).1 = true;
}.

Lemma auth_connection new old plain f2 : can_auth -> zlen plain <= 1000 ->
  (forall hdr, sealed key plain hdr -> zlen hdr <= MAX_FRAME_LENGTH ->
    exec (handle_auth_keys cfg flag key) (v_set_in (frame hdr ++ []) vs0) (Done tt)
      (v_reply key ACK (v_set_fs f2 (v_set_in [] (v_challenged key vs0))))) ->
  (forall c1 c2, sealed key (sha512_digest (v_random 64 vs0)) c1 -> zlen c1 <= MAX_FRAME_LENGTH ->
    sealed key ACK c2 -> zlen c2 <= MAX_FRAME_LENGTH ->
    exec (auth_request sk new old key) (v_set_in (frame c1 ++ frame c2 ++ []) vc0) (Done tt)
      (v_set_in [] (v_reply key plain (v_set_in (frame c2 ++ []) (v_reply key reqb vc0))))) ->
  exists vs' vc',
    converse (handle_connection short cfg (Some cip) root) (auth_client ip sk new old) tt vs vc vs' vc' /\
    h_fs (v_host vs') = f2 /\ h_fs (v_host vc') = f.
Proof.
  intros [Hg Hreq Hrl Hrate] Hpl Hserver Hclient.
  assert (zlen key = 32) as Hk by apply session_key_len.
  destruct (exec_auth_pair _ _ key plain reqb f2 [] [] vc0 vs0 Hk eq_refl Hpl
    ltac:(unfold U32_MAX; lia) Hserver Hclient)
    as (req & hdr & c1 & c2 & vs' & vc' & Hs & Hc & Ho & Hco & Hreq' & Hpe & _ & Hf & Hfc).
  exists vs', vc'. split; [|split; [exact Hf|by rewrite Hfc]]. do 2 eexists. split; [|split; [|split]].
  - eapply exec_command; [exact Hg|exact Hreq|exact Hreq'| |exact Hrate|].
    { rewrite (sealed_len _ _ _ Hreq'). unfold NONCE_LEN, TAG_LEN, MAX_FRAME_LENGTH. lia. }
    cbn [dispatch]. eapply exec_bind; [exact Hs|]. by apply exec_flush_nothing.
  - unfold auth_client. eapply exec_greeted_client; [exact Hg|]. exact Hc.
  - rewrite Ho. cbn. by rewrite ?app_nil_r, <- !app_assoc.
  - rewrite Hco. cbn. by rewrite app_nil_r, <- !app_assoc.
Qed.
End Connection.

(** (C26) Registration over a whole connection, where the server lets new keys
    in: its [ENABLE_CLIENT_WHITELIST] is true (the default in the code), and
    nobody has used the client's key, so neither of its two directories exists.
    (With the setting false, as in the shipped settings file, the handler
    refuses a new key, [whitelist_off_refuses_new_clients]; the README has it the
    other way round.) [auth_client] and the server,
    from the handshake on, each on the bytes the other sends, both finish; the
    server has the two directories of the client's key and is otherwise
    unchanged. *)
Theorem registration_connection home sk vc vs ch sh chb shb map_file m f reqb :
  let pk := client_id sk in
  can_auth vc vs ch sh chb shb map_file m f 1 reqb -> server_files home (v_host vs) ->
  enable_client_whitelist cfg = true ->
  h_fs (v_host vs) !! auth_entry home pk = None -> h_fs (v_host vs) !! user_dir (storage_root home) pk = None ->
  exists vs' vc',
    converse (handle_connection short cfg (Some cip) root) (auth_client ip sk (verifying_key sk) None) tt vs vc vs' vc' /\
    h_fs (v_host vs') = <[user_dir (storage_root home) pk := Dir]> (<[auth_entry home pk := Dir]> (h_fs (v_host vs))) /\
    h_fs (v_host vc') = f.
Proof.
  intros pk Hca Hf Hwl Ha Hst. pose proof (served_server_files home (Auth 1) shb vs Hf) as Hf'.
  pose proof (session_key_len vc sh) as Hk. set (vs0 := served_at cip (Auth 1) shb vs) in *.
  assert (h_fs (v_host vs0) = h_fs (v_host vs)) as E by apply served_fs. rewrite <- E in *.
  eapply (auth_connection sk vc vs ch sh chb shb map_file m f 1 reqb (verifying_key sk) None
    (registration_packet sk (sha512_digest (v_random 64 vs0)))); [exact Hca|..].
  - unfold registration_packet, auth_packet. rewrite !zlen_app, sha512_len, ed_sign_len, vk_len. lia.
  - intros hdr Hh Hhl. apply (exec_register_packet cfg home sk (sha512_digest (v_random 64 vs0)));
      [done|done|done|done|done|done|apply sha512_len|done|done].
  - intros c1 c2 ????. destruct Hca.
    apply (exec_auth_request sk (sha512_digest (v_random 64 vs0)) _ reqb c1 c2 [] (client_at sk chb f vc vs));
      [done|done|apply sha512_len|done|unfold U32_MAX; lia|done..].
Qed.

(** A user moves to the key [new]. *)
Lemma rotation_connection home sk new vc vs ch sh chb shb map_file m f reqb :
  can_auth vc vs ch sh chb shb map_file m f 2 reqb -> server_files home (v_host vs) ->
  can_rotate home (client_id sk) (vk_to_bytes new) (h_fs (v_host vs)) ->
  exists vs' vc',
    converse (handle_connection short cfg (Some cip) root) (auth_client ip sk new (Some (verifying_key sk))) tt vs vc vs' vc' /\
    rotated home (client_id sk) (vk_to_bytes new) (h_fs (v_host vs)) (h_fs (v_host vs')) /\
    fs_wf (h_fs (v_host vs')) /\ h_fs (v_host vc') = f.
Proof.
  intros Hca Hf Hcr. pose proof (served_server_files home (Auth 2) shb vs Hf) as Hf'.
  pose proof (session_key_len vc sh) as Hk. set (vs0 := served_at cip (Auth 2) shb vs) in *.
  assert (h_fs (v_host vs0) = h_fs (v_host vs)) as E by apply served_fs. rewrite <- E in Hcr |- *.
  destruct (exec_rotation cfg home (verifying_key sk) new (v_host vs0)) as (f' & Hro & Hwf & He); [done..|].
  destruct (auth_connection sk vc vs ch sh chb shb map_file m f 2 reqb new (Some (verifying_key sk))
    (rotation_packet sk (vk_to_bytes new) (sha512_digest (v_random 64 vs0))) f') as (vs' & vc' & Hc & Hfs & Hfc);
    [exact Hca|..].
  - unfold rotation_packet, auth_packet. rewrite !zlen_app, sha512_len, ed_sign_len, !vk_len. lia.
  - intros hdr Hh Hhl. apply (He _ (sha512_digest (v_random 64 vs0)) (ed_sign sk (sha512_digest (v_random 64 vs0))) hdr);
      [done|done|done|apply sha512_len|apply ed_sign_len|apply ed_verify_strict_sign|done|done].
  - intros c1 c2 ????. destruct Hca.
    apply (exec_auth_rotation sk new (sha512_digest (v_random 64 vs0)) _ reqb c1 c2 [] (client_at sk chb f vc vs));
      [done|done|apply sha512_len|done|unfold U32_MAX; lia|done..].
  - exists vs', vc'. rewrite Hfs, Hfc. done.
Qed.

(** * A file pushed before a rotation *)

Lemma rotated_stored_whole home headers old new meta data f f' : rotated home old new f f' -> fs_wf f' ->
  stored_whole f headers (storage_root home) old meta data -> stored_whole f' headers (storage_root home) new meta data.
Proof.
  intros Hro Hwf [[_ Hm Hf Hh] Hs Hd]. split; [split|done|done]; [done| | |done].
  - unfold read_from_disk, read_file, down_meta in *. rewrite lookup_node_nonempty in * by (by destruct home).
    by rewrite (ro_files _ _ _ _ _ Hro).
  - unfold down_file in *. by rewrite (ro_files _ _ _ _ _ Hro).
Qed.

Lemma same_dir_stored_whole headers ck meta data f f' r : fs_wf f' ->
  (forall q, under (user_dir r ck) q -> f' !! q = f !! q) ->
  user_dir r ck <> [] ->
  stored_whole f headers r ck meta data -> stored_whole f' headers r ck meta data.
Proof.
  intros Hwf Hsame Hne [[_ Hm Hf Hh] Hs Hd]. split; [split|done|done]; [done| | |done].
  - unfold read_from_disk, read_file, down_meta in *.
    rewrite lookup_node_nonempty in * by (by destruct (user_dir r ck)). by rewrite Hsame by apply under_app.
  - unfold down_file in *. by rewrite Hsame by apply under_app.
Qed.

(** (C2) A rotation takes a user's files along, over three connections, for a
    file made of whole chunks (every read of it fills the 64 KiB buffer, so its
    size is a multiple of 64 KiB; any other file makes the programs panic, see
    [pushed_file_comes_back]). The
    user pushes the file with one key; in a later connection the same user
    rotates to a new key that nobody has registered; in a third, with the new
    key, it pulls the file: the
    output has exactly the bytes that were pushed. Each connection runs from its
    handshake, each program on the bytes the other sends; between the
    connections the server does anything that leaves this user's directory
    alone. The push changes only the file and its metadata in the tree with the
    user's directory, the rotation moves the user's files and authorisation. *)
Theorem pushed_file_survives_rotation (home : path) (old_sk new_sk : bytes)
    (vc1 vs1 : View) (ch1 : ClientHello) (sh1 : ServerHello) (chb1 shb1 : bytes)
    (map1 : path) (m1 : AuthServerMap) (fc1 : fs)
    (p : path) (name file_key file_id : string) (data reqb1 b1 : bytes) (f1 : fs) :
  let headers := announce name file_key file_id data in
  root = storage_root home -> whole_chunks short data ->
  can_push cfg ip cip old_sk root vc1 vs1 ch1 sh1 chb1 shb1 map1 m1 fc1 p name file_key file_id data reqb1 b1 f1 ->
  exists vs1' vc1',
    converse (handle_connection short cfg (Some cip) root) (upload_client short p file_key file_id ip old_sk)
      file_id vs1 vc1 vs1' vc1' /\
    (forall q, q <> up_file headers root (client_id old_sk) -> q <> up_meta headers root (client_id old_sk) ->
      h_fs (v_host vs1') !! q = f1 !! q) /\
    (fs_wf (h_fs (v_host vs1)) -> fs_wf (h_fs (v_host vs1'))) /\
    forall vc2 vs2 ch2 sh2 chb2 shb2 map2 m2 fc2 reqb2,
      can_auth vc2 vs2 ch2 sh2 chb2 shb2 map2 m2 fc2 2 reqb2 ->
      server_files home (v_host vs2) -> can_rotate home (client_id old_sk) (client_id new_sk) (h_fs (v_host vs2)) ->
      (forall q, under (user_dir root (client_id old_sk)) q -> h_fs (v_host vs2) !! q = h_fs (v_host vs1') !! q) ->
      exists vs2' vc2',
        converse (handle_connection short cfg (Some cip) root)
          (auth_client ip old_sk (verifying_key new_sk) (Some (verifying_key old_sk))) tt vs2 vc2 vs2' vc2' /\
        rotated home (client_id old_sk) (client_id new_sk) (h_fs (v_host vs2)) (h_fs (v_host vs2')) /\
        fs_wf (h_fs (v_host vs2')) /\
        forall vc3 vs3 ch3 sh3 chb3 shb3 map3 m3 fc3 cwd output reqb3 b3,
          let out := join (default cwd output) name in
          fs_wf (h_fs (v_host vs3)) ->
          (forall q, under (user_dir root (client_id new_sk)) q -> h_fs (v_host vs3) !! q = h_fs (v_host vs2') !! q) ->
          can_pull cfg ip cip new_sk vc3 vs3 ch3 sh3 chb3 shb3 map3 m3 fc3 cwd output file_key file_id reqb3 b3
            (up_metadata headers) ->
          exists vs3' vc3',
            converse (handle_connection short cfg (Some cip) root)
              (download_client cwd output file_id file_key ip new_sk) out vs3 vc3 vs3' vc3' /\
            h_fs (v_host vc3') = <[out := File data]> fc3.
Proof.
  intros headers Hroot Hfull Hpush.
  destruct (push_connection _ _ _ _ _ _ _ _ _ _ _ _ _ _ _ _ _ _ _ _ _ _ _ Hpush Hfull) as (vs1' & vc1' & Hconv & Hst).
  exists vs1', vc1'. split; [exact Hconv|]. split; [by destruct Hst|]. split.
  { rewrite <- (served_fs cip (Upload headers) shb1). intros Hwf.
    eapply stored_upload_wf; [exact Hwf|by destruct Hpush|exact Hst]. }
  clear Hconv Hpush.
  intros vc2 vs2 ch2 sh2 chb2 shb2 map2 m2 fc2 reqb2 Hca Hf Hcr Hsame.
  eapply stored_upload_whole in Hst; [|exact (sf_wf _ _ Hf)|exact Hsame].
  destruct (rotation_connection home old_sk (verifying_key new_sk) _ _ _ _ _ _ _ _ _ _ Hca Hf Hcr)
    as (vs2' & vc2' & Hconv & Hro & Hwf & _).
  exists vs2', vc2'. split; [exact Hconv|]. split; [exact Hro|]. split; [exact Hwf|].
  intros vc3 vs3 ch3 sh3 chb3 shb3 map3 m3 fc3 cwd output reqb3 b3 out Hwf3 Hsame3 Hpull.
  rewrite Hroot in Hst. eapply rotated_stored_whole in Hst; [|exact Hro|exact Hwf]. rewrite <- Hroot in Hst.
  eapply same_dir_stored_whole in Hst; [|exact Hwf3|exact Hsame3|].
  - destruct (pull_connection short cfg ip cip new_sk root _ _ _ _ _ _ _ _ _ _ _ _ _ _ _ _ _ Hpull Hfull Hst)
      as (vs3' & vc3' & Hc & Hfc & _). by exists vs3', vc3'.
  - rewrite Hroot. by destruct home.
Qed.

(** * What an observer can do *)

(** The rotation packet an observer makes of a challenge and the answer it saw,
    for the key [attacker]. *)
Definition replayed_packet (challenge answer attacker : bytes) : bytes :=
  auth_packet challenge (ztake 64 answer) (zdrop 64 answer ++ attacker).

Lemma replayed_answer sk challenge attacker :
  replayed_packet challenge (answer_to sk challenge) attacker =
  auth_packet challenge (ed_sign sk challenge) (client_id sk ++ attacker).
Proof. unfold replayed_packet, answer_to. by rewrite ztake_app, zdrop_app by (by rewrite ed_sign_len). Qed.

(** (C4) One handshake seen on the wire is enough to take a user's account. A
    registered user connects: the server's challenge and the user's answer,
    its signature and public key, pass in clear. Whoever has seen these two
    frames opens a connection of its own, with its own key, and sends them back
    as a rotation from the user's key to its own. The server takes the nonce to
    verify from the packet and compares it neither with the challenge it sent
    nor the old key with the one the handshake proved: it accepts. The user's
    authorisation and every file are the attacker's, and every file that could
    be pulled with the user's key can be pulled with the attacker's. *)
Theorem observed_handshake_takes_over (home : path) (user_sk attacker_sk : bytes)
    (vc vs0 : View) (ch : ClientHello) (sh : ServerHello) (chb shb : bytes) (map_file : path) (m : AuthServerMap) (f : fs)
    (va vs : View) (cha : ClientHello) (sha : ServerHello) (chab shab : bytes)
    (mapa : path) (ma : AuthServerMap) (fa : fs) (reqb req hdr : bytes) :
  let challenge := challenge_of vs0 in
  let answer := answer_to user_sk challenge in
  let key := session_key_of va sha in
  greets cfg ip vc vs0 ch sh chb shb map_file m f ->
  can_auth va vs cha sha chab shab mapa ma fa 2 reqb ->
  server_files home (v_host vs) ->
  can_rotate home (client_id user_sk) (client_id attacker_sk) (h_fs (v_host vs)) ->
  sealed key reqb req -> sealed key (replayed_packet challenge answer (client_id attacker_sk)) hdr ->
  (exists k vc', exec (client_handshake_helper ip user_sk false) (v_set_in (frame shb ++ frame challenge) vc) (Done k) vc' /\
    v_out vc' = v_out vc ++ v_pend vc ++ frame chb ++ frame answer) /\
  (exists vs', exec (handle_connection short cfg (Some cip) root)
      (v_set_in (frame chab ++ frame (answer_to attacker_sk (challenge_of vs)) ++ frame req ++ frame hdr) vs) (Done tt) vs' /\
    rotated home (client_id user_sk) (client_id attacker_sk) (h_fs (v_host vs)) (h_fs (v_host vs')) /\
    forall headers meta data,
      stored_whole (h_fs (v_host vs)) headers (storage_root home) (client_id user_sk) meta data ->
      stored_whole (h_fs (v_host vs')) headers (storage_root home) (client_id attacker_sk) meta data).
Proof.
  intros challenge answer key Hg [Hga Hreq Hrl Hrate] Hf Hcr Hsreq Hsh. split.
  - eapply exec_signs_challenge; [exact Hg|apply challenge_len].
  - pose proof (served_server_files home (Auth 2) shab vs Hf) as Hf'.
    set (vs1 := served_at cip (Auth 2) shab vs) in *.
    assert (h_fs (v_host vs1) = h_fs (v_host vs)) as E by apply served_fs. rewrite <- E in Hcr |- *.
    destruct (exec_rotation cfg home (verifying_key user_sk) (verifying_key attacker_sk) (v_host vs1))
      as (f' & Hro & Hwf & He); [done..|].
    assert (zlen hdr <= MAX_FRAME_LENGTH) as Hhl.
    { rewrite (sealed_len _ _ _ Hsh). unfold answer. rewrite replayed_answer. unfold auth_packet, client_id.
      unfold challenge. rewrite !zlen_app, challenge_len, ed_sign_len, !vk_len.
      unfold NONCE_LEN, TAG_LEN, MAX_FRAME_LENGTH. lia. }
    eexists. split; [|split].
    + eapply exec_command; [exact Hga|exact Hreq|exact Hsreq| |exact Hrate|].
      { rewrite (sealed_len _ _ _ Hsreq). unfold NONCE_LEN, TAG_LEN, MAX_FRAME_LENGTH. lia. }
      cbn [dispatch]. rewrite <- (app_nil_r (frame hdr)).
      unfold answer in Hsh. rewrite replayed_answer in Hsh.
      eapply exec_bind; [apply (He key challenge (ed_sign user_sk challenge) hdr [] vs1)|by apply exec_flush_nothing];
        [apply session_key_len|done|done|apply challenge_len|apply ed_sign_len|apply ed_verify_strict_sign|done|done].
    + exact Hro.
    + intros headers meta data. by apply (rotated_stored_whole home).
Qed.

(** * The status request *)

(** What [send_status] reports of the host: the clock is read twice. *)
Definition status_of (count : Z) (h : Host) : StatusHeader :=
  {| timestamp := to_rfc3339 (h_now (tick (tick h)));
     uptime_hrs := try_get_uptime_hrs (h_start_time h) (h_now (tick h));
     Header.auth_client := count;
     st_total_uploaded := total_uploaded (h_tracker h);
     st_total_downloaded := total_download (h_tracker h);
     total_bandwidth_used := f64_to_u64 (total_bandwidth_gb (h_tracker h)) |}.

Lemma exec_send_status home key count b v : zlen key = 32 -> v_shut v = false ->
  h_home (v_host v) = Some home -> count_dirs (h_fs (v_host v)) (storage_root home) = Ok count ->
  serialize (status_of count (v_host v)) = Ok b -> zlen b <= U32_MAX ->
  exec (send_status key) v (Done tt) (v_close (v_reply key b (v_set_host (tick (tick (v_host v))) v))).
Proof.
  intros Hk Hs Hh Hc Hb Hl. unfold send_status.
  assert (exists n t, tick (v_host v) = set_clock n t (v_host v)) as (n & t & E) by apply tick_clock.
  estep exec_instant_now. estep (exec_gets h_start_time). estep (exec_gets h_tracker). estep (exec_gets h_home).
  cbn [v_set_host v_host]. replace (h_home (tick (v_host v))) with (Some home) by (by rewrite E).
  estep exec_lift_result; [apply get_storage_dir_eq|]. estep exec_gets_fs. cbn [v_set_host v_host].
  replace (h_fs (tick (v_host v))) with (h_fs (v_host v)) by (by rewrite E).
  estep exec_lift_result; [exact Hc|]. estep exec_instant_now. cbn [v_set_host v_host].
  estep exec_lift_result.
  { rewrite <- Hb. unfold status_of. do 2 f_equal; by rewrite E. }
  eapply exec_bind; [apply exec_timeout_or; by apply exec_reply|]. apply exec_shutdown.
Qed.

Lemma exec_status_request key reqb status b c rest v : zlen key = 32 -> v_shut v = false ->
  serialize Status = Ok reqb -> zlen reqb <= U32_MAX -> serialize status = Ok b ->
  sealed key b c -> zlen c <= MAX_FRAME_LENGTH ->
  exec (status_request key) (v_set_in (frame c ++ rest) v) (Done status) (v_set_in rest (v_close (v_reply key reqb v))).
Proof.
  intros Hk Hs Hreq Hrl Hb Hc Hl. unfold status_request.
  estep exec_lift_result; [exact Hreq|]. estep exec_reply; [done|done|done|].
  eapply exec_bind; [apply exec_context; eapply exec_read_encrypt; [reflexivity|exact Hc|done]|].
  estep exec_lift_result; [by apply deserialize_serialize|].
  estep exec_try; [apply exec_shutdown|]. apply exec_ret.
Qed.

(** A status request over a whole connection gives the client the
    server's figures: the number of directories in the storage directory, the
    totals of the tracker, the uptime. Nothing is asked of the client but a
    handshake: its key need not be registered. The server's files and totals
    do not change. *)
Theorem status_connection (home : path) (sk : bytes) (vc vs : View) (ch : ClientHello) (sh : ServerHello)
    (chb shb : bytes) (map_file : path) (m : AuthServerMap) (f : fs) (reqb b : bytes) (count : Z) :
  let vs0 := served_at cip Status shb vs in
  let status := status_of count (v_host vs0) in
  greets cfg ip vc vs ch sh chb shb map_file m f ->
  serialize Status = Ok reqb -> zlen reqb <= 1000 ->
  (rated cip Status (v_host (server_at shb vs))).1 = true ->
  h_home (v_host vs) = Some home -> count_dirs (h_fs (v_host vs)) (storage_root home) = Ok count ->
  serialize status = Ok b -> zlen b <= 1000 ->
  exists vs' vc',
    converse (handle_connection short cfg (Some cip) root) (get_server_status ip sk) status vs vc vs' vc' /\
    h_fs (v_host vs') = h_fs (v_host vs) /\ h_tracker (v_host vs') = h_tracker (v_host vs) /\
    st_total_uploaded status = total_uploaded (h_tracker (v_host vs)) /\
    st_total_downloaded status = total_download (h_tracker (v_host vs)).
Proof.
  intros vs0 status Hg Hreq Hrl Hrate Hh Hc Hb Hbl.
  set (key := session_key_of vc sh). assert (zlen key = 32) as Hk by apply session_key_len.
  assert (exists l n t, v_host vs0 = set_limiter l (set_clock n t (v_host vs))) as (l & n & t & E).
  { unfold vs0, served_at. destruct (rated_host cip Status (v_host (server_at shb vs))) as (l & n & t & E).
    cbn [v_set_host v_host]. rewrite E. unfold server_at. cbn.
    destruct (tick_clock (v_host vs)) as (? & ? & ->). by eexists _, _, _. }
  assert (exists n t, tick (tick (v_host vs0)) = set_clock n t (v_host vs0)) as (n' & t' & E').
  { destruct (tick_clock (tick (v_host vs0))) as (n1 & t1 & ->). destruct (tick_clock (v_host vs0)) as (? & ? & ->).
    by exists n1, t1. }
  set (vc0 := client_at sk chb f vc vs).
  destruct (small_packet key reqb vc0 Hk Hrl) as [Hr Hrlen].
  destruct (small_packet key b (v_set_host (tick (tick (v_host vs0))) vs0) Hk Hbl) as [Hs Hslen].
  eexists (v_close (v_reply key b (v_set_host (tick (tick (v_host vs0))) (v_set_in [] vs0)))), _. split.
  - do 2 eexists. split; [|split; [|split]].
    + eapply exec_command; [exact Hg|exact Hreq|exact Hr|exact Hrlen|exact Hrate|]. cbn [dispatch].
      apply (exec_send_status home key count b (v_set_in [] vs0) Hk eq_refl).
      * change (h_home (v_host vs0) = Some home). by rewrite E.
      * change (count_dirs (h_fs (v_host vs0)) (storage_root home) = Ok count). by rewrite E.
      * exact Hb.
      * unfold U32_MAX. lia.
    + unfold get_server_status. eapply exec_greeted_client; [exact Hg|].
      apply (exec_status_request key reqb status b _ [] vc0 Hk eq_refl Hreq ltac:(unfold U32_MAX; lia) Hb Hs Hslen).
    + rewrite v_close_reply_out by done. cbn. by rewrite ?app_nil_r, <- !app_assoc.
    + cbn. by rewrite ?app_nil_r, <- !app_assoc.
  - unfold status. change (v_host (v_close (v_reply key b ?x))) with (v_host x). cbn [v_set_host v_host].
    rewrite E'. cbn [status_of st_total_uploaded st_total_downloaded]. by rewrite E.
Qed.
End Account.

(** * A concrete account *)
Module AccountWitness.
Import Toy HandshakeWitness AuthWitness TransferWitness ServerWitness EndToEndWitness.

Definition auth_bytes (flag : Z) : bytes := ok_or [] (serialize (Auth flag)).

Lemma demo_can_auth flag fsv : flag = 1 \/ flag = 2 ->
  can_auth demo_config demo_ip ip1 pull_client (server_view fsv []) the_client_hello the_server_hello chb shb
    map_path (map_with server_hex) (files_with server_hex) flag (auth_bytes flag).
Proof.
  intros Hf. split.
  - apply demo_greets, map_opens. by left.
  - by destruct Hf as [-> | ->].
  - destruct Hf as [-> | ->]; vm_compute; discriminate.
  - destruct Hf as [-> | ->]; reflexivity.
Qed.

Definition demo_connection : M unit := handle_connection full_reads demo_config (Some ip1) (storage_root home).

Lemma registration_connection_witness : exists vs' vc',
  converse demo_connection (auth_client demo_ip csk (verifying_key csk) None) tt
    (server_view server_fs []) pull_client vs' vc' /\
  h_fs (v_host vs') = <[user_dir (storage_root home) (client_id csk) := Dir]>
    (<[auth_entry home (client_id csk) := Dir]> server_fs) /\
  h_fs (v_host vc') = files_with server_hex.
Proof.
  apply (registration_connection full_reads demo_config demo_ip ip1 (storage_root home) home csk pull_client
    (server_view server_fs []) the_client_hello the_server_hello chb shb map_path (map_with server_hex)
    (files_with server_hex) (auth_bytes 1)).
  - apply demo_can_auth. by left.
  - apply reg_files.
  - reflexivity.
  - vm_refl.
  - vm_refl.
Defined.

(** The server after the push, once the user was given its authorisation. *)
Definition authorised (f : fs) : fs := <[auth_entry home (client_id csk) := Dir]> f.

Lemma short_not_pushed (x : path) : (length x < 6)%nat ->
  x <> up_file mib_headers (storage_root home) (client_id csk) /\
  x <> up_meta mib_headers (storage_root home) (client_id csk).
Proof. intros H. split; intros ->; vm_compute in H; lia. Qed.

Lemma authorised_files f : fs_wf f -> (forall q, (length q < 6)%nat -> f !! q = mib_fs !! q) ->
  server_files home (v_host (server_view (authorised f) [])) /\
  can_rotate home (client_id csk) (client_id csk2) (authorised f).
Proof.
  intros Hwf Hf.
  assert (forall q, (length q < 6)%nat -> q <> auth_entry home (client_id csk) -> authorised f !! q = mib_fs !! q) as Hl.
  { intros q Hq Hne. unfold authorised. rewrite lookup_insert_ne by done. by apply Hf. }
  assert (lookup_node (authorised f) (auth_root home) = Some Dir) as Ha.
  { change (authorised f !! auth_root home = Some Dir). rewrite Hl; [vm_refl|vm_compute; lia|by vm_compute]. }
  split; split.
  - reflexivity.
  - apply fs_wf_insert; [exact Hwf|done| |].
    + change (f !! auth_root home = Some Dir). rewrite Hf; [vm_refl|vm_compute; lia].
    + by left.
  - exact Ha.
  - change (authorised f !! storage_root home = Some Dir). rewrite Hl; [vm_refl|vm_compute; lia|by vm_compute].
  - exists Dir. rewrite Hl; [vm_refl|vm_compute; lia|by vm_compute].
  - rewrite Hl; [vm_refl|vm_compute; lia|by vm_compute].
  - exists Dir. apply lookup_insert_eq.
  - rewrite Hl; [vm_refl|vm_compute; lia|by vm_compute].
Qed.

Lemma authorised_same f q : under (user_dir (storage_root home) (client_id csk)) q -> authorised f !! q = f !! q.
Proof.
  intros [r ->]%under_iff. unfold authorised. apply lookup_insert_ne. intros E%(f_equal (take 3)).
  by vm_compute in E.
Qed.

Lemma pushed_file_survives_rotation_witness : exists vs1' vc1',
  converse demo_connection (upload_client full_reads src "key" ID demo_ip csk) ID push_server push_client vs1' vc1' /\
  exists vs2' vc2',
    converse demo_connection (auth_client demo_ip csk (verifying_key csk2) (Some (verifying_key csk))) tt
      (server_view (authorised (h_fs (v_host vs1'))) []) pull_client vs2' vc2' /\
    exists vs3' vc3',
      converse demo_connection (download_client home None ID "key" demo_ip csk2) (home ++ ["a.bin"%string])
        (server_view (h_fs (v_host vs2')) []) pull_client vs3' vc3' /\
      h_fs (v_host vc3') !! (home ++ ["a.bin"%string]) = Some (File mib).
Proof.
  destruct (pushed_file_survives_rotation full_reads demo_config demo_ip ip1 (storage_root home) home csk csk2
    push_client push_server the_client_hello the_server_hello chb shb map_path (map_with server_hex) client_fs
    src "a.bin" "key" ID mib mib_request mib_answer mib_fs eq_refl mib_full mib_push) as (vs1' & vc1' & H1 & Hrest & Hwf & H2).
  exists vs1', vc1'. split; [exact H1|].
  destruct (authorised_files (h_fs (v_host vs1'))) as [Hf Hcr].
  { exact (Hwf server_fs_wf). }
  { intros q Hq. rewrite announce_mib in Hrest. by apply Hrest; apply short_not_pushed. }
  destruct (H2 pull_client (server_view (authorised (h_fs (v_host vs1'))) []) the_client_hello the_server_hello chb shb
    map_path (map_with server_hex) (files_with server_hex) (auth_bytes 2)) as (vs2' & vc2' & H3 & _ & Hwf2 & H4).
  - apply demo_can_auth. by right.
  - exact Hf.
  - exact Hcr.
  - intros q Hq. by apply authorised_same.
  - exists vs2', vc2'. split; [exact H3|].
    destruct (H4 pull_client (server_view (h_fs (v_host vs2')) []) the_client_hello the_server_hello chb shb map_path
      (map_with server_hex) (files_with server_hex) home None mib_pull mib_header) as (vs3' & vc3' & H5 & H6).
    + exact Hwf2.
    + reflexivity.
    + apply mib_can_pull.
    + exists vs3', vc3'. split; [exact H5|].
      apply (eq_trans (f_equal (fun f : fs => f !! (home ++ ["a.bin"%string])) H6)). apply lookup_insert_eq.
Defined.

(** The attacker's key, and the two packets it sends. *)
Definition victim_challenge : bytes := challenge_of (demo_view []).
Definition attacker_session : bytes := session_key_of pull_client the_server_hello.
Definition stolen : bytes := replayed_packet victim_challenge (answer_to csk victim_challenge) (client_id csk2).

Lemma observed_handshake_takes_over_witness : exists vs',
  exec demo_connection
    (v_set_in (frame chb ++ frame (answer_to csk2 (challenge_of (server_view (user_fs (client_id csk)) []))) ++
      frame (packet attacker_session (auth_bytes 2) (demo_view [])) ++
      frame (packet attacker_session stolen (demo_view []))) (server_view (user_fs (client_id csk)) [])) (Done tt) vs' /\
  rotated home (client_id csk) (client_id csk2) (user_fs (client_id csk)) (h_fs (v_host vs')).
Proof.
  destruct (observed_handshake_takes_over full_reads demo_config demo_ip ip1 (storage_root home) home csk csk2
    pull_client (server_view server_fs []) the_client_hello the_server_hello chb shb map_path (map_with server_hex)
    (files_with server_hex)
    pull_client (server_view (user_fs (client_id csk)) []) the_client_hello the_server_hello chb shb map_path
    (map_with server_hex) (files_with server_hex) (auth_bytes 2)
    (packet attacker_session (auth_bytes 2) (demo_view [])) (packet attacker_session stolen (demo_view [])))
    as [_ (vs' & He & Hr & _)].
  - apply demo_greets, map_opens. by left.
  - apply demo_can_auth. by right.
  - split; [reflexivity|apply user_fs_wf|vm_refl|vm_refl].
  - split; [exists Dir; vm_refl|vm_refl|exists Dir; vm_refl|vm_refl].
  - apply small_packet; [apply session_key_len|vm_compute; discriminate].
  - apply small_packet; [apply session_key_len|vm_compute; discriminate].
  - exists vs'. split; [exact He|exact Hr].
Defined.

Definition demo_status : StatusHeader := status_of 0 (v_host (served_at ip1 Status shb (server_view server_fs []))).

Lemma status_connection_witness : exists vs' vc',
  converse demo_connection (get_server_status demo_ip csk) demo_status (server_view server_fs []) pull_client vs' vc' /\
  h_fs (v_host vs') = server_fs.
Proof.
  destruct (status_connection full_reads demo_config demo_ip ip1 (storage_root home) home csk pull_client
    (server_view server_fs []) the_client_hello the_server_hello chb shb map_path (map_with server_hex)
    (files_with server_hex) (ok_or [] (serialize Status)) (ok_or [] (serialize demo_status)) 0)
    as (vs' & vc' & H & Hf & _).
  - apply demo_greets, map_opens. by left.
  - reflexivity.
  - vm_compute. discriminate.
  - reflexivity.
  - reflexivity.
  - vm_refl.
  - reflexivity.
  - vm_compute. discriminate.
  - exists vs', vc'. split; [exact H|exact Hf].
Defined.
End AccountWitness.
