(* ===== verification/Relay.v ===== *)
(** What the handshake does not bind: the client signs the server's challenge
    and nothing else of the exchange, so its answer can be used in another
    connection than the one it was made for. A server the user trusts logs in to
    a second server as the user. *)
From S2P Require Import Prelude F64 External RateLimit FileSys Locks Lib Users World Exec Crypto Header Sample Stores Net Handshake Auth Transfer Client Server EndToEnd Account.

Section Relay.
Context {AG : AesGcm} {HX : Hex} {SH : Sha2} {ED : Ed25519} {XD : X25519} {CH : Chrono}
  {PEH : Postcard ErrorHeader} {PWH : Postcard WarnHeader} {PCM : Postcard Command}
  {PUR : Postcard UploadResponse} {PDR : Postcard DownloadResponse} {PST : Postcard StatusHeader}
  {PED : Postcard EchoDebugHeader} {PM : Postcard MetadataFile}
  {PCH : Postcard ClientHello} {PSH : Postcard ServerHello} {JS : Json AuthServerMap}.
Context {AGL : AesGcmLaws} {HXL : HexLaws} {SHL : Sha2Laws} {EDL : Ed25519Laws} {XDL : X25519Laws}
  {PCHL : PostcardLaws ClientHello} {PSHL : PostcardLaws ServerHello} {JSL : JsonLaws AuthServerMap}
  {PCML : PostcardLaws Command} {PML : PostcardLaws MetadataFile}
  {PURL : PostcardLaws UploadResponse} {PDRL : PostcardLaws DownloadResponse}.
Variable short : Z -> Z.

Section Attack.
(** The honest server's configuration, the address it sees, and the relay's own
    configuration: its key is one the user trusts. *)
Variables (cfg relay_cfg : Config) (ip relay_ip : SocketAddr) (cip : IpAddr) (user_sk : bytes) (root : path).

(** (C5) A relay logs in as the user. The user connects to a server it trusts,
    which has itself opened a connection to another server, with its own hello
    and its own ephemeral key. It passes that server's challenge on to the user
    as its own; the user, following the protocol, signs it; and the relay
    passes the answer back. The second server takes the connection for the
    user's, under a session key the relay derives from its own secret: the
    relay asks for a file of the user (one the server can send, made of whole
    64 KiB chunks), gets it, and reads every byte. *)
Theorem relayed_challenge_impersonates
    (* the user and the relay *)
    (vu vm : View) (chu : ClientHello) (shm : ServerHello) (chub shmb : bytes) (map_file : path) (m : AuthServerMap) (f : fs)
    (* the relay and the honest server *)
    (vr vs : View) (chr : ClientHello) (shs : ServerHello) (chrb shsb : bytes) (map_file' : path) (m' : AuthServerMap) (f' : fs)
    (* the request *)
    (vr0 : View) (cwd : path) (output : option path) (file_key file_id : string) (data reqb b : bytes) (meta : MetadataFile) :
  let headers := {| d_file_id := file_id; d_file_key := file_key |} in
  let challenge := challenge_of vs in
  let answer := answer_to user_sk challenge in
  let key := session_key_of vr shs in
  let out := join (default cwd output) (m_filename meta) in
  greets relay_cfg relay_ip vu vm chu shm chub shmb map_file m f ->
  greets cfg ip vr vs chr shs chrb shsb map_file' m' f' ->
  stored_whole (h_fs (v_host vs)) headers root (client_id user_sk) meta data ->
  (rated cip (Download headers) (v_host (server_at shsb vs))).1 = true ->
  download_validate headers = Ok tt ->
  download_ready cwd output file_id file_key (started vs) key reqb b meta vr0
    (served_at cip (Download headers) shsb vs) ->
  whole_chunks short data ->
  (exists k vu', exec (client_handshake_helper relay_ip user_sk false)
      (v_set_in (frame shmb ++ frame challenge) vu) (Done k) vu' /\
    v_out vu' = v_out vu ++ v_pend vu ++ frame chub ++ frame answer) /\
  (exists to_server to_relay vs' vr',
    exec (handle_connection short cfg (Some cip) root)
      (v_set_in (frame chrb ++ frame answer ++ to_server) vs) (Done tt) vs' /\
    v_out vs' = v_out vs ++ v_pend vs ++ frame shsb ++ frame challenge ++ to_relay /\
    exec (download_request cwd output file_id file_key key) (v_set_in to_relay vr0) (Done out) vr' /\
    v_out vr' = v_out vr0 ++ v_pend vr0 ++ to_server /\
    h_fs (v_host vr') = <[out := File data]> (h_fs (v_host vr0))).
Proof.
  intros headers challenge answer key out Hu Hr Hw Hrate Hval Hd Hfull. split.
  { eapply exec_signs_challenge; [exact Hu|apply challenge_len]. }
  rewrite <- (served_fs cip (Download headers) shsb vs) in Hw.
  destruct (download_packets_sealed _ _ _ _ _ _ _ _ _ _ _ _ _ Hd Hfull) as (_ & Hreq & _).
  destruct (exec_download_pair _ _ _ _ _ _ _ _ _ _ _ _ [] [] _ _ _ Hw Hd Hfull)
    as (vs' & vr' & Hs & Hc & Ho & Hpe & Hco & Hcf & Hsf).
  eexists _, _, vs', vr'. split; [|split; [|split; [exact Hc|split]]].
  - eapply exec_command; [exact Hr|apply (dw_request _ _ _ _ _ _ _ _ _ _ _ Hd)|exact Hreq| |exact Hrate|].
    { rewrite (sealed_len _ _ _ Hreq). apply dw_request_len in Hd. unfold NONCE_LEN, TAG_LEN. lia. }
    cbn [dispatch]. fold headers. rewrite Hval. eapply exec_bind; [exact Hs|]. by apply exec_flush_nothing.
  - rewrite Ho. cbn. by rewrite ?app_nil_r, <- !app_assoc.
  - rewrite Hco. cbn. by rewrite ?app_nil_r.
  - exact Hcf.
Qed.
End Attack.
End Relay.

(** * A concrete relay *)
Module RelayWitness.
Import Toy HandshakeWitness AuthWitness TransferWitness ClientWitness ServerWitness EndToEndWitness.

(** The relay: a server with a key of its own, known to the user. *)
Definition relay_key : bytes := pad 32 (as_bytes "relay").
Definition relay_config : Config := {|
  enable_echo := true; enable_client_whitelist := true; max_connections := 256;
  max_file_size := 8589934592; connection_lifetime := 3600;
  server_pri_key_bytes := relay_key; server_pub_key_bytes := relay_key |}.
Definition relay_hello : ServerHello :=
  {| s_ed25519_key := key_array relay_key; s_x22519_key := s_x22519_key the_server_hello;
     s_nonce := s_nonce the_server_hello;
     s_signature := sig_array (ed_sign relay_key (sha512_digest (arr (c_nonce the_client_hello) ++
       arr (s_nonce the_server_hello) ++ arr (c_x22519_key the_client_hello) ++ arr (s_x22519_key the_server_hello)))) |}.
Definition relay_shb : bytes := ok_or [] (serialize relay_hello).
Definition relay_hex : string := encode relay_key.
Definition user : View := v_set_fs (files_with relay_hex) (client_start relay_hex [] []).

Lemma user_greets_relay : greets relay_config demo_ip user (demo_view []) the_client_hello relay_hello chb relay_shb
  map_path (map_with relay_hex) (files_with relay_hex).
Proof.
  split.
  - reflexivity.
  - apply client_hello_fs. split; vm_refl.
  - split; vm_refl.
  - vm_refl.
  - vm_refl.
  - split; vm_compute; [reflexivity|discriminate].
  - split; vm_compute; [reflexivity|discriminate].
  - reflexivity.
  - reflexivity.
  - split; (discriminate || vm_refl).
  - vm_refl.
Qed.

(** The honest server holds one file of the user. *)
Definition honest : View := server_view chunk_fs [].
Definition relay_session : bytes := session_key_of pull_client the_server_hello.
Definition relay_served : View := served_at ip1 (Download down_headers) shb honest.

Lemma relay_ready : download_ready home None down_id "key" (started honest) relay_session
  pull_request (ok_or [] (serialize (down_response chunk_metadata (started honest) relay_served))) chunk_metadata
  pull_client relay_served.
Proof.
  split.
  - apply sha256_digest_len.
  - reflexivity.
  - reflexivity.
  - intros l Hl. discriminate Hl.
  - reflexivity.
  - vm_compute. reflexivity.
  - reflexivity.
  - vm_compute. discriminate.
  - vm_refl.
  - discriminate.
  - assert (files_with server_hex !! (home ++ ["a.bin"%string]) = None) as E by vm_refl.
    intros H. discriminate (eq_trans (eq_sym E) H).
Qed.

Lemma relayed_challenge_impersonates_witness :
  (exists k vu', exec (client_handshake_helper demo_ip csk false)
      (v_set_in (frame relay_shb ++ frame (challenge_of honest)) user) (Done k) vu' /\
    v_out vu' = frame chb ++ frame (answer_to csk (challenge_of honest))) /\
  exists to_server to_relay vs' vr',
    exec (handle_connection full_reads demo_config (Some ip1) (storage_root home))
      (v_set_in (frame chb ++ frame (answer_to csk (challenge_of honest)) ++ to_server) honest) (Done tt) vs' /\
    exec (download_request home None down_id "key" relay_session) (v_set_in to_relay pull_client)
      (Done (home ++ ["a.bin"%string])) vr' /\
    h_fs (v_host vr') = <[home ++ ["a.bin"%string] := File one_chunk]> (files_with server_hex).
Proof.
  destruct (relayed_challenge_impersonates full_reads demo_config relay_config demo_ip demo_ip ip1 csk
    (storage_root home)
    user (demo_view []) the_client_hello relay_hello chb relay_shb map_path (map_with relay_hex) (files_with relay_hex)
    pull_client honest the_client_hello the_server_hello chb shb map_path (map_with server_hex) (files_with server_hex)
    pull_client home None "key" down_id one_chunk pull_request
    (ok_or [] (serialize (down_response chunk_metadata (started honest) relay_served))) chunk_metadata)
    as [Hu (ts & tr & vs' & vr' & Hs & _ & Hc & _ & Hf)].
  - apply user_greets_relay.
  - apply demo_greets, map_opens. by left.
  - apply chunk_whole.
  - reflexivity.
  - reflexivity.
  - apply relay_ready.
  - apply one_chunk_full.
  - split; [exact Hu|]. exists ts, tr, vs', vr'. auto.
Defined.
End RelayWitness.
