(* ===== verification/Footprint.v ===== *)
(** What a connection can change on the server's disk, whatever the client
    sends and however the connection ends: every handler keeps the tree
    well-formed, and the transfers of one client never touch another client's
    files. *)
From S2P Require Import Prelude F64 External RateLimit FileSys Locks Lib Users World Exec Crypto Header Sample Stores Net Handshake Echo Auth Transfer Client Server.

(** * Files under a fixed home

    [on_files home R]: when the home directory is [home], it stays so and the
    files change as [R] says. *)
Definition on_files (home : path) (R : fs -> fs -> Prop) (w w' : World) : Prop :=
  h_home (host w) = Some home -> h_home (host w') = Some home /\ R (h_fs (host w)) (h_fs (host w')).

#[export] Instance on_files_tracks home R `{!PreOrder R} : Tracks (on_files home R).
Proof.
  unfold on_files. split; [|intros; split; [done|reflexivity]].
  split; [intros w; split; [done|reflexivity]|].
  intros w1 w2 w3 H12 H23 Hw. destruct (H12 Hw) as [H2 R2]. destruct (H23 H2) as [H3 R3].
  split; [done|by etrans].
Qed.

Lemma on_files_of_host {A} home R `{!PreOrder R} (m : M A) : keeps same_host m -> keeps (on_files home R) m.
Proof. intros H w Hw. rewrite (H w). split; [done|reflexivity]. Qed.
#[export] Hint Resolve on_files_of_host | 10 : rd_keeps.

(** A statement either ends the run, or returns and the run goes on. *)
Lemma bind_cases {A B} P `{!Tracks P} (m : M A) (k : A -> M B) w0 w o w' : P w0 w -> keeps P m ->
  bind m k w = (o, w') ->
  (P w0 w' /\ forall b, o <> Done b) \/ exists a w1, m w = (Done a, w1) /\ P w0 w1 /\ k a w1 = (o, w').
Proof.
  intros H0 Hm H. unfold bind in H. specialize (Hm w). destruct (m w) as [[a|e| |] w1]; simpl in *.
  2-4: injection H as <- <-; left; split; [by etrans|done].
  right. exists a, w1. split_and!; [done|by etrans|done].
Qed.

Section OnFiles.
Context (home : path) (R : fs -> fs -> Prop) `{!PreOrder R}.

Lemma on_files_modify_host f : (forall h, h_home (f h) = h_home h /\ R (h_fs h) (h_fs (f h))) ->
  keeps (on_files home R) (modify_host f).
Proof. intros H w Hw. destruct (H (host w)) as [H1 H2]. simpl. by rewrite H1. Qed.

Lemma on_files_op op : (forall f f', op f = Ok f' -> R f f') -> keeps (on_files home R) (fs_op op).
Proof.
  intros H w Hw. unfold fs_op. destruct (op _) eqn:E; simpl; [by eauto|]. split; [done|reflexivity].
Qed.

Lemma on_files_instant_now : keeps (on_files home R) instant_now.
Proof. intros w Hw. unfold instant_now. case_match; simpl; (split; [done|reflexivity]). Qed.

Lemma on_files_finally {A} (m : M A) f : (forall h, h_home (f h) = h_home h /\ h_fs (f h) = h_fs h) ->
  keeps (on_files home R) m -> keeps (on_files home R) (finally m (on_host f)).
Proof.
  intros Hf Hm w Hw. specialize (Hm w Hw). unfold finally. destruct (m w) as [o w1]. simpl in *.
  destruct (Hf (host w1)) as [-> ->]. done.
Qed.

(** The directories are computed from the home directory. *)
Lemma on_files_home {A} (k : option path -> M A) : keeps (on_files home R) (k (Some home)) ->
  keeps (on_files home R) (bind (gets (fun w => h_home (host w))) k).
Proof. intros H w Hw. unfold bind, gets. rewrite Hw. by apply H. Qed.

Lemma on_files_hold id : keeps (on_files home R) (hold_lock id).
Proof. intros w Hw. unfold hold_lock. destruct (hold_file_lock _ _). simpl. split; [done|reflexivity]. Qed.
Lemma on_files_write l : keeps (on_files home R) (lock_write l).
Proof. intros w Hw. unfold lock_write. case_match; simpl; (split; [done|reflexivity]). Qed.
Lemma on_files_read l : keeps (on_files home R) (lock_read l).
Proof. intros w Hw. unfold lock_read. case_match; simpl; (split; [done|reflexivity]). Qed.

Lemma on_files_rate ip c : keeps (on_files home R) (rate_check ip c).
Proof.
  unfold rate_check. apply keeps_bind; [apply _|apply on_files_instant_now|]. intros now w Hw.
  destruct (is_allowed_cost _ _ _ _) as [ok l]. simpl. split; [done|reflexivity].
Qed.
End OnFiles.
#[export] Hint Resolve on_files_instant_now on_files_hold on_files_write on_files_read on_files_rate : rd_keeps.

Ltac on_files_step :=
  match goal with
  | |- keeps (on_files _ _) (bind (gets (fun w => h_home (host w))) _) => apply on_files_home; cbv beta
  | |- keeps (on_files _ _) (modify_host _) => apply on_files_modify_host; intros ?; (split; [done|reflexivity])
  | |- keeps (on_files _ _) (finally _ _) => apply on_files_finally; [done|]
  | |- keeps (on_files _ _) (fs_op _) => apply on_files_op; [apply _|]
  | |- keeps (on_files _ _) (map_throw _ _) => unfold map_throw
  | |- keeps (on_files _ _) (context _ _) => unfold context
  | _ => keeps_step
  end.
Ltac on_files_auto := repeat on_files_step.

Section Server.
Context {AG : AesGcm} {HX : Hex} {SH : Sha2} {ED : Ed25519} {XD : X25519} {CH : Chrono}
  {PEH : Postcard ErrorHeader} {PWH : Postcard WarnHeader} {PCM : Postcard Command}
  {PUR : Postcard UploadResponse} {PDR : Postcard DownloadResponse} {PST : Postcard StatusHeader}
  {PED : Postcard EchoDebugHeader} {PM : Postcard MetadataFile}
  {PCH : Postcard ClientHello} {PSH : Postcard ServerHello}.
Variable short : Z -> Z.
Variable cfg : Config.
Variable home : path.

Section Relation.
Context (R : fs -> fs -> Prop) `{!PreOrder R}.

Lemma on_files_echo_turn key : keeps (on_files home R) (echo_turn key).
Proof. unfold echo_turn, array_of. on_files_auto. Qed.

Lemma on_files_echo key : keeps (on_files home R) (handle_echo_perf key).
Proof.
  assert (forall fuel, keeps (on_files home R) (echo_loop fuel key)) as H; [|intros w; apply H].
  induction fuel as [|fuel IH]; cbn [echo_loop]; [apply (keeps_lift _ Hang)|].
  apply keeps_bind; [apply _|apply on_files_echo_turn|]. intros []; [exact IH|apply keeps_ret, _].
Qed.

Lemma on_files_status key : keeps (on_files home R) (send_status key).
Proof. unfold send_status. on_files_auto. Qed.

Lemma on_files_server_handshake : keeps (on_files home R) (server_handshake cfg).
Proof. unfold server_handshake, server_hello_for, generate_x25519_keypair, array_of. on_files_auto. Qed.

Lemma on_files_send_chunks chunks send key : (forall p, keeps same_host (send p)) ->
  forall enc, keeps (on_files home R) (send_chunks chunks send key enc).
Proof. intros Hs. induction chunks as [|c cs IH]; intros enc; cbn [send_chunks]; on_files_auto. Qed.

Lemma on_files_download h nt root key ck : keeps (on_files home R) (handle_download short h nt root key ck).
Proof.
  unfold handle_download, download_locked. cbv zeta. on_files_auto.
  apply on_files_send_chunks. intros p. unfold download_send. keeps_auto.
Qed.

Lemma on_files_register pk key : (forall f d f', create_dir_all f d = Ok f' -> R f f') ->
  keeps (on_files home R) (register_key cfg pk key).
Proof. intros H. unfold register_key. cbv zeta. on_files_auto; (intros f f'; apply H). Qed.

(** What an upload does to the files: the directory, the file, its metadata. *)
Record upload_allowed (h : UploadHeader) (root : path) (ck : bytes) : Prop := {
  ul_dir f f' : create_dir_all f (user_dir_path root ck (u_file_key h)) = Ok f' -> R f f';
  ul_create f f' : create_file f (stored_file (user_dir_path root ck (u_file_key h)) (u_file_id h) ".file") = Ok f' -> R f f';
  ul_append f bs : R f (append_file f (stored_file (user_dir_path root ck (u_file_key h)) (u_file_id h) ".file") bs);
  ul_remove f f' : remove_file f (stored_file (user_dir_path root ck (u_file_key h)) (u_file_id h) ".file") = Ok f' -> R f f';
  ul_save f m f' : save_to_disk f (stored_file (user_dir_path root ck (u_file_key h)) (u_file_id h) ".meta") m = Ok f' -> R f f';
}.

Section Upload.
Context (h : UploadHeader) (root : path) (ck : bytes) (Hul : upload_allowed h root ck).
Let file_path := stored_file (user_dir_path root ck (u_file_key h)) (u_file_id h) ".file".

Lemma on_files_append bs : keeps (on_files home R) (append file_path bs).
Proof. unfold append. apply on_files_modify_host. intros x. split; [done|apply (ul_append _ _ _ Hul)]. Qed.
#[local] Hint Resolve on_files_append : rd_keeps.

Lemma on_files_buf_write cap buf bs : keeps (on_files home R) (buf_write cap file_path buf bs).
Proof. unfold buf_write. on_files_auto. Qed.
#[local] Hint Resolve on_files_buf_write : rd_keeps.

Lemma on_files_receive fuel key size : forall received hasher buf dec,
  keeps (on_files home R) (receive_chunks fuel upload_fetch key file_path size received hasher buf dec).
Proof.
  induction fuel as [|fuel IH]; intros received hasher buf dec; cbn [receive_chunks];
    destruct (received <? size); try apply keeps_ret, _; [apply (keeps_lift _ Hang)|].
  cbv zeta. unfold upload_fetch. on_files_auto.
Qed.
#[local] Hint Resolve on_files_receive : rd_keeps.

Lemma on_files_upload nt key : keeps (on_files home R) (handle_upload h nt root key ck).
Proof.
  unfold handle_upload, upload_locked, upload_finish. cbv zeta. destruct Hul. on_files_auto; eauto.
Qed.
End Upload.

Lemma on_files_rotate old new key : (forall f p q f', rename f p q = Ok f' -> R f f') ->
  keeps (on_files home R) (rotate_key old new key).
Proof. intros H. unfold rotate_key. cbv zeta. on_files_auto; (intros f f'; apply H). Qed.

Lemma on_files_auth flag key : (forall f d f', create_dir_all f d = Ok f' -> R f f') ->
  (forall f p q f', rename f p q = Ok f' -> R f f') -> keeps (on_files home R) (handle_auth_keys cfg flag key).
Proof.
  intros H1 H2. unfold handle_auth_keys, handle_auth_packet. cbv zeta. on_files_auto; [by apply on_files_register|by apply on_files_rotate].
Qed.
(** What a command may do to the files. *)
Definition command_allowed (cmd : Command) (root : path) (ck : bytes) : Prop :=
  match cmd with
  | Upload h => upload_allowed h root ck
  | Auth _ => (forall f d f', create_dir_all f d = Ok f' -> R f f') /\
              (forall f p q f', rename f p q = Ok f' -> R f f')
  | _ => True
  end.

Lemma on_files_dispatch cmd nt root key ck : command_allowed cmd root ck ->
  keeps (on_files home R) (dispatch short cfg cmd nt root key ck).
Proof.
  destruct cmd; cbn [dispatch command_allowed]; intros H.
  - destruct (enable_echo cfg); (apply keeps_bind; [apply _| |intros _; on_files_auto]);
      [apply on_files_echo|on_files_auto].
  - destruct H as [H1 H2]. apply keeps_bind; [apply _|by apply on_files_auth|intros _; on_files_auto].
  - apply keeps_bind; [apply _| |intros _; on_files_auto]. destruct (upload_validate _ _); [|on_files_auto].
    by apply on_files_upload.
  - apply keeps_bind; [apply _| |intros _; on_files_auto]. destruct (download_validate _); [|on_files_auto].
    apply on_files_download.
  - apply on_files_status.
Qed.
End Relation.

(** * Well-formedness *)

Definition wf_kept (f f' : fs) : Prop := fs_wf f -> fs_wf f'.
#[local] Instance wf_kept_preorder : PreOrder wf_kept.
Proof. split; unfold wf_kept; [by intros f|intros f1 f2 f3; auto]. Qed.


Lemma wf_kept_upload h root ck : upload_allowed wf_kept h root ck.
Proof.
  split; unfold wf_kept.
  - intros f f' H Hwf. by eapply create_dir_all_wf.
  - intros f f' H Hwf. by eapply create_file_wf.
  - intros f bs Hwf. by apply append_file_wf.
  - intros f f' H Hwf. by eapply remove_file_wf.
  - intros f m f' (bs & _ & _ & H)%save_to_disk_ok Hwf. by eapply write_file_wf.
Qed.

Lemma on_files_task_wf ip root : keeps (on_files home wf_kept) (connection_task short cfg ip root).
Proof.
  assert (PreOrder wf_kept) by apply _.
  unfold connection_task, handle_connection, session, limited_dispatch, read_headers. on_files_auto.
  all: try (apply on_files_server_handshake, _).
  all: apply on_files_dispatch; [done|].
  all: match goal with |- command_allowed _ ?c _ _ => destruct c; try done; [|by apply wf_kept_upload] end.
  all: split; unfold wf_kept; intros; [by eapply create_dir_all_wf|by eapply rename_wf].
Qed.

(** * Isolation *)

Section Isolation.
Context {HXL : HexLaws} {SHL : Sha2Laws}.
Variables (root : path) (ck : bytes).

(** Nothing outside the client's directory changes, except that directories
    above it may appear. *)
Definition confined (f f' : fs) : Prop := forall p, ~ under (user_dir root ck) p ->
  f' !! p = f !! p \/ f !! p = None /\ f' !! p = Some Dir /\ under p (user_dir root ck).

#[local] Instance confined_preorder : PreOrder confined.
Proof.
  split; unfold confined; [by left|]. intros f1 f2 f3 H12 H23 p Hp.
  destruct (H12 p Hp) as [E|(E1 & E2 & Hu)], (H23 p Hp) as [E'|(E1' & E2' & Hu')]; [left|right..].
  - congruence.
  - rewrite <- E. done.
  - rewrite E'. done.
  - congruence.
Qed.

Lemma confined_insert f r n : confined f (<[user_dir root ck ++ r := n]> f).
Proof.
  intros p Hp. left. rewrite lookup_insert_ne; [done|]. intros <-. apply Hp, under_app.
Qed.

Lemma confined_delete f r : confined f (delete (user_dir root ck ++ r) f).
Proof.
  intros p Hp. left. rewrite lookup_delete_ne; [done|]. intros <-. apply Hp, under_app.
Qed.

Lemma confined_dirs f x f' : create_dir_all f (user_dir root ck ++ [x]) = Ok f' -> confined f f'.
Proof.
  intros [[Hold Hnew] _]%create_dir_all_ok p Hp. destruct (f !! p) as [n|] eqn:E; [left; by apply Hold|].
  destruct (f' !! p) as [n|] eqn:E'; [right|by left].
  destruct (Hnew _ _ E') as [|[-> [_ [r Hr]]%elem_of_prefixes]]; [congruence|]. split_and!; [done..|].
  apply under_iff. destruct r as [|y r _] using rev_ind.
  - exfalso. apply Hp. rewrite app_nil_r in Hr. rewrite <- Hr. apply under_app.
  - exists r. rewrite app_assoc in Hr. by apply app_inj_tail in Hr as [-> _].
Qed.

Lemma confined_upload h : upload_allowed confined h root ck.
Proof.
  split; intros f; rewrite ?user_dir_path_eq, ?(stored_file_eq _ _ ".file" no_slash_file),
    ?(stored_file_eq _ _ ".meta" no_slash_meta), <- ?app_assoc.
  - intros f'. apply confined_dirs.
  - intros f' (-> & _)%create_file_ok. apply confined_insert.
  - intros bs. unfold append_file. destruct (f !! _) as [[old|]|]; [apply confined_insert|done..].
  - intros f' (-> & _)%remove_file_ok. apply confined_delete.
  - intros m f' (bs & _ & -> & _)%save_to_disk_ok. apply confined_insert.
Qed.

(** (C29) Clients are isolated from each other: a command other than [Auth],
    however it is abused and however it ends, changes nothing outside the
    directory named by the digest of the client's own key, but for creating the
    directories above it; in particular nothing in the directory of a client
    whose key has another digest. *)
Theorem clients_isolated (cmd : Command) (nt : Z) (key : bytes) (w w' : World) (o : outcome unit) :
  (forall flags, cmd <> Auth flags) -> h_home (host w) = Some home ->
  dispatch short cfg cmd nt root key ck w = (o, w') ->
  confined (h_fs (host w)) (h_fs (host w')) /\
  forall ck' r, sha512_digest ck' <> sha512_digest ck ->
    h_fs (host w') !! (user_dir root ck' ++ r) = h_fs (host w) !! (user_dir root ck' ++ r).
Proof.
  intros Hcmd Hh H.
  assert (keeps (on_files home confined) (dispatch short cfg cmd nt root key ck)) as Hk.
  { apply on_files_dispatch; [apply _|]. destruct cmd; try done; [by edestruct Hcmd|apply confined_upload]. }
  apply (keeps_done _ _ _ _ _ Hk) in H as Hc. destruct (Hc Hh) as [_ Hconf]. split; [done|].
  intros ck' r Hne.
  assert (storage_name ck' <> storage_name ck) as Hn by (intros E; by apply encode_inj in E).
  destruct (Hconf (user_dir root ck' ++ r)) as [|(_ & _ & [q Hq]%under_iff)]; [|done|].
  - intros [q Hq]%under_iff. unfold user_dir in Hq. rewrite <- !app_assoc in Hq. apply app_inv_head in Hq.
    simpl in Hq. by injection Hq.
  - unfold user_dir in Hq. rewrite <- !app_assoc in Hq. apply app_inv_head in Hq. simpl in Hq. by injection Hq.
Qed.
End Isolation.
End Server.

Module FootprintWitness.
Import Toy AuthWitness TransferWitness ServerWitness.

Definition empty_world : World := world_of (demo_view []).

(** The upload of [TransferWitness], with its size too small for the server. *)
Definition upload_end : outcome unit * World :=
  dispatch full_reads demo_config (Upload (up_headers abc_hash)) 0 (storage_root home) demo_key csk empty_world.

Lemma clients_isolated_witness : confined (storage_root home) csk demo_fs (h_fs (host upload_end.2)).
Proof.
  unfold upload_end. match goal with |- context [snd ?d] =>
    destruct (clients_isolated full_reads demo_config home (storage_root home) csk (Upload (up_headers abc_hash)) 0
      demo_key empty_world d.2 d.1) as [H _];
    [discriminate|reflexivity|exact (surjective_pairing d)|exact H]
  end.
Defined.
End FootprintWitness.
