(* ===== verification/Guards.v ===== *)
(** What a connection leaves of the state it shares with the others, however it
    ends: every lock guard it took is dropped again, the buckets of the rate
    limiter stay within their bounds, the tree stays well-formed. Over any
    sequence of connections with any clients, no file stays locked. *)
From Stdlib Require Import Floats.
From S2P Require Import Prelude F64 External RateLimit FileSys Locks Lib Users World Exec Crypto Header Sample Stores Net Handshake Echo Auth Transfer Client Server Footprint.

(** * Relations on the host *)

Definition host_rel (Q : Host -> Host -> Prop) (w w' : World) : Prop := Q (host w) (host w').

#[export] Instance host_rel_tracks Q `{!PreOrder Q} : Tracks (host_rel Q).
Proof.
  unfold host_rel. split; [|intros; reflexivity].
  split; [intros w; reflexivity|intros w1 w2 w3; intros; by etrans].
Qed.

Lemma host_rel_of_host {A} Q `{!PreOrder Q} (m : M A) : keeps same_host m -> keeps (host_rel Q) m.
Proof. intros H w. unfold host_rel. rewrite (H w). reflexivity. Qed.
#[export] Hint Resolve host_rel_of_host | 10 : rd_keeps.

(** A relation that does not look at the files, the clock or the statistics. *)
Class Blind (Q : Host -> Host -> Prop) : Prop := {
  blind_fs h f : Q h (set_fs f h);
  blind_clock h now ticks : Q h (set_clock now ticks h);
  blind_tracker h t : Q h (set_tracker t h);
}.

Section Blind.
Context (Q : Host -> Host -> Prop) `{!PreOrder Q, !Blind Q}.

Lemma host_rel_modify f : (forall h, Q h (f h)) -> keeps (host_rel Q) (modify_host f).
Proof. intros H w. apply H. Qed.
Lemma host_rel_fs_op op : keeps (host_rel Q) (fs_op op).
Proof. intros w. unfold fs_op, host_rel. case_match; simpl; [apply blind_fs|reflexivity]. Qed.
Lemma host_rel_instant_now : keeps (host_rel Q) instant_now.
Proof. intros w. unfold instant_now, host_rel. case_match; simpl; [reflexivity|apply blind_clock]. Qed.
End Blind.

Ltac blind :=
  match goal with
  | |- keeps (host_rel _) (modify_host _) =>
    apply host_rel_modify; intros ?; first [apply blind_fs|apply blind_tracker]
  | |- keeps (host_rel _) (fs_op _) => apply host_rel_fs_op; apply _
  | |- keeps (host_rel _) instant_now => apply host_rel_instant_now; apply _
  | |- keeps (host_rel _) (map_throw _ _) => unfold map_throw
  | |- keeps (host_rel _) (append _ _) => unfold append
  | |- keeps (host_rel _) (buf_write _ _ _ _) => unfold buf_write
  | _ => keeps_step
  | |- keeps (host_rel _) _ => apply host_rel_of_host; [apply _|solve [auto with rd_keeps]]
  end.
Ltac blind_auto := repeat blind.

Section Server.
Context {AG : AesGcm} {HX : Hex} {SH : Sha2} {ED : Ed25519} {XD : X25519} {CH : Chrono}
  {PEH : Postcard ErrorHeader} {PWH : Postcard WarnHeader} {PCM : Postcard Command}
  {PUR : Postcard UploadResponse} {PDR : Postcard DownloadResponse} {PST : Postcard StatusHeader}
  {PED : Postcard EchoDebugHeader} {PM : Postcard MetadataFile}
  {PCH : Postcard ClientHello} {PSH : Postcard ServerHello}.
Variable short : Z -> Z.
Variable cfg : Config.

(** * The parts of the handlers that take no lock *)

Section Bodies.
Context (Q : Host -> Host -> Prop) `{!PreOrder Q, !Blind Q}.

Lemma blind_echo key : keeps (host_rel Q) (handle_echo_perf key).
Proof.
  assert (forall fuel, keeps (host_rel Q) (echo_loop fuel key)) as H; [|intros w; apply H].
  induction fuel as [|fuel IH]; cbn [echo_loop]; [apply (keeps_lift _ Hang)|].
  apply keeps_bind; [apply _|unfold echo_turn, array_of; blind_auto|].
  intros []; [exact IH|apply keeps_ret, _].
Qed.

Lemma blind_status key : keeps (host_rel Q) (send_status key).
Proof. unfold send_status. blind_auto. Qed.

Lemma blind_server_handshake : keeps (host_rel Q) (server_handshake cfg).
Proof. unfold server_handshake, server_hello_for, generate_x25519_keypair, array_of. blind_auto. Qed.

Lemma blind_auth flag key : keeps (host_rel Q) (handle_auth_keys cfg flag key).
Proof. unfold handle_auth_keys, handle_auth_packet, register_key, rotate_key. cbv zeta. blind_auto. Qed.

Lemma blind_receive fuel key p size : forall received hasher buf dec,
  keeps (host_rel Q) (receive_chunks fuel upload_fetch key p size received hasher buf dec).
Proof.
  induction fuel as [|fuel IH]; intros received hasher buf dec; cbn [receive_chunks];
    destruct (received <? size); try apply keeps_ret, _; [apply (keeps_lift _ Hang)|].
  cbv zeta. unfold upload_fetch. blind_auto.
Qed.
#[local] Hint Resolve blind_receive : rd_keeps.

Lemma blind_upload_locked h nt root key ck : keeps (host_rel Q) (upload_locked h nt root key ck).
Proof. unfold upload_locked, upload_finish. cbv zeta. blind_auto. Qed.

Lemma blind_send_chunks chunks key : forall enc, keeps (host_rel Q) (send_chunks chunks download_send key enc).
Proof. induction chunks as [|c cs IH]; intros enc; cbn [send_chunks]; unfold download_send; blind_auto. Qed.
#[local] Hint Resolve blind_send_chunks : rd_keeps.

Lemma blind_download_locked h nt root key ck : keeps (host_rel Q) (download_locked short h nt root key ck).
Proof. unfold download_locked. cbv zeta. blind_auto. Qed.

(** A connection, when the limiter and the two transfers keep [Q]. *)
Lemma blind_task ip root : (forall ip c, keeps (host_rel Q) (rate_check ip (command_cost c))) ->
  (forall h nt key ck, keeps (host_rel Q) (handle_upload h nt root key ck)) ->
  (forall h nt key ck, keeps (host_rel Q) (handle_download short h nt root key ck)) ->
  keeps (host_rel Q) (connection_task short cfg ip root).
Proof.
  intros Hrate Hup Hdown. unfold connection_task, handle_connection, session, limited_dispatch, dispatch, read_headers.
  blind_auto; first [apply blind_server_handshake|apply blind_echo|apply blind_auth|apply blind_status|apply Hrate|apply Hup|apply Hdown].
Qed.
End Bodies.

(** * Guards *)

Definition same_locks (h h' : Host) : Prop := h_locks h' = h_locks h.
#[local] Instance same_locks_preorder : PreOrder same_locks.
Proof. split; [done|]. unfold same_locks. intros h1 h2 h3 -> ->. done. Qed.
#[local] Instance same_locks_blind : Blind same_locks.
Proof. by split. Qed.

(** The objects in use are allocated, and the next one is fresh. *)
Record locks_ok (t : LockTable) : Prop := {
  lo_fresh : forall l, (lt_next t <= l)%nat -> lock_state t l = unlocked;
  lo_map : forall id l, lt_map t !! id = Some l -> (l < lt_next t)%nat;
}.

(** Every lock object has the guards it had. *)
Definition guards_kept (h h' : Host) : Prop := locks_ok (h_locks h) ->
  locks_ok (h_locks h') /\ forall l, lock_state (h_locks h') l = lock_state (h_locks h) l.
#[local] Instance guards_kept_preorder : PreOrder guards_kept.
Proof.
  split; unfold guards_kept; [by split|]. intros h1 h2 h3 H12 H23 H1. destruct (H12 H1) as [H2 E2].
  destruct (H23 H2) as [H3 E3]. split; [done|]. intros l. by rewrite E3.
Qed.
#[local] Instance guards_kept_blind : Blind guards_kept.
Proof. by split. Qed.

Lemma hold_keeps_guards id t l t' : hold_file_lock id t = (l, t') -> locks_ok t ->
  locks_ok t' /\ (forall k, lock_state t' k = lock_state t k) /\ (l < lt_next t')%nat.
Proof.
  unfold hold_file_lock. destruct (lt_map t !! id) as [l0|] eqn:E; intros [= <- <-] [Hf Hm].
  - split_and!; [done|done|by eapply Hm].
  - assert (forall k, lock_state {| lt_map := <[id:=lt_next t]> (lt_map t); lt_heap := <[lt_next t:=unlocked]> (lt_heap t);
      lt_next := S (lt_next t) |} k = lock_state t k) as Hs.
    { intros k. unfold lock_state at 1. simpl. rewrite lookup_insert. case_decide; [|done]. subst k. simpl.
      symmetry. by apply Hf. }
    split_and!; [|exact Hs|simpl; lia]. split; simpl.
    + intros k Hk. rewrite Hs. apply Hf. lia.
    + intros f k. rewrite lookup_insert. case_decide; [intros [= <-]; lia|]. intros Hk%Hm. lia.
Qed.

(** Taking a guard and dropping it, whatever lies between. *)
Lemma set_back l a b t k : lock_state t l = b ->
  lock_state (set_lock l b (set_lock l a t)) k = lock_state t k.
Proof. intros H. rewrite !lock_state_set. case_decide; by subst. Qed.

Lemma write_back l t t' k : try_write l t = Some t' -> lock_state (drop_write l t') k = lock_state t k.
Proof.
  unfold try_write. destruct (lock_state t l) as [r w] eqn:E. cbn [writer readers].
  destruct w; [done|]. destruct r; [|done]. intros [= <-]. unfold drop_write.
  rewrite (lock_state_set l _ t l), decide_True by done. by apply set_back.
Qed.

Lemma read_back l t t' k : try_read l t = Some t' -> lock_state (drop_read l t') k = lock_state t k.
Proof.
  unfold try_read. destruct (lock_state t l) as [r w] eqn:E. cbn [writer readers].
  destruct w; [done|]. intros [= <-]. unfold drop_read.
  rewrite (lock_state_set l _ t l), decide_True by done. by apply set_back.
Qed.

(** [drop] undoes [try]. *)
Definition gives_back (try : nat -> LockTable -> option LockTable) (drop : nat -> LockTable -> LockTable) : Prop :=
  forall l t t', try l t = Some t' -> lt_next (drop l t') = lt_next t /\ lt_map (drop l t') = lt_map t /\
    forall k, lock_state (drop l t') k = lock_state t k.

Lemma write_gives_back : gives_back try_write drop_write.
Proof.
  intros l t t' E. split_and!; [..|intros k; by apply write_back];
    unfold try_write in E; cbv zeta in E; destruct (writer _ || _)%bool; [done|by injection E as <-|done|by injection E as <-].
Qed.
Lemma read_gives_back : gives_back try_read drop_read.
Proof.
  intros l t t' E. split_and!; [..|intros k; by apply read_back];
    unfold try_read in E; destruct (writer _); by simplify_eq.
Qed.

(** The shape of both handlers: a guard around a body that keeps the table. *)
Lemma guarded_keeps {A} id try drop (busy : M unit) (body : M A) (k : A -> M unit) : gives_back try drop ->
  keeps (host_rel guards_kept) busy -> keeps (host_rel same_locks) body -> (forall a, keeps (host_rel guards_kept) (k a)) ->
  keeps (host_rel guards_kept) (
    let* file_lock := hold_lock id in
    let* guard := (fun w => match try file_lock (h_locks (host w)) with
                            | Some t => (Done true, on_host (set_locks t) w)
                            | None => (Done false, w)
                            end) in
    if negb guard then busy
    else let* complete := finally body (on_host (fun h => set_locks (drop file_lock (h_locks h)) h)) in k complete).
Proof.
  intros Hgb Hbusy Hbody Hk w Hok.
  destruct (hold_file_lock id (h_locks (host w))) as [l t1] eqn:Eh.
  destruct (hold_keeps_guards _ _ _ _ Eh Hok) as (Hok1 & Hs1 & Hl).
  set (w1 := on_host (set_locks t1) w). erewrite (bind_done _ _ w l w1); [|unfold hold_lock; by rewrite Eh]. cbv beta.
  destruct (try l t1) as [t2|] eqn:Et.
  - destruct (Hgb l t1 t2 Et) as (Hn & Hm & Hs2). set (w2 := on_host (set_locks t2) w1).
    erewrite (bind_done _ _ w1 true w2); [|change (h_locks (host w1)) with t1; by rewrite Et]. cbn [negb].
    pose proof (Hbody w2) as Hb. unfold bind, finally. destruct (body w2) as [o w3]. cbn [snd] in Hb.
    set (w4 := on_host (fun h => set_locks (drop l (h_locks h)) h) w3).
    assert (h_locks (host w4) = drop l t2) as E4 by (unfold w4; simpl; f_equal; exact Hb).
    assert (locks_ok (h_locks (host w4)) /\ forall j, lock_state (h_locks (host w4)) j = lock_state (h_locks (host w)) j)
      as [Hok4 Hs4].
    { rewrite E4. split; [|intros j; by rewrite Hs2, Hs1]. destruct Hok1 as [Hf1 Hm1]. split.
      - intros j. rewrite Hn, Hs2. apply Hf1.
      - intros f j. rewrite Hn, Hm. apply Hm1. }
    destruct o as [a|e| |]; [|done..].
    destruct (Hk a w4 Hok4) as [Hok5 Hs5]. split; [done|]. intros j. by rewrite Hs5.
  - erewrite (bind_done _ _ w1 false w1); [|change (h_locks (host w1)) with t1; by rewrite Et]. cbn [negb].
    destruct (Hbusy w1 Hok1) as [Hok2 Hs2]. split; [done|]. intros j. rewrite Hs2. apply Hs1.
Qed.

Lemma guards_release id : keeps (host_rel guards_kept) (modify_host (release_lock id)).
Proof.
  apply host_rel_modify. intros h [Hf Hm]. split; [|done]. split; simpl; [done|].
  intros f l [_ H]%lookup_delete_Some. by eapply Hm.
Qed.
#[local] Hint Resolve guards_release : rd_keeps.

Lemma guards_upload h nt root key ck : keeps (host_rel guards_kept) (handle_upload h nt root key ck).
Proof.
  apply (guarded_keeps (u_file_id h) try_write drop_write); [apply write_gives_back|blind_auto|apply blind_upload_locked; apply _|].
  intros []; blind_auto.
Qed.

Lemma guards_download h nt root key ck : keeps (host_rel guards_kept) (handle_download short h nt root key ck).
Proof.
  apply (guarded_keeps (d_file_id h) try_read drop_read); [apply read_gives_back|blind_auto|apply blind_download_locked; apply _|].
  intros []; blind_auto.
Qed.

Lemma guards_rate ip cost : keeps (host_rel guards_kept) (rate_check ip cost).
Proof.
  unfold rate_check. apply keeps_bind; [apply _|apply host_rel_instant_now; apply _|]. intros now w.
  destruct (is_allowed_cost _ _ _ _) as [ok l]. by split.
Qed.

Lemma guards_task ip root : keeps (host_rel guards_kept) (connection_task short cfg ip root).
Proof.
  apply (blind_task _); [intros; apply guards_rate|intros; apply guards_upload|intros; apply guards_download].
Qed.

(** A connection drops every guard it takes: whatever the client sends, and
    whether the task returns, fails, panics or is cut off by its lifetime. *)
Theorem connection_drops_guards (ip : option IpAddr) (root : path) (w w' : World) (o : outcome unit) :
  locks_ok (h_locks (host w)) -> connection_task short cfg ip root w = (o, w') ->
  locks_ok (h_locks (host w')) /\ forall l, lock_state (h_locks (host w')) l = lock_state (h_locks (host w)) l.
Proof.
  intros Hok H. by apply (keeps_done _ _ _ _ _ (guards_task ip root) H).
Qed.

(** * The rate limiter *)

Section Limiter.
Context (max rate : f64) (max_nonneg : nonneg max) (rate_nonneg : nonneg rate).

Definition limiter_kept (h h' : Host) : Prop := limiter_wf max rate (h_limiter h) -> limiter_wf max rate (h_limiter h').
#[local] Instance limiter_kept_preorder : PreOrder limiter_kept.
Proof. split; unfold limiter_kept; [intros h H; exact H|intros h1 h2 h3 H12 H23 H; auto]. Qed.
#[local] Instance limiter_kept_blind : Blind limiter_kept.
Proof. split; intros; intros H; exact H. Qed.

Lemma limiter_locks f : keeps (host_rel limiter_kept) (modify_host (fun h => set_locks (f h) h)).
Proof. apply host_rel_modify. intros h H. exact H. Qed.
Lemma limiter_hold id : keeps (host_rel limiter_kept) (hold_lock id).
Proof. intros w H. unfold hold_lock. destruct (hold_file_lock _ _). exact H. Qed.
Lemma limiter_write l : keeps (host_rel limiter_kept) (lock_write l).
Proof. intros w H. unfold lock_write. case_match; exact H. Qed.
Lemma limiter_read l : keeps (host_rel limiter_kept) (lock_read l).
Proof. intros w H. unfold lock_read. case_match; exact H. Qed.
Lemma limiter_finally {A} (m : M A) f : keeps (host_rel limiter_kept) m ->
  keeps (host_rel limiter_kept) (finally m (on_host (fun h => set_locks (f h) h))).
Proof. intros Hm w H. specialize (Hm w H). unfold finally. destruct (m w). exact Hm. Qed.
#[local] Hint Resolve limiter_locks limiter_hold limiter_write limiter_read : rd_keeps.

Lemma limiter_rate ip c : keeps (host_rel limiter_kept) (rate_check ip (command_cost c)).
Proof.
  unfold rate_check. apply keeps_bind; [apply _|apply host_rel_instant_now; apply _|]. intros now w Hwf.
  pose proof (is_allowed_cost_wf max rate max_nonneg rate_nonneg now ip (command_cost c) _
    ltac:(by destruct c; vm_compute) ltac:(intros s; by destruct c, s; vm_compute) Hwf) as H.
  destruct (is_allowed_cost _ _ _ _) as [ok l]. exact H.
Qed.

Lemma limiter_upload h nt root key ck : keeps (host_rel limiter_kept) (handle_upload h nt root key ck).
Proof.
  unfold handle_upload. cbv zeta. blind_auto; try apply limiter_locks.
  apply limiter_finally, blind_upload_locked; apply _.
Qed.
Lemma limiter_download h nt root key ck : keeps (host_rel limiter_kept) (handle_download short h nt root key ck).
Proof.
  unfold handle_download. cbv zeta. blind_auto; try apply limiter_locks.
  apply limiter_finally, blind_download_locked; apply _.
Qed.

Lemma limiter_task ip root : keeps (host_rel limiter_kept) (connection_task short cfg ip root).
Proof.
  apply (blind_task _); [intros; apply limiter_rate|intros; apply limiter_upload|intros; apply limiter_download].
Qed.
End Limiter.

(** * One connection after the other *)

Section Runs.
Variables (home root : path) (max rate : f64).

(** What holds of the server between two connections. *)
Record server_ok (h : Host) : Prop := {
  so_home : h_home h = Some home;
  so_tree : fs_wf (h_fs h);
  so_locks : locks_ok (h_locks h);
  so_idle : forall l, lock_state (h_locks h) l = unlocked;
  so_limiter : limiter_wf max rate (h_limiter h);
}.

(** A connection from any address, with any client (its bytes, their end, its
    stalls), at any time. *)
Definition serves (h h' : Host) : Prop := exists ip c now ticks o w',
  connection_task short cfg ip root {| conn := c; host := set_clock now ticks h |} = (o, w') /\ h' = host w'.

Lemma server_ok_serves h h' : nonneg max -> nonneg rate -> serves h h' -> server_ok h -> server_ok h'.
Proof.
  intros Hmax Hrate (ip & c & now & ticks & o & w' & H & ->) [Hh Ht Hl Hi Hlim].
  destruct (keeps_done _ _ _ _ _ (on_files_task_wf short cfg home ip root) H Hh) as [Hh' Ht'].
  destruct (keeps_done _ _ _ _ _ (guards_task ip root) H Hl) as [Hl' Hs'].
  pose proof (keeps_done _ _ _ _ _ (limiter_task max rate Hmax Hrate ip root) H Hlim) as Hlim'.
  split; try done; [by apply Ht'|]. intros l. by rewrite Hs'.
Qed.

(** (C15) The server survives its clients. It starts with no lock and an empty
    limiter; after any number of connections, whatever was sent in them and
    whether they returned, failed, panicked or were cut off, its tree is
    well-formed, every bucket of the limiter has its parameters and a number of
    tokens that is neither NaN nor a debt, and no file is locked: the next
    transfer of any file finds its lock free. *)
Theorem server_invariant (h h' : Host) :
  nonneg max -> nonneg rate -> h_home h = Some home -> fs_wf (h_fs h) ->
  h_locks h = empty_locks -> h_limiter h = init_limiter max rate -> rtc serves h h' ->
  server_ok h' /\ forall id, lock_free id (h_locks h').
Proof.
  intros Hmax Hrate Hh Ht Hl Hlim Hrun. assert (server_ok h) as H0.
  { split; try done; rewrite ?Hl, ?Hlim; [by split|done|]. split_and!; [done..|apply map_Forall_empty]. }
  assert (server_ok h') as [? ? ? Hi ?]; [|split; [by split|]; intros id l _; apply Hi].
  revert h' Hrun. apply (rtc_ind_r server_ok); [done|]. intros h1 h2 _ Hs IH. by eapply server_ok_serves.
Qed.
End Runs.
End Server.

(** * A connection whose client has left already *)
Module GuardsWitness.
Import Toy AuthWitness TransferWitness ServerWitness.

Definition gone : Conn := conn (world_of (demo_view [])).
Definition task_end : outcome unit * World :=
  connection_task full_reads demo_config (Some ip1) (storage_root home)
    {| conn := gone; host := set_clock 0 [] demo_host |}.

Lemma connection_drops_guards_witness : forall l, lock_state (h_locks (host task_end.2)) l = unlocked.
Proof.
  refine (proj2 (connection_drops_guards full_reads demo_config (Some ip1) (storage_root home) _ _ task_end.1 _
    (surjective_pairing task_end))).
  split; [reflexivity|]. intros id l H. discriminate H.
Defined.

Lemma server_invariant_witness : lock_free "notes" (h_locks (host task_end.2)).
Proof.
  apply (server_invariant full_reads demo_config home (storage_root home) 100%float 10%float demo_host (host task_end.2));
    [exact I || reflexivity..|exact demo_fs_wf|reflexivity|reflexivity|].
  apply rtc_once. exists (Some ip1), gone, 0, [], task_end.1, task_end.2.
  split; [exact (surjective_pairing task_end)|reflexivity].
Defined.
End GuardsWitness.
