(* ===== verification/Panics.v ===== *)
(** Where the server can panic. The binary is built to abort on a panic, so a
    packet that makes a task panic ends the server for every client: these are
    all the packets that do. *)
From S2P Require Import Prelude F64 External RateLimit FileSys Locks Lib Users World Exec Crypto Header Sample Stores Net Handshake Echo Auth Transfer Server.

Section Panics.
Context {AG : AesGcm} {HX : Hex} {SH : Sha2} {ED : Ed25519} {XD : X25519} {CH : Chrono}
  {PEH : Postcard ErrorHeader} {PWH : Postcard WarnHeader} {PCM : Postcard Command}
  {PUR : Postcard UploadResponse} {PDR : Postcard DownloadResponse} {PST : Postcard StatusHeader}
  {PED : Postcard EchoDebugHeader} {PM : Postcard MetadataFile}
  {PCH : Postcard ClientHello} {PSH : Postcard ServerHello}.
Context {AGL : AesGcmLaws} {HXL : HexLaws} {SHL : Sha2Laws} {EDL : Ed25519Laws} {XDL : X25519Laws}.
Variable short : Z -> Z.
Variable cfg : Config.

(** * Computations that cannot panic *)

Lemma no_panic_array_of n b : no_panic (array_of n b).
Proof. apply no_panic_lift_result. Qed.
Lemma no_panic_pool_reserve n : no_panic (pool_reserve n).
Proof. intros w w'. unfold pool_reserve. apply no_panic_modify_conn. Qed.
Lemma no_panic_hold_lock id : no_panic (hold_lock id).
Proof. intros w w'. unfold hold_lock. by destruct (hold_file_lock _ _). Qed.
Lemma no_panic_lock_write l : no_panic (lock_write l).
Proof. intros w w'. unfold lock_write. by case_match. Qed.
Lemma no_panic_lock_read l : no_panic (lock_read l).
Proof. intros w w'. unfold lock_read. by case_match. Qed.
Lemma no_panic_hang {A} : no_panic (@hang A).
Proof. by intros w w'. Qed.
Lemma no_panic_read_encrypt key : no_panic (read_encrypt_data_into key).
Proof. apply read_encrypt_never_panics. Qed.
Lemma no_panic_lift_known {A} (o : outcome A) : (exists a, o = Done a) -> no_panic (lift o).
Proof. by intros [a ->] w w'. Qed.
Lemma no_panic_lift_value {A} (a : A) : no_panic (lift (Done a)).
Proof. by intros w w'. Qed.
#[local] Hint Resolve no_panic_lift_value no_panic_array_of no_panic_hold_lock no_panic_lock_write no_panic_lock_read
  no_panic_hang no_panic_read_encrypt : rd_safe.

Lemma no_panic_bind_done {A B} (m : M A) (k : A -> M B) : no_panic m ->
  (forall a w w1, m w = (Done a, w1) -> no_panic (k a)) -> no_panic (bind m k).
Proof. intros Hm Hk w w' [H|(a & w1 & E & H)]%bind_panic_inv; [by eapply Hm|by eapply Hk]. Qed.

Ltac safe :=
  match goal with
  | |- no_panic (match ?x with _ => _ end) => destruct x
  | |- no_panic (timeout_qq _ _) => apply no_panic_timeout_or
  | |- no_panic (map_throw _ _) => unfold map_throw
  | |- no_panic (gets_fs _) => unfold gets_fs
  | |- no_panic (append _ _) => unfold append
  | |- no_panic (buf_write _ _ _ _) => unfold buf_write
  | |- no_panic (bind _ _) => apply no_panic_bind; [|intros ?]
  | |- no_panic _ => progress auto with rd_safe
  end.
Ltac safe_auto := repeat safe.

(** An encryption into a buffer of the packet's size. *)
Lemma encrypt_into_fits input output key w : zlen output = NONCE_LEN + zlen input + TAG_LEN ->
  match (encrypt_into input output key w).1 with
  | Done (pkt, n) => zlen pkt = zlen output /\ n = zlen output
  | Throw _ => True
  | Panic | Hang => False
  end.
Proof.
  intros Hl. destruct (seal key (next_random NONCE_LEN (conn w)) input) as [pkt|e] eqn:E.
  - rewrite (encrypt_into_exact _ _ _ _ _ Hl E). simpl. rewrite (seal_len _ _ _ _ (next_random_len NONCE_LEN (conn w) ltac:(done)) E). by rewrite Hl.
  - unfold encrypt_into, bail_if. pose proof (zlen_nonneg input) as Hi. unfold NONCE_LEN, TAG_LEN in *.
    rewrite (proj2 (Z.ltb_ge _ _)) by lia.
    unfold bind, lift at 1. rewrite split_at_ok by lia. unfold lift at 1.
    rewrite split_at_ok by (rewrite zlen_zdrop; lia). unfold lift at 1, fill_bytes.
    rewrite zlen_ztake by lia. unfold lift at 1.
    rewrite copy_from_slice_ok by (rewrite zlen_ztake; rewrite ?zlen_zdrop; lia).
    unfold lift_result, lift at 1, array_try_from. rewrite next_random_len by lia. simpl of_result.
    unfold lift at 1. unfold seal in E. destruct (gcm_encrypt_detached _ _ _) as [[c t]|]; [done|]. done.
Qed.

Lemma no_panic_write_encrypt data key : no_panic (write_encrypt_frame_into data key).
Proof.
  unfold write_encrypt_frame_into. apply no_panic_lift_bail. intros _. pose proof (zlen_nonneg data) as Hd.
  cbv zeta. apply no_panic_reserved; [unfold NONCE_LEN, TAG_LEN; lia|]. intros p Hp. unfold NONCE_LEN, TAG_LEN in *.
  eapply no_panic_lift_done; [apply write_at_ok; [lia|rewrite zlen_to_be_bytes; lia]|].
  set (p1 := _ ++ _ ++ _). assert (zlen p1 = zlen p) as Hp1.
  { unfold p1. rewrite !zlen_app, zlen_to_be_bytes, zlen_ztake, zlen_zdrop by lia. lia. }
  eapply no_panic_lift_done; [apply slice_ok; lia|]. set (out := ztake _ _).
  assert (zlen out = 12 + zlen data + 16) as Ho by (unfold out; rewrite zlen_ztake; [lia|rewrite zlen_zdrop; lia]).
  apply no_panic_bind_done.
  { intros w w' H. pose proof (encrypt_into_fits data out key w Ho) as Hf. by rewrite H in Hf. }
  intros [pkt n] w w1 H. pose proof (encrypt_into_fits data out key w Ho) as Hf. rewrite H in Hf. simpl in Hf. destruct Hf as [Hf _].
  eapply no_panic_lift_done; [apply write_at_ok; lia|]. set (p2 := _ ++ _ ++ _).
  assert (zlen p2 = zlen p1) as Hp2 by (unfold p2; rewrite !zlen_app, zlen_ztake, zlen_zdrop by lia; lia).
  unfold put_pool. apply no_panic_bind; [auto with rd_safe|intros _].
  eapply no_panic_lift_done; [apply slice_ok; lia|]. auto with rd_safe.
Qed.
#[local] Hint Resolve no_panic_write_encrypt : rd_safe.

Lemma no_panic_send_failed e key : no_panic (send_failed e key).
Proof. unfold send_failed. safe_auto. Qed.
Lemma no_panic_send_warn e key : no_panic (send_warn e key).
Proof. unfold send_warn. safe_auto. Qed.
Lemma no_panic_send_success {T} {PT : Postcard T} (x : T) key : no_panic (send_success x key).
Proof. unfold send_success. safe_auto. Qed.
Lemma no_panic_send_status key : no_panic (send_status key).
Proof. unfold send_status. safe_auto. Qed.
#[local] Hint Resolve no_panic_send_failed no_panic_send_warn no_panic_send_success no_panic_send_status : rd_safe.

Lemma no_panic_echo key : no_panic (handle_echo_perf key).
Proof.
  assert (forall fuel, no_panic (echo_loop fuel key)) as H; [|intros w; apply H].
  induction fuel as [|fuel IH]; cbn [echo_loop]; [apply no_panic_hang|].
  apply no_panic_bind; [unfold echo_turn; safe_auto|]. intros []; [exact IH|apply no_panic_ret].
Qed.

Lemma no_panic_receive fuel key p size : forall received hasher buf dec,
  no_panic (receive_chunks fuel upload_fetch key p size received hasher buf dec).
Proof.
  induction fuel as [|fuel IH]; intros received hasher buf dec; cbn [receive_chunks];
    destruct (received <? size); try apply no_panic_ret; [apply no_panic_hang|].
  cbv zeta. unfold upload_fetch. apply no_panic_bind; [safe_auto|]. intros enc.
  apply no_panic_bind_done.
  { intros w w' [= H]. by apply decrypt_into_never_panics in H. }
  intros [out n] w w1 [(q & _ & -> & Hq & ->)%decrypt_into_done_inv _]%lift_done_inv.
  pose proof (zlen_nonneg q). eapply no_panic_lift_done; [apply slice_ok; [lia|rewrite zlen_app; zlen_pose; lia]|].
  apply no_panic_bind; [safe_auto|auto].
Qed.
#[local] Hint Resolve no_panic_echo no_panic_receive : rd_safe.

(** * What a panic is blamed on *)

Ltac safe_in H :=
  let m := lazymatch type of H with ?m ?w = _ => m end in
  let Hs := fresh in assert (no_panic m) as Hs by safe_auto; destruct (Hs _ _ H).

Lemma instant_now_inv n w w' : instant_now w = (Done n, w') -> h_fs (host w') = h_fs (host w) /\ conn w' = conn w.
Proof. unfold instant_now. by destruct (h_ticks (host w)); intros [= _ <-]. Qed.

(** Skips a statement that cannot panic: the panic is further on. *)
Ltac skip H a w E :=
  apply bind_panic_inv in H as [H|(a & w & E & H)];
  [safe_in H|].

Lemma str_prefix_cases s n : str_prefix s n = Panic \/ exists p, str_prefix s n = Done p.
Proof. unfold str_prefix. repeat case_match; eauto. Qed.

(** The locked part of a request panics as often as the request. *)
Lemma finally_panic_inv {A} (m : M A) f w w' : finally m f w = (Panic, w') -> exists w1, m w = (Panic, w1).
Proof. unfold finally. destruct (m w) as [[] w1]; intros H; simplify_eq; eauto. Qed.

Lemma upload_panic_inv h nt root key ck w w' : handle_upload h nt root key ck w = (Panic, w') ->
  str_prefix (u_file_hash h) 8 = Panic.
Proof.
  destruct (str_prefix_cases (u_file_hash h) 8) as [?|[p Hp]]; [done|]. intros H. exfalso. revert H.
  unfold handle_upload. cbv zeta. apply no_panic_bind; [auto with rd_safe|]. intros l.
  apply no_panic_bind; [auto with rd_safe|]. intros g. destruct (negb g); [auto with rd_safe|].
  apply no_panic_bind; [apply no_panic_finally|intros []; safe_auto].
  unfold upload_locked. cbv zeta. apply no_panic_bind; [safe_auto|]. intros _.
  eapply no_panic_lift_done; [exact Hp|]. unfold upload_finish. safe_auto.
Qed.

(** A stored file that a download cannot send: the server cuts the hash in its
    metadata at 8 bytes, and gives [encrypt_into] the whole packet buffer for a
    read that may have filled less. *)
Definition unsendable (f : fs) (root : path) (ck : bytes) (h : DownloadHeader) : Prop :=
  let dir := user_dir_path root ck (d_file_key h) in
  exists m, read_from_disk f (stored_file dir (d_file_id h) ".meta") = Ok m /\
    (str_prefix (m_file_hash m) 8 = Panic \/
     exists data, read_file f (stored_file dir (d_file_id h) ".file") = Ok data /\
       ~ Forall (fun c => zlen c = READ_CHUNK_SIZE) (reads short READ_CHUNK_SIZE data)).

Lemma no_panic_send_chunks chunks key : forall enc, Forall (fun c => zlen c = READ_CHUNK_SIZE) chunks ->
  zlen enc = ENC_BUF_LEN -> no_panic (send_chunks chunks download_send key enc).
Proof.
  induction chunks as [|c cs IH]; intros enc Hall He; cbn [send_chunks]; [apply no_panic_ret|].
  inversion_clear Hall as [|? ? Hc Hcs].
  assert (zlen enc = NONCE_LEN + zlen c + TAG_LEN) as Hl by (rewrite He, Hc; done).
  apply no_panic_bind_done.
  { intros w w' H. pose proof (encrypt_into_fits c enc key w Hl) as Hf. by rewrite H in Hf. }
  intros [pkt n] w w1 H. pose proof (encrypt_into_fits c enc key w Hl) as Hf. rewrite H in Hf. destruct Hf as [Hf ->].
  eapply no_panic_lift_done; [apply slice_ok; [zlen_pose|]; lia|].
  unfold download_send. apply no_panic_bind; [safe_auto|]. intros _. apply IH; [done|lia].
Qed.

Lemma download_panic_inv h nt root key ck w w' : handle_download short h nt root key ck w = (Panic, w') ->
  unsendable (h_fs (host w)) root ck h.
Proof.
  unfold handle_download. cbv zeta. intros H. skip H l w1 E1. skip H g w2 E2. destruct g; cbn [negb] in H.
  2: { by apply no_panic_send_failed in H. }
  assert (h_fs (host w2) = h_fs (host w)) as <-.
  { unfold hold_lock in E1. destruct (hold_file_lock _ _). injection E1 as _ <-. unfold lock_read in E2.
    case_match; by simplify_eq. }
  apply bind_panic_inv in H as [(w3 & H)%finally_panic_inv|(c & w3 & _ & H)].
  2: { safe_in H. }
  clear E1 E2. unfold download_locked in H. cbv zeta in H.
  skip H e w4 E4. injection E4 as _ <-. destruct (negb e); [safe_in H|].
  skip H e' w5 E5. injection E5 as _ <-. destruct (negb e'); [safe_in H|].
  skip H r w6 E6. injection E6 as Hm <-. destruct r as [m|er]; [|safe_in H].
  exists m. split; [done|]. destruct (str_prefix_cases (m_file_hash m) 8) as [Hp|[p Hp]]; [by left|right].
  rewrite Hp in H. skip H u w7 E7. injection E7 as _ <-. skip H now w8 E8.
  skip H hdr w9 E9. apply lift_result_done_inv in E9 as [_ ->]. skip H u' w10 E10. skip H op w11 E11. injection E11 as Ho <-.
  assert (h_fs (host w10) = h_fs (host w2)) as Hf.
  { assert (same_host w8 w10) as -> by (eapply keeps_done; [|exact E10]; unfold timeout_qq; auto with rd_keeps typeclass_instances).
    by apply instant_now_inv in E8 as [-> _]. }
  rewrite Hf in Ho. skip H data w12 E12. apply lift_result_done_inv in E12 as [-> ->].
  exists data. split; [done|]. intros Hall. apply bind_panic_inv in H as [H|(u2 & w13 & _ & H)]; [|safe_in H].
  apply (no_panic_send_chunks _ _ _ Hall) in H; [done|]. by apply zlen_zeros.
Qed.

Lemma no_panic_prefix_hash b n : 0 <= n <= 64 -> no_panic (lift (str_prefix (encode (sha256_digest b)) n)).
Proof. intros Hn. apply no_panic_lift_known, str_prefix_encode. rewrite sha256_digest_len. lia. Qed.

Lemma no_panic_register vk key : no_panic (register_key cfg vk key).
Proof.
  assert (no_panic (lift (str_prefix (encode (sha256_digest (as_bytes (encode (vk_to_bytes vk))))) 16))) as H16
    by (apply no_panic_prefix_hash; lia).
  assert (no_panic (lift (str_prefix (encode (sha256_digest (as_bytes (encode (vk_to_bytes vk))))) 32))) as H32
    by (apply no_panic_prefix_hash; lia).
  unfold register_key. cbv zeta. safe_auto; assumption.
Qed.
Lemma no_panic_rotate old new key : no_panic (rotate_key old new key).
Proof. unfold rotate_key. cbv zeta. safe_auto. Qed.
#[local] Hint Resolve no_panic_register no_panic_rotate : rd_safe.

Lemma split_panic_inv {A} (l : list A) n w w' : 0 <= n -> lift (split_at l n) w = (Panic, w') -> zlen l < n.
Proof. unfold lift, split_at. intros Hn H. destruct (Z.leb_spec n (zlen l)); [|done]. by rewrite (proj2 (Z.leb_le 0 n)) in H. Qed.

Lemma split_done_inv {A} (l : list A) n a b w w' : lift (split_at l n) w = (Done (a, b), w') ->
  zlen l = n + zlen b.
Proof.
  intros [H _]%lift_done_inv. unfold split_at in H. case_match eqn:E; [|done]. injection H as <- <-.
  apply andb_true_iff in E as [??]. zbool. rewrite zlen_zdrop by lia. lia.
Qed.

(** The authentication packets that are cut before their length is looked at. *)
Definition short_auth (flag : Z) (packet : bytes) : Prop :=
  (flag = 1 /\ zlen packet < 128) \/ (flag = 2 /\ zlen packet < 160).

Lemma auth_packet_panic_inv flag key w w' : handle_auth_packet cfg flag key w = (Panic, w') ->
  exists p pkt rest, sealed key p pkt /\ rd (conn w) = frame pkt ++ rest /\ short_auth flag p.
Proof.
  assert (forall p w1, read_encrypt_data_into key w = (Done p, w1) -> short_auth flag p ->
    exists p pkt rest, sealed key p pkt /\ rd (conn w) = frame pkt ++ rest /\ short_auth flag p) as Hread.
  { intros p w1 (pkt & Hs & Hrd & _)%read_encrypt_inv Hp. by exists p, pkt, (rd (conn w1)). }
  unfold handle_auth_packet. destruct (Z.eqb_spec flag 1) as [->|]; [|destruct (Z.eqb_spec flag 2) as [->|]]; intros H.
  - skip H p w1 E1. apply (Hread _ _ E1). left. split; [done|].
    apply bind_panic_inv in H as [H%split_panic_inv|([a b] & w2 & E2%split_done_inv & H)]; [lia..|].
    apply bind_panic_inv in H as [H%split_panic_inv|([c d] & w3 & E3%split_done_inv & H)]; [lia..|].
    safe_in H.
  - skip H p w1 E1. apply (Hread _ _ E1). right. split; [done|].
    apply bind_panic_inv in H as [H%split_panic_inv|([a b] & w2 & E2%split_done_inv & H)]; [lia..|].
    apply bind_panic_inv in H as [H%split_panic_inv|([c d] & w3 & E3%split_done_inv & H)]; [lia..|].
    apply bind_panic_inv in H as [H%split_panic_inv|([x y] & w4 & E4%split_done_inv & H)]; [lia..|].
    safe_in H.
  - safe_in H.
Qed.

Lemma auth_panic_inv flag key w w' : handle_auth_keys cfg flag key w = (Panic, w') ->
  exists p pkt rest, sealed key p pkt /\ rd (conn w) = frame pkt ++ rest /\ short_auth flag p.
Proof.
  unfold handle_auth_keys. intros H. skip H n w1 E1. cbv zeta in H. skip H u w2 E2.
  apply auth_packet_panic_inv in H. assert (rd (conn w2) = rd (conn w)) as <-; [|done].
  unfold timeout_qq in E2. apply timeout_or_done_inv in E2 as (w3 & E2 & ->). simpl.
  pose proof (keeps_in_write_encrypt (sha512_digest n) key
    (on_conn (set_limit (tighten WRITE_TIMEOUT (time_limit (conn w1)))) w1)) as Hr.
  rewrite E2 in Hr. simpl in Hr. rewrite Hr.
  unfold fill_bytes in E1. by injection E1 as _ <-.
Qed.

(** * The handshake *)

Lemma no_panic_read_raw : no_panic read_raw_data_into.
Proof. unfold read_raw_data_into. apply no_panic_bind; [apply no_panic_read_frame_length|auto with rd_safe]. Qed.
Lemma no_panic_write_raw b : no_panic (write_raw_frame_into b).
Proof. unfold write_raw_frame_into. apply no_panic_lift_bail. intros _. safe_auto. Qed.
#[local] Hint Resolve no_panic_read_raw no_panic_write_raw : rd_safe.

Lemma no_panic_server_hello x ch : zlen x = 32 -> no_panic (server_hello_for cfg x ch).
Proof.
  intros Hx. unfold server_hello_for. apply no_panic_bind_done; [auto with rd_safe|]. intros n w w1 E.
  assert (zlen n = 32) as Hn by (unfold fill_bytes in E; injection E as <- _; by apply next_random_len).
  apply no_panic_bind; [auto with rd_safe|]. intros vk.
  eapply no_panic_lift_done; [apply signed_transcript_eq; [apply arr_len|done|apply arr_len|done]|]. cbv zeta. safe_auto.
Qed.

(** The packet with the client's signature is cut at byte 64; nothing else in
    the handshake can panic. *)
Lemma handshake_panic_inv w w' : server_handshake cfg w = (Panic, w') ->
  exists hello packet rest, rd (conn w) = frame hello ++ frame packet ++ rest /\ zlen packet < 64.
Proof.
  unfold server_handshake, generate_x25519_keypair. intros H.
  apply bind_panic_inv in H as [H|([x_pri x_pub] & w1 & E1 & H)]; [safe_in H|].
  binv E1 as r w0 E0. injection E1 as <- <- <-. unfold fill_bytes in E0. injection E0 as <- <-.
  skip H hello w2 E2. apply timeout_or_done_inv in E2 as (w2' & (Hrd2 & _)%read_raw_inv & ->).
  skip H ch w3 E3. apply lift_result_done_inv in E3 as [_ ->].
  apply bind_panic_inv in H as [H|(sh & w4 & ->%server_hello_for_inv & H)].
  { by apply no_panic_server_hello in H; [|apply x_public_len]. }
  skip H hb w5 E5. apply lift_result_done_inv in E5 as [_ ->].
  skip H u w6 E6. apply timeout_or_done_inv in E6 as (w6' & [_ Hrd6]%(keeps_done _ _ _ _ _ (keeps_in_write_raw _)) & ->).
  skip H nonce w7 E7. unfold fill_bytes in E7. injection E7 as _ <-. cbv zeta in H.
  skip H u8 w8 E8. apply (keeps_done _ _ _ _ _ (keeps_in_write_raw _)) in E8 as [_ Hrd8].
  skip H u9 w9 E9. apply (keeps_done _ _ _ _ _ keeps_in_flush) in E9 as [_ Hrd9].
  skip H pack w10 E10. apply timeout_or_done_inv in E10 as (w10' & (Hrd10 & _)%read_raw_inv & ->).
  apply bind_panic_inv in H as [H%split_panic_inv|([sig pk] & w11 & _ & H)]; [|lia|safe_in H].
  cbn [conn on_conn rd set_limit set_rng_pos] in *. exists hello, pack, (rd (conn w10')).
  split; [|done]. by rewrite Hrd2, <- Hrd6, <- Hrd8, <- Hrd9, Hrd10.
Qed.

(** * The connection *)

(** A command, with the bytes that follow it, that makes its handler panic. *)
Definition command_crash (f : fs) (root : path) (key ck : bytes) (c : Command) (rest : bytes) : Prop :=
  match c with
  | Echo | Status => False
  | Auth flag => exists p pkt rest', sealed key p pkt /\ rest = frame pkt ++ rest' /\ short_auth flag p
  | Upload h => upload_validate (max_file_size cfg) h = Ok tt /\ str_prefix (u_file_hash h) 8 = Panic
  | Download h => download_validate h = Ok tt /\ unsendable f root ck h
  end.

Lemma dispatch_panic_inv c nt root key ck w w' : dispatch short cfg c nt root key ck w = (Panic, w') ->
  command_crash (h_fs (host w)) root key ck c (rd (conn w)).
Proof.
  destruct c as [|flag|h|h|]; unfold dispatch; intros H.
  - safe_in H.
  - apply bind_panic_inv in H as [(p & pkt & rest & Hc)%auth_panic_inv|(u & w1 & _ & H)]; [|safe_in H].
    by exists p, pkt, rest.
  - apply bind_panic_inv in H as [H|(u & w1 & _ & H)]; [|safe_in H].
    destruct (upload_validate _ h) as [[]|e] eqn:E; [|safe_in H]. split; [done|]. by eapply upload_panic_inv.
  - apply bind_panic_inv in H as [H|(u & w1 & _ & H)]; [|safe_in H].
    destruct (download_validate h) as [[]|e] eqn:E; [|safe_in H]. split; [done|]. by eapply download_panic_inv.
  - safe_in H.
Qed.

Lemma rate_check_host ip c w ok w' : rate_check ip c w = (Done ok, w') ->
  h_fs (host w') = h_fs (host w) /\ rd (conn w') = rd (conn w).
Proof.
  unfold rate_check. intros H. binv H as now w1 E1.
  apply instant_now_inv in E1 as [<- <-].
  destruct (is_allowed_cost _ _ _ _). by injection H as _ <-.
Qed.

Lemma no_panic_rate_check ip c : no_panic (rate_check ip c).
Proof. unfold rate_check. apply no_panic_bind; [auto with rd_safe|]. intros now w w'. by destruct (is_allowed_cost _ _ _ _). Qed.
#[local] Hint Resolve no_panic_rate_check : rd_safe.

Lemma limited_panic_inv ip c nt root key ck w w' : limited_dispatch short cfg ip c nt root key ck w = (Panic, w') ->
  command_crash (h_fs (host w)) root key ck c (rd (conn w)).
Proof.
  unfold limited_dispatch. intros H. skip H ok w1 E1. assert (h_fs (host w1) = h_fs (host w) /\ rd (conn w1) = rd (conn w)) as [<- <-].
  { destruct ip; [by eapply rate_check_host|by injection E1 as _ <-]. }
  destruct ok; [by eapply dispatch_panic_inv|safe_in H].
Qed.

Lemma no_panic_read_headers key : no_panic (read_headers key).
Proof. unfold read_headers. safe_auto. Qed.
#[local] Hint Resolve no_panic_read_headers : rd_safe.

Lemma session_panic_inv ip nt root key ck w w' : session short cfg ip nt root key ck w = (Panic, w') ->
  exists cmdb c pkt rest, sealed key cmdb pkt /\ rd (conn w) = frame pkt ++ rest /\ deserialize cmdb = Ok c /\
    command_crash (h_fs (host w)) root key ck c rest.
Proof.
  unfold session, put_pool. intros H. skip H u w1 E1. injection E1 as _ <-. skip H r w2 E2.
  destruct r as [c|e]; [|safe_in H]. unfold try_ in E2. destruct (read_headers _ _) as [o w3] eqn:Er.
  destruct o as [c'|e| |]; simplify_eq. unfold read_headers in Er.
  binv Er as b w3 (pkt & Hs & Hrd & _ & Hh)%read_encrypt_inv. apply lift_result_done_inv in Er as [Hc ->].
  apply limited_panic_inv in H. rewrite Hh in H. by exists b, c, pkt, (rd (conn w3)).
Qed.

(** The bytes of a client that ends the server: a handshake whose last packet
    is too short to hold a signature; or a handshake that succeeds and a
    command that crashes. *)
Inductive crash (f : fs) (root : path) : bytes -> Prop :=
| crash_handshake hello pack rest : zlen pack < 64 -> crash f root (frame hello ++ frame pack ++ rest)
| crash_command hello sig ck shared key cmdb pkt c rest :
    zlen sig = 64 -> salt_session_key shared = Done key -> sealed key cmdb pkt -> deserialize cmdb = Ok c ->
    command_crash f root key ck c rest ->
    crash f root (frame hello ++ frame (sig ++ ck) ++ frame pkt ++ rest).

(** (C14) Every panic of a connection's task, in the handshake or after it, is one of
    four: a handshake packet shorter than 64 bytes; an authentication packet
    shorter than its fields; an upload whose declared hash cannot be cut at 8
    bytes; a download of a file whose size is not a multiple of what the reads
    return, or whose recorded hash cannot be cut. No echo, no status request, no
    other frame, end of stream, stall, clock or file error panics. *)
Theorem only_crashes (ip : option IpAddr) (root : path) (w w' : World) :
  connection_task short cfg ip root w = (Panic, w') -> crash (h_fs (host w)) root (rd (conn w)).
Proof.
  unfold connection_task. intros [H|(r & w1 & _ & H)]%bind_panic_inv; [|safe_in H].
  unfold timeout in H. destruct (handle_connection _ _ _ _ _) as [o w1] eqn:E.
  assert (o = Panic) as -> by (destruct o; [done..|by destruct (fires_first _ _ _)]). clear H.
  unfold handle_connection in E. skip E nt w2 E2.
  assert (h_fs (host w2) = h_fs (host w) /\ rd (conn w2) = rd (conn w)) as [<- <-].
  { apply instant_now_inv in E2 as [Hf Hc]. by rewrite Hc. }
  apply bind_panic_inv in E as [E|([shared ck] & w3 & E3 & E)].
  - unfold map_throw in E. apply bind_panic_inv in E as [E|(r & w3 & _ & E)]; [|safe_in E].
    unfold try_ in E. destruct (server_handshake cfg w2) as [o w3] eqn:Eh. destruct o; simplify_eq.
    apply handshake_panic_inv in Eh as (hello & pack & rest & -> & Hl). by constructor.
  - assert (server_handshake cfg w2 = (Done (shared, ck), w3)) as Eh.
    { unfold map_throw in E3. binv E3 as r w4 E4. apply lift_result_done_inv in E3 as [->%map_err_ok ->].
      unfold try_ in E4. destruct (server_handshake cfg w2) as [o w5]. by destruct o; simplify_eq. }
    assert (same_host w2 w3) as Hh.
    { eapply keeps_done; [|exact Eh]. unfold server_handshake, server_hello_for, generate_x25519_keypair, array_of. keeps_auto. }
    apply server_handshake_inv in Eh as (hello & ch & vk & sig & Hrd & _ & Hsh & _ & Hsig & _).
    assert (zlen shared = 32) as Hl by (rewrite Hsh; apply diffie_hellman_len).
    apply bind_panic_inv in E as [E|(key & w4 & [Hkey ->]%lift_done_inv & E)].
    { unfold lift in E. by rewrite salt_session_key_eq in E. }
    apply session_panic_inv in E as (cmdb & c & pkt & rest & Hs & Hrd' & Hc & Hcr).
    rewrite Hrd, Hrd', <- Hh. by eapply crash_command.
Qed.

(** (C24) [validate] asks for a hash that is not empty, and the log line of
    [handle_upload] cuts it at 8 bytes: an upload that passes the validation and
    whose hash is shorter makes the handler panic, after it made the client's
    directory. *)
Theorem short_hash_upload_panics (h : UploadHeader) (nt : Z) (root : path) (key ck : bytes) (v : View) (f : fs) :
  upload_validate (max_file_size cfg) h = Ok tt -> str_len (u_file_hash h) < 8 ->
  lock_free (u_file_id h) (h_locks (v_host v)) ->
  create_dir_all (h_fs (v_host v)) (up_dir h root ck) = Ok f ->
  exists v', exec (dispatch short cfg (Upload h) nt root key ck) v Panic v' /\ h_fs (v_host v') = f.
Proof.
  intros Hval Hshort Hfree Hd. destruct (hold_free _ _ Hfree) as (l & t1 & Hhold & Hun & _).
  eexists. split.
  - unfold dispatch. rewrite Hval. apply exec_bind_panic. unfold handle_upload. cbv zeta.
    estep exec_hold_lock; [exact Hhold|]. estep exec_lock_write; [by apply try_write_unlocked|]. simpl negb. cbv iota.
    apply exec_bind_panic. apply exec_finally. unfold upload_locked. cbv zeta. rewrite user_dir_path_eq.
    estep exec_fs_op; [exact Hd|]. eapply exec_bind_panic, exec_lift. by apply str_prefix_short.
  - done.
Qed.
End Panics.

Module PanicsWitness.
Import Toy HandshakeWitness AuthWitness TransferWitness ServerWitness.

(** A client that answers the challenge with one byte. *)
Definition rude_view : View := demo_view (frame chb ++ frame [Byte.x00]).

Lemma only_crashes_witness :
  crash full_reads demo_config demo_fs (storage_root home) (frame chb ++ frame [Byte.x00]).
Proof.
  destruct (exec_short_connection full_reads demo_config (Some ip1) (storage_root home) rude_view
    the_client_hello the_server_hello chb shb [Byte.x00] []) as [v' H];
    [reflexivity|apply hello_ok|vm_refl..|split; vm_compute; [reflexivity|discriminate]
    |vm_compute; discriminate|reflexivity|split; reflexivity|vm_refl|].
  destruct (H (world_of rude_view) (looks_world_of rude_view)) as (w' & E & _).
  exact (only_crashes full_reads demo_config (Some ip1) (storage_root home) (world_of rude_view) w' E).
Defined.

(** A valid upload header whose hash has three bytes. *)
Definition abc_headers : UploadHeader :=
  {| u_file_id := u_file_id mib_headers; u_file_name := "a"; u_file_size := u_file_size mib_headers;
     u_file_hash := "abc"; u_file_key := "key" |}.
Definition abc_fs : fs := ok_or ∅ (create_dir_all server_fs (up_dir abc_headers (storage_root home) csk)).

Lemma short_hash_upload_panics_witness : exists v',
  exec (dispatch full_reads demo_config (Upload abc_headers) 0 (storage_root home) demo_key csk)
    (server_view server_fs []) Panic v' /\ h_fs (v_host v') = abc_fs.
Proof.
  apply short_hash_upload_panics.
  - vm_refl.
  - reflexivity.
  - intros l Hl. discriminate Hl.
  - vm_refl.
Defined.
End PanicsWitness.
