(* ===== verification/Burst.v ===== *)
(** How much one address gets from the server at once: the limiter of
    src/ratelimit.rs with the settings of src/lib.rs and the costs of
    [handle_connection], compared with a bucket of whole numbers. *)
From Stdlib Require Import Floats.
From S2P Require Import Prelude F64 External RateLimit FileSys Locks Lib Config Header Server.

(** * Half tokens

    Every cost and both settings are multiples of one half, and numbers of this
    size are exact. *)

Definition halves (n : Z) : f64 := (PrimFloat.of_uint63 (Uint63.of_Z n) / 2)%float.

Definition cost_halves (c : Command) : Z :=
  match c with Status => 2 | Auth _ => 4 | Upload _ => 10 | Download _ => 10 | Echo => 3 end.

#[local] Instance spec_float_eq_dec : EqDecision SpecFloat.spec_float.
Proof. solve_decision. Defined.

(** What one request does to a bucket of [k] half tokens out of [n] that was
    used at the same instant. *)
Definition exact_at (n k : Z) (c : Z) : bool :=
  let '(ok, b) := try_consume 0 (halves c)
    {| tokens := halves k; max_tokens := halves n; refill_rate := 10; last_refill := 0 |} in
  Bool.eqb ok (c <=? k) && bool_decide (Prim2SF (tokens b) = Prim2SF (halves (if c <=? k then k - c else k))).

Definition upto (n : Z) : list Z := map Z.of_nat (seq 0 (S (Z.to_nat n))).

(** The settings: 20 tokens by default, 100 in the repository's settings file,
    refilled at 10 a second in both. *)
Definition settings : list Z := [40; 200].

Lemma exact_everywhere : forallb (fun n => forallb (fun k => forallb (exact_at n k) [2; 3; 4; 10]) (upto n)) settings = true.
Proof. vm_refl. Qed.

Lemma in_upto k n : 0 <= k <= n -> In k (upto n).
Proof. intros H. apply in_map_iff. exists (Z.to_nat k). split; [lia|]. apply in_seq. lia. Qed.

Lemma exact_at_all n k c : In n settings -> 0 <= k <= n -> exact_at n k (cost_halves c) = true.
Proof.
  intros Hn Hk. pose proof exact_everywhere as H. rewrite forallb_forall in H. specialize (H n Hn).
  rewrite forallb_forall in H. specialize (H k (in_upto k n Hk)). rewrite forallb_forall in H. apply H.
  destruct c; simpl; auto.
Qed.

Lemma cost_is_halves c : command_cost c = halves (cost_halves c).
Proof. destruct c; vm_refl. Qed.

(** * The bucket of whole numbers *)

Section Burst.
Context (n now : Z) (Hn : In n settings).

(** [k] half tokens are left at [now]. *)
Definition bucket_at (k : Z) : TokenBucket :=
  {| tokens := halves k; max_tokens := halves n; refill_rate := 10; last_refill := now |}.

Lemma try_consume_exact k c : 0 <= k <= n ->
  try_consume now (command_cost c) (bucket_at k) =
    (cost_halves c <=? k, bucket_at (if cost_halves c <=? k then k - cost_halves c else k)).
Proof.
  intros Hk. pose proof (exact_at_all n k c Hn Hk) as H. rewrite cost_is_halves. unfold exact_at in H.
  unfold try_consume, refill in *. unfold bucket_at. cbn [tokens max_tokens refill_rate last_refill] in *.
  replace (duration_since now now) with (duration_since 0 0) by (unfold duration_since; lia).
  destruct (_ <=? _)%float; cbn [set_tokens tokens] in H |- *;
    apply andb_true_iff in H as [Ho%eqb_prop Ht%bool_decide_eq_true]; apply Prim2SF_inj in Ht;
    rewrite <- Ho in Ht |- *; unfold set_tokens;
    cbn [tokens max_tokens refill_rate last_refill]; by rewrite Ht.
Qed.

(** A request of an address, as the loop of requests sees it. *)
Definition request : Type := IpAddr * Command.

(** What the limiter answers to requests that come at the same instant. *)
Fixpoint answers (rs : list request) (l : RateLimiter) : list (request * bool) :=
  match rs with
  | [] => []
  | (ip, c) :: rs =>
    let '(ok, l) := is_allowed_cost now ip (command_cost c) l in ((ip, c), ok) :: answers rs l
  end.

(** The reference: a counter per address that is paid from. *)
Fixpoint paid (k : Z) (cs : list Command) : list (Command * bool) :=
  match cs with
  | [] => []
  | c :: cs => if cost_halves c <=? k then (c, true) :: paid (k - cost_halves c) cs else (c, false) :: paid k cs
  end.

Fixpoint spent (cs : list (Command * bool)) : Z :=
  match cs with
  | [] => 0
  | (c, ok) :: cs => (if ok : bool then cost_halves c else 0) + spent cs
  end.

Definition asked_by (ip : IpAddr) (rs : list request) : list Command :=
  map snd (filter (fun r => r.1 = ip) rs).
Definition answered_to (ip : IpAddr) (rs : list (request * bool)) : list (Command * bool) :=
  map (fun r => (r.1.2, r.2)) (filter (fun r => r.1.1 = ip) rs).

Lemma spent_paid cs : forall k, 0 <= k -> 0 <= spent (paid k cs) <= k.
Proof.
  induction cs as [|c cs IH]; intros k Hk; simpl; [lia|].
  assert (0 <= cost_halves c) by (by destruct c). case_match eqn:E; simpl; zbool.
  - specialize (IH (k - cost_halves c)). lia.
  - by apply IH.
Qed.

Lemma answers_paid ip rs : forall k l, 0 <= k <= n -> rl_max_tokens l = halves n -> rl_refill_rate l = 10%float ->
  entry_bucket now ip l = bucket_at k -> answered_to ip (answers rs l) = paid k (asked_by ip rs).
Proof.
  induction rs as [|[j c] rs IH]; intros k l Hk Hm Hr Hb; [done|]. cbn [answers].
  unfold is_allowed_cost. destruct (try_consume now (command_cost c) (entry_bucket now j l)) as [ok b] eqn:E.
  unfold answered_to, asked_by. rewrite !filter_cons. cbn [fst snd]. destruct (decide (j = ip)) as [->|Hj]; cbn [map fst snd paid].
  - rewrite Hb, try_consume_exact in E by done. injection E as <- <-.
    assert (0 <= cost_halves c) by (by destruct c).
    destruct (Z.leb_spec (cost_halves c) k); f_equal; apply IH; try done; try lia;
      unfold entry_bucket, set_buckets; simpl; by rewrite lookup_insert_eq.
  - apply IH; try done. rewrite <- Hb. unfold entry_bucket, set_buckets. simpl. by rewrite lookup_insert_ne.
Qed.
End Burst.

(** (C25) With the default settings, and with those of the repository's settings
    file, the limiter's floating-point buckets are exact: of the requests that
    arrive at one instant, whatever their order and whatever other addresses
    ask, those of an address not seen before are answered by a counter of half
    tokens that starts at twice [RATE_LIMIT_MAX_TOKENS]; so their total cost is
    never more than that. *)
Theorem burst_bounded (env : string -> option string) (n now : Z) (ip : IpAddr) (rs : list request) :
  env "RATE_LIMIT_REFILL_RATE" = None \/ env "RATE_LIMIT_REFILL_RATE" = Some "10"%string ->
  (n = 40 /\ env "RATE_LIMIT_MAX_TOKENS" = None) \/ (n = 200 /\ env "RATE_LIMIT_MAX_TOKENS" = Some "100"%string) ->
  let answered := answered_to ip (answers now rs (RATE_LIMITER env)) in
  answered = paid n (asked_by ip rs) /\ spent answered <= n.
Proof.
  intros Hrate Hmax answered.
  assert (rl_refill_rate (RATE_LIMITER env) = 10%float) as Hr.
  { unfold RATE_LIMITER, env_parse. simpl. by destruct Hrate as [-> | ->]. }
  assert (In n settings /\ rl_max_tokens (RATE_LIMITER env) = halves n) as [Hn Hm].
  { unfold RATE_LIMITER, env_parse. simpl. destruct Hmax as [[-> ->]|[-> ->]]; (split; [by auto|vm_refl]). }
  assert (answered = paid n (asked_by ip rs)) as ->.
  { apply (answers_paid n); try done. { unfold settings in Hn. simpl in Hn. lia. }
    unfold entry_bucket, init_bucket, bucket_at. by rewrite Hm, Hr. }
  split; [done|]. apply spent_paid. unfold settings in Hn. simpl in Hn. lia.
Qed.

Module BurstWitness.
Definition default_env : string -> option string := fun _ => None.
(** Five uploads from one address, with a status request of another between. *)
Definition five (h : UploadHeader) : list request :=
  [(V4 1, Upload h); (V4 1, Upload h); (V4 2, Status); (V4 1, Upload h); (V4 1, Upload h); (V4 1, Upload h)].
Definition some_header : UploadHeader :=
  {| u_file_id := "id"; u_file_name := "a"; u_file_size := 0; u_file_hash := "h"; u_file_key := "k" |}.

Lemma burst_bounded_witness :
  spent (answered_to (V4 1) (answers 7 (five some_header) (RATE_LIMITER default_env))) <= 40.
Proof.
  apply (burst_bounded default_env 40 7 (V4 1) (five some_header)); left; [reflexivity|split; reflexivity].
Defined.
End BurstWitness.
