(* ===== verification/Accept.v ===== *)
(** src/protocol_v1.rs, [start_tcp_server]: the loop that accepts connections,
    the shared counter [ACTIVE_CONNECTIONS] and the tasks it spawns, as a state
    machine whose steps are the atomic actions on the counter. A panic either
    unwinds the task that raised it or, under the release profile of
    Cargo.toml ([panic = "abort"]), ends the process: [abort] says which. *)
From S2P Require Import Prelude F64 External RateLimit FileSys Locks Lib World Exec Crypto Header Sample Net Handshake Server.

(** * States and steps *)

(** Where the accept loop stands. *)
Inductive accept_pc : Set :=
| Accepting                    (* in [listener.accept()] *)
| Refusing (i : nat).          (* between the [fetch_add] and the [fetch_sub] of a refusal *)

Inductive conn_state : Set :=
| Running                      (* the task is spawned *)
| Ended                        (* its [fetch_sub] has run *)
| Panicked                     (* unwound before its [fetch_sub] *)
| Refused.

#[export] Instance accept_pc_eq_dec : EqDecision accept_pc.
Proof. solve_decision. Defined.
#[export] Instance conn_state_eq_dec : EqDecision conn_state.
Proof. solve_decision. Defined.

Record server := {
  active : Z;                  (* ACTIVE_CONNECTIONS, an AtomicUsize *)
  loop_pc : accept_pc;
  conns : gmap nat conn_state;
  down : bool;                 (* the process was aborted *)
}.

Definition init_server : server := {| active := 0; loop_pc := Accepting; conns := ∅; down := false |}.

Definition fetch_add (n : Z) : Z := (n + 1) mod U64_MOD.
Definition fetch_sub (n : Z) : Z := (n - 1) mod U64_MOD.

Inductive event : Set :=
| Accept (i : nat)             (* a connection comes in: compare, then spawn or start refusing *)
| Refuse                       (* the [fetch_sub] of the refusal, then the sleep *)
| AcceptError
| TaskEnds (i : nat)           (* the task's [fetch_sub] *)
| TaskPanics (i : nat).

Section Loop.
Variable max_connections : Z.
Variable abort : bool.

Definition do_event (e : event) (s : server) : option server :=
  if down s then None else
  match e, loop_pc s with
  | Accept i, Accepting =>
    match conns s !! i with
    | Some _ => None
    | None =>
      if max_connections <=? active s
      then Some {| active := fetch_add (active s); loop_pc := Refusing i; conns := conns s; down := false |}
      else Some {| active := fetch_add (active s); loop_pc := Accepting;
                   conns := <[i := Running]> (conns s); down := false |}
    end
  | Refuse, Refusing i =>
    Some {| active := fetch_sub (active s); loop_pc := Accepting;
            conns := <[i := Refused]> (conns s); down := false |}
  | AcceptError, Accepting => Some s
  | TaskEnds i, pc =>
    match conns s !! i with
    | Some Running =>
      Some {| active := fetch_sub (active s); loop_pc := pc; conns := <[i := Ended]> (conns s); down := false |}
    | _ => None
    end
  | TaskPanics i, pc =>
    match conns s !! i with
    | Some Running => Some {| active := active s; loop_pc := pc; conns := <[i := Panicked]> (conns s); down := abort |}
    | _ => None
    end
  | _, _ => None
  end.

Fixpoint run_events (es : list event) (s : server) : option server :=
  match es with
  | [] => Some s
  | e :: es => match do_event e s with Some s => run_events es s | None => None end
  end.

Definition server_step (s s' : server) : Prop := exists e, do_event e s = Some s'.

(** Connections in a given state. *)
Definition in_state (c : conn_state) (m : gmap nat conn_state) : gset nat :=
  dom (filter (fun kv => kv.2 = c) m).
Definition number (c : conn_state) (s : server) : Z := Z.of_nat (size (in_state c (conns s))).

(** * What the counter counts *)

Definition b2z (b : bool) : Z := if b then 1 else 0.
Definition is_refusing (pc : accept_pc) : bool := match pc with Refusing _ => true | Accepting => false end.

Lemma in_state_fresh c m i x : m !! i = None ->
  Z.of_nat (size (in_state c (<[i := x]> m))) = Z.of_nat (size (in_state c m)) + b2z (bool_decide (x = c)).
Proof.
  intros Hi. unfold in_state. destruct (decide (x = c)) as [->|Hx].
  - rewrite map_filter_insert_True by done. rewrite bool_decide_eq_true_2 by done.
    rewrite dom_insert_L, size_union; [rewrite size_singleton; simpl; lia|].
    apply disjoint_singleton_l. rewrite not_elem_of_dom. apply map_lookup_filter_None. by left.
  - rewrite map_filter_insert_False by done. rewrite delete_id by done.
    rewrite bool_decide_eq_false_2 by done. simpl. lia.
Qed.

Lemma in_state_update c m i y x : m !! i = Some y ->
  Z.of_nat (size (in_state c (<[i := x]> m))) + b2z (bool_decide (y = c)) =
  Z.of_nat (size (in_state c m)) + b2z (bool_decide (x = c)).
Proof.
  intros Hi. rewrite <- (insert_delete_id m i y Hi) at 2. rewrite <- insert_delete_eq.
  rewrite !in_state_fresh by apply lookup_delete_eq. lia.
Qed.

(** The counter is the number of running tasks, plus those that panicked, plus
    the refusal in progress. *)
Record counted (s : server) : Prop := {
  ct_active : active s = number Running s + number Panicked s + b2z (is_refusing (loop_pc s));
  ct_bound : number Running s + number Panicked s <= max_connections;
  ct_refusing : forall i, loop_pc s = Refusing i -> conns s !! i = None;
}.

Hypothesis max_ok : 0 <= max_connections < U64_MOD - 1.

Lemma number_nonneg c s : 0 <= number c s.
Proof. unfold number. lia. Qed.

Lemma fetch_add_ok n : 0 <= n < U64_MOD - 1 -> fetch_add n = n + 1.
Proof. intros. unfold fetch_add. apply Z.mod_small. lia. Qed.
Lemma fetch_sub_ok n : 1 <= n < U64_MOD -> fetch_sub n = n - 1.
Proof. intros. unfold fetch_sub. apply Z.mod_small. lia. Qed.

Lemma number_running_pos i s : conns s !! i = Some Running -> 1 <= number Running s.
Proof.
  intros Hi. pose proof (in_state_update Running (conns s) i Running Ended Hi) as H.
  rewrite bool_decide_eq_true_2, bool_decide_eq_false_2 in H by done. simpl in H. unfold number. lia.
Qed.

Lemma counted_init : counted init_server.
Proof. split; unfold number, in_state; simpl; rewrite ?map_filter_empty, ?dom_empty_L, ?size_empty; simpl; [done|lia|done]. Qed.

(** How an event changes the numbers. *)
Lemma number_new c s i x a pc d : conns s !! i = None ->
  number c {| active := a; loop_pc := pc; conns := <[i := x]> (conns s); down := d |} = number c s + b2z (bool_decide (x = c)).
Proof. intros. unfold number. simpl. by apply in_state_fresh. Qed.
Lemma number_moved c s i y x a pc d : conns s !! i = Some y ->
  number c {| active := a; loop_pc := pc; conns := <[i := x]> (conns s); down := d |} =
  number c s + b2z (bool_decide (x = c)) - b2z (bool_decide (y = c)).
Proof. intros H. unfold number. simpl. pose proof (in_state_update c _ _ _ x H). lia. Qed.

Lemma number_same c s a pc d : number c {| active := a; loop_pc := pc; conns := conns s; down := d |} = number c s.
Proof. done. Qed.

Ltac count_up := repeat first
  [ rewrite number_same | rewrite number_new by done | erewrite number_moved by done
  | rewrite bool_decide_eq_true_2 by done | rewrite bool_decide_eq_false_2 by done ]; simpl.

Lemma do_event_counted e s s' : counted s -> do_event e s = Some s' -> counted s'.
Proof.
  intros [Ha Hb Hr] H. unfold do_event in H. destruct (down s) eqn:Edown; [done|].
  pose proof (number_nonneg Running s). pose proof (number_nonneg Panicked s).
  destruct e as [i| | |i|i].
  - destruct (loop_pc s) eqn:Epc; [|done]. simpl in Ha. destruct (conns s !! i) eqn:Ei; [done|].
    destruct (max_connections <=? active s) eqn:Em; zbool; injection H as <-; split; count_up.
    + rewrite fetch_add_ok; lia.
    + done.
    + by intros j [= <-].
    + rewrite fetch_add_ok; lia.
    + lia.
    + done.
  - destruct (loop_pc s) as [|i] eqn:Epc; [done|]. simpl in Ha. injection H as <-.
    pose proof (Hr i eq_refl). split; count_up; [rewrite fetch_sub_ok; lia|lia|done].
  - destruct (loop_pc s) eqn:Epc; [|done]. injection H as <-. split; [by rewrite Epc|done|by rewrite Epc].
  - destruct (conns s !! i) as [[]|] eqn:Ei; try done. injection H as <-.
    pose proof (number_running_pos _ _ Ei). split; count_up; [|lia|].
    + destruct (is_refusing (loop_pc s)); simpl in *; rewrite fetch_sub_ok; lia.
    + intros j Hj. rewrite lookup_insert_ne; [by apply Hr|]. intros ->. by rewrite (Hr _ Hj) in Ei.
  - destruct (conns s !! i) as [[]|] eqn:Ei; try done. injection H as <-.
    split; count_up; [lia|lia|].
    intros j Hj. rewrite lookup_insert_ne; [by apply Hr|]. intros ->. by rewrite (Hr _ Hj) in Ei.
Qed.

Lemma reachable_counted s : rtc server_step init_server s -> counted s.
Proof.
  revert s. apply (rtc_ind_r counted).
  - apply counted_init.
  - intros s s' _ [e He] IH. by eapply do_event_counted.
Qed.

(** (C21) However connections come, end, panic and are refused, and however the
    tasks' decrements interleave with the accept loop's, at most
    [MAX_CONNECTIONS] tasks run at a time, and the counter never wraps: it is
    the number of tasks running, plus the tasks that panicked, plus one during
    a refusal. *)
Theorem running_connections_bounded (s : server) : rtc server_step init_server s ->
  number Running s <= max_connections /\
  active s = number Running s + number Panicked s + b2z (is_refusing (loop_pc s)) /\
  0 <= active s <= max_connections + 1.
Proof.
  intros [Ha Hb _]%reachable_counted. pose proof (number_nonneg Panicked s). pose proof (number_nonneg Running s).
  split_and!; [lia|done|..]; destruct (is_refusing _); simpl in Ha; lia.
Qed.

(** * A slot that panicked is lost *)

Definition exhausted (s : server) : Prop := max_connections <= number Panicked s.

Lemma exhausted_step e s s' : counted s -> exhausted s -> do_event e s = Some s' ->
  exhausted s' /\ forall i, conns s' !! i = Some Running -> conns s !! i = Some Running.
Proof.
  intros [Ha Hb Hr] Hx H. unfold exhausted in *. unfold do_event in H. destruct (down s) eqn:Edown; [done|].
  destruct e as [i| | |i|i].
  - destruct (loop_pc s); [|done]. destruct (conns s !! i) eqn:Ei; [done|].
    rewrite (proj2 (Z.leb_le _ _)) in H; [by injection H as <-|].
    pose proof (number_nonneg Running s). simpl in Ha. lia.
  - destruct (loop_pc s) as [|i] eqn:Epc; [done|]. injection H as <-. pose proof (Hr i eq_refl). split.
    + count_up. lia.
    + intros j. simpl. rewrite lookup_insert. case_decide; [done|]. done.
  - destruct (loop_pc s); [|done]. by injection H as <-.
  - destruct (conns s !! i) as [[]|] eqn:Ei; try done. injection H as <-. split.
    + count_up. lia.
    + intros j. simpl. rewrite lookup_insert. case_decide; [done|]. done.
  - destruct (conns s !! i) as [[]|] eqn:Ei; try done. injection H as <-. split.
    + count_up. lia.
    + intros j. simpl. rewrite lookup_insert. case_decide; [done|]. done.
Qed.

(** A task that panics never runs its [fetch_sub]: its slot is lost. Once
    [MAX_CONNECTIONS] tasks have panicked, the server never serves anyone
    again: every connection that was not running is refused, for ever. *)
Theorem panics_exhaust_server (s s' : server) (i : nat) :
  rtc server_step init_server s -> max_connections <= number Panicked s ->
  rtc server_step s s' -> conns s !! i = None ->
  conns s' !! i <> Some Running /\ max_connections <= number Panicked s'.
Proof.
  intros Hs Hx Hrun Hi.
  assert (counted s' /\ exhausted s' /\ forall j, conns s' !! j = Some Running -> conns s !! j = Some Running)
    as (_ & Hx' & Hj); [|split; [intros H; apply Hj in H; congruence|exact Hx']].
  revert s' Hrun. apply (rtc_ind_r (fun s' => counted s' /\ exhausted s' /\ forall j,
    conns s' !! j = Some Running -> conns s !! j = Some Running)).
  - split_and!; [by apply reachable_counted|exact Hx|done].
  - intros a b _ [e He] (Hc & Hxa & Hja). destruct (exhausted_step _ _ _ Hc Hxa He) as [Hxb Hjb].
    split_and!; [by eapply do_event_counted|done|auto].
Qed.

(** * What the loop promises: bounded admission

    The abstract view has the set of the connections being served and no
    counter: a connection is admitted when fewer than [MAX_CONNECTIONS] slots
    are in use, a slot comes back when a connection ends, and is lost when its
    task panics, with the whole server if panics abort. *)
Record admission := { serving : gset nat; lost : nat; up : bool }.

Definition capacity (a : admission) : Z := Z.of_nat (size (serving a)) + Z.of_nat (lost a).

Inductive admission_step (a : admission) : admission -> Prop :=
| adm_admit i : up a = true -> i ∉ serving a -> capacity a < max_connections ->
    admission_step a {| serving := {[i]} ∪ serving a; lost := lost a; up := true |}
| adm_leave i : up a = true -> i ∈ serving a ->
    admission_step a {| serving := serving a ∖ {[i]}; lost := lost a; up := true |}
| adm_lose i : up a = true -> i ∈ serving a ->
    admission_step a {| serving := serving a ∖ {[i]}; lost := S (lost a); up := negb abort |}
| adm_stutter : admission_step a a.

Definition abstract (s : server) : admission :=
  {| serving := in_state Running (conns s); lost := size (in_state Panicked (conns s)); up := negb (down s) |}.

Lemma in_state_spec c m i : i ∈ in_state c m <-> m !! i = Some c.
Proof.
  unfold in_state. rewrite elem_of_dom. split.
  - intros [x [Hx Hc]%map_lookup_filter_Some]. simpl in Hc. by subst.
  - intros H. exists c. by apply map_lookup_filter_Some.
Qed.

Lemma in_state_insert c m i x :
  in_state c (<[i := x]> m) = if decide (x = c) then {[i]} ∪ in_state c m else in_state c m ∖ {[i]}.
Proof.
  clear max_ok. apply set_eq. intros j. rewrite in_state_spec, lookup_insert.
  destruct (decide (x = c)) as [->|Hx].
  - rewrite elem_of_union, elem_of_singleton, in_state_spec. case_decide; [subst; tauto|]. intuition congruence.
  - rewrite elem_of_difference, elem_of_singleton, in_state_spec. case_decide; [subst|]; intuition congruence.
Qed.

Lemma in_state_absent c m i : m !! i = None -> in_state c m ∖ {[i]} = in_state c m.
Proof.
  intros Hi. apply difference_disjoint_L, disjoint_singleton_r. rewrite in_state_spec. congruence.
Qed.

Lemma accept_iff_free i s s' : rtc server_step init_server s -> do_event (Accept i) s = Some s' ->
  conns s' !! i = Some Running <-> capacity (abstract s) < max_connections.
Proof.
  intros [Ha Hb Hr]%reachable_counted H. unfold capacity, abstract. simpl.
  change (Z.of_nat (size (in_state Panicked (conns s)))) with (number Panicked s).
  change (Z.of_nat (size (in_state Running (conns s)))) with (number Running s).
  unfold do_event in H. destruct (down s); [done|]. destruct (loop_pc s) eqn:Epc; [|done]. simpl in Ha. destruct (conns s !! i) eqn:Ei; [done|].
  destruct (max_connections <=? active s) eqn:Em; zbool; injection H as <-; simpl.
  - rewrite Ei. split; [done|lia].
  - rewrite lookup_insert_eq. split; [lia|done].
Qed.

(** (C17) The counter implements bounded admission: every atomic step of the
    accept loop and of the tasks, read through [abstract], is a step of the
    abstract machine or leaves it where it is, and a connection that comes in
    is let in exactly when a slot is free, although the comparison is made on
    a counter that refusals push past the limit for a moment. *)
Theorem accept_loop_refines_admission (e : event) (s s' : server) :
  rtc server_step init_server s -> do_event e s = Some s' ->
  admission_step (abstract s) (abstract s') /\
  (forall i, e = Accept i -> conns s' !! i = Some Running <-> capacity (abstract s) < max_connections).
Proof.
  intros Hs H. split; [|intros i ->; by apply accept_iff_free].
  apply reachable_counted in Hs as [Ha Hb Hr]. unfold do_event in H. destruct (down s) eqn:Edown; [done|].
  assert (abstract s = {| serving := in_state Running (conns s); lost := size (in_state Panicked (conns s)); up := true |})
    as Habs by (unfold abstract; by rewrite Edown).
  destruct e as [i| | |i|i].
  - destruct (loop_pc s) eqn:Epc; [|done]. destruct (conns s !! i) eqn:Ei; [done|].
    destruct (max_connections <=? active s) eqn:Em; zbool; injection H as <-; rewrite Habs; unfold abstract; simpl; [apply adm_stutter|].
    rewrite !in_state_insert, decide_True, decide_False, in_state_absent by done.
    apply adm_admit; simpl; [done|rewrite in_state_spec; congruence|]. unfold capacity, number in *. simpl in *. lia.
  - destruct (loop_pc s) as [|i] eqn:Epc; [done|]. injection H as <-. pose proof (Hr i eq_refl). rewrite Habs. unfold abstract. simpl.
    rewrite !in_state_insert, !decide_False, !in_state_absent by done. apply adm_stutter.
  - destruct (loop_pc s); [|done]. injection H as <-. apply adm_stutter.
  - destruct (conns s !! i) as [[]|] eqn:Ei; try done. injection H as <-. rewrite Habs. unfold abstract. simpl.
    rewrite !in_state_insert, !decide_False by done. rewrite (difference_disjoint_L (in_state Panicked _)).
    + match goal with |- admission_step ?a _ => apply (adm_leave a i); [done|by apply in_state_spec] end.
    + apply disjoint_singleton_r. rewrite in_state_spec. congruence.
  - destruct (conns s !! i) as [[]|] eqn:Ei; try done. injection H as <-. rewrite Habs. unfold abstract. simpl.
    rewrite !in_state_insert, decide_False, decide_True by done.
    rewrite size_union, size_singleton; [|apply disjoint_singleton_l; rewrite in_state_spec; congruence].
    match goal with |- admission_step ?a _ => apply (adm_lose a i); [done|by apply in_state_spec] end.
Qed.
End Loop.

(** * Losing every slot *)

(** What the end of a task does to the counter. *)
Definition task_event (i : nat) (o : outcome unit) : option event :=
  match o with
  | Done _ => Some (TaskEnds i)
  | Panic => Some (TaskPanics i)
  | _ => None
  end.

(** [n] connections from [i] on, each of which panics. *)
Fixpoint panicking (n i : nat) : list event :=
  match n with
  | O => []
  | S n => Accept i :: TaskPanics i :: panicking n (S i)
  end.

Lemma run_panicking max n : forall i s, 0 <= max < U64_MOD - 1 -> counted max s -> loop_pc s = Accepting -> down s = false ->
  (forall j, (i <= j)%nat -> conns s !! j = None) -> number Running s = 0 ->
  number Panicked s + Z.of_nat n <= max ->
  exists s', run_events max false (panicking n i) s = Some s' /\ number Panicked s' = number Panicked s + Z.of_nat n.
Proof.
  induction n as [|n IH]; intros i s Hmax Hc Hpc Hd Hfree Hrun Hn.
  - exists s. simpl. split; [done|lia].
  - pose proof (ct_active _ _ Hc) as Ha. rewrite Hpc in Ha. simpl in Ha.
    set (s1 := {| active := fetch_add (active s); loop_pc := Accepting; conns := <[i := Running]> (conns s); down := false |}).
    set (s2 := {| active := active s1; loop_pc := Accepting; conns := <[i := Panicked]> (conns s1); down := false |}).
    assert (conns s !! i = None) as Hi by (by apply Hfree).
    assert (do_event max false (Accept i) s = Some s1) as E1.
    { unfold do_event. rewrite Hd, Hpc, Hi. rewrite (proj2 (Z.leb_gt _ _)) by lia. done. }
    assert (do_event max false (TaskPanics i) s1 = Some s2) as E2.
    { unfold do_event, s1. simpl. by rewrite lookup_insert_eq. }
    assert (number Running s1 = 1 /\ number Panicked s1 = number Panicked s) as [R1 P1].
    { unfold s1. rewrite !number_new, Hrun by done. simpl. lia. }
    assert (number Running s2 = 0 /\ number Panicked s2 = number Panicked s + 1) as [R2 P2].
    { assert (conns s1 !! i = Some Running) as Hi1 by apply lookup_insert_eq.
      unfold s2. rewrite !(number_moved _ s1 i Running _ _ _ _ Hi1), R1, P1. simpl. split; lia. }
    destruct (IH (S i) s2) as (s' & Hr & Hp); [done| |done|done| |done|lia|].
    + eapply (do_event_counted max false Hmax); [|exact E2]. by eapply (do_event_counted max false Hmax); [|exact E1].
    + intros j Hj. simpl. rewrite !lookup_insert_ne by lia. apply Hfree. lia.
    + exists s'. split; [|lia]. cbn [panicking run_events]. by rewrite E1, E2.
Qed.

Section Attack.
Context {AG : AesGcm} {HX : Hex} {SH : Sha2} {ED : Ed25519} {XD : X25519} {CH : Chrono}
  {PEH : Postcard ErrorHeader} {PWH : Postcard WarnHeader} {PCM : Postcard Command}
  {PUR : Postcard UploadResponse} {PDR : Postcard DownloadResponse} {PST : Postcard StatusHeader}
  {PED : Postcard EchoDebugHeader} {PM : Postcard MetadataFile}
  {PCH : Postcard ClientHello} {PSH : Postcard ServerHello}
  {AGL : AesGcmLaws} {HXL : HexLaws} {SHL : Sha2Laws} {EDL : Ed25519Laws} {XDL : X25519Laws}
  {PCML : PostcardLaws Command} {PCHL : PostcardLaws ClientHello} {PSHL : PostcardLaws ServerHello}
  {JS : Json AuthServerMap} {JSL : JsonLaws AuthServerMap}.

(** (C23) Anyone can do it, without a key: a peer that sends a hello and answers
    the challenge with a frame of fewer than 64 bytes makes its task panic,
    and [MAX_CONNECTIONS] such peers in a row leave the server without a
    slot. *)
Theorem short_packets_exhaust_server (short : Z -> Z) (cfg : Config) (ip : option IpAddr) (root : path)
    (v : View) (ch : ClientHello) (sh : ServerHello) (chb shb pkt rest : bytes) :
  0 < max_connections cfg < U64_MOD - 1 ->
  server_keys_match cfg -> server_hello_of cfg (v_set_host (tick (v_host v)) v) ch sh ->
  serialize ch = Ok chb -> serialize sh = Ok shb ->
  0 < zlen chb <= MAX_FRAME_LENGTH -> zlen shb <= U32_MAX -> v_shut v = false ->
  0 < zlen pkt < 64 -> v_in v = frame chb ++ frame pkt ++ rest ->
  let n := Z.to_nat (max_connections cfg) in
  (exists o v', exec (connection_task short cfg ip root) v o v' /\
    forall i, task_event i o = Some (TaskPanics i)) /\
  (exists s, run_events (max_connections cfg) true (panicking 1 0) init_server = Some s /\
    forall e, do_event (max_connections cfg) true e s = None) /\
  (exists s, run_events (max_connections cfg) false (panicking n 0) init_server = Some s /\
    max_connections cfg <= number Panicked s).
Proof.
  intros Hmax Hk Hsh Hchb Hshb Hcl Hsl Hs Hp Hin n. split; [|split].
  - destruct (exec_short_connection short cfg ip root v ch sh chb shb pkt rest) as [v' H]; [done..|]. by exists Panic, v'.
  - eexists. split.
    + cbn [panicking run_events]. unfold do_event at 1. cbn. rewrite (proj2 (Z.leb_gt _ _)) by lia. done.
    + by intros [].
  - destruct (run_panicking (max_connections cfg) n 0 init_server)
      as (s & Hr & Hps); [lia|apply counted_init; lia|done|done|done|vm_refl|..].
    { change (number Panicked init_server) with 0. unfold n. lia. }
    exists s. split; [exact Hr|]. rewrite Hps. change (number Panicked init_server) with 0. unfold n. lia.
Qed.
End Attack.

(** * Concrete servers *)
Module AcceptWitness.
Import Toy HandshakeWitness.

Lemma run_events_reach max abort es : forall s s', run_events max abort es s = Some s' -> rtc (server_step max abort) s s'.
Proof.
  induction es as [|e es IH]; simpl; intros s s' H; [injection H as <-; apply rtc_refl|].
  destruct (do_event max abort e s) as [s1|] eqn:E; [|done]. eapply rtc_l; [by exists e|by apply IH].
Qed.

Definition after (max : Z) (es : list event) : server := default init_server (run_events max false es init_server).
Lemma after_reach max es : run_events max false es init_server <> None ->
  rtc (server_step max false) init_server (after max es).
Proof.
  intros H. unfold after. destruct (run_events max false es init_server) eqn:E; [|done].
  simpl. by eapply run_events_reach.
Qed.

(** Two slots, a third connection being refused while a task ends. *)
Definition busy : server := after 2 [Accept 0; Accept 1; Accept 2; TaskEnds 0].

Lemma running_connections_bounded_witness : number Running busy <= 2 /\
  active busy = number Running busy + number Panicked busy + b2z (is_refusing (loop_pc busy)) /\ 0 <= active busy <= 2 + 1.
Proof.
  apply (running_connections_bounded 2 false); [unfold U64_MOD; lia|]. apply after_reach. discriminate.
Defined.

Lemma accept_loop_refines_admission_witness :
  conns (after 2 [Accept 0; Accept 1]) !! 1%nat = Some Running <-> capacity (abstract (after 2 [Accept 0])) < 2.
Proof.
  apply (accept_loop_refines_admission 2 false ltac:(unfold U64_MOD; lia) (Accept 1) (after 2 [Accept 0]));
    [apply after_reach; discriminate|reflexivity|reflexivity].
Defined.

(** One slot, lost; the next connection is refused. *)
Definition lost_slot : server := after 1 [Accept 0; TaskPanics 0].
Definition refused : server := after 1 [Accept 0; TaskPanics 0; Accept 1; Refuse].

Lemma panics_exhaust_server_witness : conns refused !! 1%nat <> Some Running /\ 1 <= number Panicked refused.
Proof.
  apply (panics_exhaust_server 1 false ltac:(unfold U64_MOD; lia) lost_slot refused 1).
  - apply after_reach. discriminate.
  - vm_compute. discriminate.
  - apply (run_events_reach 1 false [Accept 1; Refuse]). reflexivity.
  - reflexivity.
Defined.

Definition short_view : View := demo_view (frame chb ++ frame [Byte.x00]).

Lemma short_packets_exhaust_server_witness : exists o v' s,
  exec (connection_task full_reads demo_config None []) short_view o v' /\
  run_events 256 true (panicking 1 0) init_server = Some s /\ forall e, do_event 256 true e s = None.
Proof.
  destruct (short_packets_exhaust_server full_reads demo_config None [] short_view the_client_hello the_server_hello
    chb shb [Byte.x00] []) as ((o & v' & H & _) & (s & Hs & He) & _).
  - split; reflexivity.
  - reflexivity.
  - apply hello_ok.
  - vm_refl.
  - vm_refl.
  - split; vm_compute; [reflexivity|discriminate].
  - vm_compute. discriminate.
  - reflexivity.
  - split; reflexivity.
  - vm_refl.
  - exists o, v', s. auto.
Defined.
End AcceptWitness.
