(* ===== verification/Liveness.v ===== *)
(** src/protocol_v1.rs, [start_tcp_server] over an infinite run: what the accept
    loop of Accept.v promises to connections that keep coming, when the tasks
    end. Every task does end under its lifetime timer
    (Server.v, [connection_task_ends]); here that is the fairness of the run. *)
From S2P Require Import Prelude Accept.

Section Run.
Variable max_connections : Z.
Variable abort : bool.
Hypothesis max_ok : 0 <= max_connections < U64_MOD - 1.

(** An infinite run: the state before each event, and the events. *)
Variable st : nat -> server.
Variable ev : nat -> event.

Definition infinite_run : Prop :=
  st 0 = init_server /\ forall n, do_event max_connections abort (ev n) (st n) = Some (st (S n)).

(** Event [n] admits connection [i]. *)
Definition admits (n i : nat) : Prop := ev n = Accept i /\ conns (st (S n)) !! i = Some Running.

(** Every task is over at some later point. *)
Definition tasks_end : Prop :=
  forall n i, conns (st n) !! i = Some Running -> exists m, (n <= m)%nat /\ conns (st m) !! i <> Some Running.

(** Connections never stop coming. *)
Definition always_arriving : Prop := forall n, exists m i, (n <= m)%nat /\ ev m = Accept i.

(** Some slot is never lost to a panic. *)
Definition slot_left : Prop := forall n, number Panicked (st n) < max_connections.

Definition running (n : nat) : gset nat := in_state Running (conns (st n)).

Hypothesis run : infinite_run.

Lemma run_reachable n : rtc (server_step max_connections abort) init_server (st n).
Proof.
  induction n as [|n IH]; [rewrite (proj1 run); apply rtc_refl|].
  eapply rtc_r; [exact IH|]. exists (ev n). apply run.
Qed.

Lemma run_counted n : counted max_connections (st n).
Proof. exact (reachable_counted _ _ max_ok _ (run_reachable n)). Qed.

(** An event that admits nobody starts no task. *)
Lemma step_admits_or_shrinks n : (exists i, admits n i) \/ running (S n) ⊆ running n.
Proof.
  pose proof (proj2 run n) as H. unfold admits, running.
  destruct (ev n) as [i| | |i|i] eqn:Eev; unfold do_event in H; destruct (down (st n)); try done.
  - destruct (loop_pc (st n)); [|done]. destruct (conns (st n) !! i); [done|].
    destruct (max_connections <=? active (st n)); injection H as <-; simpl; [by right|].
    left. exists i. split; [done|]. by rewrite lookup_insert_eq.
  - right. destruct (loop_pc (st n)); [done|]. injection H as <-. simpl. rewrite in_state_insert, decide_False by done. set_solver.
  - right. destruct (loop_pc (st n)); [|done]. by injection H as <-.
  - right. destruct (conns (st n) !! i) as [[]|]; try done. injection H as <-. simpl.
    rewrite in_state_insert, decide_False by done. set_solver.
  - right. destruct (conns (st n) !! i) as [[]|]; try done. injection H as <-. simpl.
    rewrite in_state_insert, decide_False by done. set_solver.
Qed.

Lemma admits_or_shrinks n k : (exists m i, (n <= m < n + k)%nat /\ admits m i) \/ running (n + k) ⊆ running n.
Proof.
  induction k as [|k [IH|IH]].
  - right. by rewrite Nat.add_0_r.
  - left. destruct IH as (m & i & ? & ?). exists m, i. split; [lia|done].
  - rewrite Nat.add_succ_r. destruct (step_admits_or_shrinks (n + k)) as [[i Hi]|Hs].
    + left. exists (n + k)%nat, i. split; [lia|done].
    + right. set_solver.
Qed.

(** A connection turned away while a slot is not lost meets a running task. *)
Lemma turned_away_meets_running n i : slot_left -> ev n = Accept i -> conns (st (S n)) !! i <> Some Running ->
  exists j, j ∈ running n.
Proof.
  intros Hslot Hev Hno. pose proof (proj2 run n) as H. rewrite Hev in H.
  pose proof (accept_iff_free _ _ max_ok _ _ _ (run_reachable n) H) as Hfree.
  specialize (Hslot n). unfold capacity, abstract, number in *. simpl in Hfree. fold (running n) in *.
  apply set_choose_L. intros E. rewrite E, size_empty in Hfree. apply Hno, Hfree. lia.
Qed.

Section Fair.
Hypothesis fair : tasks_end.
Hypothesis arriving : always_arriving.
Hypothesis slot : slot_left.

Lemma admits_eventually : forall (X : gset nat) n, running n ⊆ X -> exists m i, (n <= m)%nat /\ admits m i.
Proof.
  induction X as [X IH] using (well_founded_ind set_wf); intros n Hn.
  destruct (arriving n) as (m & i & Hm & Hi).
  destruct (admits_or_shrinks n (m - n)) as [(a & b & ? & ?)|Hs]; [exists a, b; split; [lia|done]|].
  replace (n + (m - n))%nat with m in Hs by lia.
  destruct (decide (conns (st (S m)) !! i = Some Running)) as [Hr|Hr]; [by exists m, i|].
  destruct (turned_away_meets_running m i slot Hi Hr) as [j Hj].
  destruct (fair m j) as (m' & Hm' & Hj'); [by apply in_state_spec|].
  destruct (admits_or_shrinks m (m' - m)) as [(a & b & ? & ?)|Hs']; [exists a, b; split; [lia|done]|].
  replace (m + (m' - m))%nat with m' in Hs' by lia.
  rewrite <- in_state_spec in Hj'. fold (running m') in Hj'.
  destruct (IH (running m')) with (n := m') as (a & b & ? & ?); [set_solver|done|].
  exists a, b. split; [lia|done].
Qed.
End Fair.

(** (C18) The server never stops serving: when connections keep coming, every
    task is over at some point (its lifetime timer sees to it) and fewer than
    [MAX_CONNECTIONS] slots are lost to panics, then after any moment of any
    run another connection is admitted. *)
Theorem connections_admitted_forever : tasks_end -> always_arriving -> slot_left ->
  forall n, exists m i, (n <= m)%nat /\ admits m i.
Proof. intros ? ? ? n. by apply (admits_eventually ltac:(done) ltac:(done) ltac:(done) (running n)). Qed.

(** When no connection comes any more, the tasks run out. *)
Lemma running_runs_out : tasks_end -> forall (X : gset nat) n, running n ⊆ X ->
  (forall m i, (n <= m)%nat -> ev m <> Accept i) ->
  exists m, (n <= m)%nat /\ forall k, (m <= k)%nat -> running k = ∅.
Proof.
  intros fair. induction X as [X IH] using (well_founded_ind set_wf); intros n Hn Hq.
  assert (forall m k, (n <= m)%nat -> running (m + k) ⊆ running m) as Hsub.
  { intros m k Hm. destruct (admits_or_shrinks m k) as [(a & b & ? & Ha & _)|?]; [|done].
    by apply Hq in Ha; [|lia]. }
  destruct (decide (running n = ∅)) as [E|[j Hj]%set_choose_L].
  - exists n. split; [done|]. intros k Hk. specialize (Hsub n (k - n)%nat (le_n _)).
    replace (n + (k - n))%nat with k in Hsub by lia. set_solver.
  - destruct (fair n j) as (m & Hm & Hj'); [by apply in_state_spec|].
    rewrite <- in_state_spec in Hj'. fold (running m) in Hj'.
    specialize (Hsub n (m - n)%nat (le_n _)). replace (n + (m - n))%nat with m in Hsub by lia.
    destruct (IH (running m)) with (n := m) as (m' & ? & ?); [set_solver|done|intros; apply Hq; lia|].
    exists m'. split; [lia|done].
Qed.

(** With no task left and no connection coming, the only event is the end of a
    refusal, then failed calls of [accept]. *)
Lemma quiet_step n : running n = ∅ -> (forall i, ev n <> Accept i) ->
  loop_pc (st (S n)) = Accepting /\ (loop_pc (st n) = Accepting -> st (S n) = st n).
Proof.
  intros Hrun Hq. pose proof (proj2 run n) as H. unfold do_event in H.
  assert (forall i, conns (st n) !! i <> Some Running) as Hno.
  { intros i Hi%in_state_spec. fold (running n) in Hi. rewrite Hrun in Hi. set_solver. }
  destruct (down (st n)); [done|]. destruct (ev n) as [i| | |i|i]; [by destruct (Hq i)|..].
  - destruct (loop_pc (st n)); [done|]. injection H as <-. done.
  - destruct (loop_pc (st n)) eqn:E; [|done]. injection H as <-. done.
  - specialize (Hno i). by destruct (conns (st n) !! i) as [[]|].
  - specialize (Hno i). by destruct (conns (st n) !! i) as [[]|].
Qed.

(** (C22) The counter drains. Take a run in which no connection comes after
    some moment. If no task in it runs for ever (each is over under its lifetime
    timer, [connection_task_ends]), then from some moment on the server is at
    rest, for ever in one state: no task runs, the loop is back at [accept],
    with no refusal under way, and the counter is the number of slots lost to
    panics, so zero if none panicked. No decrement is missing and none is made
    twice, in whatever order admissions, refusals, ends and panics came. *)
Theorem counter_drains : tasks_end -> forall n, (forall m i, (n <= m)%nat -> ev m <> Accept i) ->
  exists m, (n <= m)%nat /\ (forall k, (m <= k)%nat -> st k = st m) /\
    number Running (st m) = 0 /\ loop_pc (st m) = Accepting /\ active (st m) = number Panicked (st m).
Proof.
  intros fair n Hq. destruct (running_runs_out fair (running n) n) as (m & Hm & Hrun); [done..|].
  assert (forall k, (m <= k)%nat -> loop_pc (st (S k)) = Accepting /\ (loop_pc (st k) = Accepting -> st (S k) = st k)) as Hstep
    by (intros k Hk; apply quiet_step; [by apply Hrun|intros i; apply Hq; lia]).
  assert (loop_pc (st (S m)) = Accepting) as Hpc by by apply Hstep.
  assert (number Running (st (S m)) = 0) as E.
  { unfold number. fold (running (S m)). rewrite Hrun by lia. done. }
  exists (S m). split; [lia|]. split; [|split; [exact E|split; [exact Hpc|]]].
  - intros k Hk. induction Hk as [|k Hk IH]; [done|]. rewrite <- IH. apply Hstep; [lia|by rewrite IH].
  - rewrite (ct_active _ _ (run_counted (S m))), E, Hpc. simpl. lia.
Qed.
End Run.

(** * One slot, one connection after the other *)
Module LivenessWitness.

(** Connection [n / 2] comes at event [n] when [n] is even and ends at [n] when
    it is odd. *)
Definition turn (n : nat) : event := if Nat.even n then Accept (Nat.div2 n) else TaskEnds (Nat.div2 n).

Fixpoint served (n : nat) : gmap nat conn_state :=
  match n with
  | O => ∅
  | S n => <[Nat.div2 n := if Nat.even n then Running else Ended]> (served n)
  end.

Definition turns (n : nat) : server :=
  {| active := if Nat.even n then 0 else 1; loop_pc := Accepting; conns := served n; down := false |}.

Lemma served_lookup k : forall i,
  served (2 * k) !! i = (if decide (i < k)%nat then Some Ended else None) /\
  served (2 * k + 1) !! i = (if decide (i < k)%nat then Some Ended else if decide (i = k) then Some Running else None).
Proof.
  assert (forall k, Nat.even (2 * k) = true /\ Nat.even (2 * k + 1) = false) as Heven.
  { intros j. rewrite Nat.even_add, Nat.even_mul. done. }
  assert (forall k, Nat.div2 (2 * k) = k /\ Nat.div2 (2 * k + 1) = k) as Hdiv.
  { intros j. by rewrite Nat.add_1_r, Nat.div2_double, Nat.div2_succ_double. }
  assert (forall k, (forall i, served (2 * k) !! i = (if decide (i < k)%nat then Some Ended else None)) ->
    forall i, served (2 * k + 1) !! i = (if decide (i < k)%nat then Some Ended else if decide (i = k) then Some Running else None)) as Hodd.
  { intros j Hj i. rewrite Nat.add_1_r. cbn [served]. rewrite (proj1 (Heven j)), (proj1 (Hdiv j)), lookup_insert, Hj.
    repeat case_decide; try done; lia. }
  induction k as [|k IH]; intros i.
  - split; [done|]. apply (Hodd 0%nat). intros j. case_decide; [lia|done].
  - assert (forall i, served (2 * S k) !! i = (if decide (i < S k)%nat then Some Ended else None)) as H.
    { intros j. replace (2 * S k)%nat with (S (2 * k + 1)) by lia. cbn [served].
      rewrite (proj2 (Heven k)), (proj2 (Hdiv k)), lookup_insert, (proj2 (IH j)).
      repeat case_decide; try done; lia. }
    split; [apply H|by apply Hodd].
Qed.

Lemma even_or_odd n : exists k, n = (2 * k)%nat /\ Nat.even n = true /\ Nat.div2 n = k \/
  n = (2 * k + 1)%nat /\ Nat.even n = false /\ Nat.div2 n = k.
Proof.
  exists (Nat.div2 n). destruct (Nat.Even_or_Odd n) as [H|H].
  - left. split_and!; [by apply Nat.Even_double in H; unfold Nat.double in H; lia|by apply Nat.even_spec|done].
  - right. split_and!; [apply Nat.Odd_double in H; unfold Nat.double in H; lia| |done].
    rewrite <- Nat.negb_odd. by rewrite (proj2 (Nat.odd_spec n) H).
Qed.

Lemma turns_run : infinite_run 1 false turns turn.
Proof.
  split; [done|]. intros n. unfold do_event, turn, turns.
  destruct (even_or_odd n) as [k [(En & Ee & Ed)|(En & Ee & Ed)]]; cbn [down loop_pc conns active];
    rewrite Nat.even_succ, <- Nat.negb_even, Ee, Ed; simpl negb.
  - rewrite En at 1. rewrite (proj1 (served_lookup k k)), decide_False by lia. simpl. cbn [served]. by rewrite Ee, Ed.
  - rewrite En at 1. rewrite (proj2 (served_lookup k k)), decide_False, decide_True by lia. cbn [served]. by rewrite Ee, Ed.
Qed.

Lemma turns_end : tasks_end turns.
Proof.
  intros n i H. exists (n + 2 * i + 2)%nat. split; [lia|]. unfold turns in *. cbn [conns] in *.
  assert (i < n)%nat.
  { destruct (even_or_odd n) as [k [(En & _)|(En & _)]]; rewrite En in H.
    - rewrite (proj1 (served_lookup k i)) in H. case_decide; done.
    - rewrite (proj2 (served_lookup k i)) in H. repeat case_decide; try done; lia. }
  destruct (even_or_odd n) as [k [(En & _)|(En & _)]]; rewrite En.
  - replace (2 * k + 2 * i + 2)%nat with (2 * (k + i + 1))%nat by lia.
    rewrite (proj1 (served_lookup _ i)). case_decide; [done|lia].
  - replace (2 * k + 1 + 2 * i + 2)%nat with (2 * (k + i + 1) + 1)%nat by lia.
    rewrite (proj2 (served_lookup _ i)), decide_True by lia. done.
Qed.

Lemma turns_arrive : always_arriving turn.
Proof.
  intros n. exists (2 * n)%nat, n. split; [lia|]. unfold turn.
  rewrite Nat.even_mul, Nat.div2_double. done.
Qed.

Lemma turns_slot : slot_left 1 turns.
Proof.
  intros n. unfold number.
  assert (in_state Panicked (conns (turns n)) = ∅) as ->; [|rewrite size_empty; done].
  apply set_eq. intros i. rewrite in_state_spec. split; [|set_solver]. unfold turns. cbn [conns].
  destruct (even_or_odd n) as [k [(-> & _)|(-> & _)]];
    [rewrite (proj1 (served_lookup k i))|rewrite (proj2 (served_lookup k i))]; repeat case_decide; done.
Qed.

Lemma one_slot : 0 <= 1 < U64_MOD - 1.
Proof. unfold U64_MOD. lia. Qed.

Lemma connections_admitted_forever_witness : exists m i, (7 <= m)%nat /\ admits turns turn m i.
Proof.
  apply (connections_admitted_forever 1 false one_slot turns turn turns_run turns_end turns_arrive turns_slot 7).
Defined.

(** One connection, then errors of [accept] for ever. *)
Definition quiet_turn (n : nat) : event :=
  match n with O => Accept 0 | S O => TaskEnds 0 | _ => AcceptError end.
Definition quiet (n : nat) : server := turns (Nat.min n 2).

Lemma quiet_run : infinite_run 1 false quiet quiet_turn.
Proof. split; [done|]. by intros [|[|[|n]]]. Qed.

Lemma quiet_end : tasks_end quiet.
Proof. intros n i _. exists (n + 2)%nat. split; [lia|]. unfold quiet. rewrite Nat.min_r by lia. unfold turns. cbn [conns].
  change (served (2 * 1) !! i <> Some Running). rewrite (proj1 (served_lookup 1 i)). by case_decide.
Qed.

Lemma counter_drains_witness : exists m, (1 <= m)%nat /\ (forall k, (m <= k)%nat -> quiet k = quiet m) /\
  number Running (quiet m) = 0 /\ loop_pc (quiet m) = Accepting /\ active (quiet m) = number Panicked (quiet m).
Proof.
  apply (counter_drains 1 false one_slot quiet quiet_turn quiet_run quiet_end 1). by intros [|[|m]] i H; [lia|..].
Defined.
End LivenessWitness.
