(* ===== verification/Layer.v ===== *)
(** src/layer.rs: cutting a file into layers of 64 MiB with their offsets and
    hashes, writing a file back from its layers, and comparing the layers of
    two versions of a file. *)
From stdpp Require Import sorting.
From S2P Require Import Prelude External FileSys Lib World Exec Sample Handshake Auth Transfer.

Definition LAYER_SIZE : Z := 1024 * 1024 * 64.

Record LayerMeta := { hash : string; mem_offset : Z }.
Record Layer := { l_data : bytes; layer_meta : LayerMeta }.

#[export] Instance LayerMeta_eq_dec : EqDecision LayerMeta.
Proof. solve_decision. Defined.
#[export] Instance Layer_eq_dec : EqDecision Layer.
Proof. solve_decision. Defined.

(** The order of [sort_by_key(|layer| layer.layer_meta.mem_offset)]. *)
Definition offset_le (a b : Layer) : Prop := mem_offset (layer_meta a) <= mem_offset (layer_meta b).
#[export] Instance offset_le_dec a b : Decision (offset_le a b).
Proof. unfold offset_le. apply _. Defined.
#[export] Instance offset_le_trans : Transitive offset_le.
Proof. intros a b c. unfold offset_le. lia. Qed.
#[export] Instance offset_le_total : Total offset_le.
Proof. intros a b. unfold offset_le. lia. Qed.

Section Layers.
Context {HX : Hex} {SH : Sha2}.

(** [reader.take(LAYER_SIZE).read_to_end(&mut buffer)], then what is left. *)
Definition read_layer (rest : bytes) : bytes * bytes := (ztake LAYER_SIZE rest, zdrop LAYER_SIZE rest).

(** The loop of [read_file_layer]; [rest] is what the reader has left. *)
Fixpoint read_meta_loop (fuel : nat) (rest : bytes) (off : Z) : outcome (list LayerMeta) :=
  match fuel with
  | O => Hang
  | S fuel =>
    let '(buffer, rest) := read_layer rest in
    let n := zlen buffer in
    if n =? 0 then Done []
    else
      let! layers_meta := read_meta_loop fuel rest (usize_add off n) in
      Done ({| hash := encode (sha256_digest buffer); mem_offset := off |} :: layers_meta)
  end.

Definition read_file_layer (data : bytes) : outcome (list LayerMeta) :=
  read_meta_loop (S (length data)) data 0.

(** Seeking is an error beyond [i64::MAX] and nothing else. *)
Definition read_data_layer (data : bytes) (off : Z) : result (option Layer) :=
  if 2 ^ 63 <=? off then Err EINVAL
  else
    let '(buffer, _) := read_layer (zdrop off data) in
    if zlen buffer =? 0 then Ok None
    else Ok (Some {| l_data := buffer;
                     layer_meta := {| hash := encode (sha256_digest buffer); mem_offset := off |} |}).

(** How many bytes a file read returns at a position: the system's choice. *)
Variable short : Z -> Z.

(** The inner loop of [to_layers]: fill one buffer. Returns the hasher, the
    buffer, the count, and the position and the rest of the reader. *)
Fixpoint fill_layer (fuel : nat) (pos : Z) (rest : bytes) (hasher : sha256_state) (buffer : bytes)
    (bytes_read : Z) : outcome (sha256_state * bytes * Z * Z * bytes) :=
  if bytes_read <? LAYER_SIZE then
    match fuel with
    | O => Hang
    | S fuel =>
      let n := match rest with
               | [] => 0
               | _ => read_len short (LAYER_SIZE - bytes_read) pos (zlen rest)
               end in
      if n =? 0 then Done (hasher, buffer, bytes_read, pos, rest)
      else
        let! buffer := write_at buffer bytes_read (ztake n rest) in
        let! chunk := slice buffer bytes_read (bytes_read + n) in
        fill_layer fuel (pos + n) (zdrop n rest) (sha256_update hasher chunk) buffer (bytes_read + n)
    end
  else Done (hasher, buffer, bytes_read, pos, rest).

Fixpoint to_layers_loop (fuel : nat) (pos : Z) (rest : bytes) (off : Z) : outcome (list Layer) :=
  match fuel with
  | O => Hang
  | S fuel =>
    let! (hasher, buffer, bytes_read, pos, rest) :=
      fill_layer (S (length rest)) pos rest sha256_new (zeros LAYER_SIZE) 0 in
    if bytes_read =? 0 then Done []
    else
      let! layers := to_layers_loop fuel pos rest (usize_add off bytes_read) in
      Done ({| l_data := ztake bytes_read buffer;
               layer_meta := {| hash := encode (sha256_finalize hasher); mem_offset := off |} |} :: layers)
  end.

Definition to_layers (data : bytes) : outcome (list Layer) :=
  to_layers_loop (S (length data)) 0 data 0.

Fixpoint write_layers (layers : list Layer) (p : path) (buf : bytes) : M bytes :=
  match layers with
  | [] => ret buf
  | layer :: layers =>
    let* buf := buf_write (LAYER_SIZE * 2) p buf (l_data layer) in write_layers layers p buf
  end.

(** [from_layers]: the slice of layers comes back sorted. *)
Definition from_layers (layers : list Layer) (write_path : path) : M (list Layer) :=
  context "Failed to create output file" (fs_op (fun f => create_file f write_path)) ;;;
  let layers := merge_sort offset_le layers in
  let* buf := write_layers layers write_path [] in
  append write_path buf ;;;
  ret layers.

(** The test of [compare_layers] on one pair; the code calls its disjunction
    over [des] [is_changed], and pushes the layers where it is false. *)
Definition same_layer (src_layer des_layer : Layer) : bool :=
  (mem_offset (layer_meta des_layer) =? mem_offset (layer_meta src_layer)) &&
  String.eqb (hash (layer_meta des_layer)) (hash (layer_meta src_layer)).

Fixpoint compare_layers (src des : list Layer) : list Layer :=
  match src with
  | [] => []
  | src_layer :: src =>
    let is_changed := existsb (same_layer src_layer) des in
    if negb is_changed then src_layer :: compare_layers src des else compare_layers src des
  end.

(** * A file as its layers *)

Definition layer_of (d : bytes) (off : Z) : Layer :=
  {| l_data := d; layer_meta := {| hash := encode (sha256_digest d); mem_offset := off |} |}.

Fixpoint cut (fuel : nat) (rest : bytes) (off : Z) : list Layer :=
  match fuel, rest with
  | S fuel, _ :: _ =>
    layer_of (ztake LAYER_SIZE rest) off ::
    cut fuel (zdrop LAYER_SIZE rest) (off + zlen (ztake LAYER_SIZE rest))
  | _, _ => []
  end.
Definition layers_of (data : bytes) : list Layer := cut (length data) data 0.

Lemma LAYER_SIZE_pos : 0 < LAYER_SIZE.
Proof. done. Qed.
#[local] Opaque LAYER_SIZE.
#[local] Hint Resolve LAYER_SIZE_pos : core.

Lemma layer_len (b : byte) (rest : bytes) : 0 < zlen (ztake LAYER_SIZE (b :: rest)).
Proof.
  pose proof LAYER_SIZE_pos. rewrite zlen_ztake_le, zlen_cons by lia. pose proof (zlen_nonneg rest). lia.
Qed.

Lemma zdrop_shorter (b : byte) (rest : bytes) : (length (zdrop LAYER_SIZE (b :: rest)) <= length rest)%nat.
Proof.
  pose proof LAYER_SIZE_pos. assert (zlen (zdrop LAYER_SIZE (b :: rest)) <= zlen rest).
  { rewrite zlen_zdrop_le, zlen_cons by lia. pose proof (zlen_nonneg rest). lia. }
  unfold zlen in *. lia.
Qed.

Lemma cut_concat fuel rest off : (length rest <= fuel)%nat -> concat (l_data <$> cut fuel rest off) = rest.
Proof.
  revert rest off. induction fuel as [|fuel IH]; intros [|b rest] off Hf; try done; [simpl in Hf; lia|].
  cbn [cut fmap list_fmap concat l_data layer_of]. rewrite IH; [apply ztake_zdrop|].
  pose proof (zdrop_shorter b rest). simpl in Hf. lia.
Qed.

Lemma layers_of_concat data : concat (l_data <$> layers_of data) = data.
Proof. by apply cut_concat. Qed.

(** The layer at position [i]. *)
Lemma cut_lookup fuel rest off i l : cut fuel rest off !! i = Some l ->
  l = layer_of (ztake LAYER_SIZE (zdrop (Z.of_nat i * LAYER_SIZE) rest)) (off + Z.of_nat i * LAYER_SIZE) /\
  l_data l <> [].
Proof.
  pose proof LAYER_SIZE_pos.
  revert rest off i. induction fuel as [|fuel IH]; intros [|b rest] off i; try done.
  cbn [cut]. destruct i as [|i]; cbn [lookup list_lookup].
  - intros [= <-]. rewrite Z.mul_0_l, Z.add_0_r, zdrop_0. split; [done|].
    pose proof (layer_len b rest) as Hl. intros E. cbn [l_data layer_of] in E. by rewrite E in Hl.
  - intros Hi. destruct (IH _ _ _ Hi) as [-> Hne]. split; [|done]. cbn [l_data layer_of] in Hne.
    rewrite zdrop_zdrop in * by lia.
    replace (LAYER_SIZE + Z.of_nat i * LAYER_SIZE) with (Z.of_nat (S i) * LAYER_SIZE) in * by lia.
    f_equal. assert (LAYER_SIZE <= zlen (b :: rest)).
    { destruct (decide (LAYER_SIZE <= zlen (b :: rest))) as [|Hlt]; [done|]. exfalso. apply Hne.
      rewrite zdrop_ge by nia. done. }
    rewrite zlen_ztake by lia. lia.
Qed.

Lemma cut_offset_ge fuel rest off l : l ∈ cut fuel rest off -> off <= mem_offset (layer_meta l).
Proof.
  intros [i Hi]%list_elem_of_lookup. apply cut_lookup in Hi as [-> _]. simpl. pose proof LAYER_SIZE_pos. lia.
Qed.

(** * The three readers *)

Lemma read_meta_cut fuel rest off : (length rest < fuel)%nat -> 0 <= off -> off + zlen rest < U64_MOD ->
  read_meta_loop fuel rest off = Done (layer_meta <$> cut fuel rest off).
Proof.
  revert rest off. induction fuel as [|fuel IH]; intros rest off Hf Ho Hb; [lia|].
  destruct rest as [|b rest].
  { cbn [read_meta_loop read_layer]. unfold ztake. by rewrite take_nil. }
  cbn [read_meta_loop read_layer cut]. pose proof (layer_len b rest) as Hl.
  rewrite (proj2 (Z.eqb_neq _ _)) by lia.
  pose proof (zdrop_shorter b rest) as Hd. simpl in Hf.
  assert (zlen (ztake LAYER_SIZE (b :: rest)) + zlen (zdrop LAYER_SIZE (b :: rest)) = zlen (b :: rest)) as Hsum
    by (rewrite <- zlen_app, ztake_zdrop; done).
  assert (usize_add off (zlen (ztake LAYER_SIZE (b :: rest))) = off + zlen (ztake LAYER_SIZE (b :: rest))) as ->.
  { unfold usize_add. pose proof (zlen_nonneg (zdrop LAYER_SIZE (b :: rest))). rewrite Z.mod_small; lia. }
  rewrite IH by lia. done.
Qed.

(** Filling a buffer: [got] is what it holds. *)
Lemma fill_layer_eq {SHL : Sha2Laws} fuel : forall pos rest hasher got tail, (length rest < fuel)%nat ->
  zlen got + zlen tail = LAYER_SIZE ->
  let d := ztake (LAYER_SIZE - zlen got) rest in
  exists pos' tail', fill_layer fuel pos rest hasher (got ++ tail) (zlen got) =
    Done (sha256_update hasher d, got ++ d ++ tail', zlen got + zlen d, pos', zdrop (LAYER_SIZE - zlen got) rest).
Proof.
  induction fuel as [|fuel IH]; intros pos rest hasher got tail Hf Hs d; [lia|].
  pose proof (zlen_nonneg tail). cbn [fill_layer]. destruct (zlen got <? LAYER_SIZE) eqn:E; zbool; cycle 1.
  { exists pos, tail. unfold d. replace (LAYER_SIZE - zlen got) with 0 by lia.
    rewrite ztake_0, zdrop_0, sha256_update_nil, zlen_nil. simpl. by rewrite Z.add_0_r. }
  destruct rest as [|b rest].
  { exists pos, tail. assert (d = []) as -> by apply take_nil. unfold zdrop.
    cbn [Z.eqb]. rewrite drop_nil, sha256_update_nil, zlen_nil. simpl. by rewrite Z.add_0_r. }
  set (r := b :: rest) in *. set (cap := LAYER_SIZE - zlen got) in *.
  pose proof (read_len_bounds short cap pos r ltac:(lia) ltac:(done)) as Hn.
  set (n := read_len short cap pos (zlen r)) in *. rewrite (proj2 (Z.eqb_neq n 0)) by lia.
  assert (zlen (ztake n r) = n) as Hln by (apply zlen_ztake; lia).
  destruct (app_split n tail) as (t1 & t2 & -> & Ht1); [lia|]. rewrite zlen_app in Hs.
  rewrite (write_at_app got t1 t2 (ztake n r)) by lia. cbn [obind].
  rewrite (slice_at got (ztake n r) t2) by lia. cbn [obind].
  rewrite (app_assoc got).
  destruct (IH (pos + n) (zdrop n r) (sha256_update hasher (ztake n r)) (got ++ ztake n r) t2) as (pos' & tail' & H').
  { assert (zlen (zdrop n r) < zlen r) by (rewrite zlen_zdrop; lia). unfold zlen in *. lia. }
  { rewrite zlen_app. lia. }
  exists pos', tail'. rewrite zlen_app, Hln in H'. rewrite H'.
  replace (LAYER_SIZE - (zlen got + n)) with (cap - n) by lia.
  assert (ztake n r ++ ztake (cap - n) (zdrop n r) = d) as Hd.
  { unfold d. unfold ztake, zdrop. rewrite take_take_drop. f_equal. lia. }
  rewrite sha256_update_app, <- app_assoc, (app_assoc (ztake n r)), Hd, zdrop_zdrop by lia.
  replace (n + (cap - n)) with cap by lia. do 4 f_equal. rewrite <- Hd, zlen_app. lia.
Qed.

Lemma fill_layer_start {SHL : Sha2Laws} fuel pos rest hasher buffer : (length rest < fuel)%nat ->
  zlen buffer = LAYER_SIZE ->
  exists pos' tail', fill_layer fuel pos rest hasher buffer 0 =
    Done (sha256_update hasher (ztake LAYER_SIZE rest), ztake LAYER_SIZE rest ++ tail',
          zlen (ztake LAYER_SIZE rest), pos', zdrop LAYER_SIZE rest).
Proof.
  intros Hf Hb. assert (zlen (@nil byte) + zlen buffer = LAYER_SIZE) as Hl by (rewrite zlen_nil; lia).
  destruct (fill_layer_eq fuel pos rest hasher [] buffer Hf Hl) as (pos' & tail' & H).
  rewrite zlen_nil, Z.sub_0_r, Z.add_0_l, !app_nil_l in H. by exists pos', tail'.
Qed.

Lemma to_layers_cut {SHL : Sha2Laws} fuel : forall pos rest off, (length rest < fuel)%nat -> 0 <= off ->
  off + zlen rest < U64_MOD ->
  to_layers_loop fuel pos rest off = Done (cut fuel rest off).
Proof.
  pose proof LAYER_SIZE_pos.
  induction fuel as [|fuel IH]; intros pos rest off Hf Ho Hb; [lia|]. cbn [to_layers_loop].
  destruct (fill_layer_start (S (length rest)) pos rest sha256_new (zeros LAYER_SIZE)) as (pos' & tail' & ->);
    [lia|apply zlen_zeros; lia|]. cbn [obind].
  destruct rest as [|b rest].
  { unfold ztake. by rewrite take_nil. }
  cbn [cut]. pose proof (layer_len b rest) as Hl. rewrite (proj2 (Z.eqb_neq _ _)) by lia.
  pose proof (zdrop_shorter b rest) as Hd. simpl in Hf.
  assert (zlen (ztake LAYER_SIZE (b :: rest)) + zlen (zdrop LAYER_SIZE (b :: rest)) = zlen (b :: rest)) as Hsum
    by (rewrite <- zlen_app, ztake_zdrop; done).
  assert (usize_add off (zlen (ztake LAYER_SIZE (b :: rest))) = off + zlen (ztake LAYER_SIZE (b :: rest))) as ->.
  { unfold usize_add. pose proof (zlen_nonneg (zdrop LAYER_SIZE (b :: rest))). rewrite Z.mod_small; lia. }
  rewrite IH by lia. cbn [obind]. rewrite ztake_app by done. by rewrite <- sha256_digest_streaming.
Qed.

Lemma cut_fuel fuel fuel' rest off : (length rest <= fuel)%nat -> (length rest <= fuel')%nat ->
  cut fuel rest off = cut fuel' rest off.
Proof.
  revert fuel' rest off. induction fuel as [|fuel IH]; intros [|fuel'] [|b rest] off Hf Hf'; try done; simpl in Hf, Hf'; try lia.
  cbn [cut]. f_equal. pose proof (zdrop_shorter b rest). apply IH; lia.
Qed.

Lemma read_file_layers data : zlen data < U64_MOD ->
  read_file_layer data = Done (layer_meta <$> layers_of data).
Proof.
  intros Hb. unfold read_file_layer. rewrite read_meta_cut by lia. unfold layers_of. do 2 f_equal. apply cut_fuel; lia.
Qed.

Lemma to_layers_eq {SHL : Sha2Laws} data : zlen data < U64_MOD -> to_layers data = Done (layers_of data).
Proof.
  intros Hb. unfold to_layers. rewrite to_layers_cut by lia. unfold layers_of. f_equal. apply cut_fuel; lia.
Qed.

(** (C32) The three readers agree, however the system splits its reads:
    [to_layers] cuts the file into consecutive pieces of 64 MiB (the last one
    shorter) whose concatenation is the file, each with its offset and its
    hash; [read_file_layer] returns exactly the metadata of these layers; and
    [read_data_layer] at the offset of a layer returns that layer. *)
Theorem layer_readers_agree {SHL : Sha2Laws} (data : bytes) : zlen data < 2 ^ 63 ->
  exists ls, to_layers data = Done ls /\ read_file_layer data = Done (layer_meta <$> ls) /\
    concat (l_data <$> ls) = data /\
    forall i l, ls !! i = Some l ->
      mem_offset (layer_meta l) = Z.of_nat i * LAYER_SIZE /\
      l_data l = ztake LAYER_SIZE (zdrop (Z.of_nat i * LAYER_SIZE) data) /\ l_data l <> [] /\
      hash (layer_meta l) = encode (sha256_digest (l_data l)) /\
      read_data_layer data (mem_offset (layer_meta l)) = Ok (Some l).
Proof.
  intros Hb. pose proof LAYER_SIZE_pos. exists (layers_of data).
  rewrite to_layers_eq, read_file_layers by (unfold U64_MOD; lia).
  split_and!; [done..|apply layers_of_concat|]. intros i l Hi.
  apply cut_lookup in Hi as [-> Hne]. rewrite Z.add_0_l in *. cbn [l_data layer_meta layer_of mem_offset hash] in *.
  split_and!; try done. unfold read_data_layer, read_layer.
  assert (Z.of_nat i * LAYER_SIZE < zlen data).
  { destruct (decide (Z.of_nat i * LAYER_SIZE < zlen data)); [done|]. exfalso. apply Hne.
    rewrite zdrop_ge by lia. unfold ztake. by rewrite take_nil. }
  rewrite (proj2 (Z.leb_gt _ _)) by lia.
  destruct (ztake _ _) as [|b d] eqn:E; [done|].
  rewrite (proj2 (Z.eqb_neq _ _)); [done|]. rewrite zlen_cons. pose proof (zlen_nonneg d). lia.
Qed.

(** * Writing a file from its layers *)

Lemma layers_of_lookup data i l : layers_of data !! i = Some l ->
  l = layer_of (ztake LAYER_SIZE (zdrop (Z.of_nat i * LAYER_SIZE) data)) (Z.of_nat i * LAYER_SIZE).
Proof. intros H. by apply cut_lookup in H as [-> _]. Qed.

(** A layer is a non-empty part of the file, under its own hash. *)
Lemma layer_part data l : l ∈ layers_of data ->
  hash (layer_meta l) = encode (sha256_digest (l_data l)) /\ l_data l <> [] /\ l_data l ⊆ data.
Proof.
  intros [i Hi]%list_elem_of_lookup. apply cut_lookup in Hi as [-> Hne]. split; [done|]. split; [done|].
  intros b (j & Hj & _)%elem_of_take. unfold zdrop in Hj. rewrite lookup_drop in Hj.
  by apply list_elem_of_lookup_2 in Hj.
Qed.

(** A layer is determined by its offset. *)
Lemma layers_of_offset data a b : a ∈ layers_of data -> b ∈ layers_of data ->
  mem_offset (layer_meta a) = mem_offset (layer_meta b) -> a = b.
Proof.
  pose proof LAYER_SIZE_pos. intros [i ->%layers_of_lookup]%list_elem_of_lookup [j ->%layers_of_lookup]%list_elem_of_lookup.
  cbn [layer_meta layer_of mem_offset]. intros Hij. assert (i = j) as -> by nia. done.
Qed.

Lemma cut_sorted fuel rest off : StronglySorted offset_le (cut fuel rest off).
Proof.
  revert rest off. induction fuel as [|fuel IH]; intros [|b rest] off; try constructor; [apply IH|].
  apply Forall_forall. intros l Hl. apply cut_offset_ge in Hl.
  unfold offset_le. cbn [layer_meta layer_of mem_offset]. pose proof (layer_len b rest). lia.
Qed.

Lemma cut_nodup fuel rest off : NoDup (cut fuel rest off).
Proof.
  revert rest off. induction fuel as [|fuel IH]; intros [|b rest] off; try constructor; [|apply IH].
  intros Hl. apply cut_offset_ge in Hl. cbn [layer_meta layer_of mem_offset] in Hl.
  pose proof (layer_len b rest). lia.
Qed.

Lemma sort_layers data ls : ls ≡ₚ layers_of data -> merge_sort offset_le ls = layers_of data.
Proof.
  intros Hp. apply (StronglySorted_unique_strong offset_le).
  - intros a b Ha Hb Hab Hba. unfold offset_le in *. apply (layers_of_offset data); [|done|lia].
    by rewrite <- Hp, <- (merge_sort_Permutation offset_le ls).
  - apply StronglySorted_merge_sort; apply _.
  - apply cut_sorted.
  - by rewrite merge_sort_Permutation.
Qed.

Lemma exec_write_layers p ls : forall buf old v, h_fs (v_host v) !! p = Some (File old) ->
  exists buf' new, exec (write_layers ls p buf) v (Done buf')
    (v_set_fs (<[p := File new]> (h_fs (v_host v))) v) /\ new ++ buf' = old ++ buf ++ concat (l_data <$> ls).
Proof.
  induction ls as [|l ls IH]; intros buf old v Hp.
  - exists buf, old. split; [|by rewrite app_nil_r].
    rewrite insert_id, v_set_fs_same by done. apply exec_ret.
  - destruct (exec_buf_write (LAYER_SIZE * 2) p buf (l_data l) old v Hp) as (buf1 & new1 & Hw & H1).
    destruct (IH buf1 new1 (v_set_fs (<[p := File new1]> (h_fs (v_host v))) v)) as (buf' & new & Hr & H2).
    { apply lookup_insert_eq. }
    exists buf', new. split.
    + eapply exec_bind; [exact Hw|]. eapply exec_to; [exact Hr|].
      unfold v_set_fs. simpl. by rewrite insert_insert_eq.
    + cbn [fmap list_fmap concat]. by rewrite H2, app_assoc, H1, <- !app_assoc.
Qed.

Lemma exec_from_layers p ls v f : create_file (h_fs (v_host v)) p = Ok f ->
  exec (from_layers ls p) v (Done (merge_sort offset_le ls))
    (v_set_fs (<[p := File (concat (l_data <$> merge_sort offset_le ls))]> (h_fs (v_host v))) v).
Proof.
  intros Hf. unfold from_layers.
  assert (f = <[p := File []]> (h_fs (v_host v))) as ->.
  { unfold create_file in Hf. destruct (lookup_node _ (parent p)) as [[]|]; try done.
    destruct (lookup_node _ p) as [[]|]; by simplify_eq. }
  eapply exec_bind; [unfold context; estep exec_try; [by apply exec_fs_op|]; apply exec_ret|].
  set (ms := merge_sort offset_le ls). set (v1 := v_set_fs (<[p := File []]> (h_fs (v_host v))) v).
  destruct (exec_write_layers p ms [] [] v1) as (buf & new & Hw & Hc); [apply lookup_insert_eq|].
  eapply exec_bind; [exact Hw|]. eapply exec_bind; [apply exec_append, lookup_insert_eq|].
  eapply exec_to; [apply exec_ret|]. rewrite Hc. unfold v1, v_set_fs. simpl.
  by rewrite !insert_insert_eq.
Qed.

(** Layers go back to the file they came from: whatever the order in
    which the layers of a file arrive, [from_layers] writes exactly that file,
    leaves every other file alone, and leaves the slice of layers sorted. *)
Theorem from_layers_rebuilds {SHL : Sha2Laws} (data : bytes) (ls ls' : list Layer) (p : path) (v : View) (f : fs) :
  zlen data < 2 ^ 63 -> to_layers data = Done ls -> ls' ≡ₚ ls ->
  create_file (h_fs (v_host v)) p = Ok f ->
  exec (from_layers ls' p) v (Done ls) (v_set_fs (<[p := File data]> (h_fs (v_host v))) v).
Proof.
  intros Hb Hls Hp Hf. rewrite to_layers_eq in Hls by (unfold U64_MOD; lia). injection Hls as <-.
  pose proof (exec_from_layers p ls' v f Hf) as H. by rewrite (sort_layers data), layers_of_concat in H.
Qed.

(** A file of at most one layer. *)
Lemma layers_of_small data : data <> [] -> zlen data <= LAYER_SIZE -> layers_of data = [layer_of data 0].
Proof.
  intros Hd Hl. destruct data as [|b data]; [done|]. unfold layers_of. cbn [length cut].
  rewrite ztake_ge, zdrop_ge by done. by destruct (length data).
Qed.

(** * Comparing two versions *)

Lemma compare_layers_in src des l :
  l ∈ compare_layers src des <-> l ∈ src /\ existsb (same_layer l) des = false.
Proof.
  induction src as [|s src IH]; cbn [compare_layers]; [set_solver|].
  destruct (existsb (same_layer s) des) eqn:E; simpl; rewrite ?elem_of_cons, IH; naive_solver congruence.
Qed.

Lemma compare_layers_nodup src des : NoDup src -> NoDup (compare_layers src des).
Proof.
  induction 1 as [|s src Hs _ IH]; cbn [compare_layers]; [constructor|].
  destruct (existsb (same_layer s) des); simpl; [done|]. constructor; [|done].
  rewrite compare_layers_in. naive_solver.
Qed.

Lemma same_layer_iff s d : same_layer s d = true <->
  mem_offset (layer_meta d) = mem_offset (layer_meta s) /\ hash (layer_meta d) = hash (layer_meta s).
Proof. unfold same_layer. by rewrite andb_true_iff, Z.eqb_eq, String.eqb_eq. Qed.

(** The layers of [des] a server keeps: those [src] has too. *)
Definition kept_layers (src des : list Layer) : list Layer :=
  filter (fun d => existsb (fun s => same_layer s d) src = true) des.

(** SHA-256 tells the layers of the two versions apart. *)
Definition no_collision (old new : bytes) : Prop :=
  forall a b, a ∈ layers_of new -> b ∈ layers_of old -> hash (layer_meta a) = hash (layer_meta b) ->
  l_data a = l_data b.

Lemma same_layers_equal old new s d : no_collision old new -> s ∈ layers_of new -> d ∈ layers_of old ->
  same_layer s d = true -> d = s.
Proof.
  intros Hc Hs Hd [Ho Hh]%same_layer_iff. specialize (Hc s d Hs Hd (eq_sym Hh)).
  destruct s as [sd [sh so]], d as [dd [dh do]]. simpl in *. by subst.
Qed.

Lemma delta_permutation old new : no_collision old new ->
  compare_layers (layers_of new) (layers_of old) ++ kept_layers (layers_of new) (layers_of old) ≡ₚ layers_of new.
Proof.
  intros Hc. apply NoDup_Permutation.
  - apply NoDup_app. split_and!; [apply compare_layers_nodup, cut_nodup| |apply NoDup_filter, cut_nodup].
    intros l [Hl Hno]%compare_layers_in [Hk Hd]%list_elem_of_filter.
    apply existsb_exists in Hk as (s & Hs%list_elem_of_In & Hsame).
    assert (l = s) as -> by by apply (same_layers_equal old new).
    assert (existsb (same_layer s) (layers_of old) = true) as Hyes.
    { apply existsb_exists. exists s. split; [by apply list_elem_of_In|done]. }
    congruence.
  - apply cut_nodup.
  - intros l. rewrite elem_of_app, compare_layers_in. split.
    + intros [[? _]|[Hk Hd]%list_elem_of_filter]; [done|].
      apply existsb_exists in Hk as (s & Hs%list_elem_of_In & Hsame).
      by rewrite (same_layers_equal old new s l).
    + intros Hl. destruct (existsb (same_layer l) (layers_of old)) eqn:E; [right|by left].
      apply existsb_exists in E as (d & Hd%list_elem_of_In & Hsame).
      assert (d = l) as -> by by apply (same_layers_equal old new).
      apply list_elem_of_filter. split; [|done]. apply existsb_exists. exists l.
      split; [by apply list_elem_of_In|done].
Qed.

(** (C31) Sending the changed layers is enough: when the other side has the
    layers of the old version, it rebuilds the new version from the layers
    [compare_layers] returns and those of its own that the new version still
    has, in any order, provided SHA-256 does not collide on the two files. *)
Theorem delta_rebuilds {SHL : Sha2Laws} (old new : bytes) (src des ls : list Layer) (p : path) (v : View) (f : fs) :
  zlen old < 2 ^ 63 -> zlen new < 2 ^ 63 -> no_collision old new ->
  to_layers new = Done src -> to_layers old = Done des ->
  ls ≡ₚ compare_layers src des ++ kept_layers src des ->
  create_file (h_fs (v_host v)) p = Ok f ->
  exec (from_layers ls p) v (Done src) (v_set_fs (<[p := File new]> (h_fs (v_host v))) v) /\
  forall l, l ∈ compare_layers src des -> l ∈ src /\ l ∉ des.
Proof.
  intros Ho Hn Hc Hsrc Hdes Hls Hf. rewrite to_layers_eq in Hsrc, Hdes by (unfold U64_MOD; lia).
  injection Hsrc as <-. injection Hdes as <-. split.
  - pose proof (exec_from_layers p ls v f Hf) as H. rewrite (sort_layers new), layers_of_concat in H; [done|].
    by rewrite Hls, delta_permutation.
  - intros l [Hl Hno]%compare_layers_in. split; [done|]. intros Hd.
    assert (existsb (same_layer l) (layers_of old) = true) as Hyes; [|congruence].
    apply existsb_exists. exists l. split; [by apply list_elem_of_In|by apply same_layer_iff].
Qed.
End Layers.

Module LayerWitness.
Import Toy AuthWitness TransferWitness.

Definition abd : bytes := as_bytes "abd".
Definition out : path := home ++ ["out"%string].

Lemma small_data (d : bytes) : zlen d <= 3 -> zlen d < 2 ^ 63 /\ zlen d <= LAYER_SIZE /\ zlen d < U64_MOD.
Proof. intros H. unfold LAYER_SIZE, U64_MOD. lia. Qed.

Lemma layer_readers_agree_witness : exists ls, to_layers full_reads abc = Done ls /\ concat (l_data <$> ls) = abc.
Proof.
  destruct (layer_readers_agree full_reads abc) as (ls & H & _ & Hc & _); [by apply small_data|].
  exists ls. split; [exact H|exact Hc].
Defined.

Lemma from_layers_rebuilds_witness :
  exec (from_layers (layers_of abc) out) (demo_view []) (Done (layers_of abc))
    (v_set_fs (<[out := File abc]> demo_fs) (demo_view [])).
Proof.
  apply (from_layers_rebuilds full_reads abc (layers_of abc) (layers_of abc) out (demo_view [])
    (<[out := File []]> demo_fs)).
  - by apply small_data.
  - apply (to_layers_eq full_reads abc). by apply small_data.
  - reflexivity.
  - vm_refl.
Defined.

Lemma no_collision_demo : no_collision abc abd.
Proof.
  intros a b Ha Hb Hh. rewrite layers_of_small in Ha, Hb by (done || by apply small_data).
  apply list_elem_of_singleton in Ha as ->, Hb as ->. discriminate Hh.
Qed.

Lemma delta_rebuilds_witness :
  exec (from_layers (compare_layers (layers_of abd) (layers_of abc) ++ kept_layers (layers_of abd) (layers_of abc)) out)
    (demo_view []) (Done (layers_of abd)) (v_set_fs (<[out := File abd]> demo_fs) (demo_view [])).
Proof.
  destruct (delta_rebuilds full_reads abc abd (layers_of abd) (layers_of abc)
    (compare_layers (layers_of abd) (layers_of abc) ++ kept_layers (layers_of abd) (layers_of abc)) out (demo_view [])
    (<[out := File []]> demo_fs)) as [H _].
  - by apply small_data.
  - by apply small_data.
  - apply no_collision_demo.
  - apply (to_layers_eq full_reads abd). by apply small_data.
  - apply (to_layers_eq full_reads abc). by apply small_data.
  - reflexivity.
  - vm_refl.
  - exact H.
Defined.
End LayerWitness.
