(* ===== verification/Dummy.v ===== *)
(** src/bin/dummy.rs: the generator of random files used in tests. The file is
    mapped in memory and filled by threads, one per piece of 128 MiB, each
    through a raw slice: the writes of all threads are an interleaving, which
    [sched] gives byte by byte. *)
From Stdlib Require Import Ascii.
From S2P Require Import Prelude External FileSys Lib World Exec Sample Handshake Auth.

Definition CHUNK_SIZE : Z := 128 * 1024 * 1024.
Definition div_ceil (a b : Z) : Z := (a + b - 1) / b.

(** [str::parse::<usize>()] and its errors. *)
Definition PARSE_EMPTY : string := "cannot parse integer from empty string".
Definition PARSE_DIGIT : string := "invalid digit found in string".
Definition PARSE_OVERFLOW : string := "number too large to fit in target type".

Fixpoint usize_digits (s : string) (acc : Z) : result Z :=
  match s with
  | EmptyString => Ok acc
  | String c s =>
    match digit_of c with
    | None => Err PARSE_DIGIT
    | Some d => let v := acc * 10 + d in if v <? U64_MOD then usize_digits s v else Err PARSE_OVERFLOW
    end
  end.

Definition parse_usize (s : string) : result Z :=
  match s with
  | EmptyString => Err PARSE_EMPTY
  | String "+"%char EmptyString => Err PARSE_DIGIT
  | String "+"%char s => usize_digits s 0
  | s => usize_digits s 0
  end.

(** [(size_mb * 1024 * 1024) as u64], in the wrapping arithmetic of a release
    build. *)
Definition size_in_bytes (size_mb : Z) : Z := (size_mb * 1024 * 1024) mod U64_MOD.

(** [file.set_len(n)]: cuts the file or extends it with zeros. *)
Definition SET_LEN_RANGE : string := "out of range integral type conversion attempted".
Definition set_len (f : fs) (p : path) (n : Z) : result fs :=
  if 2 ^ 63 <=? n then Err SET_LEN_RANGE
  else match f !! p with
       | Some (File d) => Ok (<[p := File (resize d n)]> f)
       | _ => Err ENOENT
       end.

Section Dummy.
Context {HX : Hex} {SH : Sha2}.
(** [fs2::allocate] and [memmap2::map_mut]: what they say of a file of a size. *)
Variable allocate : Z -> result unit.
Variable map_mut : Z -> result unit.
(** The bytes the generator of thread [i] puts in a slice of [n]. *)
Variable fill_bytes_of : Z -> Z -> bytes.
Variable as_path : string -> path.

Definition chunk_start (i : Z) : Z := i * CHUNK_SIZE.
Definition chunk_end (i len : Z) : Z := Z.min (chunk_start i + CHUNK_SIZE) len.

(** The writes of thread [i] into a mapping of [len] bytes. *)
Definition enum (off : nat) (l : bytes) : list (nat * byte) := imap (fun j b => ((off + j)%nat, b)) l.
Definition chunk_data (len i : Z) : bytes := fill_bytes_of i (chunk_end i len - chunk_start i).
Definition thread_writes (len i : Z) : list (nat * byte) := enum (Z.to_nat (chunk_start i)) (chunk_data len i).

Definition threads (len : Z) : list Z := Z.of_nat <$> seq 0 (Z.to_nat (div_ceil len CHUNK_SIZE)).
Definition all_writes (len : Z) : list (nat * byte) := concat (thread_writes len <$> threads len).

(** One write through a raw pointer; outside the mapping it is undefined. *)
Definition store (w : nat * byte) (mmap : bytes) : option bytes :=
  if decide (w.1 < length mmap)%nat then Some (<[w.1 := w.2]> mmap) else None.
Fixpoint stores (sched : list (nat * byte)) (mmap : bytes) : option bytes :=
  match sched with
  | [] => Some mmap
  | w :: sched => match store w mmap with Some mmap => stores sched mmap | None => None end
  end.

(** [main]; the value is the hash it prints, if it gets there. *)
Definition main (sched : list (nat * byte)) (args : list string) : M (option string) :=
  match args with
  | _ :: size :: path :: _ =>
    let* size_mb := lift_result (parse_usize size) in
    let size_bytes := size_in_bytes size_mb in
    let p := as_path path in
    fs_op (fun f => create_file f p) ;;;
    fs_op (fun f => set_len f p size_bytes) ;;;
    let* _ := lift_result (allocate size_bytes) in
    let* _ := lift_result (map_mut size_bytes) in
    let* contents := gets_fs (fun f => read_file f p) in
    let* mmap := lift_result contents in
    let* mmap := lift (match stores sched mmap with Some m => Done m | None => Panic end) in
    fs_op (fun f => Ok (<[p := File mmap]> f)) ;;;
    ret (Some (encode (sha256_finalize (sha256_update sha256_new mmap))))
  | _ => ret None
  end.

(** * What the threads write *)

Lemma CHUNK_SIZE_pos : 0 < CHUNK_SIZE.
Proof. done. Qed.
#[local] Opaque CHUNK_SIZE.

Hypothesis fill_len : forall i n, 0 <= n -> zlen (fill_bytes_of i n) = n.

(** The file the threads make: their pieces in order. *)
Definition generated (len : Z) : bytes := concat (chunk_data len <$> threads len).

Lemma enum_app off a b : enum off (a ++ b) = enum off a ++ enum (off + length a) b.
Proof.
  unfold enum. rewrite imap_app. f_equal. apply imap_ext. intros j x _. simpl. f_equal. lia.
Qed.

Lemma enum_offsets off l : (enum off l).*1 = seq off (length l).
Proof.
  revert off. induction l as [|b l IH]; intros off; [done|].
  change (b :: l) with ([b] ++ l). rewrite enum_app, fmap_app, IH. cbn. f_equal; [lia|]. f_equal. lia.
Qed.

Lemma enum_in l k b : (k, b) ∈ enum 0 l <-> l !! k = Some b.
Proof.
  unfold enum. rewrite elem_of_lookup_imap. split.
  - by intros (j & x & [= -> ->] & H).
  - intros H. by exists k, b.
Qed.

(** The pieces of the threads from [i] on tile the mapping from their start. *)
Lemma threads_tile len n : forall i : nat, Z.of_nat (i + n) = div_ceil len CHUNK_SIZE -> 0 <= len ->
  let ts := Z.of_nat <$> seq i n in
  zlen (concat (chunk_data len <$> ts)) = Z.max 0 (len - chunk_start (Z.of_nat i)) /\
  concat (thread_writes len <$> ts) = enum (Z.to_nat (chunk_start (Z.of_nat i))) (concat (chunk_data len <$> ts)).
Proof.
  pose proof CHUNK_SIZE_pos. unfold chunk_start, div_ceil.
  induction n as [|n IH]; intros i Hi Hl.
  - split; [|done]. simpl. rewrite zlen_nil. rewrite Nat.add_0_r in Hi. rewrite Hi.
    pose proof (Z.div_mod (len + CHUNK_SIZE - 1) CHUNK_SIZE ltac:(lia)).
    pose proof (Z.mod_pos_bound (len + CHUNK_SIZE - 1) CHUNK_SIZE ltac:(lia)). lia.
  - destruct (IH (S i)) as [Hlen Hw]; [lia|done|]. cbn [seq fmap list_fmap concat].
    change (list_fmap nat Z Z.of_nat) with (@fmap list _ nat Z Z.of_nat).
    assert (Z.of_nat i * CHUNK_SIZE < len) as Hlt.
    { pose proof (Z.div_mod (len + CHUNK_SIZE - 1) CHUNK_SIZE ltac:(lia)).
      pose proof (Z.mod_pos_bound (len + CHUNK_SIZE - 1) CHUNK_SIZE ltac:(lia)). nia. }
    assert (zlen (chunk_data len (Z.of_nat i)) = Z.min CHUNK_SIZE (len - Z.of_nat i * CHUNK_SIZE)) as Hc.
    { unfold chunk_data, chunk_end, chunk_start. rewrite fill_len by lia. lia. }
    split.
    + rewrite zlen_app, Hc, Hlen. lia.
    + rewrite Hw. unfold thread_writes at 1, chunk_start. rewrite enum_app. f_equal. unfold zlen in Hc.
      destruct (decide (CHUNK_SIZE <= len - Z.of_nat i * CHUNK_SIZE)); [f_equal; lia|].
      assert (concat (chunk_data len <$> (Z.of_nat <$> seq (S i) n)) = []) as ->; [|done].
      apply zlen_0_inv. rewrite Hlen. lia.
Qed.

Lemma all_writes_eq len : 0 <= len -> all_writes len = enum 0 (generated len) /\ zlen (generated len) = len.
Proof.
  intros Hl. pose proof CHUNK_SIZE_pos. assert (0 <= div_ceil len CHUNK_SIZE).
  { unfold div_ceil. apply Z.div_pos; lia. }
  destruct (threads_tile len (Z.to_nat (div_ceil len CHUNK_SIZE)) 0) as [H1 H2]; [lia|done|].
  unfold all_writes, generated, threads. rewrite H2, H1. unfold chunk_start. split; [done|lia].
Qed.

(** Writes to distinct places inside the mapping succeed, in any order, and
    each of them stays. *)
Lemma stores_lookup sched : forall mmap, NoDup sched.*1 -> Forall (fun w => (w.1 < length mmap)%nat) sched ->
  exists m, stores sched mmap = Some m /\ length m = length mmap /\
    (forall k, k ∉ sched.*1 -> m !! k = mmap !! k) /\ (forall k b, (k, b) ∈ sched -> m !! k = Some b).
Proof.
  induction sched as [|[k0 b0] sched IH]; intros mmap Hnd Hin.
  - exists mmap. split_and!; [done..|]. by intros k b ?%elem_of_nil.
  - apply Forall_cons in Hin as [Hk Hin]. apply NoDup_cons in Hnd as [Hk0 Hnd]. simpl in *.
    destruct (IH (<[k0 := b0]> mmap)) as (m & Hm & Hl & Hrest & Hw).
    { done. }
    { eapply Forall_impl; [exact Hin|]. intros w. by rewrite length_insert. }
    exists m. unfold store. simpl. rewrite decide_True by done. split_and!.
    + exact Hm.
    + by rewrite Hl, length_insert.
    + intros k [Hne Hk']%not_elem_of_cons. rewrite Hrest by done. by rewrite list_lookup_insert_ne.
    + intros k b [[= -> ->]|Hkb]%elem_of_cons; [|by apply Hw].
      rewrite Hrest by done. by apply list_lookup_insert_eq.
Qed.

Lemma stores_any_order len sched mmap : 0 <= len -> zlen mmap = len -> sched ≡ₚ all_writes len ->
  stores sched mmap = Some (generated len).
Proof.
  intros Hl Hm Hs. destruct (all_writes_eq len Hl) as [Hw Hg]. rewrite Hw in Hs.
  assert (length (generated len) = length mmap) as Hlen by (unfold zlen in *; lia).
  assert (NoDup sched.*1) as Hnd by (rewrite Hs, enum_offsets; apply NoDup_seq).
  destruct (stores_lookup sched mmap Hnd) as (m & -> & Hlm & _ & Hlook).
  { apply Forall_forall. intros w Hin. rewrite <- Hlen.
    assert (w.1 ∈ sched.*1) as H by (by apply list_elem_of_fmap_2).
    rewrite Hs, enum_offsets, elem_of_seq in H. lia. }
  f_equal. apply list_eq. intros k. destruct (generated len !! k) as [b|] eqn:E.
  - apply Hlook. rewrite Hs. by apply enum_in.
  - apply lookup_ge_None in E. apply lookup_ge_None. lia.
Qed.

(** (C39) The generator makes the file it announces, however its threads are
    scheduled. No two threads write the same byte and none writes outside the
    mapping, so the raw slices are sound; for every interleaving of their
    writes the file has exactly the size asked for and is the threads' pieces
    in order, no other file changes, and the hash printed is the hash of the
    file, the one [file_hasher] computes. *)
Theorem dummy_file_whatever_schedule {SHL : Sha2Laws} (sched : list (nat * byte)) (prog size path : string)
    (rest : list string) (size_mb : Z) (v : View) (f : fs) (short : Z -> Z) :
  let len := size_mb * 1024 * 1024 in
  let p := as_path path in
  parse_usize size = Ok size_mb -> 0 < len < 2 ^ 63 ->
  allocate len = Ok tt -> map_mut len = Ok tt -> create_file (h_fs (v_host v)) p = Ok f ->
  sched ≡ₚ all_writes len ->
  (NoDup (all_writes len).*1 /\ Forall (fun w => Z.of_nat w.1 < len) (all_writes len)) /\
  exists data h, zlen data = len /\
    exec (main sched (prog :: size :: path :: rest)) v (Done (Some h))
      (v_set_fs (<[p := File data]> (h_fs (v_host v))) v) /\
    data = concat (chunk_data len <$> threads len) /\
    file_hasher short (<[p := File data]> (h_fs (v_host v))) p = Ok h.
Proof.
  intros len p Hsz Hlen Ha Hm Hf Hs. destruct (all_writes_eq len) as [Hw Hg]; [lia|].
  assert (size_in_bytes size_mb = len) as Hb.
  { unfold size_in_bytes. fold len. apply Z.mod_small. unfold U64_MOD. lia. }
  apply create_file_ok in Hf as Hf'. destruct Hf' as (Ef & _ & Hp & _). split.
  - rewrite Hw, enum_offsets. split; [apply NoDup_seq|]. apply Forall_forall. intros w Hin.
    assert (w.1 ∈ (enum 0 (generated len)).*1) as H by (by apply list_elem_of_fmap_2).
    rewrite enum_offsets, elem_of_seq in H. unfold zlen in Hg. lia.
  - exists (generated len), (encode (sha256_digest (generated len))). split; [done|]. split; [|split; [done|]].
    + unfold main. estep exec_lift_result; [exact Hsz|]. cbv zeta. rewrite Hb. fold p.
      estep exec_fs_op; [exact Hf|].
      estep exec_fs_op.
      { cbn. rewrite Ef. unfold set_len. rewrite (proj2 (Z.leb_gt _ _)) by lia. by rewrite lookup_insert_eq. }
      estep exec_lift_result; [exact Ha|]. estep exec_lift_result; [exact Hm|].
      estep exec_gets_fs. cbn [v_set_host v_host h_fs set_fs].
      estep exec_lift_result.
      { unfold read_file. rewrite lookup_node_nonempty by done. by rewrite lookup_insert_eq. }
      estep exec_lift.
      { rewrite (stores_any_order len) by (done || lia || (apply zlen_resize; lia)). reflexivity. }
      cbn match. estep exec_fs_op; [reflexivity|].
      rewrite sha256_digest_streaming. eapply exec_to; [apply exec_ret|].
      unfold v_set_fs, v_set_host. cbn. by rewrite !insert_insert_eq.
    + apply file_hasher_eq. unfold read_file. rewrite lookup_node_nonempty by done. by rewrite lookup_insert_eq.
Qed.
End Dummy.

(** * 200 MiB, two threads, written backwards *)
Module DummyWitness.
Import Toy AuthWitness.

Definition zero_fill (i n : Z) : bytes := zeros n.
Definition in_home_dir (s : string) : path := home ++ [s].
Definition backwards : list (nat * byte) := reverse (all_writes zero_fill (200 * 1024 * 1024)).

Lemma dummy_file_whatever_schedule_witness : exists data h, zlen data = 200 * 1024 * 1024 /\
  exec (main (fun _ => Ok tt) (fun _ => Ok tt) in_home_dir backwards ["dummy_gen"; "200"; "out.bin"]%string)
    (demo_view []) (Done (Some h)) (v_set_fs (<[in_home_dir "out.bin" := File data]> demo_fs) (demo_view [])).
Proof.
  destruct (dummy_file_whatever_schedule (fun _ => Ok tt) (fun _ => Ok tt) zero_fill in_home_dir
    (fun i n => zlen_zeros n) backwards "dummy_gen" "200" "out.bin" [] 200 (demo_view [])
    (<[in_home_dir "out.bin" := File []]> demo_fs) (fun n => n)) as [_ (data & h & Hl & He & _)].
  - reflexivity.
  - split; reflexivity.
  - reflexivity.
  - reflexivity.
  - vm_refl.
  - unfold backwards. apply reverse_Permutation.
  - exists data, h. split; [exact Hl|exact He].
Defined.
End DummyWitness.
