(* ===== verification/Tests.v ===== *)
(** The unit tests inside src/crypto.rs and src/layer.rs, as programs: they pass
    whatever the random generator yields, but for one that compares two random
    files. *)
From S2P Require Import Prelude External FileSys Lib World Exec Crypto Sample Handshake Auth Transfer Layer.

(** [assert!] and [assert_eq!]. *)
Definition check (b : bool) : M unit := lift (if b then Done tt else Panic).
Definition check_eq {A} `{EqDecision A} (a b : A) : M unit := check (bool_decide (a = b)).

(** [r.unwrap()]: panics on an error. *)
Definition unwrap {A} (m : M A) : M A :=
  let* r := try_ m in match r with Ok a => ret a | Err _ => lift Panic end.

Lemma check_true b w : b = true -> check b w = (Done tt, w).
Proof. by intros ->. Qed.
Lemma check_eq_refl {A} `{EqDecision A} (a : A) w : check_eq a a w = (Done tt, w).
Proof. apply check_true. by apply bool_decide_eq_true. Qed.

(** * src/crypto.rs *)

Section CryptoTests.
Context {AG : AesGcm}.

Definition TEST_DATA : Z := 64 * 1024 * 1024.

Definition crypto_test : M unit :=
  let* key := fill_bytes 32 in
  let* data := fill_bytes TEST_DATA in
  let* encrypted := encrypt_data data key in
  check_eq (zlen encrypted) (zlen data + NONCE_LEN + TAG_LEN) ;;;
  let* decrypted := lift (decrypt_data encrypted key) in
  check_eq decrypted data ;;;
  let data := [] in
  let* encrypted := encrypt_data data key in
  check_eq (zlen encrypted) (NONCE_LEN + TAG_LEN) ;;;
  let* decrypted := lift (decrypt_data encrypted key) in
  check (bool_decide (decrypted = [])).

Definition crypto_in_place_test : M unit :=
  let* key := fill_bytes 32 in
  let* data := fill_bytes TEST_DATA in
  let encrypted_buf := zeros (NONCE_LEN + zlen data + TAG_LEN) in
  let* (encrypted_buf, _) := encrypt_into data encrypted_buf key in
  check_eq (zlen encrypted_buf) (zlen data + NONCE_LEN + TAG_LEN) ;;;
  let decrypted_buf := zeros (zlen data) in
  let* (decrypted_buf, _) := lift (decrypt_into encrypted_buf decrypted_buf key) in
  check_eq decrypted_buf data ;;;
  let empty := [] in
  let encrypted_buf := zeros (NONCE_LEN + TAG_LEN) in
  let* (encrypted_buf, _) := encrypt_into empty encrypted_buf key in
  check_eq (zlen encrypted_buf) (NONCE_LEN + TAG_LEN) ;;;
  let decrypted_buf := zeros (zlen encrypted_buf) in
  let* (decrypted_buf, plaintext_len) := lift (decrypt_into encrypted_buf decrypted_buf key) in
  check_eq plaintext_len 0.

Context {AGL : AesGcmLaws}.

Lemma TEST_DATA_fits : 0 <= TEST_DATA <= P_MAX.
Proof. unfold TEST_DATA, P_MAX. lia. Qed.
#[local] Opaque TEST_DATA.

(** A generator that is asked twice. *)
Lemma key_and_data {A} n (k : bytes -> bytes -> M A) w : 0 <= n ->
  exists key data w', zlen key = 32 /\ zlen data = n /\
    (let* key := fill_bytes 32 in let* data := fill_bytes n in k key data) w = k key data w'.
Proof.
  intros Hn. eexists _, _, _. split_and!; [..|reflexivity]; by apply next_random_len.
Qed.

(** Data that is encrypted into a vector, then decrypted. *)
Lemma vector_round_trip {A} data key (k : bytes -> M A) w n : zlen key = 32 -> zlen data <= P_MAX ->
  n = NONCE_LEN + zlen data + TAG_LEN ->
  exists w', (let* encrypted := encrypt_data data key in
    check_eq (zlen encrypted) n ;;; let* decrypted := lift (decrypt_data encrypted key) in k decrypted) w = k data w'.
Proof.
  intros Hk Hd ->. destruct (next_packet data key w Hk Hd) as (pkt & Hs & Hsd & Hl). eexists.
  rewrite (bind_done _ _ _ _ _ (encrypt_data_sealed _ _ _ _ Hs)).
  rewrite Hl. rewrite (bind_done _ _ _ _ _ (check_eq_refl _ _)).
  rewrite (decrypt_data_sealed _ _ _ Hsd). reflexivity.
Qed.

(** The same through buffers, the first of the packet's exact length. *)
Lemma buffer_round_trip {A} data key out (k : bytes * Z -> M A) w nb n : zlen key = 32 -> zlen data <= P_MAX ->
  nb = NONCE_LEN + zlen data + TAG_LEN -> n = nb -> zlen data <= out nb ->
  exists w', (let* (encrypted_buf, _) := encrypt_into data (zeros nb) key in
    check_eq (zlen encrypted_buf) n ;;;
    let* r := lift (decrypt_into encrypted_buf (zeros (out (zlen encrypted_buf))) key) in k r) w =
    k (data ++ zdrop (zlen data) (zeros (out nb)), zlen data) w'.
Proof.
  intros Hk Hd -> -> Ho. destruct (next_packet data key w Hk Hd) as (pkt & Hs & Hsd & Hl). eexists.
  pose proof (zlen_nonneg data). assert (0 <= NONCE_LEN + zlen data + TAG_LEN) as Hn by (unfold NONCE_LEN, TAG_LEN; lia).
  rewrite (bind_done _ _ _ _ _ (encrypt_into_exact _ _ _ _ _ (zlen_zeros _ Hn) Hs)).
  rewrite Hl. rewrite (bind_done _ _ _ _ _ (check_eq_refl _ _)).
  rewrite (decrypt_into_sealed _ _ _ (zeros (out (NONCE_LEN + zlen data + TAG_LEN))) Hsd) by (rewrite zlen_zeros; lia).
  reflexivity.
Qed.

(** The two tests of src/crypto.rs pass whatever the generator yields: 64
    MiB of random data, and no data, come back from encryption and decryption,
    in vectors and in buffers of exactly the packet's length, with the lengths
    the tests expect. *)
Theorem crypto_tests_pass (w : World) :
  (crypto_test w).1 = Done tt /\ (crypto_in_place_test w).1 = Done tt.
Proof.
  pose proof TEST_DATA_fits as Hmax.
  assert (zlen (@nil byte) <= P_MAX) as Hnil by (unfold P_MAX; rewrite zlen_nil; lia).
  split; [unfold crypto_test|unfold crypto_in_place_test];
    match goal with |- (bind _ (fun key => bind _ (fun data => @?k key data)) _).1 = _ =>
      destruct (key_and_data TEST_DATA k w (proj1 Hmax)) as (key & data & w0 & Hk & Hd & ->)
    end.
  - edestruct (vector_round_trip (A := unit) data key) as [w1 ->]; [done|lia|lia|].
    rewrite (bind_done _ _ _ _ _ (check_eq_refl _ _)).
    edestruct (vector_round_trip (A := unit) [] key) as [w2 ->]; [done|done|done|]. done.
  - edestruct (buffer_round_trip (A := unit) data key (fun _ => zlen data)) as [w1 ->]; [done|lia|done|lia|lia|].
    cbn match. rewrite zdrop_ge, app_nil_r by (rewrite zlen_zeros; [lia|apply zlen_nonneg]).
    rewrite (bind_done _ _ _ _ _ (check_eq_refl _ _)).
    edestruct (buffer_round_trip (A := unit) [] key (fun n => n)) as [w2 ->]; [done|done|done|done|done|]. done.
Qed.
End CryptoTests.

(** * src/layer.rs *)

Section LayerTests.
Context {HX : Hex} {SH : Sha2}.
Variable short : Z -> Z.
(** The directory the tests run in. *)
Variable cwd : path.

Definition TEST_FILE : Z := 256 * 1024 * 1024.

(** [BufReader::new(File::open(name).await.unwrap())]: what it will read. *)
Definition open_file (name : string) : M bytes :=
  unwrap (let* r := gets_fs (fun f => read_file f (cwd ++ [name])) in lift_result r).
Definition hash_of (name : string) : M string :=
  unwrap (let* r := gets_fs (fun f => file_hasher short f (cwd ++ [name])) in lift_result r).
Definition put_file (name : string) (data : bytes) : M unit :=
  unwrap (fs_op (fun f => write_file f (cwd ++ [name]) data)).
Definition drop_file (name : string) : M unit := unwrap (fs_op (fun f => remove_file f (cwd ++ [name]))).

(** [b.wrapping_add(1)] on the first [n] bytes. *)
Definition bump (n : Z) (data : bytes) : bytes :=
  map (fun b => byte_of_Z (byte_to_Z b + 1)) (ztake n data) ++ zdrop n data.

Definition is_empty {A} (l : list A) : bool := match l with [] => true | _ => false end.
Definition sum_len (layers : list Layer) : Z := foldr (fun l n => zlen (l_data l) + n) 0 layers.

Definition test_layering : M unit :=
  let* file1 := fill_bytes TEST_FILE in
  let file2 := bump 1024 file1 in
  put_file "old.tmp" file1 ;;;
  put_file "new.tmp" file2 ;;;
  let* buf_file := open_file "old.tmp" in
  let* old_layers_meta := unwrap (lift (read_file_layer buf_file)) in
  let* _ := hash_of "old.tmp" in
  check (negb (is_empty old_layers_meta)) ;;;
  let* buf_file := open_file "new.tmp" in
  let* new_layers_meta := unwrap (lift (read_file_layer buf_file)) in
  let* _ := hash_of "new.tmp" in
  check (negb (is_empty new_layers_meta)) ;;;
  drop_file "old.tmp" ;;;
  drop_file "new.tmp".

Definition experimental_layer_test : M unit :=
  let* file_data := fill_bytes TEST_FILE in
  put_file "old.bin" file_data ;;;
  let* buf_file := open_file "old.bin" in
  let* old_hash := hash_of "old.bin" in
  let* old_layers := unwrap (lift (to_layers short buf_file)) in
  check (negb (is_empty old_layers)) ;;;
  check_eq (sum_len old_layers) (zlen file_data) ;;;
  let* old_layers := unwrap (from_layers old_layers (cwd ++ ["reconstructed.bin"%string])) in
  let* reconstructed_hash := hash_of "reconstructed.bin" in
  check_eq old_hash reconstructed_hash ;;;
  drop_file "reconstructed.bin" ;;;
  let* file_data := fill_bytes (zlen file_data) in
  put_file "new.bin" file_data ;;;
  let* buf_file := open_file "new.bin" in
  let* new_layers := unwrap (lift (to_layers short buf_file)) in
  let changed_layers := compare_layers old_layers new_layers in
  check (negb (is_empty changed_layers)) ;;;
  check_eq (sum_len changed_layers) (zlen file_data) ;;;
  drop_file "old.bin" ;;;
  drop_file "new.bin".

Lemma exec_unwrap {A} (m : M A) v a v' : exec m v (Done a) v' -> exec (unwrap m) v (Done a) v'.
Proof. intros H. unfold unwrap. estep exec_try; [exact H|]. apply exec_ret. Qed.

Lemma exec_check b v : b = true -> exec (check b) v (Done tt) v.
Proof. intros ->. by apply exec_lift. Qed.
Lemma exec_check_eq {A} `{EqDecision A} (a b : A) v : a = b -> exec (check_eq a b) v (Done tt) v.
Proof. intros ->. apply exec_check. by apply bool_decide_eq_true. Qed.

#[local] Abbreviation here name := (cwd ++ [name%string]).

Lemma here_ne (name : string) : cwd ++ [name] <> [].
Proof. by destruct cwd. Qed.

Context {SHL : Sha2Laws}.

Section Files.
Context (v : View) (name : string) (data : bytes).
Let f := h_fs (v_host v).

Lemma exec_put : lookup_node f cwd = Some Dir -> f !! here name <> Some Dir ->
  exec (put_file name data) v (Done tt) (v_set_fs (<[here name := File data]> f) v).
Proof.
  intros Hd Hf. apply exec_unwrap, exec_fs_op. apply write_file_total; [apply here_ne|by rewrite parent_snoc|done].
Qed.

Hypothesis Hf : f !! here name = Some (File data).

Lemma read_here : read_file f (here name) = Ok data.
Proof. unfold read_file. rewrite lookup_node_nonempty by apply here_ne. by rewrite Hf. Qed.

Lemma exec_open : exec (open_file name) v (Done data) v.
Proof. apply exec_unwrap. estep exec_gets_fs. apply exec_lift_result, read_here. Qed.

Lemma exec_hash : exec (hash_of name) v (Done (encode (sha256_digest data))) v.
Proof. apply exec_unwrap. estep exec_gets_fs. apply exec_lift_result, file_hasher_eq, read_here. Qed.

Lemma exec_drop : exec (drop_file name) v (Done tt) (v_set_fs (delete (here name) f) v).
Proof.
  apply exec_unwrap, exec_fs_op. unfold remove_file. fold f. rewrite lookup_node_nonempty by apply here_ne. by rewrite Hf.
Qed.
End Files.

Lemma TEST_FILE_size : 0 < TEST_FILE < U64_MOD.
Proof. unfold TEST_FILE, U64_MOD. lia. Qed.
#[local] Opaque TEST_FILE.

Lemma sum_len_concat ls : sum_len ls = zlen (concat (l_data <$> ls)).
Proof. induction ls as [|l ls IH]; [done|]. cbn. by rewrite zlen_app, <- IH. Qed.
Lemma sum_len_layers data : sum_len (layers_of data) = zlen data.
Proof. by rewrite sum_len_concat, layers_of_concat. Qed.
Lemma layers_nonempty data : 0 < zlen data -> negb (is_empty (layers_of data)) = true.
Proof. rewrite <- sum_len_layers. by destruct (layers_of data). Qed.
Lemma metas_nonempty data : 0 < zlen data -> negb (is_empty (layer_meta <$> layers_of data)) = true.
Proof. intros H%layers_nonempty. by destruct (layers_of data). Qed.

Lemma bump_len n data : zlen (bump n data) = zlen data.
Proof.
  unfold bump. rewrite zlen_app. rewrite <- (ztake_zdrop n data) at 3. rewrite zlen_app.
  f_equal. unfold zlen. by rewrite length_map.
Qed.

(** Layers that all differ from the other version's are all sent. *)
Lemma compare_layers_all src des : (forall l, l ∈ src -> existsb (same_layer l) des = false) ->
  compare_layers src des = src.
Proof.
  induction src as [|l src IH]; intros H; [done|]. cbn [compare_layers]. rewrite H by set_solver. simpl.
  f_equal. apply IH. intros l' Hl. apply H. set_solver.
Qed.

(** The directory exists and the tests' files do not. *)
Record clean (f : fs) (names : list string) : Prop := {
  cn_dir : lookup_node f cwd = Some Dir;
  cn_free : Forall (fun n => f !! here n = None) names;
}.

Lemma here_inj (a b : string) : here a = here b -> a = b.
Proof. intros H%app_inv_head. by injection H. Qed.

Lemma cwd_kept f (name : string) n : lookup_node f cwd = Some Dir -> lookup_node (<[here name := n]> f) cwd = Some Dir.
Proof.
  intros H. rewrite lookup_node_insert by apply here_ne. rewrite decide_False; [done|].
  intros E%(f_equal length). rewrite length_app in E. simpl in E. lia.
Qed.
Lemma cwd_kept_delete f (name : string) : f !! here name <> Some Dir ->
  lookup_node f cwd = Some Dir -> lookup_node (delete (here name) f) cwd = Some Dir.
Proof.
  intros Hf H. destruct cwd as [|c p] eqn:E; [done|]. rewrite lookup_node_nonempty in * by done.
  rewrite lookup_delete_ne; [done|]. intros E'%(f_equal length). rewrite length_app in E'. simpl in E'. lia.
Qed.

Ltac other_file := rewrite lookup_insert_ne by (intros E%here_inj; discriminate E).

Definition test_names : list string := ["old.tmp"; "new.tmp"; "old.bin"; "new.bin"; "reconstructed.bin"]%string.

Lemma random_file_len v : zlen (v_random TEST_FILE v) = TEST_FILE.
Proof. apply v_random_len. pose proof TEST_FILE_size. lia. Qed.

Lemma exec_test_layering (v : View) :
  let f := h_fs (v_host v) in clean f test_names ->
  exists v', exec test_layering v (Done tt) v' /\ h_fs (v_host v') = f.
Proof.
  intros f [Hcwd Hfree]. repeat (apply Forall_cons in Hfree as [? Hfree]).
  pose proof TEST_FILE_size as Hsz.
  set (d1 := v_random TEST_FILE v). set (d2 := bump 1024 d1).
  assert (zlen d1 = TEST_FILE /\ zlen d2 = TEST_FILE) as [Hd1 Hd2]
    by (split; [apply random_file_len|unfold d2; rewrite bump_len; apply random_file_len]).
  eexists. split.
  - unfold test_layering. estep exec_fill_bytes. cbv zeta. fold d1 d2. fold (v_later TEST_FILE v).
    estep exec_put; [done|cbn; fold f; by rewrite H|].
    estep exec_put; [by apply cwd_kept|cbn; other_file; fold f; by rewrite H0|].
    estep exec_open; [cbn; other_file; by rewrite lookup_insert_eq|].
    estep exec_unwrap; [apply exec_lift, read_file_layers; lia|].
    estep exec_hash; [cbn; other_file; by rewrite lookup_insert_eq|].
    estep exec_check; [apply metas_nonempty; lia|].
    estep exec_open; [cbn; by rewrite lookup_insert_eq|].
    estep exec_unwrap; [apply exec_lift, read_file_layers; lia|].
    estep exec_hash; [cbn; by rewrite lookup_insert_eq|].
    estep exec_check; [apply metas_nonempty; lia|].
    estep exec_drop; [cbn; other_file; by rewrite lookup_insert_eq|].
    eapply exec_drop. cbn. rewrite lookup_delete_ne by (intros E%here_inj; discriminate E).
    by rewrite lookup_insert_eq.
  - cbn. rewrite delete_delete. rewrite delete_insert_id; [|by other_file].
    by rewrite delete_insert_id.
Qed.

(** No layer of the first random file is a layer of the second. *)
Definition no_common_layer (v : View) : Prop := forall l, l ∈ layers_of (v_random TEST_FILE v) ->
  existsb (same_layer l) (layers_of (v_random TEST_FILE (v_later TEST_FILE v))) = false.

Lemma exec_experimental_layer_test (v : View) :
  let f := h_fs (v_host v) in clean f test_names -> no_common_layer v ->
  exists v', exec experimental_layer_test v (Done tt) v' /\ h_fs (v_host v') = f.
Proof.
  intros f [Hcwd Hfree]. repeat (apply Forall_cons in Hfree as [? Hfree]).
  pose proof TEST_FILE_size as Hsz.
  intros Hdiff. set (d1 := v_random TEST_FILE v) in *. set (d2 := v_random TEST_FILE (v_later TEST_FILE v)) in *.
  assert (zlen d1 = TEST_FILE /\ zlen d2 = TEST_FILE) as [Hd1 Hd2] by (split; apply random_file_len).
  set (fo := <[here "old.bin" := File d1]> f). set (fr := <[here "reconstructed.bin" := File d1]> fo).
  assert (delete (here "reconstructed.bin") fr = fo) as Hdel.
  { unfold fr. apply delete_insert_id. unfold fo. other_file. exact H3. }
  eexists. split.
  - unfold experimental_layer_test. estep exec_fill_bytes. fold d1. fold (v_later TEST_FILE v).
    estep exec_put; [done|cbn; fold f; by rewrite H1|].
    estep exec_open; [cbn; by rewrite lookup_insert_eq|].
    estep exec_hash; [cbn; by rewrite lookup_insert_eq|].
    estep exec_unwrap; [apply exec_lift, to_layers_eq; [apply _|lia]|].
    estep exec_check; [apply layers_nonempty; lia|].
    estep exec_check_eq; [apply sum_len_layers|].
    eapply exec_bind.
    { eapply exec_unwrap, exec_from_layers, create_file_total; [apply here_ne| |].
      - rewrite parent_snoc. by apply cwd_kept.
      - cbn. other_file. fold f. by rewrite H3. }
    rewrite (sort_layers d1) by done. rewrite layers_of_concat. cbn. fold f fo fr.
    estep exec_hash; [cbn; unfold fr; by rewrite lookup_insert_eq|].
    estep exec_check_eq; [done|].
    estep exec_drop; [cbn; unfold fr; by rewrite lookup_insert_eq|].
    change (h_fs (v_host (v_set_fs fr ?w))) with fr. rewrite Hdel.
    change (v_set_fs fo (v_set_fs fr (v_set_fs fo ?w))) with (v_set_fs fo w).
    rewrite Hd1. estep exec_fill_bytes. change (v_random TEST_FILE (v_set_fs fo ?w)) with (v_random TEST_FILE w).
    fold d2. set (v2 := v_set_pos _ _). assert (h_fs (v_host v2) = fo) as Hv2 by done.
    estep exec_put; [rewrite Hv2; by apply cwd_kept|rewrite Hv2; unfold fo; other_file; by rewrite H2|].
    rewrite Hv2. estep exec_open; [cbn; by rewrite lookup_insert_eq|].
    estep exec_unwrap; [apply exec_lift, to_layers_eq; [apply _|lia]|]. cbv zeta.
    rewrite compare_layers_all by exact Hdiff.
    estep exec_check; [apply layers_nonempty; lia|].
    estep exec_check_eq; [exact (eq_trans (sum_len_layers d1) (eq_trans Hd1 (eq_sym Hd2)))|].
    estep exec_drop; [cbn; other_file; unfold fo; by rewrite lookup_insert_eq|].
    eapply exec_drop. cbn. rewrite lookup_delete_ne by (intros E%here_inj; discriminate E).
    by rewrite lookup_insert_eq.
  - cbn. rewrite delete_delete. rewrite delete_insert_id; [unfold fo; by rewrite delete_insert_id|].
    unfold fo. by other_file.
Qed.

(** The tests of src/layer.rs pass and clean up after themselves.
    [test_layering] does whatever the generator yields, in a directory without
    its files: the disk is as before. [experimental_layer_test] does when the
    two random files it makes have no layer in common, at the same place with
    the same hash, which is what it takes for granted. *)
Theorem layer_tests_pass (v : View) :
  let f := h_fs (v_host v) in
  clean f test_names ->
  (exists v', exec test_layering v (Done tt) v' /\ h_fs (v_host v') = f) /\
  (no_common_layer v -> exists v', exec experimental_layer_test v (Done tt) v' /\ h_fs (v_host v') = f).
Proof. intros f Hf. split; [by apply exec_test_layering|by apply exec_experimental_layer_test]. Qed.
End LayerTests.

(** * Concrete runs *)
Module TestsWitness.
Import Toy AuthWitness TransferWitness.

Definition a_packet : bytes := packet_of [Byte.x01; Byte.x02].

Lemma decryptions_agree_witness :
  match decrypt_data a_packet demo_key with
  | Done p => decrypt_into a_packet (zeros 5) demo_key = Done (p ++ zdrop (zlen p) (zeros 5), zlen p)
  | Throw _ => exists e, decrypt_into a_packet (zeros 5) demo_key = Throw e
  | Panic | Hang => False
  end.
Proof. apply (decryptions_agree a_packet (zeros 5) demo_key). vm_compute. discriminate. Defined.

Lemma encryptions_agree_witness : exists pkt w',
  encrypt_data abc demo_key (world_of (demo_view [])) = (Done pkt, w') /\ decrypt_data pkt demo_key = Done abc.
Proof.
  destruct (encryptions_agree abc demo_key (world_of (demo_view []))) as (pkt & w' & He & _ & _ & Hd & _).
  - reflexivity.
  - vm_compute. discriminate.
  - exists pkt, w'. split; [exact He|exact Hd].
Defined.

(** A generator that yields zeros for the first [n] bytes and ones after them. *)
Definition two_tape (n : Z) (i : nat) : byte := if Z.of_nat i <? n then Byte.x00 else Byte.x01.
Definition view_of_tape (n : Z) : View :=
  {| v_in := []; v_end := ReadEof; v_pend := []; v_out := []; v_shut := false;
     v_tape := two_tape n; v_pos := 0; v_host := demo_host |}.

Lemma random_all c n v : (forall i, (v_pos v <= i < v_pos v + Z.to_nat n)%nat -> v_tape v i = c) ->
  Forall (fun b => b = c) (v_random n v).
Proof.
  intros H. apply Forall_forall. intros b (i & -> & Hi%elem_of_seq)%list_elem_of_fmap. apply H. lia.
Qed.

Lemma first_zeros n : Forall (fun b => b = Byte.x00) (v_random n (view_of_tape n)).
Proof.
  apply random_all. simpl. intros i [_ Hi]. unfold two_tape. by rewrite (proj2 (Z.ltb_lt _ _)) by lia.
Qed.
Lemma then_ones n : 0 <= n -> Forall (fun b => b = Byte.x01) (v_random n (v_later n (view_of_tape n))).
Proof.
  intros Hn. apply random_all. simpl. intros i [Hi _]. unfold two_tape. by rewrite (proj2 (Z.ltb_ge _ _)) by lia.
Qed.

Definition two_view : View := view_of_tape TEST_FILE.
Lemma first_file_zeros : Forall (fun b => b = Byte.x00) (v_random TEST_FILE two_view).
Proof. exact (first_zeros TEST_FILE). Qed.
Lemma second_file_ones : Forall (fun b => b = Byte.x01) (v_random TEST_FILE (v_later TEST_FILE two_view)).
Proof. exact (then_ones TEST_FILE (Z.lt_le_incl _ _ (proj1 TEST_FILE_size))). Qed.

(** The hash of a layer of a constant file tells the constant. *)
Lemma layer_head c data l : Forall (fun b => b = c) data -> l ∈ layers_of data ->
  exists d, hash (layer_meta l) = encode (sha256_digest (c :: d)).
Proof.
  intros Hc (Hh & Hne & Hsub)%layer_part. destruct (l_data l) as [|b d]; [done|]. exists d.
  rewrite Forall_forall in Hc. rewrite <- (Hc b); [done|]. apply Hsub. left.
Qed.

Lemma digest_first c d : sha256_digest (c :: d) !! 0%nat = Some c.
Proof. unfold sha256_digest, toy_sha2, pad, ztake. by rewrite lookup_take_lt by lia. Qed.
Lemma digest_head c d d' c' : sha256_digest (c :: d) = sha256_digest (c' :: d') -> c = c'.
Proof. intros H%(f_equal (fun l => l !! 0%nat)). rewrite !digest_first in H. by injection H. Qed.

Lemma two_files_differ : no_common_layer two_view.
Proof.
  intros l Hl. destruct (layer_head _ _ _ first_file_zeros Hl) as [d Hd].
  destruct (existsb _ _) eqn:E; [|done]. exfalso.
  apply existsb_exists in E as (l' & Hl'%list_elem_of_In & [_ Hh]%same_layer_iff).
  destruct (layer_head _ _ _ second_file_ones Hl') as [d' Hd']. rewrite Hd, Hd' in Hh.
  assert (forall a b, encode a = encode b -> a = b) as Hinj.
  { intros a b H%(f_equal decode). rewrite !decode_encode in H. by injection H. }
  apply Hinj, digest_head in Hh. done.
Qed.

Lemma layer_tests_pass_witness : exists v1 v2,
  exec (test_layering full_reads home) two_view (Done tt) v1 /\
  exec (experimental_layer_test full_reads home) two_view (Done tt) v2.
Proof.
  destruct (layer_tests_pass full_reads home two_view) as [(v1 & H1 & _) H2].
  - split; [reflexivity|]. repeat constructor.
  - destruct (H2 two_files_differ) as (v2 & He & _). exists v1, v2. split; [exact H1|exact He].
Defined.
End TestsWitness.
