(* ===== verification/Keys.v ===== *)
(** The two files a server and a client keep their Ed25519 keys in (hexadecimal
    text under their own directory), shared by src/bin/server.rs,
    src/bin/client.rs and the key statics of src/lib.rs. *)
From S2P Require Import Prelude External FileSys Lib World Exec Crypto Handshake.

Definition PRIVATE_KEY_FILE : string := "private_ed25519.key".
Definition PUBLIC_KEY_FILE : string := "public_ed25519.key".

(** [s.trim()]. *)
Definition trim_str (s : string) : string := String.string_of_list_byte (trim (as_bytes s)).

Definition read_text (p : path) : M string :=
  let* r := gets_fs (fun f => read_to_string f p) in lift_result r.

Section Keys.
Context {HX : Hex}.

(** [decode(hex.trim())?.try_into().map_err(..)]. *)
Definition key_of_hex (pre hex : string) : result bytes :=
  match decode (trim_str hex) with
  | Ok b => map_err pre (array_try_from 32 b)
  | Err e => Err e
  end.

(** The directory, then the two files. *)
Definition save_keys (dir : path) (pri_hex pub_hex : string) : M unit :=
  fs_op (fun f => create_dir_all f dir) ;;;
  fs_op (fun f => write_file f (join dir PRIVATE_KEY_FILE) (as_bytes pri_hex)) ;;;
  fs_op (fun f => write_file f (join dir PUBLIC_KEY_FILE) (as_bytes pub_hex)).

(** * The files of a pair *)

Definition private_path (dir : path) : path := dir ++ [PRIVATE_KEY_FILE].
Definition public_path (dir : path) : path := dir ++ [PUBLIC_KEY_FILE].

Lemma join_private dir : join dir PRIVATE_KEY_FILE = private_path dir.
Proof. done. Qed.
Lemma join_public dir : join dir PUBLIC_KEY_FILE = public_path dir.
Proof. done. Qed.

Lemma key_paths_differ dir : private_path dir <> public_path dir.
Proof. unfold private_path, public_path. intros [_ H]%app_inj_tail. discriminate H. Qed.

Lemma snoc_nonempty (dir : path) x : dir ++ [x] <> [].
Proof. by destruct dir. Qed.
#[local] Hint Resolve snoc_nonempty : core.

Record pair_at (f : fs) (dir : path) (pri pub : bytes) : Prop := {
  pa_private : f !! private_path dir = Some (File (as_bytes (encode pri)));
  pa_public : f !! public_path dir = Some (File (as_bytes (encode pub)));
  pa_private_len : zlen pri = 32;
  pa_public_len : zlen pub = 32;
}.

Lemma exists_true f p n : p <> [] -> f !! p = Some n -> exists_ f p = true.
Proof. intros Hp H. unfold exists_. rewrite lookup_node_nonempty, H by done. done. Qed.

Lemma exists_false f p : p <> [] -> f !! p = None -> exists_ f p = false.
Proof.
  intros Hp H. unfold exists_. rewrite lookup_node_nonempty, H by done.
  apply bool_decide_eq_false_2. by intros [].
Qed.

Lemma read_to_string_file f p b : p <> [] -> f !! p = Some (File b) ->
  read_to_string f p = Ok (String.string_of_list_byte b).
Proof. intros Hp H. unfold read_to_string, read_file. by rewrite lookup_node_nonempty, H by done. Qed.

Lemma exec_read_text p b v : p <> [] -> h_fs (v_host v) !! p = Some (File b) ->
  exec (read_text p) v (Done (String.string_of_list_byte b)) v.
Proof.
  intros Hp H. unfold read_text. estep exec_gets_fs. apply exec_lift_result. by apply read_to_string_file.
Qed.

Section Laws.
Context {HXL : HexLaws}.

Lemma drop_spaces_digits b : Forall (fun c => is_hex_digit c = true) b -> drop_spaces b = b.
Proof.
  intros [|x l Hx _]; [done|]. cbn [drop_spaces].
  assert (is_ascii_space x = false) as ->; [|done].
  unfold is_hex_digit, is_ascii_space in *. cbv zeta in *. destruct (byte_to_Z x =? 32) eqn:E; zbool; simpl; lia.
Qed.

Lemma trim_encode b : trim_str (encode b) = encode b.
Proof.
  unfold trim_str, trim. pose proof (encode_digits b) as Hd. rewrite (drop_spaces_digits _ Hd).
  rewrite drop_spaces_digits, rev_involutive; [apply String.string_of_list_byte_of_string|].
  by apply Forall_rev.
Qed.

(** A key file gives back the key. *)
Lemma key_of_hex_file pre key : zlen key = 32 ->
  key_of_hex pre (String.string_of_list_byte (as_bytes (encode key))) = Ok key.
Proof.
  intros Hk. unfold key_of_hex, as_bytes. rewrite String.string_of_list_byte_of_string.
  rewrite trim_encode, decode_encode. unfold array_try_from. by rewrite Hk.
Qed.

Lemma exec_save_keys dir pri pub f1 v : create_dir_all (h_fs (v_host v)) dir = Ok f1 ->
  f1 !! private_path dir <> Some Dir -> f1 !! public_path dir <> Some Dir ->
  exec (save_keys dir (encode pri) (encode pub)) v (Done tt)
    (v_set_fs (<[public_path dir := File (as_bytes (encode pub))]>
      (<[private_path dir := File (as_bytes (encode pri))]> f1)) v).
Proof.
  intros Hf Hpri Hpub. unfold save_keys.
  apply create_dir_all_ok in Hf as Hd. destruct Hd as [_ Hd%bool_decide_eq_true].
  estep exec_fs_op; [exact Hf|]. rewrite join_private, join_public.
  estep exec_fs_op; [apply write_file_total; [apply snoc_nonempty|by unfold private_path; rewrite parent_snoc|done]|].
  eapply exec_to; [apply exec_fs_op, write_file_total; [apply snoc_nonempty| |]|].
  - unfold public_path. rewrite parent_snoc. cbn [v_set_fs v_host v_set_host h_fs set_fs].
    rewrite lookup_node_insert by apply snoc_nonempty. rewrite decide_False; [done|].
    intros E%(f_equal length). unfold private_path in E. rewrite length_app in E. simpl in E. lia.
  - cbn [v_set_fs v_host v_set_host h_fs set_fs]. rewrite lookup_insert_ne by apply key_paths_differ. done.
  - done.
Qed.

Lemma saved_pair f1 dir pri pub : zlen pri = 32 -> zlen pub = 32 ->
  pair_at (<[public_path dir := File (as_bytes (encode pub))]>
    (<[private_path dir := File (as_bytes (encode pri))]> f1)) dir pri pub.
Proof.
  intros H1 H2. split; [|apply lookup_insert_eq|done|done].
  rewrite lookup_insert_ne by (intros E; by apply (key_paths_differ dir)). apply lookup_insert_eq.
Qed.

Lemma save_keys_wf f1 dir (a b : bytes) : fs_wf f1 -> lookup_node f1 dir = Some Dir ->
  f1 !! private_path dir <> Some Dir -> f1 !! public_path dir <> Some Dir ->
  fs_wf (<[public_path dir := File a]> (<[private_path dir := File b]> f1)).
Proof.
  intros Hwf Hd Hpri Hpub. assert (forall x, parent (dir ++ [x]) = dir) as Hp by apply parent_snoc.
  apply fs_wf_insert.
  - apply fs_wf_insert; auto; [apply snoc_nonempty|by unfold private_path; rewrite Hp].
  - apply snoc_nonempty.
  - unfold public_path. rewrite Hp, lookup_node_insert by apply snoc_nonempty. rewrite decide_False; [done|].
    intros E%(f_equal length). unfold private_path in E. rewrite length_app in E. simpl in E. lia.
  - right. by rewrite lookup_insert_ne by apply key_paths_differ.
Qed.

Section Generate.
Context {ED : Ed25519} {EDL : Ed25519Laws}.

Lemma exec_generate_ed25519 v :
  exec generate_ed25519_keypair v (Done (v_random 32 v, verifying_key (v_random 32 v))) (v_later 32 v).
Proof.
  unfold generate_ed25519_keypair. estep exec_fill_bytes.
  estep exec_lift_result; [by rewrite ed_verify_sign|]. apply exec_ret.
Qed.
End Generate.
End Laws.
End Keys.
