(* ===== verification/Serve.v ===== *)
(** The start of a server: src/bin/server.rs ([main]), src/service.rs
    ([serve_tcp]) and the key statics of src/lib.rs ([SERVER_PRI_KEY_BYTES],
    [SERVER_PUB_KEY_BYTES]) that the first handshake reads. *)
From S2P Require Import Prelude External FileSys Lib Users World Exec Crypto Sample Handshake Auth Keys.

(** [std::process::exit(1)] after its message: nothing in [main] catches an
    error, so it ends the process as an error returned from [main] does. *)
Definition exit_1 {A} (message : string) : M A := throw message.

Section Statics.
Context {HX : Hex}.

(** The two statics differ by the file and one word of their messages; an [Err]
    stands for the message with which they end the process. *)
Definition load_server_key (file what : string) (home : option path) (f : fs) : result bytes :=
  match get_server_key_dir home with
  | Err e => Err ("Failed to get server key directory: " +:+ e)
  | Ok dir =>
    match map_err ("Failed to read server " +:+ what +:+ " key: ") (read_to_string f (join dir file)) with
    | Err e => Err e
    | Ok key_hex =>
      match map_err ("Failed to decode server " +:+ what +:+ " key hex: ") (decode (trim_str key_hex)) with
      | Err e => Err e
      | Ok key => map_err ("Failed to convert server " +:+ what +:+ " key to 32 bytes: ") (array_try_from 32 key)
      end
    end
  end.

Definition SERVER_PUB_KEY_BYTES : option path -> fs -> result bytes := load_server_key PUBLIC_KEY_FILE "public".
Definition SERVER_PRI_KEY_BYTES : option path -> fs -> result bytes := load_server_key PRIVATE_KEY_FILE "private".

(** The statics of a server that started on this host; the first error ends
    the process. *)
Definition server_config (env : string -> option string) (h : Host) : result Config :=
  match SERVER_PRI_KEY_BYTES (h_home h) (h_fs h), SERVER_PUB_KEY_BYTES (h_home h) (h_fs h) with
  | Ok pri, Ok pub =>
    Ok {| enable_echo := ENABLE_ECHO env; enable_client_whitelist := ENABLE_CLIENT_WHITELIST env;
          max_connections := MAX_CONNECTIONS env; max_file_size := MAX_FILE_SIZE_GB env;
          connection_lifetime := CONNECTION_LIFETIME env;
          server_pri_key_bytes := pri; server_pub_key_bytes := pub |}
  | Err e, _ => Err e
  | _, Err e => Err e
  end.
End Statics.

Section Serve.
Context {HX : Hex} {ED : Ed25519}.
Variable env : string -> option string.

(** The keys of the ["v1"] arm of [main]. *)
Definition setup_server_keys : M unit :=
  let* home := gets (fun w => h_home (host w)) in
  let* key_path := lift_result (get_server_key_dir home) in
  let pri_key := join key_path PRIVATE_KEY_FILE in
  let pub_key := join key_path PUBLIC_KEY_FILE in
  let* pri_exists := gets_fs (fun f => exists_ f pri_key) in
  let* pub_exists := gets_fs (fun f => exists_ f pub_key) in
  if pri_exists && pub_exists then
    let* _ := read_text pub_key in ret tt
  else
    let* (new_pri, new_pub) := generate_ed25519_keypair in
    let new_pri_hex := encode new_pri in
    let new_pub_hex := encode (vk_to_bytes new_pub) in
    save_keys key_path (trim_str new_pri_hex) (trim_str new_pub_hex) ;;;
    let* _ := read_text pub_key in ret tt.

(** [serve_tcp] up to its call of [start_tcp_server], with the arguments of
    that call. *)
Definition serve_tcp (port : option Z) : M (Z * path) :=
  let port := match port with
              | Some port => port
              | None => env_parse env (parse_uint 65535) "PORT" 3000
              end in
  let* home := gets (fun w => h_home (host w)) in
  let* storage_path := lift_result (get_storage_dir home) in
  fs_op (fun f => create_dir_all f storage_path) ;;;
  let* authorised_client := lift_result (get_authorized_client_dir home) in
  fs_op (fun f => create_dir_all f authorised_client) ;;;
  ret (port, storage_path).

Inductive ServerCommands : Set :=
| Serve (port : Z) (protocol : string)
| Rotate.

(** [main], up to the accept loop it ends in; [None] prints the banner. *)
Definition server_main (command : option ServerCommands) : M (option (Z * path)) :=
  match command with
  | Some (Serve port protocol) =>
    if String.eqb protocol "v1" then
      setup_server_keys ;;; let* s := serve_tcp (Some port) in ret (Some s)
    else if String.eqb protocol "v2" then
      let* s := serve_tcp (Some port) in ret (Some s)
    else exit_1 ("Unknown protocol: " +:+ protocol)
  | Some Rotate => exit_1 "WIP: Key rotation is not implemented yet"
  | None => ret None
  end.

(** * Starting *)

Section Laws.
Context {HXL : HexLaws} {EDL : Ed25519Laws}.

Definition key_dir (home : path) : path := home ++ [".rdrive"; "server"]%string.

Lemma load_pair home f pri pub : pair_at f (key_dir home) pri pub ->
  SERVER_PRI_KEY_BYTES (Some home) f = Ok pri /\ SERVER_PUB_KEY_BYTES (Some home) f = Ok pub.
Proof.
  intros [Hpri Hpub Hl1 Hl2]. unfold SERVER_PRI_KEY_BYTES, SERVER_PUB_KEY_BYTES, load_server_key, get_server_key_dir, in_home.
  fold (key_dir home). rewrite join_private, join_public.
  rewrite (read_to_string_file _ (private_path _) _ (snoc_nonempty _ _) Hpri),
    (read_to_string_file _ (public_path _) _ (snoc_nonempty _ _) Hpub).
  cbn [map_err].
  unfold as_bytes. rewrite !String.string_of_list_byte_of_string, !trim_encode, !decode_encode. cbn [map_err].
  unfold array_try_from. by rewrite Hl1, Hl2.
Qed.

(** No file stands where a directory is needed. *)
Definition unobstructed (f : fs) (d : path) : Prop := forall k c, k ∈ prefixes d -> f !! k <> Some (File c).

Record can_start (home : path) (h : Host) : Prop := {
  cs_home : h_home h = Some home;
  cs_wf : fs_wf (h_fs h);
  cs_keys : unobstructed (h_fs h) (key_dir home);
  cs_storage : unobstructed (h_fs h) (storage_root home);
  cs_auth : unobstructed (h_fs h) (auth_root home);
  cs_private : h_fs h !! private_path (key_dir home) <> Some Dir;
  cs_public : h_fs h !! public_path (key_dir home) <> Some Dir;
}.

Lemma unobstructed_extends f f' d q : extends_with_dirs f f' q -> unobstructed f d -> unobstructed f' d.
Proof. intros [_ H] Hu k c Hk Hc. destruct (H _ _ Hc) as [|[? _]]; [by eapply Hu|done]. Qed.

Lemma unobstructed_insert f d p c : p ∉ prefixes d -> unobstructed f d -> unobstructed (<[p := File c]> f) d.
Proof.
  intros Hp Hu k c' Hk. rewrite lookup_insert_ne; [by apply Hu|]. by intros <-.
Qed.

Lemma file_extends f f' q p c : extends_with_dirs f f' q -> f !! p = Some (File c) -> f' !! p = Some (File c).
Proof. intros [H _]. apply H. Qed.

(** The directories [serve_tcp] creates leave every file where it is. *)
Lemma exec_serve_tcp home port v : h_home (v_host v) = Some home -> fs_wf (h_fs (v_host v)) ->
  unobstructed (h_fs (v_host v)) (storage_root home) -> unobstructed (h_fs (v_host v)) (auth_root home) ->
  exists f, exec (serve_tcp (Some port)) v (Done (port, storage_root home)) (v_set_fs f v) /\
    server_files home (set_fs f (v_host v)) /\
    (forall p c, h_fs (v_host v) !! p = Some (File c) -> f !! p = Some (File c)) /\
    (forall p n, f !! p = Some n -> h_fs (v_host v) !! p = Some n \/ n = Dir).
Proof.
  intros Hh Hwf Hs Ha.
  destruct (create_dirs_total _ _ Hs) as [f1 H1]. destruct (create_dir_all_ok _ _ _ H1) as [He1 Hd1].
  destruct (create_dirs_total _ _ (unobstructed_extends _ _ _ _ He1 Ha)) as [f2 H2].
  destruct (create_dir_all_ok _ _ _ H2) as [He2 Hd2].
  assert (storage_root home <> [] /\ auth_root home <> []) as [Hn1 Hn2] by (split; by destruct home).
  exists f2. split_and!.
  - unfold serve_tcp. estep (exec_gets h_home). rewrite Hh.
    estep exec_lift_result; [apply get_storage_dir_eq|]. estep exec_fs_op; [exact H1|].
    estep exec_lift_result; [apply get_authorized_client_dir_eq|]. estep exec_fs_op; [exact H2|].
    eapply exec_to; [apply exec_ret|done].
  - apply bool_decide_eq_true in Hd1, Hd2. split; [done| |done|].
    + eapply create_dir_all_wf; [|exact H2]. by eapply create_dir_all_wf.
    + cbn [set_fs h_fs]. rewrite lookup_node_nonempty in * by done. by apply (proj1 He2).
  - intros p c Hp. eapply file_extends; [exact He2|]. by eapply file_extends.
  - intros p n Hp. destruct (proj2 He2 _ _ Hp) as [H|[-> _]]; [|by right].
    destruct (proj2 He1 _ _ H) as [|[-> _]]; [by left|by right].
Qed.

Lemma exec_serve_tcp_again home port v : server_files home (v_host v) ->
  exec (serve_tcp (Some port)) v (Done (port, storage_root home)) v.
Proof.
  intros [Hh Hwf Ha Hs]. unfold serve_tcp. estep (exec_gets h_home). rewrite Hh.
  estep exec_lift_result; [apply get_storage_dir_eq|]. estep exec_fs_op; [by apply create_dir_all_existing|].
  estep exec_lift_result; [apply get_authorized_client_dir_eq|].
  eapply exec_bind; [apply exec_fs_op; by apply create_dir_all_existing|].
  eapply exec_to; [apply exec_ret|]. by destruct v as [? ? ? ? ? ? ? []].
Qed.

Lemma exec_setup_existing home pri pub v : h_home (v_host v) = Some home ->
  pair_at (h_fs (v_host v)) (key_dir home) pri pub -> exec setup_server_keys v (Done tt) v.
Proof.
  intros Hh [Hpri Hpub _ _]. unfold setup_server_keys. estep (exec_gets h_home). rewrite Hh.
  estep exec_lift_result; [done|]. cbv zeta. fold (key_dir home). rewrite join_private, join_public.
  estep exec_gets_fs. estep exec_gets_fs.
  rewrite (exists_true _ (private_path _) _ (snoc_nonempty _ _) Hpri), (exists_true _ (public_path _) _ (snoc_nonempty _ _) Hpub).
  cbn match. eapply exec_bind; [by apply exec_read_text; [apply snoc_nonempty|]|apply exec_ret].
Qed.

Lemma key_file_not_above home x d : d = "storage"%string \/ d = "authorized_keys"%string ->
  key_dir home ++ [x] ∉ prefixes (home ++ [".rdrive"; d]%string).
Proof.
  intros Hd [_ [r Hr]]%elem_of_prefixes. unfold key_dir in Hr. rewrite <- !app_assoc in Hr.
  apply app_inv_head in Hr. simpl in Hr. destruct Hd as [-> | ->]; discriminate Hr.
Qed.

(** Both files are written when one is missing. *)
Lemma exec_setup_new home v : can_start home (v_host v) ->
  exists_ (h_fs (v_host v)) (private_path (key_dir home)) &&
  exists_ (h_fs (v_host v)) (public_path (key_dir home)) = false ->
  let pri := v_random 32 v in let pub := vk_to_bytes (verifying_key pri) in
  exists f, exec setup_server_keys v (Done tt) (v_set_fs f (v_later 32 v)) /\
    pair_at f (key_dir home) pri pub /\ fs_wf f /\
    unobstructed f (storage_root home) /\ unobstructed f (auth_root home).
Proof.
  intros [Hh Hwf Hk Hs Ha Hpri Hpub] Hno pri pub. unfold unobstructed in Hk.
  destruct (create_dirs_total _ _ Hk) as [f1 H1]. destruct (create_dir_all_ok _ _ _ H1) as [He1 Hd1].
  apply bool_decide_eq_true in Hd1.
  assert (forall x, h_fs (v_host v) !! (key_dir home ++ [x]) <> Some Dir -> f1 !! (key_dir home ++ [x]) <> Some Dir) as Hnd.
  { intros x Hx H. destruct (proj2 He1 _ _ H) as [|[_ [_ [r Hr]]%elem_of_prefixes]]; [done|].
    apply (f_equal length) in Hr. rewrite !length_app in Hr. simpl in Hr. lia. }
  assert (zlen pri = 32) as Hlen by (apply v_random_len; done).
  set (f := <[public_path (key_dir home) := File (as_bytes (encode pub))]>
             (<[private_path (key_dir home) := File (as_bytes (encode pri))]> f1)).
  assert (pair_at f (key_dir home) pri pub) as Hpair by (apply saved_pair; [done|apply vk_len]).
  exists f. split_and!.
  - unfold setup_server_keys. estep (exec_gets h_home). rewrite Hh.
    estep exec_lift_result; [done|]. cbv zeta. fold (key_dir home). rewrite join_private, join_public.
    estep exec_gets_fs. estep exec_gets_fs. rewrite Hno. cbn match.
    estep exec_generate_ed25519. cbn match. fold pri. rewrite !trim_encode. fold pub.
    eapply exec_bind; [apply (exec_save_keys _ _ _ f1); [exact H1|by apply Hnd..]|]. fold f.
    eapply exec_bind; [apply exec_read_text; [apply snoc_nonempty|apply (pa_public _ _ _ _ Hpair)]|apply exec_ret].
  - exact Hpair.
  - apply save_keys_wf; [by eapply create_dir_all_wf|done|by apply Hnd..].
  - apply unobstructed_insert; [apply key_file_not_above; by left|].
    apply unobstructed_insert; [apply key_file_not_above; by left|]. by eapply unobstructed_extends.
  - apply unobstructed_insert; [apply key_file_not_above; by right|].
    apply unobstructed_insert; [apply key_file_not_above; by right|]. by eapply unobstructed_extends.
Qed.

(** (C33) The first start of a server. Where no pair of key files is complete
    and no file obstructs its directories, [serve --protocol v1] writes a fresh
    pair, creates the two directories the handlers rely on ([server_files]) and
    enters the accept loop with the storage directory; the statics then load,
    and their two keys belong together, as the handshake needs
    ([server_keys_match]). A second start finds everything and changes
    nothing. *)
Theorem first_start (home : path) (port : Z) (v : View) : can_start home (v_host v) ->
  exists_ (h_fs (v_host v)) (private_path (key_dir home)) &&
  exists_ (h_fs (v_host v)) (public_path (key_dir home)) = false ->
  exists v' cfg, let start := server_main (Some (Serve port "v1")) in
    exec start v (Done (Some (port, storage_root home))) v' /\ server_files home (v_host v') /\
    server_config env (v_host v') = Ok cfg /\ server_keys_match cfg /\
    server_pri_key_bytes cfg = v_random 32 v /\
    exec start v' (Done (Some (port, storage_root home))) v'.
Proof.
  intros Hstart Hno. destruct (exec_setup_new home v Hstart Hno) as (f & Hset & Hpair & Hwf & Hs & Ha).
  set (v1 := v_set_fs f (v_later 32 v)) in *.
  destruct (exec_serve_tcp home port v1) as (f2 & Hserve & Hfiles & Hkeep & _);
    [apply (cs_home _ _ Hstart)|exact Hwf|exact Hs|exact Ha|].
  assert (pair_at f2 (key_dir home) (v_random 32 v) (vk_to_bytes (verifying_key (v_random 32 v)))) as Hpair2.
  { destruct Hpair as [H1 H2 H3 H4]. split; [by apply Hkeep|by apply Hkeep|done|done]. }
  exists (v_set_fs f2 v1). destruct (load_pair home f2 _ _ Hpair2) as [Hl1 Hl2].
  eexists. split_and!.
  - unfold server_main. rewrite String.eqb_refl. eapply exec_bind; [exact Hset|].
    eapply exec_bind; [exact Hserve|apply exec_ret].
  - exact Hfiles.
  - unfold server_config. change (h_home _) with (h_home (v_host v)). rewrite (cs_home _ _ Hstart).
    change (h_fs _) with f2. by rewrite Hl1, Hl2.
  - done.
  - done.
  - unfold server_main. rewrite String.eqb_refl.
    eapply exec_bind; [eapply exec_setup_existing; [apply (cs_home _ _ Hstart)|exact Hpair2]|].
    eapply exec_bind; [by apply exec_serve_tcp_again|apply exec_ret].
Qed.
End Laws.
End Serve.

Module ServeWitness.
Import Toy AuthWitness.

Lemma demo_unobstructed d : unobstructed demo_fs d.
Proof. intros k c _ H. unfold demo_fs in H. apply lookup_singleton_Some in H as [_ H]. discriminate H. Qed.

Lemma demo_can_start : can_start home demo_host.
Proof.
  split; [reflexivity|exact demo_fs_wf|apply demo_unobstructed..| |];
    intros H; cbn in H; unfold demo_fs in H; apply lookup_singleton_Some in H as [H _]; discriminate H.
Qed.

Lemma first_start_witness : exists v' cfg,
  exec (server_main (fun _ => None) (Some (Serve 3000 "v1"))) (demo_view []) (Done (Some (3000, storage_root home))) v' /\
  server_keys_match cfg.
Proof.
  destruct (first_start (fun _ => None) home 3000 (demo_view [])) as (v' & cfg & H & _ & _ & Hk & _).
  - exact demo_can_start.
  - vm_refl.
  - exists v', cfg. split; [exact H|exact Hk].
Defined.
End ServeWitness.
