(* ===== verification/Env.v ===== *)
(** src/bin/server.rs, [atomic_write] and [update_env]: replacing a file by
    way of a temporary one, and setting a field of the [.env] file. Nothing
    calls them. Paths are relative to the working directory. *)
From Stdlib Require Import Ascii.
From S2P Require Import Prelude External RateLimit FileSys Lib World Exec Sample Handshake Auth Transfer Client Keys.

(** * Text *)

Definition newline : ascii := "010"%char.
Definition return_char : ascii := "013"%char.

(** The pieces between line feeds. *)
Fixpoint pieces (s : string) : list string :=
  match s with
  | EmptyString => [EmptyString]
  | String c r =>
    if Ascii.eqb c newline then EmptyString :: pieces r
    else match pieces r with p :: ps => String c p :: ps | [] => [] end
  end.

Fixpoint strip_cr (s : string) : string :=
  match s with
  | EmptyString => EmptyString
  | String c EmptyString => if Ascii.eqb c return_char then EmptyString else s
  | String c r => String c (strip_cr r)
  end.

(** [content.lines()]: a carriage return before the line feed goes with it;
    what follows the last line feed is a line unless it is empty. *)
Definition lines (content : string) : list string :=
  let ps := pieces content in
  match last ps with
  | None | Some EmptyString => map strip_cr (removelast ps)
  | Some l => map strip_cr (removelast ps) ++ [l]
  end.

(** [s.split_once(d)]. *)
Fixpoint split_once (d : ascii) (s : string) : option (string * string) :=
  match s with
  | EmptyString => None
  | String c r =>
    if Ascii.eqb c d then Some (EmptyString, r)
    else match split_once d r with Some (a, b) => Some (String c a, b) | None => None end
  end.

Fixpoint ends_with_newline (s : string) : bool :=
  match s with
  | EmptyString => false
  | String c EmptyString => Ascii.eqb c newline
  | String _ r => ends_with_newline r
  end.

(** * Fields *)

Definition assignment (field value : string) : string := (field +:+ "=" +:+ value)%string.
Definition is_field (field line : string) : bool :=
  match split_once "="%char line with Some (env_field, _) => String.eqb (trim_str env_field) field | None => false end.

Definition set_field (field value : string) (ls : list string) : list string * bool :=
  let updated := existsb (is_field field) ls in
  let ls := map (fun line => if is_field field line then assignment field value else line) ls in
  (if updated then ls else ls ++ [assignment field value], updated).

Definition render (ls : list string) : string :=
  let content := String.concat (String newline EmptyString) ls in
  if ends_with_newline content then content else (content +:+ String newline EmptyString)%string.

(** * Files *)

(** [tmp.set_extension(ext)]: a dot at the front does not start an extension. *)
Fixpoint before_last_dot (s : string) : option string :=
  match s with
  | EmptyString => None
  | String c r =>
    match before_last_dot r with
    | Some p => Some (String c p)
    | None => if Ascii.eqb c "."%char then Some EmptyString else None
    end
  end.
Definition file_stem (name : string) : string :=
  match before_last_dot name with None | Some EmptyString => name | Some p => p end.
Definition set_extension (p : path) (ext : string) : path :=
  match last p with
  | Some name => if String.eqb name ".." then p else removelast p ++ [(file_stem name +:+ "." +:+ ext)%string]
  | None => p
  end.

Definition ATOMIC_FAILED : string := "Failed to write updated .env file atomically".

Section Env.
(** [rand]'s uniform draw from an inclusive range, from eight random bytes. *)
Variable random_range : Z -> Z -> bytes -> Z.
Variable cwd : path.

Definition display (p : path) : string := String.concat "/" p.

(** [File::open] of a directory; the empty path names nothing. *)
Definition open_dir (p : path) : M unit :=
  let* there := gets_fs (fun f => match p with [] => false | _ => exists_ f (cwd ++ p) end) in
  if there then ret tt else throw ENOENT.

Definition atomic_write (target : path) (data : bytes) : M unit :=
  let* draw := fill_bytes 8 in
  let rand := random_range 0 (U64_MOD - 2) draw in
  let tmp := set_extension target ("tmp." +:+ pretty rand) in
  context ("failed to create " +:+ display tmp) (fs_op (fun f => create_file f (cwd ++ tmp))) ;;;
  append (cwd ++ tmp) data ;;;
  context ("failed to atomic rename " +:+ display tmp +:+ " to " +:+ display target)
    (fs_op (fun f => rename f (cwd ++ tmp) (cwd ++ target))) ;;;
  match tmp with
  | [] => ret tt
  | _ => open_dir (removelast tmp)
  end.

Definition update_env (field value : string) : M bool :=
  let p := [".env"%string] in
  let* content := gets_fs (fun f => read_to_string f (cwd ++ p)) in
  let* content := lift_result (map_err "Failed to read file content: " content) in
  let '(ls, updated) := set_field field value (lines content) in
  context ATOMIC_FAILED (atomic_write p (as_bytes (render ls))) ;;;
  ret updated.
End Env.

(** * What the functions do *)

Definition no_char (d : ascii) (s : string) : Prop := split_once d s = None.

Lemma split_once_app d a b : no_char d a -> split_once d (a +:+ String d b)%string = Some (a, b).
Proof.
  unfold no_char. induction a as [|c a IH]; intros H; simpl in *; [by rewrite Ascii.eqb_refl|].
  destruct (Ascii.eqb c d); [done|]. destruct (split_once d a) as [[]|]; [done|]. by rewrite IH.
Qed.

Lemma is_field_assignment field value : no_char "=" field -> trim_str field = field ->
  is_field field (assignment field value) = true.
Proof.
  intros H Ht. unfold is_field. change (assignment field value) with (field +:+ String "=" value)%string.
  rewrite split_once_app by done. rewrite Ht. apply String.eqb_refl.
Qed.

(** Setting a field of the settings file: afterwards every line for the
    field gives the new value, there is one, every other line is as it was and
    in its place among the others, and the answer says whether the field was
    there. *)
Theorem set_field_sets (field value : string) (ls : list string) :
  no_char "=" field -> trim_str field = field ->
  let '(ls', updated) := set_field field value ls in
  (exists line, line ∈ ls' /\ is_field field line = true) /\
  Forall (fun line => is_field field line = true -> line = assignment field value) ls' /\
  filter (fun line => is_field field line = false) ls' = filter (fun line => is_field field line = false) ls /\
  (updated = true <-> exists line, line ∈ ls /\ is_field field line = true).
Proof.
  intros Hc Ht. pose proof (is_field_assignment field value Hc Ht) as Ha. unfold set_field.
  set (f := fun line => if is_field field line then assignment field value else line).
  assert (forall l, is_field field (f l) = is_field field l) as Hf.
  { intros l. unfold f. by destruct (is_field field l) eqn:E. }
  assert (Forall (fun line => is_field field line = true -> line = assignment field value) (map f ls)) as Hall.
  { apply Forall_map, Forall_true. intros l. simpl. rewrite Hf. intros E. unfold f. by rewrite E. }
  assert (filter (fun line => is_field field line = false) (map f ls) =
    filter (fun line => is_field field line = false) ls) as Hflt.
  { induction ls as [|l ls IH]; [done|]. simpl map. rewrite !filter_cons, Hf.
    apply Forall_cons in Hall as [_ Hall]. rewrite (IH Hall). unfold f. by destruct (is_field field l). }
  assert (existsb (is_field field) ls = true <-> exists line, line ∈ ls /\ is_field field line = true) as Hex.
  { rewrite existsb_exists. by setoid_rewrite list_elem_of_In. }
  destruct (existsb (is_field field) ls) eqn:E; (split; [|split; [|split; [|done]]]).
  - destruct (proj1 Hex eq_refl) as (l & Hl & El). exists (f l). rewrite Hf. split; [|done].
    by apply list_elem_of_fmap_2.
  - done.
  - done.
  - exists (assignment field value). split; [set_solver|done].
  - apply Forall_app. split; [done|]. by repeat constructor.
  - rewrite filter_app, Hflt, filter_cons_False by congruence. by rewrite app_nil_r.
Qed.

(** * Replacing a file *)

Lemma nothing_below_file f p k : fs_wf f -> p <> [] -> f !! p <> Some Dir -> under p k -> k <> p -> f !! k = None.
Proof.
  intros Hwf Hp Hd [r ->]%under_iff Hne. induction r as [|c r IH] using rev_ind; [by rewrite app_nil_r in Hne|].
  destruct (f !! (p ++ r ++ [c])) as [n|] eqn:En; [|done]. exfalso.
  destruct (Hwf _ _ En) as [_ Hpar]. rewrite app_assoc, parent_snoc in Hpar.
  rewrite lookup_node_nonempty in Hpar by (by destruct p). destruct (decide (r = [])) as [->|Hr].
  - by rewrite app_nil_r in Hpar.
  - rewrite IH in Hpar; [done|]. intros E. apply Hr. rewrite <- (app_nil_r p) in E at 2. by apply app_inv_head in E.
Qed.

(** A fresh file renamed over a file of the same directory. *)
Lemma rename_over f d a b x y : fs_wf f -> lookup_node f d = Some Dir -> a <> b ->
  f !! (d ++ [a]) = None -> f !! (d ++ [b]) = Some (File y) ->
  rename (<[d ++ [a] := File x]> f) (d ++ [a]) (d ++ [b]) = Ok (<[d ++ [b] := File x]> f).
Proof.
  intros Hwf Hd Hab Ha Hb. set (p := d ++ [a]) in *. set (q := d ++ [b]) in *.
  assert (p <> [] /\ q <> [] /\ p <> q) as (Hp & Hq & Hpq).
  { unfold p, q. split; [by destruct d|]. split; [by destruct d|]. by intros [_ [=]]%app_inj_tail. }
  assert (~ under p q /\ ~ under q p) as [Hu1 Hu2].
  { split; intros [r Hr]%under_iff; unfold p, q in Hr; rewrite <- app_assoc in Hr; apply app_inv_head in Hr;
      simpl in Hr; injection Hr; congruence. }
  unfold rename. rewrite (lookup_node_nonempty _ p), lookup_insert_eq by done.
  rewrite decide_False, decide_False by done.
  assert (parent q = d) as -> by apply parent_snoc.
  assert (lookup_node (<[p := File x]> f) d = Some Dir) as ->.
  { rewrite lookup_node_insert by done. rewrite decide_False; [done|]. intros E. rewrite E in Hd.
    rewrite lookup_node_nonempty in Hd by done. congruence. }
  rewrite (lookup_node_nonempty _ q), lookup_insert_ne, Hb by done.
  f_equal. apply map_eq. intros k. rewrite lookup_move_subtree. destruct (strip_path q k) as [r|] eqn:Er.
  - apply strip_path_Some in Er as ->. destruct r as [|c r].
    + rewrite !app_nil_r. by rewrite !lookup_insert_eq.
    + rewrite !lookup_insert_ne by (intros E%(f_equal length); rewrite length_app in E; simpl in E; lia).
      rewrite (nothing_below_file f p), (nothing_below_file f q); try done; try apply under_app; try congruence;
        intros E%(f_equal length); rewrite length_app in E; simpl in E; lia.
  - apply strip_path_None in Er. assert (q <> k) by (intros ->; apply Er, under_iff; exists []; by rewrite app_nil_r).
    rewrite (lookup_insert_ne f q) by done. case_decide as Hk.
    + destruct (decide (k = p)) as [->|Hkp]; [done|]. symmetry. by apply (nothing_below_file f p); [..|congruence|done|].
    + rewrite lookup_insert_ne; [done|]. intros <-. apply Hk, under_iff. exists []. by rewrite app_nil_r.
Qed.

Section UpdateEnv.
Variable random_range : Z -> Z -> bytes -> Z.
Variable cwd : path.

Definition env_tmp (v : View) : string :=
  (".env.tmp." +:+ pretty (random_range 0 (U64_MOD - 2) (v_random 8 v)))%string.

Lemma exec_context_throw {A} msg (m : M A) v e v1 : exec m v (Throw e) v1 -> exec (context msg m) v (Throw msg) v1.
Proof. intros H. unfold context. eapply exec_bind; [by apply exec_try_throw|]. apply exec_throw. Qed.

(** Updating the settings file reports a failure every time it succeeds:
    the temporary file is written and has replaced [.env], nothing else has
    changed, and then the directory of [.env] is opened under the empty name
    that [Path::parent] gives for it, which fails. *)
Theorem update_env_reports_failure (field value : string) (data : bytes) (v : View) :
  let f := h_fs (v_host v) in
  fs_wf f -> lookup_node f cwd = Some Dir -> f !! (cwd ++ [".env"%string]) = Some (File data) ->
  f !! (cwd ++ [env_tmp v]) = None ->
  exists v', exec (update_env random_range cwd field value) v (Throw ATOMIC_FAILED) v' /\
    h_fs (v_host v') = <[cwd ++ [".env"%string] :=
      File (as_bytes (render (set_field field value (lines (String.string_of_list_byte data))).1))]> f.
Proof.
  intros f Hwf Hd Henv Htmp.
  destruct (set_field field value (lines (String.string_of_list_byte data))) as [ls updated] eqn:Es.
  set (new := as_bytes (render ls)). set (v1 := v_set_pos (v_pos v + Z.to_nat 8) v).
  exists (v_set_fs (<[cwd ++ [".env"%string] := File new]> f) v1). split; [|done].
  unfold update_env. estep exec_gets_fs. unfold read_to_string, read_file. fold f.
  rewrite lookup_node_nonempty, Henv by (by destruct cwd). estep exec_lift_result; [done|].
  rewrite Es. eapply exec_bind_throw, exec_context_throw.
  unfold atomic_write. estep exec_fill_bytes. cbv zeta. fold v1.
  change (set_extension [".env"%string] _) with [env_tmp v].
  eapply exec_bind; [apply exec_context, exec_fs_op|].
  { change (h_fs (v_host v1)) with f. unfold create_file. rewrite parent_snoc, Hd.
    rewrite lookup_node_nonempty, Htmp by (by destruct cwd). done. }
  estep exec_append; [apply lookup_insert_eq|].
  eapply exec_bind; [apply exec_context, exec_fs_op|].
  { cbn [v_set_fs v_host v_set_host h_fs set_fs]. rewrite insert_insert_eq.
    eapply rename_over; [done|done|discriminate|done|exact Henv]. }
  estep exec_gets_fs. apply exec_throw.
Qed.
End UpdateEnv.

Module EnvWitness.
Import Toy.

Lemma set_field_sets_witness : exists line, line ∈ (set_field "PORT" "4000" ["A=1"; "PORT = 3000"]%string).1 /\
  is_field "PORT" line = true.
Proof.
  pose proof (set_field_sets "PORT" "4000" ["A=1"; "PORT = 3000"]%string eq_refl eq_refl) as H.
  destruct (set_field _ _ _) as [ls u]. exact (proj1 H).
Defined.

Definition env_text : bytes := as_bytes "PORT=3000".
Definition env_fs : fs := <[["home"; ".env"]%string := File env_text]> demo_fs.
Definition env_view : View := v_set_fs env_fs (demo_view []).

Lemma env_fs_wf : fs_wf env_fs.
Proof.
  intros p n H. unfold env_fs, demo_fs in H. apply lookup_insert_Some in H as [[<- <-]|[_ H]]; [by split|].
  apply lookup_singleton_Some in H as [<- <-]. by split.
Qed.

Lemma update_env_reports_failure_witness : exists v',
  exec (update_env (fun lo _ _ => lo) ["home"%string] "PORT" "4000") env_view (Throw ATOMIC_FAILED) v' /\
  h_fs (v_host v') = <[["home"; ".env"]%string := File (as_bytes (render ["PORT=4000"%string]))]> env_fs.
Proof.
  apply (update_env_reports_failure (fun lo _ _ => lo) ["home"%string] "PORT" "4000" env_text env_view).
  - exact env_fs_wf.
  - reflexivity.
  - exact (lookup_insert_eq _ _ _).
  - vm_refl.
Defined.
End EnvWitness.
