(* ===== verification/Perf.v ===== *)
(** src/protocol_v1.rs, [client_echo_perf]: the performance test of the client.
    It opens connection after connection and times their handshakes, then sends
    random payloads to the echo handler and averages what they took. Progress
    bars and printing are left out; the figures it prints are the value it
    returns. *)
From Stdlib Require Import Floats.
From stdpp Require Import sorting.
From S2P Require Import Prelude F64 External RateLimit FileSys Lib World Exec Crypto Header Sample Stores Net Handshake Echo Auth Client.

Definition MAX_RECORD : nat := 4096.
Definition HANDSHAKE_PORT_CAP : Z := 8192.
Definition LH : Z := 1024 * 1024.
Definition HI : Z := 14 * 1024 * 1024.
Definition U128_MOD : Z := 2 ^ 128.

(** What [TcpStream::connect] answers; [out_of_ports] tells the two error kinds
    that end the sampling from the others. *)
Inductive dial_result : Type :=
| Connected (c : Conn)
| NoConnection (out_of_ports : bool) (e : string).

(** Runs on a connection of its own; the host goes on. *)
Definition with_conn {A} (c : Conn) (m : M A) : M A := fun w =>
  let '(o, w') := m {| conn := c; host := host w |} in (o, {| conn := conn w; host := host w' |}).

(** [tokio::time::sleep]. *)
Definition sleep (secs : Z) : M unit :=
  modify_host (fun h => set_clock (h_now h + secs * NANOS_PER_SEC) (h_ticks h) h).

(** [x as u128] of a double that is not negative. *)
Definition f64_to_u128 (x : f64) : Z :=
  match Prim2SF x with
  | SpecFloat.S754_finite false m e => Z.min (Z.shiftl (Zpos m) e) (U128_MOD - 1)
  | SpecFloat.S754_infinity false => U128_MOD - 1
  | _ => 0
  end.

(** [latencies[(latencies.len() * p) / 100]]. *)
Definition percentile (l : list Z) (p : nat) : outcome Z :=
  match l !! (length l * p / 100)%nat with Some x => Done x | None => Panic end.

(** [sort_unstable]: equal numbers cannot be told apart. *)
Definition sort_unstable (l : list Z) : list Z := merge_sort Z.le l.

(** * The handshake phase *)

Record Samples := { hss : Z; hsf : Z; latencies : list Z }.
Definition no_samples : Samples := {| hss := 0; hsf := 0; latencies := [] |}.
Definition sample_ok (us : Z) (s : Samples) : Samples :=
  {| hss := hss s + 1; hsf := hsf s; latencies := latencies s ++ [us] |}.
Definition sample_failed (s : Samples) : Samples :=
  {| hss := hss s; hsf := hsf s + 1; latencies := latencies s |}.

(** * The echo phase *)

(** One of the two arrays of the last [MAX_RECORD] figures. *)
Definition record (ring : list Z) (record_count : nat) (x : Z) : list Z :=
  <[(record_count mod MAX_RECORD)%nat := x]> ring.
Definition sum_u128 (l : list Z) : Z := foldl (fun a x => (a + x) mod U128_MOD) 0 l.
Definition average (ring : list Z) (record_count : nat) : Z :=
  let n := Nat.min (record_count + 1) MAX_RECORD in
  sum_u128 (take n ring) / Z.of_nat n.

Record EchoSamples := {
  record_count : nat;
  payload_acc : Z;             (* u32, in MiB *)
  record_process_time : list Z;
  record_rtt : list Z;
  nt_latencies : list Z;
  final_avg_st : Z;
  final_avg_nt : Z;
}.
Definition no_echo_samples : EchoSamples :=
  {| record_count := 0; payload_acc := 0; record_process_time := replicate MAX_RECORD 0;
     record_rtt := replicate MAX_RECORD 0; nt_latencies := []; final_avg_st := 0; final_avg_nt := 0 |}.

(** The bookkeeping of one answer that took [rtt] ms. *)
Definition record_echo (echo : EchoDebugHeader) (rtt : Z) (s : EchoSamples) : EchoSamples :=
  let process := record (record_process_time s) (record_count s) (process_ms echo) in
  let rtts := record (record_rtt s) (record_count s) rtt in
  let avg_st := average process (record_count s) in
  let avg_nt := average rtts (record_count s) in
  {| record_count := record_count s + 1;
     payload_acc := as_u32 (payload_acc s + payload_len echo / (1024 * 1024));
     record_process_time := process; record_rtt := rtts;
     nt_latencies := nt_latencies s ++ [avg_nt]; final_avg_st := avg_st; final_avg_nt := avg_nt |}.

(** What is printed. *)
Record PerfReport := {
  pr_samples : Samples;
  pr_handshakes_per_sec : Z;
  pr_handshake_ms : f64 * f64 * f64;      (* p50, p95, p99 *)
  pr_echo : EchoSamples;
  pr_network_ms : f64 * f64 * f64;
}.

Section Perf.
Context {AG : AesGcm} {HX : Hex} {SH : Sha2} {ED : Ed25519} {XD : X25519}
  {PED : Postcard EchoDebugHeader} {PCM : Postcard Command}
  {PCH : Postcard ClientHello} {PSH : Postcard ServerHello} {JS : Json AuthServerMap}.
(** [rand]'s uniform draw from an inclusive range, from eight random bytes. *)
Variable random_range : Z -> Z -> bytes -> Z.
Variables (server : SocketAddr) (signing_key : bytes) (sample_duration : Z).

(** One turn of the loop; [true] to go on. *)
Definition handshake_turn (dialled : dial_result) (s : Samples) : M (Samples * bool) :=
  let* latency_clock := instant_now in
  match dialled with
  | NoConnection true _ => sleep 3 ;;; ret (s, false)
  | NoConnection false _ => ret (sample_failed s, true)
  | Connected c =>
    with_conn c (
      let* r := try_ (client_handshake_helper server signing_key true) in
      match r with
      | Ok _ =>
        let* now := instant_now in
        let* _ := try_ shutdown in
        ret (sample_ok (Z.quot (duration_since now latency_clock) 1000) s, true)
      | Err _ => ret (sample_failed s, true)
      end)
  end.

(** [dials]: the answers to the connection attempts, in order; an attempt
    beyond them is never answered. *)
Fixpoint handshake_loop (dials : list dial_result) (sample_start : Z) (s : Samples) : M (Samples * list dial_result) :=
  let* now := instant_now in
  if (duration_since now sample_start <? sample_duration) && (hss s <? HANDSHAKE_PORT_CAP) then
    match dials with
    | [] => hang
    | dialled :: dials =>
      let* (s, go_on) := handshake_turn dialled s in
      if (go_on : bool) then handshake_loop dials sample_start s else ret (s, dials)
    end
  else ret (s, dials).

Definition percentiles (scale : f64 -> f64) (l : list Z) : outcome (f64 * f64 * f64) :=
  obind (percentile l 50) (fun p50 => obind (percentile l 95) (fun p95 => obind (percentile l 99) (fun p99 =>
    Done (scale (f64_of_Z p50), scale (f64_of_Z p95), scale (f64_of_Z p99))))).

(** One payload and its answer. *)
Definition echo_sample (session_key : bytes) (s : EchoSamples) : M EchoSamples :=
  let* send_time := instant_now in
  let* draw := fill_bytes 8 in
  let* rand_payload := fill_bytes (random_range LH HI draw) in
  context "Failed to send echo payload" (write_encrypt_frame_into rand_payload session_key) ;;;
  let* response := context "Failed to read echo response" (read_encrypt_data_into session_key) in
  let* echo := lift_result (deserialize response) in
  let* now := instant_now in
  ret (record_echo echo (Z.quot (duration_since now send_time) 1000000) s).

Fixpoint echo_sample_loop (fuel : nat) (session_key : bytes) (sample_start : Z) (s : EchoSamples) : M EchoSamples :=
  match fuel with
  | O => hang
  | S fuel =>
    let* now := instant_now in
    if duration_since now sample_start <? sample_duration then
      let* s := echo_sample session_key s in echo_sample_loop fuel session_key sample_start s
    else ret s
  end.

(** The second phase, on its connection: one sample per frame read at most. *)
Definition echo_phase : M EchoSamples :=
  let* session_key := map_throw "Handshake failed: " (client_handshake_helper server signing_key true) in
  let* request := lift_result (serialize Echo) in
  write_encrypt_frame_into request session_key ;;;
  let* sample_start := instant_now in
  let* fuel := gets (fun w => S (length (rd (conn w)))) in
  echo_sample_loop fuel session_key sample_start no_echo_samples.

Definition client_echo_perf (dials : list dial_result) : M PerfReport :=
  let* sample_start := instant_now in
  let* (s, dials) := handshake_loop dials sample_start no_samples in
  let* now := instant_now in
  let sample_elapsed_ms := f64_to_u128 (as_secs_f64 (duration_since now sample_start)) in
  let* handshake_per_sec := lift (if sample_elapsed_ms =? 0 then Panic else Done (hss s / sample_elapsed_ms)) in
  let* hs := lift (percentiles (fun x => (x / 1000)%float) (sort_unstable (latencies s))) in
  match dials with
  | [] => hang
  | NoConnection _ e :: _ => throw ("Handshake failed: " +:+ e)
  | Connected c :: _ =>
    with_conn c (
      let* e := echo_phase in
      let* nt := lift (percentiles (fun x => x) (sort_unstable (nt_latencies e))) in
      shutdown ;;;
      ret {| pr_samples := s; pr_handshakes_per_sec := handshake_per_sec; pr_handshake_ms := hs;
             pr_echo := e; pr_network_ms := nt |})
  end.
End Perf.

(** * The percentiles *)

Section Percentiles.
Variables (l : list Z) (p : nat).

Lemma sort_perm : sort_unstable l ≡ₚ l.
Proof. apply merge_sort_Permutation. Qed.

Lemma sort_sorted : StronglySorted Z.le (sort_unstable l).
Proof. apply StronglySorted_merge_sort; [apply _|]. intros x y. lia. Qed.

Lemma filter_none {A} (P : A -> Prop) `{!forall x, Decision (P x)} (xs : list A) :
  Forall (fun x => ~ P x) xs -> filter P xs = [].
Proof. induction 1; [done|]. by rewrite filter_cons_False. Qed.
Lemma filter_every {A} (P : A -> Prop) `{!forall x, Decision (P x)} (xs : list A) :
  Forall P xs -> filter P xs = xs.
Proof. induction 1; [done|]. rewrite filter_cons_True by done. by f_equal. Qed.

(** The element at rank [i] of a sorted list. *)
Lemma rank_counts (s : list Z) i x : StronglySorted Z.le s -> s !! i = Some x ->
  (i < length (filter (fun y => (y <= x)%Z) s))%nat /\ (length (filter (fun y => (y < x)%Z) s) <= i)%nat.
Proof.
  intros Hs Hi. pose proof (lookup_lt_Some _ _ _ Hi) as Hlt. rewrite <- (take_drop_middle s i x Hi) in Hs |- *.
  assert (length (take i s) = i) as Hl by (rewrite length_take; lia).
  set (a := take i s) in *. set (b := drop (S i) s) in *. clearbody a b. clear Hi Hlt.
  apply StronglySorted_app in Hs as (Hab & _ & [Hb _]%StronglySorted_cons).
  assert (Forall (fun y => y <= x) a) as Hax.
  { apply Forall_forall. intros y Hy. apply Hab; set_solver. }
  rewrite !filter_app, !length_app. split.
  - rewrite filter_every by done. rewrite filter_cons_True by done. simpl. lia.
  - rewrite filter_cons_False by lia.
    rewrite (filter_none _ b); [simpl; pose proof (length_filter (fun y => y < x) a)|].
    { lia. }
    eapply Forall_impl; [exact Hb|]. simpl. intros. lia.
Qed.

(** A percentile of a sample that is not empty is one of its figures:
    more than [p] in a hundred are at most as large, and at most [p] in a
    hundred are smaller. *)
Theorem percentile_ranks : l <> [] -> (p < 100)%nat ->
  exists x, percentile (sort_unstable l) p = Done x /\ x ∈ l /\
    (length l * p < 100 * length (filter (fun y => (y <= x)%Z) l))%nat /\
    (100 * length (filter (fun y => (y < x)%Z) l) <= length l * p)%nat.
Proof.
  intros Hne Hp. pose proof (Permutation_length sort_perm) as Hlen.
  assert (0 < length l)%nat by (destruct l; [done|simpl; lia]).
  pose proof (Nat.div_mod_eq (length l * p) 100) as Hdiv.
  pose proof (Nat.mod_upper_bound (length l * p) 100 ltac:(lia)) as Hmod.
  unfold percentile. rewrite Hlen. set (i := (length l * p / 100)%nat) in *.
  destruct (lookup_lt_is_Some_2 (sort_unstable l) i) as [x Hx]; [nia|]. rewrite Hx.
  exists x. split; [done|]. split; [rewrite <- sort_perm; by eapply list_elem_of_lookup_2|].
  destruct (rank_counts _ _ _ sort_sorted Hx) as [H1 H2]. rewrite !sort_perm in H1, H2. lia.
Qed.
End Percentiles.

(** * The running averages *)

Lemma max_record_pos : (0 < MAX_RECORD)%nat.
Proof. apply Nat.ltb_lt. reflexivity. Qed.
#[local] Opaque MAX_RECORD.

Definition total (l : list Z) : Z := foldr Z.add 0 l.

Lemma total_app a b : total (a ++ b) = total a + total b.
Proof. induction a as [|x a IH]; simpl; [done|]. rewrite IH. lia. Qed.

Lemma sum_u128_total l : sum_u128 l = total l mod U128_MOD.
Proof.
  unfold sum_u128. rewrite <- (Z.add_0_l (total l)).
  assert (forall a, foldl (fun a x => (a + x) mod U128_MOD) (a mod U128_MOD) l = (a + total l) mod U128_MOD) as H.
  { induction l as [|x l IH]; intros a; simpl; [by rewrite Z.add_0_r|].
    rewrite Zplus_mod_idemp_l, IH. f_equal. lia. }
  rewrite <- H. by rewrite Z.mod_0_l.
Qed.

Lemma total_insert l i (x y : Z) : l !! i = Some y -> total (<[i := x]> l) = total l - y + x.
Proof.
  intros Hi. pose proof (lookup_lt_Some _ _ _ Hi). rewrite insert_take_drop by done.
  rewrite <- (take_drop_middle l i y Hi) at 3. rewrite !total_app. simpl. lia.
Qed.

(** The figures still remembered after [xs], oldest first. *)
Definition last_records (xs : list Z) : list Z := drop (length xs - MAX_RECORD) xs.

(** The ring after the figures [xs]: the remembered ones sit where their number
    says, and the part in use adds up to their sum. *)
Record ring_of (xs ring : list Z) : Prop := {
  ro_len : length ring = MAX_RECORD;
  ro_at k x : (length xs <= k + MAX_RECORD)%nat -> xs !! k = Some x -> ring !! (k mod MAX_RECORD)%nat = Some x;
  ro_total : total (take (Nat.min (length xs) MAX_RECORD) ring) = total (last_records xs);
}.

Lemma ring_of_nil : ring_of [] (replicate MAX_RECORD 0).
Proof. split; [apply length_replicate|done|done]. Qed.

Lemma mod_distinct k n : (k < n)%nat -> (n < k + MAX_RECORD)%nat -> (k mod MAX_RECORD <> n mod MAX_RECORD)%nat.
Proof.
  pose proof max_record_pos. intros H1 H2 E.
  pose proof (Nat.div_mod_eq k MAX_RECORD). pose proof (Nat.div_mod_eq n MAX_RECORD).
  assert (n / MAX_RECORD = k / MAX_RECORD \/ n / MAX_RECORD >= S (k / MAX_RECORD))%nat as [|] by nia; nia.
Qed.

Lemma ring_of_record xs ring x : ring_of xs ring -> ring_of (xs ++ [x]) (record ring (length xs) x).
Proof.
  intros [Hlen Hat Htot]. pose proof max_record_pos as Hpos. unfold record, last_records in *.
  set (n := length xs) in *. assert (n mod MAX_RECORD < MAX_RECORD)%nat as Hn by (apply Nat.mod_upper_bound; lia).
  split.
  - by rewrite length_insert.
  - intros k y Hk Hy. rewrite length_app in Hk. fold n in Hk. simpl in Hk. destruct (decide (k = n)) as [->|Hne].
    + rewrite lookup_app_r, Nat.sub_diag in Hy by done. injection Hy as <-.
      apply list_lookup_insert_eq. lia.
    + pose proof (lookup_lt_Some _ _ _ Hy) as Hkn. rewrite length_app in Hkn. fold n in Hkn. simpl in Hkn.
      rewrite lookup_app_l in Hy by lia. rewrite list_lookup_insert_ne by (intros E; eapply (mod_distinct k n); lia).
      apply Hat; [lia|done].
  - unfold last_records. rewrite length_app. fold n. simpl (length [x]).
    destruct (decide (n < MAX_RECORD)%nat) as [Hlt|Hge].
    + rewrite Nat.mod_small by done. rewrite !Nat.min_l in * by lia.
      replace (n + 1 - MAX_RECORD)%nat with 0%nat by lia. replace (n - MAX_RECORD)%nat with 0%nat in Htot by lia.
      rewrite drop_0 in *. rewrite Nat.add_1_r, (take_S_r _ _ x) by (apply list_lookup_insert_eq; lia).
      rewrite take_insert_ge by lia. rewrite !total_app. by rewrite Htot.
    + rewrite !Nat.min_r in * by lia.
      destruct (lookup_lt_is_Some_2 xs (n - MAX_RECORD)%nat) as [y Hy]; [fold n; lia|].
      assert (ring !! (n mod MAX_RECORD)%nat = Some y) as Hold.
      { replace n with (n - MAX_RECORD + 1 * MAX_RECORD)%nat at 1 by lia. rewrite Nat.Div0.mod_add. apply Hat; [lia|done]. }
      rewrite take_ge in * by (rewrite ?length_insert; lia).
      rewrite (total_insert _ _ _ _ Hold), Htot.
      rewrite drop_app_le by (fold n; lia). rewrite (drop_S _ _ _ Hy) at 1.
      replace (n + 1 - MAX_RECORD)%nat with (S (n - MAX_RECORD)) by lia. rewrite total_app. simpl. lia.
Qed.

Lemma average_of_ring xs x ring : ring_of xs ring ->
  average (record ring (length xs) x) (length xs) =
  (total (last_records (xs ++ [x])) mod U128_MOD) / Z.of_nat (Nat.min (length xs + 1) MAX_RECORD).
Proof.
  intros [_ _ Htot]%(ring_of_record _ _ x). unfold average. rewrite sum_u128_total.
  rewrite length_app in Htot. simpl in Htot. by rewrite Htot.
Qed.

(** The bookkeeping of a list of answers with their times, oldest first. *)
Definition recorded (es : list (EchoDebugHeader * Z)) : EchoSamples :=
  foldl (fun s e => record_echo e.1 e.2 s) no_echo_samples es.

Lemma recorded_snoc es e : recorded (es ++ [e]) = record_echo e.1 e.2 (recorded es).
Proof. unfold recorded. by rewrite foldl_app. Qed.

Lemma recorded_rings es : record_count (recorded es) = length es /\
  length (nt_latencies (recorded es)) = length es /\
  ring_of (map (fun e => process_ms e.1) es) (record_process_time (recorded es)) /\
  ring_of (map snd es) (record_rtt (recorded es)).
Proof.
  induction es as [|e es (H1 & H2 & H3 & H4)] using rev_ind.
  { split_and!; [done|done|apply ring_of_nil..]. }
  rewrite recorded_snoc, !map_app. cbn [record_echo record_count nt_latencies record_process_time record_rtt].
  rewrite !length_app, H1, H2. split_and!; [done|done|..].
  - replace (length es) with (length (map (fun e => process_ms e.1) es)) by apply length_map. by apply ring_of_record.
  - replace (length es) with (length (map snd es)) by apply length_map. by apply ring_of_record.
Qed.

(** The averages shown after an answer are those of the last
    [MAX_RECORD] server times and round trips, this one included, whatever came
    before (the sums wrap at 128 bits: the server picks its times). One
    latency is recorded per answer, and it is the average, not the round trip. *)
Theorem echo_averages (es : list (EchoDebugHeader * Z)) (e : EchoDebugHeader) (rtt : Z) :
  let s := recorded (es ++ [(e, rtt)]) in
  let n := Z.of_nat (Nat.min (length es + 1) MAX_RECORD) in
  let times := last_records (map (fun e => process_ms e.1) (es ++ [(e, rtt)])) in
  let rtts := last_records (map snd (es ++ [(e, rtt)])) in
  record_count s = S (length es) /\
  final_avg_st s = (total times mod U128_MOD) / n /\
  final_avg_nt s = (total rtts mod U128_MOD) / n /\
  nt_latencies s = nt_latencies (recorded es) ++ [final_avg_nt s].
Proof.
  cbv zeta. destruct (recorded_rings es) as (H1 & _ & H3 & H4).
  rewrite recorded_snoc, !map_app. cbn [record_echo record_count final_avg_st final_avg_nt nt_latencies fst snd map].
  rewrite H1. apply (average_of_ring _ (process_ms e)) in H3. apply (average_of_ring _ rtt) in H4.
  rewrite length_map in H3, H4. rewrite H3, H4. split_and!; [lia|done|done|done].
Qed.

(** * Running the test *)

Section Running.
Context {AG : AesGcm} {HX : Hex} {SH : Sha2} {ED : Ed25519} {XD : X25519}
  {PED : Postcard EchoDebugHeader} {PCM : Postcard Command}
  {PCH : Postcard ClientHello} {PSH : Postcard ServerHello} {JS : Json AuthServerMap}.
Variable random_range : Z -> Z -> bytes -> Z.
Variables (server : SocketAddr) (signing_key : bytes) (sample_duration : Z).

(** How long the clock still runs, and how often it will be read differently. *)
Definition passes (w : World) : Z := h_now (host w) + total (h_ticks (host w)).

Lemma clock_read w : Forall (fun d => 0 <= d) (h_ticks (host w)) ->
  exists now w1, instant_now w = (Done now, w1) /\ passes w1 = passes w /\
    h_ticks (host w1) = tail (h_ticks (host w)) /\ (tail (h_ticks (host w)) = [] -> now = passes w) /\
    Forall (fun d => 0 <= d) (h_ticks (host w1)).
Proof.
  intros Hpos. unfold instant_now, passes. destruct (h_ticks (host w)) as [|d ds] eqn:E.
  - eexists _, _. split; [done|]. rewrite E. split_and!; try done. intros _. simpl. lia.
  - apply Forall_cons in Hpos as [Hd Hds]. eexists _, _. split; [done|]. simpl.
    split_and!; [lia|done| |done]. intros ->. simpl. lia.
Qed.

(** A connection attempt that failed leaves the figures of the latencies. *)
Lemma failed_turn full e s w : Forall (fun d => 0 <= d) (h_ticks (host w)) ->
  exists s1 w1, handshake_turn server signing_key (NoConnection full e) s w = (Done (s1, negb full), w1) /\
    hss s1 = hss s /\ latencies s1 = latencies s /\
    (full = false -> passes w1 = passes w /\ h_ticks (host w1) = tail (h_ticks (host w)) /\
      Forall (fun d => 0 <= d) (h_ticks (host w1))).
Proof.
  intros Hpos. destruct (clock_read w Hpos) as (now & w1 & E & Hp & Ht & _ & Hpos').
  unfold handshake_turn. destruct full; unfold bind at 1; rewrite E; eexists _, _; (split; [reflexivity|]); done.
Qed.

(** The sampling over failed attempts ends once the time is up. *)
Lemma failed_loop dials : Forall (fun d => exists full e, d = NoConnection full e) dials ->
  forall start s w, Forall (fun d => 0 <= d) (h_ticks (host w)) ->
  start + sample_duration <= passes w -> (length (h_ticks (host w)) <= 2 * length dials + 1)%nat ->
  exists s1 rest w1, handshake_loop server signing_key sample_duration dials start s w = (Done (s1, rest), w1) /\
    latencies s1 = latencies s.
Proof.
  induction 1 as [|dial dials (full & e & ->) _ IH]; intros start s w Hpos Hend Hlen;
    destruct (clock_read w Hpos) as (now & w1 & E & Hp & Ht & Hlast & Hpos1);
    cbn [handshake_loop]; unfold bind at 1; rewrite E.
  - rewrite Hlast by (destruct (h_ticks (host w)) as [|? []]; [done..|simpl in Hlen; lia]).
    rewrite (proj2 (Z.ltb_ge _ _)) by (unfold duration_since; lia). simpl. eauto.
  - destruct (_ && _); [|by eauto].
    destruct (failed_turn full e s w1 Hpos1) as (s1 & w2 & Et & _ & Hl & Hgo).
    unfold bind at 1. rewrite Et. cbv beta iota. destruct full; cbn [negb]; [by eauto|].
    destruct (Hgo eq_refl) as (Hp2 & Ht2 & Hpos2).
    destruct (IH start s1 w2) as (s2 & rest & w3 & -> & Hl2); [done|lia| |exists s2, rest, w3; by rewrite Hl2].
    rewrite Ht2, Ht. destruct (h_ticks (host w)) as [|? [|? ticks]]; simpl in *; lia.
Qed.

(** When no connection succeeds while the sampling lasts, the test does
    not report that: it panics, on the empty list of latencies or on the
    division by the seconds it took. The attempts given are enough for the
    clock to reach the end of the sampling. *)
Theorem perf_without_success_panics (dials : list dial_result) (w : World) :
  Forall (fun d => exists full e, d = NoConnection full e) dials ->
  Forall (fun d => 0 <= d) (h_ticks (host w)) ->
  sample_duration <= total (tail (h_ticks (host w))) ->
  (length (h_ticks (host w)) <= 2 * length dials + 2)%nat ->
  exists w', client_echo_perf random_range server signing_key sample_duration dials w = (Panic, w').
Proof.
  intros Hd Hpos Htot Hlen. unfold client_echo_perf.
  destruct (clock_read w Hpos) as (start & w1 & E & Hp & Ht & Hlast & Hpos1). unfold bind at 1. rewrite E.
  assert (start + sample_duration <= passes w1) as Hend.
  { unfold instant_now in E. unfold passes in *. destruct (h_ticks (host w)); injection E as <- <-; simpl in *; lia. }
  destruct (failed_loop dials Hd start no_samples w1 Hpos1 Hend) as (s & rest & w2 & El & Hl).
  { rewrite Ht. destruct (h_ticks (host w)); simpl in *; lia. }
  unfold bind at 1. rewrite El.
  unfold bind at 1. destruct (instant_now w2) as [o w3] eqn:E3.
  assert (exists now, o = Done now) as [now ->] by (unfold instant_now in E3; case_match; injection E3 as <- _; eauto).
  unfold bind at 1, lift at 1. destruct (_ =? 0); [by eauto|].
  unfold bind at 1, lift at 1. rewrite Hl. by eauto.
Qed.

(** Every sample has read a frame. *)
Lemma echo_sample_consumes {AGL : AesGcmLaws} key s w s' w' : echo_sample random_range key s w = (Done s', w') ->
  (length (rd (conn w')) < length (rd (conn w)))%nat.
Proof.
  unfold echo_sample. intros H. binv H as t w1 E1. binv H as draw w2 E2. binv H as payload w3 E3.
  assert (rd (conn w3) = rd (conn w)) as H3.
  { unfold instant_now in E1. case_match; injection E1 as _ <-; injection E2 as _ <-; by injection E3 as _ <-. }
  binv H as u w4 E4%context_done_inv.
  pose proof (keeps_in_write_encrypt payload key w3) as H4. rewrite E4 in H4. simpl in H4.
  binv H as r w5 E5%context_done_inv. apply read_encrypt_inv in E5 as (pkt & _ & Hrd & _).
  binv H as e w6 (_ & ->)%lift_result_done_inv. binv H as now w7 E7. injection H as _ <-.
  assert (rd (conn w7) = rd (conn w5)) as -> by (unfold instant_now in E7; case_match; by injection E7 as _ <-).
  rewrite <- H3, <- H4, Hrd. unfold frame. rewrite !length_app. change (length (to_be_bytes _)) with 4%nat. lia.
Qed.

(** The fuel of the echo phase is enough: the loop ends before it runs out. *)
Lemma echo_samples_fuel {AGL : AesGcmLaws} key start : forall a b s w,
  (length (rd (conn w)) < a)%nat -> (length (rd (conn w)) < b)%nat ->
  echo_sample_loop random_range sample_duration a key start s w =
  echo_sample_loop random_range sample_duration b key start s w.
Proof.
  induction a as [|a IH]; intros [|b] s w Ha Hb; try lia. cbn [echo_sample_loop].
  unfold bind at 1 3. destruct (instant_now w) as [o w1] eqn:E1.
  assert (rd (conn w1) = rd (conn w)) as H1 by (unfold instant_now in E1; case_match; by injection E1 as _ <-).
  destruct o as [now|e| |]; try done. destruct (_ <? _); [|done]. unfold bind.
  destruct (echo_sample random_range key s w1) as [[s1|e| |] w2] eqn:E2; try done.
  pose proof (echo_sample_consumes _ _ _ _ _ E2) as H2. rewrite H1 in H2. apply IH; lia.
Qed.

(** The performance test runs its handshakes with [should_trust]:
    whatever key was stored for the server, the key of the hello replaces it,
    before any signature is checked and without a word to the user, also when
    the stored one was another. From then on every command takes that key
    without asking, and asks about the key that was there before. *)
Theorem trusted_server_is_repinned {HXL : HexLaws} {JSL : JsonLaws AuthServerMap}
    (sh : ServerHello) (vk : VerifyingKey)
    (p : path) (m : AuthServerMap) (f f' : fs) (v : View) :
  opens_map (v_host v) p m f -> fs_wf f -> vk_try_from (arr (s_ed25519_key sh)) = Ok vk ->
  server_map_write f p (server_map_insert server (key_hex sh) m) = Ok f' ->
  exists v1, exec (approve_server_key server sh true) v (Done vk) v1 /\
    v_out v1 = v_out v /\ h_stdin (v_host v1) = h_stdin (v_host v) /\
    server_map_read (h_fs (v_host v1)) p = Ok (server_map_insert server (key_hex sh) m) /\
    exec (approve_server_key server sh false) v1 (Done vk) v1 /\
    forall old vk', vk_try_from (arr (s_ed25519_key old)) = Ok vk' ->
      server_map m !! server = Some (key_hex old) -> key_hex old <> key_hex sh ->
      says_yes (next_line (v_host v)) = false ->
      exists v2, exec (approve_server_key server old false) v1 (Throw REJECTED_ROTATED) v2.
Proof.
  intros Ho Hwf Hvk Hw. exists (v_set_fs f' v).
  assert (opens_map (v_host (v_set_fs f' v)) p (server_map_insert server (key_hex sh) m) f') as Ho'
    by (eapply opens_map_written; [exact Ho|done|exact Hw|done..]).
  assert (server_map (server_map_insert server (key_hex sh) m) !! server = Some (key_hex sh)) as Hl
    by apply lookup_insert_eq.
  split; [by eapply exec_approve_trusted|]. split; [done|]. split; [done|].
  split; [by destruct (server_map_write_ok _ _ _ _ Hw)|]. split.
  - eapply exec_to; [by eapply exec_approve_known|done].
  - intros old vk' Hvk' _ Hne Hno. eexists.
    pose proof (exec_approve_refused server old vk' p _ f' (v_set_fs f' v) Ho' Hvk') as H. rewrite Hl in H.
    apply H; [congruence|exact Hno].
Qed.
End Running.

Module PerfWitness.
Import Toy HandshakeWitness.

Lemma percentile_ranks_witness : exists x, percentile (sort_unstable [30; 10; 20]) 50 = Done x /\ x ∈ [30; 10; 20].
Proof.
  destruct (percentile_ranks [30; 10; 20] 50) as (x & H & Hin & _); [discriminate|lia|].
  exists x. split; [exact H|exact Hin].
Defined.

(** A server that cannot be reached, tried for two seconds. *)
Definition refused : dial_result := NoConnection false "Connection refused (os error 111)".
Definition slow_world : World :=
  world_of (v_set_host (set_clock 0 [0; 0; NANOS_PER_SEC; 0; NANOS_PER_SEC] demo_host) (demo_view [])).

Lemma perf_without_success_panics_witness : exists w',
  client_echo_perf (fun lo _ _ => lo) demo_ip csk (2 * NANOS_PER_SEC)
    [refused; refused; refused] slow_world = (Panic, w').
Proof.
  apply (perf_without_success_panics (fun lo _ _ => lo) demo_ip csk (2 * NANOS_PER_SEC)
    [refused; refused; refused] slow_world).
  - repeat (constructor; [eexists _, _; reflexivity|]). constructor.
  - repeat (constructor; [vm_compute; discriminate|]). constructor.
  - vm_compute. discriminate.
  - vm_compute. lia.
Defined.

(** The client had stored another key for the server. *)
Definition repinned : fs :=
  ok_or ∅ (server_map_write (files_with "old") map_path
    (server_map_insert demo_ip (key_hex the_server_hello) (map_with "old"))).

Lemma trusted_server_is_repinned_witness : exists v1,
  exec (approve_server_key demo_ip the_server_hello true) (vc_changed []) (Done server_vk) v1 /\
  exec (approve_server_key demo_ip the_server_hello false) v1 (Done server_vk) v1.
Proof.
  destruct (trusted_server_is_repinned demo_ip the_server_hello server_vk map_path (map_with "old")
    (files_with "old") repinned (vc_changed [])) as (v1 & H1 & _ & _ & _ & H2 & _).
  - apply map_opens. by right.
  - exact files_old_wf.
  - apply server_vk_ok.
  - vm_refl.
  - exists v1. split; [exact H1|exact H2].
Defined.
End PerfWitness.
