(* ===== verification/Cli.v ===== *)
(** src/bin/client.rs: the commands of the client program, between the key
    files, the catalog, the user and the exchanges with the server. Printing is
    left out; a command takes the address its host name and port resolve to. *)
From S2P Require Import Prelude F64 External RateLimit FileSys Lib World Exec Crypto Header Stores Net Handshake Auth Transfer Client Keys Serve Perf Sample Footprint.

Definition NO_KEYS : string := "No keys found, please run `rdrive key <args?>`.".
Definition MISSING_PRIVATE (what : string) : string :=
  "Public key exists but private key is missing, cannot " +:+ what +:+ ".".

(** The subcommands; the address and port of the source are the [SocketAddr]
    they resolve to. *)
Inductive ClientCommands : Type :=
| Key (server : SocketAddr) (rot auth : bool)
| Perf (server : SocketAddr) (n sample : Z)
| Push (file : path) (server : SocketAddr) (protocol : string) (file_key : option string)
| Pull (dir : option path) (server : SocketAddr) (protocol : string) (file_id file_key : option string)
| Backup
| Serve_
| Listen
| Ls
| Status_ (server : SocketAddr) (protocol : string).

Section Cli.
Context {AG : AesGcm} {HX : Hex} {SH : Sha2} {ED : Ed25519} {XD : X25519} {UU : Uuid} {CHR : Chrono}
  {PEH : Postcard ErrorHeader} {PWH : Postcard WarnHeader} {PCM : Postcard Command}
  {PUR : Postcard UploadResponse} {PDR : Postcard DownloadResponse} {PST : Postcard StatusHeader}
  {PED : Postcard EchoDebugHeader}
  {PCH : Postcard ClientHello} {PSH : Postcard ServerHello} {JS : Json AuthServerMap} {JC : Json Catalog}.
Variable short : Z -> Z.
(** The working directory. *)
Variable cwd : path.
(** What the performance test draws and how its connection attempts go. *)
Variable random_range : Z -> Z -> bytes -> Z.
Variable dials : list dial_result.

Definition uuid_new_v4 : M string := let* b := fill_bytes 16 in ret (uuid_v4_simple b).

(** The two keys of an existing pair. *)
Definition parse_pair (pri_hex pub_hex : string) : M (bytes * VerifyingKey) :=
  let* pri_key_bytes := lift_result (key_of_hex "Invalid old private key length: " pri_hex) in
  let* pub_key_bytes := lift_result (key_of_hex "Invalid old public key length: " pub_hex) in
  let* public_key := lift_result (vk_try_from pub_key_bytes) in
  ret (pri_key_bytes, public_key).

(** The signing key of every other command. *)
Definition load_signing_key (private_key_path : path) : M bytes :=
  let* hex := read_text private_key_path in
  lift_result (key_of_hex "Invalid private key length: " hex).

Definition key_command (user_path : path) (server : SocketAddr) (rot auth : bool) : M unit :=
  let private_key_path := join user_path PRIVATE_KEY_FILE in
  let public_key_path := join user_path PUBLIC_KEY_FILE in
  let* pri_exists := gets_fs (fun f => exists_ f private_key_path) in
  let* pub_exists := gets_fs (fun f => exists_ f public_key_path) in
  let* existing_keys :=
    if pri_exists && pub_exists then
      let* pri := read_text private_key_path in
      let* pub := read_text public_key_path in
      ret (Some (pri, pub))
    else ret None in
  if rot then
    match existing_keys with
    | None => throw "No existing keys, cannot rotate."
    | Some (old_pri_hex, old_pub_hex) =>
      let* (signing_key, old_public_key) := parse_pair old_pri_hex old_pub_hex in
      let* (new_pri, new_pub) := generate_ed25519_keypair in
      auth_client server signing_key new_pub (Some old_public_key) ;;;
      save_keys user_path (encode new_pri) (encode (vk_to_bytes new_pub))
    end
  else
    let* (signing_key, verifying_key) :=
      match existing_keys with
      | Some (pri_hex, pub_hex) => parse_pair pri_hex pub_hex
      | None =>
        let* (prikey, pubkey) := generate_ed25519_keypair in
        save_keys user_path (encode prikey) (encode (vk_to_bytes pubkey)) ;;;
        ret (prikey, pubkey)
      end in
    if auth then auth_client server signing_key verifying_key None else ret tt.

(** A line the user must not leave empty. *)
Definition prompt (empty_message : string) : M string :=
  let* input := read_line in
  if str_is_empty (trim_str input) then exit_1 empty_message else ret (trim_str input).

(** Which id a push of [file_name] uses: a fresh one, or one the user picks
    among those tracked under the name. *)
Definition choose_id (file_name : string) (catalog : Catalog) : M string :=
  match file_index catalog !! file_name with
  | Some tracked =>
    lift_result (match filter (fun uuid => file_map catalog !! uuid = None) tracked with
                 | [] => Ok tt
                 | uuid :: _ => Err ("Couldn't find in file map " +:+ uuid)
                 end) ;;;
    let* input := read_line in
    match parse_uint (U64_MOD - 1) (trim_str input) with
    | None => throw "Invalid input, expected a number"
    | Some n =>
      if n =? 0 then uuid_new_v4
      else if n <=? zlen tracked then
        lift (match tracked !! Z.to_nat (n - 1) with Some id => Done id | None => Panic end)
      else exit_1 "Invalid input, number out of range"
    end
  | None => uuid_new_v4
  end.

(** [todo!(..)]. *)
Definition todo {A} : M A := lift Panic.

(** [Duration::from_mins], in ns. *)
Definition from_mins (mins : Z) : outcome Z :=
  if U64_MOD <=? mins * 60 then Panic else Done (mins * 60 * NANOS_PER_SEC).

Definition perf_command (user_path : path) (server : SocketAddr) (n sample : Z) : M PerfReport :=
  let* pri_exists := gets_fs (fun f => exists_ f (join user_path PRIVATE_KEY_FILE)) in
  let* pub_exists := gets_fs (fun f => exists_ f (join user_path PUBLIC_KEY_FILE)) in
  if negb pri_exists && negb pub_exists then exit_1 NO_KEYS
  else
    let* signing_key := load_signing_key (join user_path PRIVATE_KEY_FILE) in
    let* sample_duration := lift (from_mins sample) in
    client_echo_perf random_range server signing_key sample_duration dials.

Definition push_command (user_path : path) (catalog_path : path) (file : path) (server : SocketAddr)
    (protocol : string) (file_key : option string) : M unit :=
  let* pri_exists := gets_fs (fun f => exists_ f (join user_path PRIVATE_KEY_FILE)) in
  let* pub_exists := gets_fs (fun f => exists_ f (join user_path PUBLIC_KEY_FILE)) in
  if negb pri_exists && negb pub_exists then exit_1 NO_KEYS
  else
    let* signing_key := load_signing_key (join user_path PRIVATE_KEY_FILE) in
    let* file_exists := gets_fs (fun f => exists_ f file) in
    if negb file_exists then exit_1 "File not found"
    else
      let* file_key := match file_key with
                       | Some key => ret key
                       | None => prompt "File key cannot be empty"
                       end in
      let* name := lift_result (match file_name file with
                                | Some n => Ok n | None => Err "Invalid file name" end) in
      let* catalog := catalog_read_or_create catalog_path in
      let* file_id := choose_id name catalog in
      (if String.eqb protocol "v1" then
         let* _ := upload_client short file file_key file_id server signing_key in ret tt
       else if String.eqb protocol "v2" then todo
       else exit_1 ("Unknown protocol: " +:+ protocol)) ;;;
      let* _ := update_on_push catalog_path name file_id catalog in
      ret tt.

Definition pull_command (user_path : path) (catalog_path : path) (dir : option path) (server : SocketAddr)
    (protocol : string) (file_id file_key : option string) : M unit :=
  let* pri_exists := gets_fs (fun f => exists_ f (join user_path PRIVATE_KEY_FILE)) in
  let* pub_exists := gets_fs (fun f => exists_ f (join user_path PUBLIC_KEY_FILE)) in
  if negb pri_exists && pub_exists then exit_1 (MISSING_PRIVATE "pull")
  else
    let* signing_key := load_signing_key (join user_path PRIVATE_KEY_FILE) in
    let* (file_id, file_key) :=
      match file_id, file_key with
      | Some id, Some key => ret (id, key)
      | _, _ =>
        let* id := prompt "File ID cannot be empty" in
        let* key := prompt "File key cannot be empty" in
        ret (id, key)
      end in
    if String.eqb protocol "v1" then
      let* _ := download_client cwd dir file_id file_key server signing_key in
      let* has_catalog := gets_fs (fun f => exists_ f catalog_path) in
      if has_catalog then
        let* catalog := catalog_read_or_create catalog_path in
        let* _ := update_on_pull catalog_path file_id catalog in ret tt
      else ret tt
    else if String.eqb protocol "v2" then todo
    else exit_1 ("Unknown protocol: " +:+ protocol).

(** The catalog [ls] prints. *)
Definition ls_command (catalog_path : path) : M Catalog :=
  map_throw "Failed to read catalog, make sure to push at least one file before listing: "
    (catalog_read_or_create catalog_path).

(** The status [status] prints. *)
Definition status_command (user_path : path) (server : SocketAddr) (protocol : string) : M StatusHeader :=
  let* pri_exists := gets_fs (fun f => exists_ f (join user_path PRIVATE_KEY_FILE)) in
  let* pub_exists := gets_fs (fun f => exists_ f (join user_path PUBLIC_KEY_FILE)) in
  if negb pri_exists && pub_exists then exit_1 (MISSING_PRIVATE "status")
  else
    let* signing_key := load_signing_key (join user_path PRIVATE_KEY_FILE) in
    if String.eqb protocol "v1" then get_server_status server signing_key
    else if String.eqb protocol "v2" then todo
    else exit_1 ("Unknown protocol: " +:+ protocol).

Definition client_main (command : option ClientCommands) : M unit :=
  let* home := gets (fun w => h_home (host w)) in
  let* user_path := lift_result (get_user_key_dir home) in
  match command with
  | Some (Key server rot auth) => key_command user_path server rot auth
  | Some (Perf server n sample) => let* _ := perf_command user_path server n sample in ret tt
  | Some (Push file server protocol file_key) =>
    let* catalog_path := lift_result (get_catalog_path home) in
    push_command user_path catalog_path file server protocol file_key
  | Some (Pull dir server protocol file_id file_key) =>
    let* catalog_path := lift_result (get_catalog_path home) in
    pull_command user_path catalog_path dir server protocol file_id file_key
  | Some Ls =>
    let* catalog_path := lift_result (get_catalog_path home) in
    let* _ := ls_command catalog_path in ret tt
  | Some (Status_ server protocol) => let* _ := status_command user_path server protocol in ret tt
  | Some Backup => todo
  | Some Serve_ => todo
  | Some Listen => todo
  | None => ret tt
  end.

(** * What the client's exchanges do to the client's disk *)

Section ClientFiles.
Variable home : path.
Definition user_root : path := home ++ [".rdrive"; "user"]%string.
Definition map_file : path := user_root ++ ["server.map"%string].
Definition catalog_file : path := user_root ++ ["catalog.map"%string].

Lemma get_map_path : get_authorized_server_map_path (Some home) = Ok map_file.
Proof.
  unfold get_authorized_server_map_path, get_user_key_dir, in_home, map_file, user_root. done.
Qed.

Section Relation.
Context (R : fs -> fs -> Prop) `{!PreOrder R}.
Hypothesis Rdir : forall f f', create_dir_all f user_root = Ok f' -> R f f'.
Hypothesis Rmap : forall f m f', server_map_write f map_file m = Ok f' -> R f f'.

Lemma keeps_bind_ok {A B} (r : result A) (k : A -> M B) a : r = Ok a ->
  keeps (on_files home R) (k a) -> keeps (on_files home R) (bind (lift_result r) k).
Proof. intros -> H w. unfold bind, lift_result, lift. simpl. apply H. Qed.

Lemma on_files_read_line : keeps (on_files home R) read_line.
Proof. unfold read_line. on_files_auto. Qed.
#[local] Hint Resolve on_files_read_line : rd_keeps.

Lemma on_files_save_map m : keeps (on_files home R) (save_server_map m).
Proof.
  unfold save_server_map. apply on_files_home. eapply keeps_bind_ok; [apply get_map_path|].
  apply on_files_op; [apply _|]. intros f f'. apply Rmap.
Qed.
#[local] Hint Resolve on_files_save_map : rd_keeps.

Lemma on_files_open_map : keeps (on_files home R) (server_map_read_or_create map_file).
Proof.
  unfold server_map_read_or_create. destruct map_file as [|c q] eqn:E; [apply keeps_throw, _|].
  apply keeps_bind; [apply _| |intros _; on_files_auto]. apply on_files_op; [apply _|]. intros f f'.
  rewrite <- E. unfold map_file. rewrite parent_snoc. apply Rdir.
Qed.
#[local] Hint Resolve on_files_open_map : rd_keeps.

Lemma on_files_approve ip sh t : keeps (on_files home R) (approve_server_key ip sh t).
Proof.
  unfold approve_server_key. apply on_files_home. eapply keeps_bind_ok; [apply get_map_path|]. on_files_auto.
Qed.
#[local] Hint Resolve on_files_approve : rd_keeps.

Lemma on_files_client_handshake ip sk t : keeps (on_files home R) (client_handshake_helper ip sk t).
Proof. unfold client_handshake_helper, generate_x25519_keypair, array_of. cbv zeta. on_files_auto. Qed.
#[local] Hint Resolve on_files_client_handshake : rd_keeps.

Lemma on_files_auth_client ip sk pk old : keeps (on_files home R) (auth_client ip sk pk old).
Proof. unfold auth_client, auth_request. cbv zeta. on_files_auto. Qed.

Lemma keeps_client_send p : keeps same_host (client_send p).
Proof. unfold client_send, context. keeps_auto. Qed.
#[local] Hint Resolve keeps_client_send : rd_keeps.

Lemma on_files_upload_client file key id ip sk : keeps (on_files home R) (upload_client short file key id ip sk).
Proof.
  unfold upload_client, upload_request, upload_stream, open_reads, check_flag. cbv zeta. on_files_auto.
  all: apply on_files_send_chunks; [apply _|apply keeps_client_send].
Qed.
End Relation.
End ClientFiles.

(** Runs the first statement of [H], which keeps the relation [H0] says has
    been kept so far; [t] deals with a run that ends there, with [Hk] and [Hno]
    for what was kept and that nothing was returned. *)
Tactic Notation "kept" hyp(H) hyp(H0) "as" simple_intropattern(a) simple_intropattern(w) simple_intropattern(E)
    "or" tactic3(t) :=
  let H1 := fresh in let H2 := fresh in
  match type of H0 with
  | ?P _ _ => apply (bind_cases P _ _ _ _ _ _ H0) in H as [[Hk Hno]|(a & w & E & H2 & H1)];
    [solve [t]|clear H0; rename H2 into H0; rename H1 into H|..]
  end.

(** * Pushing *)

Section Push.
Context {HXL : HexLaws} {JCL : JsonLaws Catalog}.
Variable home : path.

Lemma read_text_done p b w : p <> [] -> h_fs (host w) !! p = Some (File b) ->
  read_text p w = (Done (String.string_of_list_byte b), w).
Proof.
  intros Hp Hf. unfold read_text, gets_fs, gets, bind, lift_result, lift. by rewrite (read_to_string_file _ _ _ Hp Hf).
Qed.

(** The catalog stays as it is. *)
Definition same_catalog (f f' : fs) : Prop := f' !! catalog_file home = f !! catalog_file home.
#[local] Instance same_catalog_preorder : PreOrder same_catalog.
Proof. split; unfold same_catalog; [done|intros f1 f2 f3; congruence]. Qed.
#[local] Hint Resolve same_catalog_preorder : rd_keeps.

Lemma dirs_not_below f d x f' : create_dir_all f d = Ok f' -> f' !! (d ++ [x]) = f !! (d ++ [x]).
Proof.
  intros [[Hold Hnew] _]%create_dir_all_ok. destruct (f !! (d ++ [x])) as [n|] eqn:E; [by apply Hold|].
  destruct (f' !! (d ++ [x])) as [n|] eqn:E'; [|done].
  destruct (Hnew _ _ E') as [|[_ [_ [r Hr]]%elem_of_prefixes]]; [congruence|].
  apply (f_equal length) in Hr. rewrite !length_app in Hr. simpl in Hr. lia.
Qed.

Lemma same_catalog_dir f f' : create_dir_all f (user_root home) = Ok f' -> same_catalog f f'.
Proof. apply dirs_not_below. Qed.

Lemma map_file_ne x : x <> "server.map"%string -> map_file home <> user_root home ++ [x].
Proof. intros Hx [_ E]%app_inj_tail. by apply Hx. Qed.

Lemma server_map_write_same f m f' x : x <> "server.map"%string -> server_map_write f (map_file home) m = Ok f' ->
  f' !! (user_root home ++ [x]) = f !! (user_root home ++ [x]).
Proof.
  intros Hx. unfold server_map_write. destruct (to_string_pretty m); [|done]. intros [-> _]%write_file_ok.
  apply lookup_insert_ne. by apply map_file_ne.
Qed.

Lemma on_files_open_catalog R `{!PreOrder R} : (forall f f', create_dir_all f (user_root home) = Ok f' -> R f f') ->
  keeps (on_files home R) (catalog_read_or_create (catalog_file home)).
Proof.
  intros H. unfold catalog_read_or_create. destruct (catalog_file home) as [|c q] eqn:E; [apply keeps_throw, _|].
  apply keeps_bind; [apply _| |intros _; on_files_auto]. apply on_files_op; [apply _|]. intros f f'.
  rewrite <- E. unfold catalog_file. rewrite parent_snoc. apply H.
Qed.

(** The catalog a push starts from. *)
Definition opened (f : fs) (c : Catalog) : Prop :=
  catalog_read f (catalog_file home) = Ok c \/ f !! catalog_file home = None /\ c = empty_catalog.

Lemma catalog_file_nonempty : catalog_file home <> [].
Proof. unfold catalog_file. by destruct (user_root home). Qed.

Lemma catalog_read_ext f f' : f' !! catalog_file home = f !! catalog_file home ->
  catalog_read f' (catalog_file home) = catalog_read f (catalog_file home).
Proof.
  intros H. unfold catalog_read, read_to_string, read_file.
  rewrite !lookup_node_nonempty by apply catalog_file_nonempty. by rewrite H.
Qed.

Lemma catalog_open_inv w c w' : catalog_read_or_create (catalog_file home) w = (Done c, w') ->
  opened (h_fs (host w)) c.
Proof.
  pose proof catalog_file_nonempty as Hne. unfold catalog_read_or_create.
  destruct (catalog_file home) as [|x q] eqn:E; [done|]. rewrite <- E. intros H.
  binv H as u w1 E1. assert (h_fs (host w1) !! catalog_file home = h_fs (host w) !! catalog_file home) as Hsame.
  { unfold fs_op in E1. destruct (create_dir_all _ _) as [f|] eqn:Ef; [|done]. injection E1 as _ <-.
    unfold catalog_file in Ef. rewrite parent_snoc in Ef. by apply (dirs_not_below _ _ "catalog.map"%string) in Ef. }
  binv H as b w2 E2. unfold gets_fs, gets in E2. injection E2 as <- <-.
  destruct (exists_ (h_fs (host w1)) (catalog_file home)) eqn:Eb.
  - binv H as r w3 E3. unfold gets_fs, gets in E3. injection E3 as <- <-.
    apply lift_result_done_inv in H as [H _]. left. by rewrite <- (catalog_read_ext _ _ Hsame).
  - injection H as <- _. right. split; [|done]. unfold exists_ in Eb. apply bool_decide_eq_false in Eb.
    rewrite lookup_node_nonempty in Eb by (by rewrite E). rewrite <- Hsame. by destruct (h_fs (host w1) !! _) eqn:?; [destruct Eb|].
Qed.

Lemma client_main_push file server protocol fk w : h_home (host w) = Some home ->
  client_main (Some (Push file server protocol fk)) w =
  push_command (user_root home) (catalog_file home) file server protocol fk w.
Proof. intros Hh. unfold client_main, bind at 1, gets. by rewrite Hh. Qed.

Lemma update_on_push_end name id c w o w' : update_on_push (catalog_file home) name id c w = (o, w') ->
  (h_fs (host w') !! catalog_file home = h_fs (host w) !! catalog_file home /\ forall c', o <> Done c') \/
  exists now, o = Done (catalog_push (fmt_local now) name id c) /\
    catalog_read (h_fs (host w')) (catalog_file home) = Ok (catalog_push (fmt_local now) name id c).
Proof.
  unfold update_on_push, bind. destruct (instant_now w) as [o1 w1] eqn:E1.
  pose proof (keeps_done _ _ _ _ _ (keeps_fs_instant_now eq) E1) as Hf. unfold fs_rel in Hf. rewrite Hf.
  assert (exists now, o1 = Done now) as [now ->].
  { unfold instant_now in E1. destruct (h_ticks (host w)); injection E1 as <- _; eauto. }
  unfold fs_op. destruct (catalog_write _ _ _) as [f|e] eqn:Ew; intros [= <- <-]; [right|left; by split].
  exists now. split; [done|]. by apply catalog_write_ok in Ew as [? _].
Qed.

(** A push that does not end well leaves the catalog as it was. *)
Lemma push_keeps_catalog file server protocol file_key w w' o : h_home (host w) = Some home ->
  client_main (Some (Push file server protocol file_key)) w = (o, w') ->
  h_fs (host w') !! catalog_file home = h_fs (host w) !! catalog_file home \/ o = Done tt.
Proof.
  intros Hh H. assert (on_files home same_catalog w w) as H0 by reflexivity.
  rewrite (client_main_push _ _ _ _ _ Hh) in H. unfold push_command in H.
  kept H H0 as pri_exists w1 E1 or (left; by apply Hk); [|apply keeps_gets, _].
  kept H H0 as pub_exists w2 E2 or (left; by apply Hk); [|apply keeps_gets, _].
  destruct (negb pri_exists && negb pub_exists); [injection H as <- <-; left; by apply H0|].
  kept H H0 as sk w3 E3 or (left; by apply Hk); [|unfold load_signing_key, read_text; on_files_auto].
  kept H H0 as file_exists w4 E4 or (left; by apply Hk); [|apply keeps_gets, _].
  destruct (negb file_exists); [injection H as <- <-; left; by apply H0|].
  kept H H0 as key w5 E5 or (left; by apply Hk); [|unfold prompt, exit_1, read_line; on_files_auto].
  kept H H0 as name w6 E6 or (left; by apply Hk); [|apply keeps_lift_result, _].
  kept H H0 as c w7 E7 or (left; by apply Hk); [|apply on_files_open_catalog; [apply _|apply same_catalog_dir]].
  kept H H0 as id w8 E8 or (left; by apply Hk); [|unfold choose_id, uuid_new_v4, exit_1, read_line; on_files_auto].
  kept H H0 as u w9 E9 or (left; by apply Hk); [|destruct (protocol =? "v1")%string; [|unfold todo, exit_1; on_files_auto];
    apply keeps_bind; [apply _| |intros ?; apply keeps_ret, _];
    apply on_files_upload_client; [apply _|apply same_catalog_dir|intros f m f'; by apply server_map_write_same]].
  destruct (update_on_push (catalog_file home) name id c w9) as [o1 w10] eqn:E10.
  unfold bind in H. rewrite E10 in H. destruct (H0 Hh) as [_ H9]. rewrite <- H9.
  destruct (update_on_push_end _ _ _ _ _ _ E10) as [[Hsame Hno]|(now & -> & _)]; [left|right; by injection H as <- _].
  destruct o1 as [c'|e| |]; injection H as _ <-; exact Hsame.
Qed.

(** The file key: given on the command line, or the next line typed. *)
Definition typed_key (file_key : option string) (lines : list string) (key : string) (rest : list string) : Prop :=
  match file_key with
  | Some k => key = k /\ rest = lines
  | None => exists line, lines = line :: rest /\ key = trim_str line /\ str_is_empty key = false
  end.

(** The id of a push of [name], with [fresh] the identifier the generator
    would make next: what is left of the lines typed, and how many bytes the
    generator was asked for. A name pushed for the first time gets the fresh id;
    for a name with tracked ids the user types 0 for a fresh one or [n] for the
    [n]th. *)
Inductive picked (name : string) (c : Catalog) (fresh : string) : list string -> string -> list string -> nat -> Prop :=
| picked_first lines : file_index c !! name = None -> picked name c fresh lines fresh lines 16
| picked_fresh tracked line rest : file_index c !! name = Some tracked ->
    Forall (fun id => file_map c !! id <> None) tracked -> parse_uint (U64_MOD - 1) (trim_str line) = Some 0 ->
    picked name c fresh (line :: rest) fresh rest 16
| picked_tracked tracked line rest n id : file_index c !! name = Some tracked ->
    Forall (fun id => file_map c !! id <> None) tracked -> parse_uint (U64_MOD - 1) (trim_str line) = Some n ->
    1 <= n -> tracked !! Z.to_nat (n - 1) = Some id -> picked name c fresh (line :: rest) id rest 0.

(** The state once files, lines and random bytes were used. *)
Definition used (f : fs) (lines : list string) (random : nat) (w : World) : World :=
  {| conn := set_rng_pos (rng_pos (conn w) + random)%nat (conn w); host := set_stdin lines (set_fs f (host w)) |}.

Lemma load_key_done sk w : zlen sk = 32 ->
  h_fs (host w) !! private_path (user_root home) = Some (File (as_bytes (encode sk))) ->
  load_signing_key (private_path (user_root home)) w = (Done sk, w).
Proof.
  intros Hl Hk. unfold load_signing_key. erewrite bind_done by (apply read_text_done; [apply snoc_nonempty|exact Hk]).
  by rewrite key_of_hex_file.
Qed.

Lemma used_again f lines rest n w : used f rest n (on_host (set_fs f) (used (h_fs (host w)) lines 0 w)) = used f rest n w.
Proof. unfold used, on_host. simpl. by rewrite Nat.add_0_r. Qed.

Lemma used_random g lines f w : next_random 16 (conn (on_host (set_fs f) (used g lines 0 w))) = next_random 16 (conn w).
Proof. unfold used. cbn. by rewrite Nat.add_0_r. Qed.

Lemma used_nothing w : used (h_fs (host w)) (h_stdin (host w)) 0 w = w.
Proof. destruct w as [[] []]. unfold used. simpl. by rewrite Nat.add_0_r. Qed.

(** What a push needs: a signing key, the file, its key, the catalog and an id. *)
Record push_ready (w : World) (file : path) (file_key : option string)
    (sk : bytes) (key name id : string) (c : Catalog) (f : fs) (rest : list string) (random : nat) : Prop := {
  pr_key : h_fs (host w) !! private_path (user_root home) = Some (File (as_bytes (encode sk)));
  pr_key_len : zlen sk = 32;
  pr_file : exists_ (h_fs (host w)) file = true;
  pr_name : file_name file = Some name;
  pr_dir : create_dir_all (h_fs (host w)) (user_root home) = Ok f;
  pr_catalog : opened (h_fs (host w)) c;
  pr_typed : exists lines, typed_key file_key (h_stdin (host w)) key lines /\
    picked name c (uuid_v4_simple (next_random 16 (conn w))) lines id rest random;
}.

Lemma typed_key_done fk key lines w : typed_key fk (h_stdin (host w)) key lines ->
  (match fk with Some k => ret k | None => prompt "File key cannot be empty" end) w =
    (Done key, used (h_fs (host w)) lines 0 w).
Proof.
  destruct fk as [k|]; simpl.
  - intros [-> ->]. by rewrite used_nothing.
  - intros (line & E & -> & He). unfold prompt, read_line, bind, gets, modify_host. rewrite E. simpl. rewrite He.
    destruct w as [[] []]. unfold used, on_host, ret. simpl. by rewrite Nat.add_0_r.
Qed.

Lemma open_catalog_done c f w : create_dir_all (h_fs (host w)) (user_root home) = Ok f -> opened (h_fs (host w)) c ->
  catalog_read_or_create (catalog_file home) w = (Done c, on_host (set_fs f) w).
Proof.
  pose proof catalog_file_nonempty as Hne. intros Hd Ho.
  pose proof (same_catalog_dir _ _ Hd) as Hsame. unfold same_catalog in Hsame.
  unfold catalog_read_or_create. destruct (catalog_file home) as [|x q] eqn:E; [done|]. rewrite <- E in *. clear E.
  erewrite bind_done; [|unfold fs_op, catalog_file; rewrite parent_snoc, Hd; reflexivity].
  erewrite bind_done by reflexivity. cbn [host on_host h_fs set_fs].
  destruct Ho as [Hr|[Hn ->]].
  - assert (exists n, h_fs (host w) !! catalog_file home = Some n) as [n En].
    { unfold catalog_read, read_to_string, read_file in Hr. rewrite lookup_node_nonempty in Hr by done.
      destruct (h_fs (host w) !! catalog_file home); [eauto|done]. }
    rewrite (exists_true _ _ n) by (by rewrite ?Hsame). erewrite bind_done by reflexivity.
    cbn [host on_host h_fs set_fs]. by rewrite (catalog_read_ext _ _ Hsame), Hr.
  - by rewrite exists_false by (by rewrite ?Hsame).
Qed.

Lemma fresh_done w : uuid_new_v4 w = (Done (uuid_v4_simple (next_random 16 (conn w))),
  on_conn (fun c => set_rng_pos (rng_pos c + 16)%nat c) w).
Proof. done. Qed.

Lemma choose_id_done name c id rest random w :
  picked name c (uuid_v4_simple (next_random 16 (conn w))) (h_stdin (host w)) id rest random ->
  choose_id name c w = (Done id, used (h_fs (host w)) rest random w).
Proof.
  assert (forall tracked, Forall (fun id => file_map c !! id <> None) tracked ->
    filter (fun uuid => file_map c !! uuid = None) tracked = []) as Hnone.
  { intros tracked. induction 1 as [|x l Hx _ IH]; [done|]. by rewrite filter_cons, decide_False. }
  intros H. inversion H as [lines Hi|tracked line ? Hi Ha Hn|tracked line ? n ? Hi Ha Hn Hn1 Ht]; subst;
    unfold choose_id; rewrite Hi.
  - rewrite fresh_done. by destruct w as [[] []].
  - rewrite (Hnone _ Ha). unfold read_line, lift_result, lift, bind at 1 2 3 4, gets, modify_host. simpl of_result.
    match goal with E : _ :: _ = h_stdin _ |- _ => rewrite <- E end. cbn [ret]. rewrite Hn. cbn [Z.eqb].
    rewrite fresh_done. by destruct w as [[] []].
  - rewrite (Hnone _ Ha). unfold read_line, lift_result, lift, bind at 1 2 3 4, gets, modify_host. simpl of_result.
    match goal with E : _ :: _ = h_stdin _ |- _ => rewrite <- E end. cbn [ret]. rewrite Hn.
    assert (n <= zlen tracked) by (apply lookup_lt_Some in Ht; unfold zlen; lia).
    rewrite (proj2 (Z.eqb_neq n 0)), (proj2 (Z.leb_le n _)), Ht by lia.
    destruct w as [[] []]. unfold used, on_host. simpl. by rewrite Nat.add_0_r.
Qed.
(** What the upload does to the client's files: the catalog and its directory stay. *)
Definition pushed_files (f f' : fs) : Prop := same_catalog f f' /\
  (lookup_node f (user_root home) = Some Dir -> lookup_node f' (user_root home) = Some Dir).
#[local] Instance pushed_files_preorder : PreOrder pushed_files.
Proof. split; unfold pushed_files; [by split|intros f1 f2 f3 [H1 H2] [H3 H4]; split; [by etrans|auto]]. Qed.

Lemma user_dir_made f f' : create_dir_all f (user_root home) = Ok f' -> lookup_node f' (user_root home) = Some Dir.
Proof. intros [_ H%bool_decide_eq_true]%create_dir_all_ok. exact H. Qed.

Lemma pushed_files_map f m f' : server_map_write f (map_file home) m = Ok f' -> pushed_files f f'.
Proof.
  intros H. split; [by eapply (server_map_write_same _ _ _ "catalog.map"%string)|].
  unfold server_map_write in H. destruct (to_string_pretty m); [|done]. apply write_file_ok in H as (-> & _ & Hne & _).
  intros Hd. rewrite lookup_node_insert, decide_False; [done| |done].
  intros E%(f_equal length). unfold map_file in E. rewrite length_app in E. simpl in E. lia.
Qed.

Lemma on_files_push file key id server sk : keeps (on_files home pushed_files) (upload_client short file key id server sk).
Proof.
  apply on_files_upload_client; [apply _| |intros f m f'; apply pushed_files_map].
  intros f f' H. split; [by apply same_catalog_dir|intros _; by eapply user_dir_made].
Qed.

Lemma opened_not_dir f c : opened f c -> f !! catalog_file home <> Some Dir.
Proof.
  intros [H|[-> _]]; [|done]. intros E. unfold catalog_read, read_to_string, read_file in H.
  by rewrite lookup_node_nonempty, E in H by apply catalog_file_nonempty.
Qed.

(** Recording a push in a directory that is there cannot fail. *)
Lemma update_on_push_done name id c w : lookup_node (h_fs (host w)) (user_root home) = Some Dir ->
  h_fs (host w) !! catalog_file home <> Some Dir ->
  let c' := catalog_push (fmt_local (h_now (tick (host w)))) name id c in
  exists w', update_on_push (catalog_file home) name id c w = (Done c', w') /\
    catalog_read (h_fs (host w')) (catalog_file home) = Ok c'.
Proof.
  intros Hd Hf c'. assert (h_fs (tick (host w)) = h_fs (host w)) as Ht by (unfold tick; by destruct (h_ticks _)).
  destruct (to_string_pretty_total c') as [text Htext].
  assert (catalog_write (h_fs (tick (host w))) (catalog_file home) c' =
    Ok (<[catalog_file home := File (as_bytes text)]> (h_fs (host w)))) as Hw.
  { unfold catalog_write. rewrite Htext, Ht. apply write_file_total; [apply catalog_file_nonempty| |done].
    unfold catalog_file. by rewrite parent_snoc. }
  exists (on_host (fun h => set_fs (<[catalog_file home := File (as_bytes text)]> (h_fs (host w))) (tick h)) w).
  split; [|by apply catalog_write_ok in Hw as [? _]].
  unfold update_on_push. assert (instant_now w = (Done (h_now (tick (host w))), on_host tick w)) as Hi.
  { unfold instant_now, on_host, tick. destruct (h_ticks (host w)); [by destruct w|done]. }
  erewrite bind_done by exact Hi. unfold bind, fs_op. cbn [host on_host]. fold c'. by rewrite Hw.
Qed.

(** (C35) Pushing keeps the books. Whatever the user types and the server
    answers, a push that does not end well leaves the catalog as it was. When the
    key, the file and the catalog can be read, the command runs exactly one
    upload, with the file key given or typed, and under an id that is the next
    one of the generator for a name pushed for the first time or when the user
    asks for it, and otherwise the tracked id whose number the user typed. If
    the upload ends well the command does, and the catalog on disk is the one it
    opened with this upload recorded under that name and id, at the time after
    the upload; if not, the command ends as the upload did, where it did. *)
Theorem push_records (file : path) (server : SocketAddr) (protocol : string) (file_key : option string) (w : World) :
  h_home (host w) = Some home ->
  (let '(o, w') := client_main (Some (Push file server protocol file_key)) w in
   o <> Done tt -> h_fs (host w') !! catalog_file home = h_fs (host w) !! catalog_file home) /\
  forall sk key name id c f rest random, protocol = "v1"%string -> push_ready w file file_key sk key name id c f rest random ->
    let '(answer, w1) := upload_client short file key id server sk (used f rest random w) in
    let '(o, w') := client_main (Some (Push file server protocol file_key)) w in
    match answer with
    | Done _ => o = Done tt /\ catalog_read (h_fs (host w')) (catalog_file home) =
                  Ok (catalog_push (fmt_local (h_now (tick (host w1)))) name id c)
    | Throw e => o = Throw e /\ w' = w1
    | Panic => o = Panic /\ w' = w1
    | Hang => o = Hang /\ w' = w1
    end.
Proof.
  intros Hh. split.
  { destruct (client_main _ w) as [o w'] eqn:E. apply push_keeps_catalog in E as [H|H]; [done|done|done]. }
  intros sk key name id c f rest random -> [Hk Hl Hf Hn Hd Hc (lines & Ht & Hp)].
  rewrite (client_main_push _ _ _ _ _ Hh). unfold push_command.
  erewrite bind_done by reflexivity. erewrite bind_done by reflexivity. rewrite join_private.
  rewrite (exists_true _ (private_path _) _ (snoc_nonempty _ _) Hk). cbn [negb andb].
  erewrite bind_done by by apply load_key_done. erewrite bind_done by reflexivity. rewrite Hf. cbn [negb].
  erewrite bind_done by by apply typed_key_done. rewrite Hn. erewrite bind_done by reflexivity.
  erewrite bind_done by by apply open_catalog_done. cbv beta.
  erewrite bind_done; [|eapply (choose_id_done name c id rest random)]; [cbv beta|by rewrite used_random].
  rewrite used_again. rewrite String.eqb_refl.
  destruct (upload_client _ _ _ _ _ _ (used f rest random w)) as [answer w1] eqn:E.
  destruct (keeps_done _ _ _ _ _ (on_files_push _ _ _ _ _) E Hh) as [_ [Hs1 Hd1]]. cbn [used host h_fs set_fs set_stdin] in Hs1, Hd1.
  unfold bind at 1 2. rewrite E. destruct answer as [u|e| |]; [|done..]. cbn [ret].
  destruct (update_on_push_done name id c w1) as (w2 & Hu & Hr).
  { apply Hd1. by eapply user_dir_made. }
  { rewrite Hs1, (same_catalog_dir _ _ Hd). by eapply opened_not_dir. }
  erewrite bind_done by exact Hu. done.
Qed.
End Push.

(** * Rotating the client's key *)

Section Rotate.
Context {HXL : HexLaws} {EDL : Ed25519Laws}.
Variable home : path.

(** The key files stay, in a well-formed tree. *)
Definition same_keys (f f' : fs) : Prop := (fs_wf f -> fs_wf f') /\
  f' !! private_path (user_root home) = f !! private_path (user_root home) /\
  f' !! public_path (user_root home) = f !! public_path (user_root home).
#[local] Instance same_keys_preorder : PreOrder same_keys.
Proof.
  split; unfold same_keys; [done|]. intros f1 f2 f3 (H1 & H2 & H3) (H4 & H5 & H6).
  split_and!; [auto|congruence..].
Qed.
#[local] Hint Resolve same_keys_preorder : rd_keeps.

Lemma same_keys_pair f f' pri pub : same_keys f f' -> pair_at f (user_root home) pri pub ->
  pair_at f' (user_root home) pri pub.
Proof. intros (_ & H1 & H2) [Ha Hb Hl1 Hl2]. split; [by rewrite H1|by rewrite H2|done|done]. Qed.

Lemma same_keys_dir f f' : create_dir_all f (user_root home) = Ok f' -> same_keys f f'.
Proof.
  intros H. split; [intros Hwf; by eapply create_dir_all_wf|]. split; by apply (dirs_not_below _ _ _ _ H).
Qed.

Lemma same_keys_map f m f' : server_map_write f (map_file home) m = Ok f' -> same_keys f f'.
Proof.
  intros H. split.
  - intros Hwf. unfold server_map_write in H. destruct (to_string_pretty m); [|done]. by eapply write_file_wf.
  - by split; eapply server_map_write_same.
Qed.

Lemma parse_pair_done pri pub old w : zlen pri = 32 -> zlen pub = 32 -> vk_try_from pub = Ok old ->
  parse_pair (String.string_of_list_byte (as_bytes (encode pri))) (String.string_of_list_byte (as_bytes (encode pub))) w =
    (Done (pri, old), w).
Proof.
  intros Hl1 Hl2 Hold. unfold parse_pair. rewrite !key_of_hex_file by done. unfold bind, lift_result, lift. simpl.
  by rewrite Hold.
Qed.

Lemma generate_done w : generate_ed25519_keypair w =
  (Done (next_random 32 (conn w), verifying_key (next_random 32 (conn w))),
   on_conn (fun c => set_rng_pos (rng_pos c + 32)%nat c) w).
Proof.
  unfold generate_ed25519_keypair, bind, fill_bytes, lift_result, lift. by rewrite ed_verify_sign.
Qed.

Lemma client_main_key server rot auth w : h_home (host w) = Some home ->
  client_main (Some (Key server rot auth)) w = key_command (user_root home) server rot auth w.
Proof. intros Hh. unfold client_main, bind at 1, gets. by rewrite Hh. Qed.

Lemma read_pair_done p q a b w : p <> [] -> q <> [] -> h_fs (host w) !! p = Some (File a) -> h_fs (host w) !! q = Some (File b) ->
  (let* pri := read_text p in let* pub := read_text q in ret (Some (pri, pub))) w =
    (Done (Some (String.string_of_list_byte a, String.string_of_list_byte b)), w).
Proof.
  intros Hp Hq Ha Hb. erewrite bind_done by by apply read_text_done. by erewrite bind_done by by apply read_text_done.
Qed.

(** Where a pair is stored, saving another one cannot fail. *)
Lemma save_over_pair pri pub pri' pub' w : fs_wf (h_fs (host w)) -> pair_at (h_fs (host w)) (user_root home) pri pub ->
  zlen pri' = 32 -> zlen pub' = 32 ->
  exists w', save_keys (user_root home) (encode pri') (encode pub') w = (Done tt, w') /\
    pair_at (h_fs (host w')) (user_root home) pri' pub'.
Proof.
  intros Hwf [Ha Hb _ _] Hl1 Hl2. set (f := h_fs (host w)) in *.
  assert (lookup_node f (user_root home) = Some Dir) as Hd.
  { destruct (Hwf _ _ Ha) as [_ Hp]. unfold private_path in Hp. by rewrite parent_snoc in Hp. }
  unfold save_keys, bind, fs_op. fold f. rewrite create_dir_all_existing by done.
  rewrite join_private, join_public. cbn [host on_host h_fs set_fs].
  rewrite write_file_total; [|apply snoc_nonempty|by unfold private_path; rewrite parent_snoc|by rewrite Ha].
  cbn [host on_host h_fs set_fs]. rewrite write_file_total.
  - eexists. split; [done|]. cbn [host on_host h_fs set_fs]. by apply saved_pair.
  - apply snoc_nonempty.
  - unfold public_path. rewrite parent_snoc, lookup_node_insert by apply snoc_nonempty.
    rewrite decide_False; [done|]. intros E%(f_equal length). unfold private_path in E. rewrite length_app in E. simpl in E. lia.
  - rewrite lookup_insert_ne by apply key_paths_differ. by rewrite Hb.
Qed.

(** (C34) A rotation moves the key files with the server's answer. The command
    runs exactly one exchange, [auth_client] with the stored pair [pri], [pub]
    and a fresh key [new], right after it drew [new]. If that exchange reports
    success (a sealed answer with the flag of a success, or of a warning), the
    command succeeds and the two key files hold the new pair: there is no way
    for it to fail between the answer and the files. If it ends in any other
    way, the command ends in that way and the two files still hold the old
    pair. So the client is locked out only when the server's answer does not
    reach it, or is not what the server did. *)
Theorem rotation_follows_answer (server : SocketAddr) (auth : bool) (pri pub : bytes) (old : VerifyingKey) (w : World) :
  h_home (host w) = Some home -> fs_wf (h_fs (host w)) -> pair_at (h_fs (host w)) (user_root home) pri pub ->
  vk_try_from pub = Ok old ->
  let new := next_random 32 (conn w) in
  let '(answer, w1) := auth_client server pri (verifying_key new) (Some old)
                         (on_conn (fun c => set_rng_pos (rng_pos c + 32)%nat c) w) in
  let '(o, w') := client_main (Some (Key server true auth)) w in
  match answer with
  | Done _ => o = Done tt /\ pair_at (h_fs (host w')) (user_root home) new (vk_to_bytes (verifying_key new))
  | _ => o = answer /\ w' = w1 /\ pair_at (h_fs (host w')) (user_root home) pri pub
  end.
Proof.
  intros Hh Hwf Hp Hold new. set (w0 := on_conn _ w).
  rewrite (client_main_key _ _ _ _ Hh). unfold key_command. rewrite join_private, join_public.
  pose proof Hp as [Ha Hb Hl1 Hl2].
  erewrite bind_done by reflexivity. erewrite bind_done by reflexivity.
  rewrite (exists_true _ (private_path _) _ (snoc_nonempty _ _) Ha), (exists_true _ (public_path _) _ (snoc_nonempty _ _) Hb).
  cbn [andb]. erewrite bind_done by exact (read_pair_done _ _ _ _ _ (snoc_nonempty _ _) (snoc_nonempty _ _) Ha Hb). cbv beta iota.
  erewrite bind_done by (by apply parse_pair_done). cbv beta iota.
  erewrite bind_done by apply generate_done. cbv beta iota. fold new w0.
  unfold bind. destruct (auth_client _ _ _ _ w0) as [answer w1] eqn:E.
  pose proof (keeps_done _ _ _ _ _ (on_files_auth_client home same_keys same_keys_dir same_keys_map _ _ _ _) E Hh) as [_ Hs].
  assert (pair_at (h_fs (host w1)) (user_root home) pri pub) as Hp1 by by eapply same_keys_pair.
  destruct answer as [u|e| |]; [|by split_and!..]. clear E.
  destruct (save_over_pair pri pub new (vk_to_bytes (verifying_key new)) w1) as (w9 & Hsave & Hpair);
    [by apply Hs|exact Hp1|by apply next_random_len|apply vk_len|].
  rewrite Hsave. by split.
Qed.
End Rotate.
End Cli.

Module CliWitness.
Import Toy AuthWitness FootprintWitness.

(** A client with a pair of keys. *)
Definition client_dirs : fs := ok_or ∅ (create_dir_all demo_fs (user_root home)).
Definition client_fs : fs :=
  <[public_path (user_root home) := File (as_bytes (encode (vk_to_bytes vk)))]>
    (<[private_path (user_root home) := File (as_bytes (encode csk))]> client_dirs).
Definition client_world : World := world_of (server_view client_fs []).

Lemma client_fs_wf : fs_wf client_fs.
Proof.
  apply save_keys_wf.
  - apply fs_wf_ok_or. intros f H. eapply create_dir_all_wf; [apply demo_fs_wf|exact H].
  - vm_refl.
  - assert (client_dirs !! private_path (user_root home) = None) as E by vm_refl.
    intros H. discriminate (eq_trans (eq_sym E) H).
  - assert (client_dirs !! public_path (user_root home) = None) as E by vm_refl.
    intros H. discriminate (eq_trans (eq_sym E) H).
Qed.

Lemma client_pair : pair_at client_fs (user_root home) csk (vk_to_bytes vk).
Proof. apply saved_pair; [reflexivity|apply vk_len]. Qed.

(** It pushes a file for the first time, and nobody answers. *)
Definition note : path := home ++ ["a.txt"%string].
Definition note_fs : fs := <[note := File (as_bytes "abc")]> client_fs.
Definition note_world : World := world_of (server_view note_fs []).
Definition note_id : string := uuid_v4_simple (next_random 16 (conn note_world)).

Lemma note_ready : push_ready home note_world note (Some "key"%string) csk "key" "a.txt" note_id empty_catalog note_fs [] 16.
Proof.
  split.
  - vm_refl.
  - reflexivity.
  - vm_refl.
  - reflexivity.
  - vm_refl.
  - right. split; [vm_refl|reflexivity].
  - exists []. split; [by split|]. by constructor.
Qed.

Definition push_exchanged : outcome string * World :=
  upload_client full_reads note "key" note_id demo_ip csk (used note_fs [] 16 note_world).
Definition pushed : outcome unit * World :=
  client_main full_reads [] (fun lo _ _ => lo) [] (Some (Push note demo_ip "v1" (Some "key"%string))) note_world.

Lemma push_records_witness :
  (pushed.1 <> Done tt -> h_fs (host pushed.2) !! catalog_file home = note_fs !! catalog_file home) /\
  match push_exchanged.1 with
  | Done _ => catalog_read (h_fs (host pushed.2)) (catalog_file home) =
      Ok (catalog_push (fmt_local (h_now (tick (host push_exchanged.2)))) "a.txt" note_id empty_catalog)
  | _ => pushed.2 = push_exchanged.2
  end.
Proof.
  destruct (push_records full_reads [] (fun lo _ _ => lo) [] home note demo_ip "v1" (Some "key"%string) note_world eq_refl)
    as [H1 H2].
  pose proof (H2 csk "key"%string "a.txt"%string note_id empty_catalog note_fs [] 16%nat eq_refl note_ready) as H. clear H2.
  unfold push_exchanged, pushed.
  destruct (upload_client _ _ _ _ _ _ _) as [answer w1]. destruct (client_main _ _ _ _ _ _) as [o w'].
  cbn [fst snd]. split; [exact H1|]. destruct answer; exact (proj2 H).
Defined.

(** The exchange of a rotation, and the command. *)
Definition fresh_key : bytes := next_random 32 (conn client_world).
Definition exchanged : outcome unit * World :=
  auth_client demo_ip csk (verifying_key fresh_key) (Some vk) (on_conn (fun c => set_rng_pos (rng_pos c + 32)%nat c) client_world).
Definition rotated : outcome unit * World :=
  client_main full_reads [] (fun lo _ _ => lo) [] (Some (Key demo_ip true false)) client_world.

Lemma rotation_follows_answer_witness :
  match exchanged.1 with
  | Done _ => pair_at (h_fs (host rotated.2)) (user_root home) fresh_key (vk_to_bytes (verifying_key fresh_key))
  | _ => rotated.1 = exchanged.1 /\ pair_at (h_fs (host rotated.2)) (user_root home) csk (vk_to_bytes vk)
  end.
Proof.
  pose proof (rotation_follows_answer full_reads [] (fun lo _ _ => lo) [] home demo_ip false csk (vk_to_bytes vk) vk client_world
    eq_refl client_fs_wf client_pair (vk_from_to vk)) as H.
  unfold exchanged, rotated, fresh_key. cbv zeta in H.
  destruct (auth_client _ _ _ _ _) as [answer w1]. destruct (client_main _ _ _ _ _ _) as [o w'].
  destruct answer; cbn [fst snd] in *; [exact (proj2 H)|split; [exact (proj1 H)|exact (proj2 (proj2 H))]..].
Defined.
End CliWitness.
